(* ===== verification/_CoqProject ===== *)
-Q . S2P
Prelude.v
Text.v
Float64.v
Types.v
Checksum.v
JournalState.v
JournalInvariants.v
JournalProperties.v
Raft.v
ConfigService.v
Rbac.v
PolicyEngine.v
PolicyService.v
EnrollmentService.v
Heartbeat.v
BootStream.v
Subscription.v
CommitWindow.v
Conflict.v
Drift.v
UidMap.v
Supervisor.v
Mounts.v
Whitelist.v
Shell.v
RateLimiter.v
CertRotation.v
Agent.v
Capability.v
Iam.v
IdentityFiles.v
BootInit.v
AgentStart.v
NodeSetup.v
Federation.v
AuditSink.v
CliText.v
CliCommands.v
CliNodes.v
CliLattice.v
CliMain.v
McpTools.v
Mcp.v
Observer.v
SessionEnv.v
JournalServer.v
Config.v
AgentMain.v
System.v
ShellTask.v
Opa.v
Broadcast.v
ServiceManager.v
AgentLife.v
