(* ===== verification/Prelude.v ===== *)
(** * pact: a verification development

    pact configures and administers the nodes of HPC clusters. A replicated
    journal (crate pact-journal) holds the declared configuration; every
    change goes through Raft, reads and streams are served from the local
    copy. An agent on each node (crate pact-agent) boots from the journal,
    follows its updates, watches for drift and enforces commit windows.
    Authorisation (crate pact-policy) is role based with a two-person rule.
    Shared types live in pact-common; a command line client (pact-cli) and a
    server for AI agents (pact-mcp) are its users' way in. This library models
    these crates as executable Rocq functions over explicit state and proves
    the properties that make them correct.

    ** How the parts interact

    Clients call the gRPC services of the journal (ConfigService,
    PolicyService, EnrollmentService, BootConfigService). A handler reads the
    local state, may write commands through Raft and answers; accepted entries
    are announced on a broadcast channel. The heartbeat monitor writes
    commands of its own. The agent receives its boot configuration as a stream
    of chunks, then subscribes to announcements and dispatches them to its
    drift evaluator and commit window manager; a timer rolls back windows that
    expire. It supervises the node's services, runs commands for remote users
    (which are logged in the journal and may open a commit window), counts the
    users of image mounts and renews its certificate with the journal. The
    command line client and the MCP server call the journal's services and the
    agents' shells, and delegate node operations to other systems after
    recording them in the journal.

    ** Files

    - [Prelude]: results, machine integers, the parts of Rust's strings and
      maps the source uses, tactics and shared lemmas.
    - [Float64]: IEEE 754 binary64 as the source uses it ([f64]).
    - [Types], [Checksum]: crates/pact-common/src/types.rs, with the overlay
      checksum (SipHash-1-3 of the standard library's default hasher).
    - [JournalState]: the Raft state machine, crates/pact-journal/src/raft/
      (types.rs, state.rs): one definition per command, [apply], [apply_log].
    - [JournalInvariants], [JournalProperties]: its invariant, frame lemmas
      and theorems.
    - [Raft]: handlers as trees of reads and writes. [run] executes a handler
      alone; [runs] is the relation of all runs in which other commands are
      applied between any two effects and a write may fail, applied or not.
    - [ConfigService]: service.rs of pact-journal, conversions included.
    - [Rbac], [PolicyEngine]: crates/pact-policy/src/rbac and rules.
    - [PolicyService], [EnrollmentService], [Heartbeat], [BootStream]:
      policy_service.rs, enrollment_service.rs with auth.rs, heartbeat.rs and
      boot_service.rs of pact-journal. [BootStream] also has the agent's side
      of the boot stream (crates/pact-agent/src/boot/mod.rs).
    - [Subscription], [CommitWindow], [Conflict], [Drift], [Agent]: the
      agent's subscription, commit windows with emergency mode and the
      auto-rollback timer, conflict manager, drift evaluator, and the
      application of updates and state deltas.
    - [UidMap]: the mapping of OIDC subjects to POSIX ids of pact-common.
    - [Supervisor], [Mounts]: the agent's process supervisor
      (supervisor/pact_supervisor.rs) and the reference counts of shared image
      mounts with the namespace handoff (handoff/).
    - [Whitelist], [Shell]: the remote shell (shell/): tokens, roles, command
      whitelist and argument check; command execution, sessions, diagnostics
      and the gRPC service over them.
    - [RateLimiter]: the token buckets of the enrollment endpoint
      (rate_limiter.rs of pact-journal), on floats.
    - [CertRotation]: certificate renewal of the agent (cert_rotation.rs)
      against the journal's handler.
    - [Text]: further string functions and lemmas of the parsers and printers.
    - [Capability]: the detectors and the capability report (capability/).
    - [Iam], [Federation]: crates/pact-policy/src/iam and federation.
    - [IdentityFiles]: the identity manager of the agent (identity/) and the
      lookups of the NSS module (crate pact-nss) over its files.
    - [BootInit], [NodeSetup]: first-process initialisation, zombie reaper and
      watchdog (boot/init.rs, boot/watchdog.rs); cgroups, network interfaces
      and the systemd backend (isolation/, network/, supervisor/).
    - [AgentStart], [AuditSink]: enrollment, identity cascade, journal client
      and the boot sequence; the audit buffer.
    - [CliText], [CliCommands], [CliNodes], [CliLattice], [CliMain]: the
      command line client: configuration, formatting and the exports; the
      commands on journal and agents (execute.rs); enrollment, import and
      delegation to OpenCHAMI and CSM (node.rs, delegate.rs, csm.rs,
      openchami.rs); the lattice commands (lattice.rs); options and dispatch
      (main.rs).
    - [McpTools], [Mcp]: the tools and messages of crates/pact-mcp; its
      handlers over the journal and the loop over its input.
    - [Observer]: the inotify, netlink and eBPF observers (observer/mod.rs).
    - [SessionEnv]: environment, link directory and pseudo terminal of shell
      sessions (shell/session.rs).
    - [JournalServer]: the certificate authority (ca.rs), telemetry
      (telemetry.rs) and the start of the journal (main.rs).
    - [Config], [AgentMain]: the configuration files (crates/pact-common/src/
      config.rs) and the agent's main program.
    - [ShellTask]: the task of an interactive session, reads and messages in
      any order, and the client on the other side.
    - [Opa]: the HTTP client of the policy service (rules/opa.rs).
    - [System]: a journal and its agents as a step relation; requests, streams,
      main loops and shells interleave freely.
    - [Broadcast]: an abstract specification of what the journal promises its
      agents, and the simulation by which [System] implements it.
    - [ServiceManager]: the trait of supervisor/mod.rs as a class with laws,
      its two implementations and what follows for both.
    - [AgentLife]: the tasks of a running agent over the state they share, in
      any order, and the shutdown (main.rs of pact-agent).

    ** What the theorems show

    - The journal: every reachable state satisfies [journal_wf] (gapless
      history, verified overlays, capped audit log, unique hardware);
      history is immutable; rejected commands change nothing; replicas agree
      up to the last-seen times; approvals are decided once, by someone else;
      nodes move along the enrollment life cycle only.
    - The services, under any interference: an acknowledged entry is durable
      and announced; policy answers are RBAC decisions and deferrals leave
      one pending approval; a successful enrollment activated the matching
      node, and only once; writes are made for authorised callers only;
      batches account for every node; listings are sound and complete.
    - Authorisation: the access table of the role families, when a request is
      deferred, the two-person rule of the approval workflow, and that an
      approval is never consulted.
    - Streams: the boot stream is received as stored; a subscriber gets every
      entry once and in order; across broken connections the agent misses
      nothing below its position; the reconnect delay is bounded.
    - The system: every run is a run of the abstract broadcast, in which a
      history grows and agents are handed entries of it in order; agents never
      disagree about the history, but what one is passed by it never gets; an
      acknowledged entry can always be handed to every agent whose calls are accepted; a
      request is a sequence of steps ([append_entry_steps]); announcements change no setting
      of an agent, and agents as the program starts them are refused by the
      journal's interceptor.
    - The agent: commit windows last at least a minute for every float input,
      expire on time, never in an emergency, and overdue windows are
      resolved; exactly the unresolved conflicts are paused; blacklist
      patterns and mount descriptions mean what they should; POSIX ids are
      unique and in range.
    - Services and shells: outside of overlapping calls exactly the running
      services have a process; a loop iteration follows the restart policies;
      services start in order, under either manager; a remote command runs exactly for callers who
      may run it, its arguments stay clear of protected paths, and its entry
      is accepted by the journal; the streams of a session carry its input
      and output in order, whatever interleaves; sessions, diagnostics and bursts of
      enrollments are bounded; reference counts are the number of users;
      certificate renewal is all or nothing and agrees with the journal.
    - A running agent: only its timer closes a commit window, at or after the
      deadline and never in observe mode; it supervises no process, since
      nothing starts one.
    - Starting up: the boot sequence fails only for a first process that
      cannot mount its file systems; a start fails over its configuration
      before it touches the machine; an agent without a secret refuses every
      command; the reaper terminates; the identity files are replaced
      atomically and the NSS module resolves what they hold; a certificate
      names the enrolling node and holds the key of its request; only the Raft
      transport and the enrollment service are open without a bearer token.
    - Users' programs: which exit codes the client ends with; what [pact
      apply] leaves in the journal when it stops half-way; imports account
      for every node; exported text is read back; the MCP server answers
      every line and never starts an emergency.
    - Text formats: processor lists, unit files, mounts, peers, TOML sections
      and wire messages survive a round trip; reports are well typed for every
      answer of the host; no principal can put a character with a meaning to
      the shell into the audit command of a session.
    - Some theorems pin down behaviour that is likely not intended, such as
      [decommission_undone_by_heartbeat], [node_scope_skips_two_person],
      [departed_members_stay], [overtaken_update_dropped],
      [truncated_stream_accepted], [single_star_panics],
      [status_hides_crash], [racing_restart_orphans],
      [option_paths_unchecked], [extend_window_unauthenticated],
      [renewal_needs_fixed_token], [failed_check_strands_agent],
      [shipped_configurations_refused], [certificate_ignores_lifetime],
      [loaded_ca_ignores_certificate], [shell_always_panics],
      [approval_under_fixed_name], [import_misreads_refusals],
      [delegation_unaudited], [mcp_apply_changes_nothing],
      [notifications_refused], [started_agents_cut_off],
      [close_kills_shell_iff], [interactive_session_never_ends],
      [missed_entry_lost], [window_closed_iff_due], [agent_runs_no_service]
      and [approval_authorises_nothing].

    ** Conventions and bounds

    Unsigned machine integers are [N] with [wrap_u32] and [wrap_u64] where the
    source adds or multiplies them; theorems that need it assume that counters
    stay below their width. Times are nanoseconds since the epoch ([DateTime],
    in [Z]); every clock reading and generated identifier is a parameter.
    Strings are byte strings; lower-casing and trimming treat ASCII. Hash maps
    are [gmap]s and theorems about iteration do not depend on its order;
    ordered maps iterate by ascending key ([btree_iter]). Errors are values of
    [result] or [option]; a panic of the source is [None] where a definition
    says so. Recursion is structural, except for [chunks_fuel], [replace_fuel]
    and the checksum loop, whose fuel is the length of the data and is never
    short ([chunks_fuel_concat]): each step consumes at least one byte; and
    for the printing of numbers in hexadecimal, where the fuel is the number
    of digits of the type ([Str.hex_loop], [hex_digits]). Loops that end only
    with the process (tasks of the observers, supervision, subscription) run
    over the list of what they meet, turn by turn.

    ** Parameters

    Code outside the repository appears as arguments or classes: chrono's
    parsing, printing and timestamps ([Chrono], [ChronoTimestamp]), JSON
    ([EntryJson], [PayloadJson]), zstd ([Zstd]), processes and cgroups
    ([ProcessApi] with [ProcessLaws]), JWT decoding ([JwtApi]), HTTP
    requests, the certificate library ([Rcgen] with [RcgenLaws]), regular
    expressions, files and host tools ([Host], [InitOs]), network
    connections, HTTP, the lattice services, terminal and environment of the
    client ([CliEnv]), JSON text ([JsonText]) and TOML text. Each class with
    laws has an instance next to the theorems that use it.

    ** Not modelled

    The consensus algorithm (openraft) and its storage, TLS and the transport
    of gRPC; the parsing of command line arguments, JSON and TOML text; the
    text of metrics (a library prints the gauges); the system calls below the
    interfaces named above. Logging is left out. The test crates (pact-e2e,
    pact-acceptance, pact-test-harness) are not part of the program. *)

From stdpp Require Export base tactics list gmap sets strings sorting pretty.
From stdpp Require Import options.
From Stdlib Require Import Ascii.

(** ** Fallible results

    Rust's [Result<A, E>]; the question-mark operator is [let?]. *)

Inductive result (A E : Type) : Type :=
| Ok (a : A)
| Err (e : E).
Arguments Ok {_ _} _.
Arguments Err {_ _} _.

Declare Scope pact_scope.
Delimit Scope pact_scope with pact.
Notation "'let?' x ':=' e 'in' k" :=
  (match e with Ok x => k | Err err => Err err end)
  (at level 10, x pattern, e at level 200, k at level 200) : pact_scope.
Open Scope pact_scope.

#[export] Instance result_eq_dec {A E} `{EqDecision A, EqDecision E} :
  EqDecision (result A E).
Proof. solve_decision. Defined.

Definition is_ok {A E} (r : result A E) : bool :=
  match r with Ok _ => true | Err _ => false end.

(** [Option::ok_or]. *)
Definition ok_or {A E} (o : option A) (e : E) : result A E :=
  match o with Some a => Ok a | None => Err e end.

(** ** Machine integers

    Unsigned integers are [N]; the additions of the source are compiled
    with wrap-around in release builds, which is written out. *)

Definition u16_max : N := 65535.
Definition u32_max : N := 4294967295.
Definition u64_max : N := 18446744073709551615.
Definition wrap_u32 (n : N) : N := (n `mod` 4294967296)%N.
Definition wrap_u64 (n : N) : N := (n `mod` 18446744073709551616)%N.

(** ** Strings

    A Rust [str] is the list of its UTF-8 bytes. Case mapping and white
    space are the ASCII ones. *)

Module Str.

Fixpoint strip_prefix (p s : string) : option string :=
  match p, s with
  | EmptyString, _ => Some s
  | String a p', String b s' => if decide (a = b) then strip_prefix p' s' else None
  | String _ _, EmptyString => None
  end.

Definition starts_with (s p : string) : bool :=
  match strip_prefix p s with Some _ => true | None => false end.

Fixpoint contains (s needle : string) : bool :=
  starts_with s needle ||
  match s with EmptyString => false | String _ s' => contains s' needle end.

Fixpoint strip_suffix (sfx s : string) : option string :=
  if decide (s = sfx) then Some EmptyString else
  match s with
  | EmptyString => None
  | String a s' => String a <$> strip_suffix sfx s'
  end.

Definition is_empty (s : string) : bool :=
  match s with EmptyString => true | String _ _ => false end.

Definition contains_char (s : string) (c : ascii) : bool :=
  contains s (String c EmptyString).

(** [str::split(c)]: the pieces between occurrences of [c]; the empty
    string has one piece. *)
Fixpoint split (c : ascii) (s : string) : list string :=
  match s with
  | EmptyString => [EmptyString]
  | String a s' =>
      if decide (a = c) then EmptyString :: split c s'
      else match split c s' with
           | [] => [String a EmptyString]
           | p :: ps => String a p :: ps
           end
  end.

Fixpoint join (sep : string) (l : list string) : string :=
  match l with
  | [] => EmptyString
  | [s] => s
  | s :: l' => s +:+ sep +:+ join sep l'
  end.

Definition lower_ascii (a : ascii) : ascii :=
  let n := nat_of_ascii a in
  if decide (65 ≤ n ∧ n ≤ 90) then ascii_of_nat (n + 32) else a.

Fixpoint to_lowercase (s : string) : string :=
  match s with
  | EmptyString => EmptyString
  | String a s' => String (lower_ascii a) (to_lowercase s')
  end.

Definition is_whitespace (a : ascii) : bool :=
  match a with
  | "009" | "010" | "011" | "012" | "013" | " " => true
  | _ => false
  end%char.

Fixpoint trim_start (s : string) : string :=
  match s with
  | EmptyString => EmptyString
  | String a s' => if is_whitespace a then trim_start s' else s
  end.

Fixpoint trim_end (s : string) : string :=
  match s with
  | EmptyString => EmptyString
  | String a s' =>
      match trim_end s' with
      | EmptyString => if is_whitespace a then EmptyString else String a EmptyString
      | t => String a t
      end
  end.

Definition trim (s : string) : string := trim_end (trim_start s).

Definition digit (a : ascii) : option N :=
  let n := N_of_ascii a in
  if decide (48 ≤ n ∧ n ≤ 57)%N then Some (n - 48)%N else None.

Fixpoint parse_digits (acc : N) (s : string) : option N :=
  match s with
  | EmptyString => Some acc
  | String a s' => d ← digit a; parse_digits (acc * 10 + d) s'
  end.

(** [str::parse] at an unsigned type with largest value [max]: an optional
    plus sign, at least one digit, and no overflow. *)
Definition parse_unsigned (max : N) (s : string) : option N :=
  let body := match s with String "+"%char s' => s' | _ => s end in
  match body with
  | EmptyString => None
  | _ => n ← parse_digits 0 body; if decide (n ≤ max)%N then Some n else None
  end.

Definition hex_digit (n : N) : ascii :=
  if decide (n < 10)%N then ascii_of_N (48 + n) else ascii_of_N (87 + n).

Fixpoint hex_loop (fuel : nat) (n : N) (acc : string) : string :=
  match fuel with
  | O => acc
  | S fuel' =>
      let acc' := String (hex_digit (n `mod` 16)) acc in
      if decide (n < 16)%N then acc' else hex_loop fuel' (n `div` 16) acc'
  end.

(** [format!("{:x}", n)] of a [u64]: sixteen digits are enough. *)
Definition format_hex (n : N) : string := hex_loop 16 n EmptyString.

End Str.

(** ** Ordered maps

    A [BTreeMap] keyed by machine integers is a finite map; its iteration
    order is the ascending order of the keys. *)

Definition key_le {A} (p q : N * A) : Prop := (p.1 <= q.1)%N.
#[export] Instance key_le_dec {A} : RelDecision (@key_le A).
Proof. intros p q. unfold key_le. apply _. Defined.

Definition btree_iter {A} (m : gmap N A) : list (N * A) :=
  merge_sort key_le (map_to_list m).

Definition btree_values {A} (m : gmap N A) : list A := (btree_iter m).*2.

(** [BTreeMap::range(lo..=hi)]. *)
Definition btree_range {A} (lo hi : N) (m : gmap N A) : list (N * A) :=
  filter (λ p, (lo <= p.1)%N ∧ (p.1 <= hi)%N) (btree_iter m).

(** Iteration over the values of a [HashMap]. The order is unspecified in
    Rust; the model fixes one, and statements about it use membership or
    permutations only. *)
Definition hash_values {K A} `{Countable K} (m : gmap K A) : list A :=
  (map_to_list m).*2.

(** The first [n] elements, counting in [N]. *)
Fixpoint takeN {A} (n : N) (l : list A) : list A :=
  match l with
  | [] => []
  | x :: l' => if decide (n = 0%N) then [] else x :: takeN (n - 1) l'
  end.

(** ** Automation *)

Create HintDb pact.
Create Rewrite HintDb pact.

(** Opens conjunctions and existentials of the context. *)
Ltac deex :=
  repeat match goal with
  | H : ∃ _, _ |- _ => destruct H
  | H : _ ∧ _ |- _ => destruct H
  end.

(** Case analysis on every match or [decide] of the goal or a hypothesis. *)
Ltac case_all :=
  repeat (case_decide || case_match || simplify_eq).

(** Case analysis of a lookup in an updated map. *)
Ltac lookup_cases :=
  repeat match goal with
  | H : context [<[?i := _]> _ !! ?j] |- _ =>
      rewrite lookup_insert in H; case_decide; simplify_eq
  | |- context [<[?i := _]> _ !! ?j] =>
      rewrite lookup_insert; case_decide; simplify_eq
  | H : context [delete ?i _ !! ?j] |- _ =>
      rewrite lookup_delete in H; case_decide; simplify_eq
  | |- context [delete ?i _ !! ?j] =>
      rewrite lookup_delete; case_decide; simplify_eq
  end.

(** ** Lemmas on strings *)

Section strings.
Implicit Types s p r : string.

Lemma append_nil_r s : s +:+ "" = s.
Proof. induction s as [|a s IH]; [done|]. change (String a (s +:+ "") = String a s). by rewrite IH. Qed.

Lemma length_append s p : String.length (s +:+ p) = String.length s + String.length p.
Proof. induction s as [|a s IH]; simpl; [done|]. by rewrite IH. Qed.

Lemma trim_start_length s : String.length (Str.trim_start s) <= String.length s.
Proof. induction s as [|a s IH]; simpl; [done|]. destruct (Str.is_whitespace a); simpl; lia. Qed.

Lemma append_assoc s p r : (s +:+ p) +:+ r = s +:+ (p +:+ r).
Proof.
  induction s as [|a s IH]; [done|].
  change (String a ((s +:+ p) +:+ r) = String a (s +:+ p +:+ r)). by rewrite IH.
Qed.

Lemma strip_prefix_Some p s r : Str.strip_prefix p s = Some r ↔ s = p +:+ r.
Proof.
  revert s; induction p as [|a p IH]; intros s; [simpl; naive_solver|].
  change (String a p +:+ r) with (String a (p +:+ r)).
  destruct s as [|b s]; simpl; [naive_solver|].
  case_decide; [|naive_solver]. subst. rewrite IH. naive_solver.
Qed.

Lemma starts_with_true s p : Str.starts_with s p = true ↔ ∃ r, s = p +:+ r.
Proof.
  unfold Str.starts_with. destruct (Str.strip_prefix p s) as [r|] eqn:E.
  - apply strip_prefix_Some in E. naive_solver.
  - split; [done|]. intros [r Hr]. apply strip_prefix_Some in Hr. congruence.
Qed.

Lemma starts_with_append p r : Str.starts_with (p +:+ r) p = true.
Proof. apply starts_with_true. eauto. Qed.

Lemma contains_true s p : Str.contains s p = true ↔ ∃ l r, s = l +:+ p +:+ r.
Proof.
  induction s as [|a s IH]; simpl.
  - rewrite orb_false_r, starts_with_true. split.
    + intros [r Hr]. exists "", r. done.
    + intros (l & r & H). destruct l; [|done]. by exists r.
  - rewrite orb_true_iff, starts_with_true, IH. split.
    + intros [[r Hr]|(l & r & ->)].
      * exists "", r. done.
      * exists (String a l), r. done.
    + intros ([|b l] & r & H).
      * left. by exists r.
      * right. exists l, r. by injection H.
Qed.

Lemma strip_suffix_Some x s r : Str.strip_suffix x s = Some r → s = r +:+ x.
Proof.
  revert r. induction s as [|a s IH]; intros r; simpl.
  - case_decide; naive_solver.
  - case_decide; [naive_solver|]. destruct (Str.strip_suffix x s) as [t|]; simpl; [|done].
    intros [= <-]. change (String a s = String a (t +:+ x)). f_equal. by apply IH.
Qed.

Lemma strip_suffix_unfold x s :
  Str.strip_suffix x s = if decide (s = x) then Some "" else
    match s with EmptyString => None | String a s' => String a <$> Str.strip_suffix x s' end.
Proof. by destruct s. Qed.

Lemma strip_suffix_append x r : Str.strip_suffix x (r +:+ x) = Some r.
Proof.
  induction r as [|a r IH]; rewrite strip_suffix_unfold.
  - by rewrite decide_True.
  - rewrite decide_False; [by simpl; rewrite IH|].
    intros Hx. apply (f_equal String.length) in Hx. simpl in Hx. rewrite length_append in Hx. lia.
Qed.

Lemma append_inj_l p r1 r2 : p +:+ r1 = p +:+ r2 → r1 = r2.
Proof. induction p as [|a p IH]; [done|]. intros H. injection H. apply IH. Qed.

End strings.

(** ** Lemmas on ordered maps *)

Section btree.
Context {A : Type}.
Implicit Types (m : gmap N A) (k : N) (x : A).

Lemma btree_iter_perm m : btree_iter m ≡ₚ map_to_list m.
Proof. apply merge_sort_Permutation. Qed.

#[local] Instance key_le_total : Total (@key_le A).
Proof. intros p q. unfold key_le. lia. Qed.
#[local] Instance key_le_trans : Transitive (@key_le A).
Proof. intros p q r. unfold key_le. lia. Qed.

Lemma btree_iter_sorted m : StronglySorted key_le (btree_iter m).
Proof. apply (StronglySorted_merge_sort _ _). Qed.

Lemma elem_of_btree_iter m k x : (k, x) ∈ btree_iter m ↔ m !! k = Some x.
Proof. rewrite (btree_iter_perm m). apply elem_of_map_to_list. Qed.

Lemma btree_iter_keys_nodup m : NoDup (btree_iter m).*1.
Proof. rewrite (btree_iter_perm m). apply NoDup_fst_map_to_list. Qed.

Lemma elem_of_btree_values m x : x ∈ btree_values m ↔ ∃ k, m !! k = Some x.
Proof.
  unfold btree_values. rewrite list_elem_of_fmap. split.
  - intros ([k y] & -> & H). exists k. by apply elem_of_btree_iter.
  - intros [k H]. exists (k, x). by rewrite elem_of_btree_iter.
Qed.

Lemma elem_of_btree_range lo hi m k x :
  (k, x) ∈ btree_range lo hi m ↔ m !! k = Some x ∧ (lo <= k <= hi)%N.
Proof. unfold btree_range. rewrite list_elem_of_filter, elem_of_btree_iter. naive_solver. Qed.

End btree.

(** Sorted lists. *)

Lemma StronglySorted_filter {A} (R : relation A) (P : A → Prop) `{∀ x, Decision (P x)} l :
  StronglySorted R l → StronglySorted R (filter P l).
Proof.
  induction 1 as [|x l Hs IH Hf]; [constructor|]. rewrite filter_cons. case_decide; [|done].
  constructor; [done|]. rewrite Forall_forall in *. intros y [_ Hy]%list_elem_of_filter. auto.
Qed.

Lemma StronglySorted_take {A} (R : relation A) n l :
  StronglySorted R l → StronglySorted R (take n l).
Proof.
  intros Hs. revert n. induction Hs as [|x l Hs IH Hf]; intros [|n]; simpl; constructor; [done|].
  rewrite Forall_forall in *. intros y Hy. apply Hf. rewrite <- (take_drop n l). set_solver.
Qed.

Lemma filter_all {A} (P : A → Prop) `{∀ x, Decision (P x)} l : Forall P l → filter P l = l.
Proof. induction 1 as [|x l Hx _ IH]; [done|]. rewrite filter_cons, decide_True by done. by f_equal. Qed.

Lemma StronglySorted_fmap {A B} (R : relation A) (S : relation B) (f : A → B) l :
  (∀ x y, R x y → S (f x) (f y)) → StronglySorted R l → StronglySorted S (f <$> l).
Proof.
  intros Hf. induction 1 as [|x l Hs IH Hx]; csimpl; constructor; [done|].
  apply Forall_fmap. eapply Forall_impl; [exact Hx|]. intros y. apply Hf.
Qed.

Lemma StronglySorted_app_inter {A} (R : relation A) l1 l2 :
  StronglySorted R l1 → StronglySorted R l2 → (∀ x y, x ∈ l1 → y ∈ l2 → R x y) →
  StronglySorted R (l1 ++ l2).
Proof.
  induction 1 as [|x l1 Hs IH Hx]; intros H2 H12; simpl; [done|]. constructor.
  - apply IH; [done|]. intros y z Hy Hz. apply H12; [by right|done].
  - apply Forall_app. split; [done|]. apply Forall_forall. intros z Hz. apply H12; [left|done].
Qed.

Lemma StronglySorted_app_lt {A} (R : relation A) l1 l2 :
  StronglySorted R (l1 ++ l2) → ∀ x y, x ∈ l1 → y ∈ l2 → R x y.
Proof.
  induction l1 as [|z l1 IH]; simpl; intros Hs x y Hx Hy; [by apply not_elem_of_nil in Hx|].
  inversion_clear Hs as [|? ? Hs' Hz]. rewrite Forall_forall in Hz.
  apply elem_of_cons in Hx as [->|Hx]; [apply Hz, elem_of_app; by right|by eapply IH].
Qed.

(** A strictly sorted list is determined by its elements. *)
Lemma StronglySorted_unique_elems {A} (R : relation A) `{!StrictOrder R} l1 l2 :
  StronglySorted R l1 → StronglySorted R l2 → (∀ x, x ∈ l1 ↔ x ∈ l2) → l1 = l2.
Proof.
  intros H1. revert l2. induction H1 as [|x l1 H1 IH Hx]; intros l2 H2 Heq.
  { destruct l2 as [|y l2]; [done|]. exfalso. by apply (not_elem_of_nil y), Heq; left. }
  destruct H2 as [|y l2 H2 Hy]; [exfalso; by apply (not_elem_of_nil x), Heq; left|].
  rewrite Forall_forall in Hx, Hy.
  assert (x = y) as ->.
  { pose proof (proj1 (Heq x) ltac:(left)) as Hin. apply elem_of_cons in Hin as [?|Hin]; [done|].
    pose proof (proj2 (Heq y) ltac:(left)) as Hin'. apply elem_of_cons in Hin' as [?|Hin']; [done|].
    exfalso. apply (irreflexivity R x). trans y; auto. }
  f_equal. apply IH; [done|]. intros z. split; intros Hz.
  - pose proof (proj1 (Heq z) ltac:(by right)) as Hin. apply elem_of_cons in Hin as [->|?]; [|done].
    exfalso. apply (irreflexivity R y). auto.
  - pose proof (proj2 (Heq z) ltac:(by right)) as Hin. apply elem_of_cons in Hin as [->|?]; [|done].
    exfalso. apply (irreflexivity R y). auto.
Qed.

Lemma StronglySorted_last {A} (R : relation A) l x :
  StronglySorted R l → last l = Some x → ∀ y, y ∈ l → y = x ∨ R y x.
Proof.
  induction 1 as [|z l Hs IH Hz]; [done|]. intros Hl y Hy. destruct l as [|z' l]; [set_solver|].
  apply elem_of_cons in Hy as [->|Hy]; [right|by apply IH].
  rewrite Forall_forall in Hz. apply Hz. by apply last_Some_elem_of.
Qed.

Definition key_lt {A} (p q : N * A) : Prop := (p.1 < q.1)%N.

Lemma btree_iter_strict {A} (m : gmap N A) : StronglySorted key_lt (btree_iter m).
Proof.
  pose proof (btree_iter_sorted m) as Hs. pose proof (btree_iter_keys_nodup m) as Hn.
  induction Hs as [|p l Hs IH Hp]; [constructor|]. csimpl in Hn. apply NoDup_cons in Hn as [Hin Hn].
  constructor; [by apply IH|]. rewrite Forall_forall in *. intros q Hq. specialize (Hp q Hq).
  unfold key_le, key_lt in *. assert (p.1 ≠ q.1); [|lia]. intros Heq. apply Hin. rewrite Heq.
  by apply list_elem_of_fmap_2.
Qed.

Lemma elem_of_hash_values {K A} `{Countable K} (m : gmap K A) x :
  x ∈ hash_values m ↔ ∃ k, m !! k = Some x.
Proof.
  unfold hash_values. rewrite list_elem_of_fmap. split.
  - intros ([k y] & -> & Hk). exists k. by apply elem_of_map_to_list.
  - intros [k Hk]. exists (k, x). by rewrite elem_of_map_to_list.
Qed.

Lemma split_not_nil c s : Str.split c s ≠ [].
Proof. destruct s as [|a s]; simpl; [done|]. case_decide; [done|]. by destruct (Str.split c s). Qed.

(** Splitting at a character and joining with it again changes nothing. *)
Lemma join_split c s : Str.join (String c EmptyString) (Str.split c s) = s.
Proof.
  induction s as [|a s IH]; simpl; [done|]. pose proof (split_not_nil c s).
  case_decide; subst; destruct (Str.split c s) as [|p ps] eqn:E; try done; simpl in *.
  - by rewrite IH.
  - destruct ps; simpl in *; by rewrite <- IH.
Qed.

Lemma takeN_take {A} (n : N) (l : list A) : takeN n l = take (N.to_nat n) l.
Proof.
  revert n. induction l as [|x l IH]; intros n; simpl; [by rewrite take_nil|].
  case_decide as Hn; [subst; reflexivity|]. rewrite IH.
  replace (N.to_nat n) with (S (N.to_nat (n - 1))) by lia. done.
Qed.

(** ** Stable sorting

    [slice::sort_by_key] and [sort]: insertion keeps the order of elements
    that compare equal. *)

Section stable_sort.
Context {A : Type} (le : relation A) `{!RelDecision le}.

Fixpoint insert_by (x : A) (l : list A) : list A :=
  match l with
  | [] => [x]
  | y :: l' => if decide (le x y) then x :: l else y :: insert_by x l'
  end.
Definition sort_by (l : list A) : list A := foldr insert_by [] l.

Lemma insert_by_perm x l : insert_by x l ≡ₚ x :: l.
Proof. induction l as [|y l IH]; simpl; [done|]. case_decide; [done|]. rewrite IH. apply Permutation_swap. Qed.
Lemma sort_by_perm l : sort_by l ≡ₚ l.
Proof. induction l as [|x l IH]; simpl; [done|]. by rewrite insert_by_perm, IH. Qed.
Lemma insert_by_sorted x l :
  Transitive le → (∀ a b, le a b ∨ le b a) → StronglySorted le l → StronglySorted le (insert_by x l).
Proof.
  intros Ht Htot. induction 1 as [|y l Hl IH Hy]; simpl; [by repeat constructor|]. case_decide as Hxy.
  - constructor; [by constructor|]. constructor; [done|]. eapply Forall_impl; [done|]. intros z Hz. by etrans.
  - constructor; [done|]. rewrite insert_by_perm. constructor; [|done]. by destruct (Htot x y).
Qed.
Lemma sort_by_sorted l : Transitive le → (∀ a b, le a b ∨ le b a) → StronglySorted le (sort_by l).
Proof. intros ??. induction l as [|x l IH]; simpl; [constructor|]. by apply insert_by_sorted. Qed.

End stable_sort.

(** Printing a number and parsing it back. *)
Lemma parse_pretty_go n s : Str.parse_digits 0 (pretty_N_go n s) = Str.parse_digits n s.
Proof.
  revert s. induction (N.lt_wf_0 n) as [n _ IH]. intros s.
  destruct (decide (n = 0%N)) as [->|Hn]; [by rewrite pretty_N_go_0|].
  rewrite pretty_N_go_step by lia. rewrite IH by (apply N.div_lt; lia). simpl.
  assert (Hd : Str.digit (pretty_N_char (n `mod` 10)) = Some (n `mod` 10)%N).
  { pose proof (N.mod_lt n 10 ltac:(lia)) as Hm. revert Hm. generalize (n `mod` 10)%N. intros d Hd.
    assert (d ∈ [0;1;2;3;4;5;6;7;8;9]%N) as Hin.
    { rewrite !elem_of_cons. lia. }
    set_unfold in Hin. naive_solver. }
  rewrite Hd. simpl. f_equal. pose proof (N.div_mod n 10). lia.
Qed.

Lemma parse_unsigned_pretty max n : (n <= max)%N → Str.parse_unsigned max (pretty n) = Some n.
Proof.
  intros Hn. assert (Hp : pretty n ≠ "" ∧ Str.parse_digits 0 (pretty n) = Some n ∧
    ∀ c r, pretty n = String c r → c ≠ "+"%char).
  { destruct (decide (n = 0%N)) as [->|Hz]; [split_and!; [done|done|intros c r Hc; injection Hc; by intros _ <-]|].
    unfold pretty, pretty_N. rewrite decide_False by done. rewrite parse_pretty_go. split; [|split; [done|]].
    - intros He. pose proof (parse_pretty_go n "") as Hg. rewrite He in Hg. simpl in Hg. congruence.
    - intros c r He ->. pose proof (parse_pretty_go n "") as Hg. rewrite He in Hg. simpl in Hg. done. }
  destruct Hp as (Hne & Hd & Hplus). unfold Str.parse_unsigned.
  destruct (pretty n) as [|c r] eqn:E; [done|].
  assert ((match String c r with String "+"%char s' => s' | _ => String c r end) = String c r) as ->.
  { specialize (Hplus c r eq_refl). by repeat case_match; simplify_eq. }
  rewrite Hd. simpl. by rewrite decide_True.
Qed.

#[export] Hint Resolve btree_iter_sorted btree_iter_keys_nodup : pact.
