(* ===== verification/Text.v ===== *)
(** * Text helpers

    The functions of Rust's [str] the parsers of the source use beyond those
    of the prelude: lines, fields, cutting at a separator, replacement, signed
    and quoted forms, with the lemmas on printed numbers and fields that the
    parser theorems share. *)

From S2P Require Import Prelude.
From stdpp Require Import options.
From Stdlib Require Import Ascii.

(** The double quote. *)
Definition quote : string := String (ascii_of_N 34) EmptyString.

(** [str::lines]. *)
Definition strip_cr (l : string) : string := default l (Str.strip_suffix (String (ascii_of_N 13) "") l).
Definition str_lines (s : string) : list string :=
  match reverse (Str.split (ascii_of_N 10) s) with
  | [] => []
  | last :: init => let whole := strip_cr <$> reverse init in
                    if Str.is_empty last then whole else whole ++ [last]
  end.

(** [str::replace]: the occurrences of the non-empty [pat] from left to
    right; the string's length is enough fuel. *)
Fixpoint replace_fuel (fuel : nat) (pat by_ s : string) : string :=
  match fuel, s with
  | O, _ => s
  | _, EmptyString => EmptyString
  | S fuel', String a s' =>
      match Str.strip_prefix pat s with
      | Some r => by_ +:+ replace_fuel fuel' pat by_ r
      | None => String a (replace_fuel fuel' pat by_ s')
      end
  end.
Definition replace (pat by_ s : string) : string := replace_fuel (String.length s) pat by_ s.

(** [format!("{:?}")] of an optional string: quotes, backslashes and control
    characters are escaped. *)
Definition escape_char (a : ascii) : string :=
  let c := String a "" in
  match N_of_ascii a with
  | 34 | 92 => "\" +:+ c
  | 0 => "\0" | 9 => "\t" | 10 => "\n" | 13 => "\r"
  | n => if decide (n < 32 ∨ n = 127)%N then "\u{" +:+ Str.format_hex n +:+ "}" else c
  end%N.
Fixpoint escape_debug (s : string) : string :=
  match s with EmptyString => EmptyString | String a s' => escape_char a +:+ escape_debug s' end.
Definition debug_option (o : option string) : string :=
  let q := String (ascii_of_N 34) "" in
  match o with Some s => "Some(" +:+ q +:+ escape_debug s +:+ q +:+ ")" | None => "None" end.

(** [str::split_whitespace]. *)
Fixpoint split_whitespace (s : string) : list string :=
  match s with
  | EmptyString => []
  | String a s' =>
      if Str.is_whitespace a then split_whitespace s'
      else match s' with
           | EmptyString => [String a EmptyString]
           | String b _ =>
               if Str.is_whitespace b then String a EmptyString :: split_whitespace s'
               else match split_whitespace s' with
                    | w :: ws => String a w :: ws
                    | [] => [String a EmptyString]
                    end
           end
  end.

(** [str::split_once(c)]: cut at the first occurrence. *)
Fixpoint split_once (c : ascii) (s : string) : option (string * string) :=
  match s with
  | EmptyString => None
  | String a s' =>
      if decide (a = c) then Some (EmptyString, s')
      else '(p, r) ← split_once c s'; Some (String a p, r)
  end.

(** [str::splitn(n, c)]: at most [n] pieces, the last one uncut. *)
Fixpoint splitn (n : nat) (c : ascii) (s : string) : list string :=
  match n with
  | O => []
  | S O => [s]
  | S n' => match split_once c s with
            | Some (p, r) => p :: splitn n' c r
            | None => [s]
            end
  end.

(** [str::rsplit_once(c)]: cut at the last occurrence. *)
Fixpoint rsplit_once (c : ascii) (s : string) : option (string * string) :=
  match s with
  | EmptyString => None
  | String a s' =>
      match rsplit_once c s' with
      | Some (p, r) => Some (String a p, r)
      | None => if decide (a = c) then Some (EmptyString, s') else None
      end
  end.

(** [str::parse] at a signed type of magnitude [2^bits]. *)
Definition parse_signed (bits : N) (s : string) : option Z :=
  match s with
  | String "-"%char EmptyString => None
  | String "-"%char r =>
      n ← Str.parse_digits 0 r; if decide (n <= 2 ^ bits)%N then Some (- Z.of_N n)%Z else None
  | _ => Z.of_N <$> Str.parse_unsigned (2 ^ bits - 1) s
  end.

Definition eq_ignore_ascii_case (s p : string) : bool :=
  bool_decide (Str.to_lowercase s = Str.to_lowercase p).

(** ** Numbers and fields *)

Fixpoint no_space (s : string) : bool :=
  match s with "" => true | String a s' => negb (Str.is_whitespace a) && no_space s' end.

Lemma no_space_trim s : no_space s = true → Str.trim s = s.
Proof.
  assert (He : no_space s = true → Str.trim_end s = s).
  { induction s as [|a s IH]; simpl; [done|]. intros [Ha%negb_true_iff Hs]%andb_true_iff.
    rewrite IH, Ha by done. by destruct s. }
  intros Hs. unfold Str.trim. rewrite <-(He Hs) at 2. f_equal. destruct s as [|a s]; [done|]. simpl in *.
  apply andb_true_iff in Hs as [->%negb_true_iff _]. done.
Qed.
Lemma no_space_append s p : no_space (s +:+ p) = no_space s && no_space p.
Proof. induction s as [|a s IH]; simpl; [done|]. change (String.append s p) with (s +:+ p). by rewrite IH, andb_assoc. Qed.

Lemma digit_no_space a d : Str.digit a = Some d → Str.is_whitespace a = false.
Proof.
  unfold Str.digit. case_decide as Ha; [|done]. intros _.
  destruct a as [[] [] [] [] [] [] [] []]; vm_compute in Ha; try reflexivity; by destruct Ha.
Qed.
Lemma parse_digits_no_space s acc n : Str.parse_digits acc s = Some n → no_space s = true.
Proof.
  revert acc. induction s as [|a s IH]; simpl; intros acc H; [done|].
  destruct (Str.digit a) as [d|] eqn:Ha; simpl in H; [|done]. by rewrite (digit_no_space _ _ Ha), (IH _ H).
Qed.
Lemma parse_digits_last acc r a n : Str.parse_digits acc (r +:+ String a "") = Some n → is_Some (Str.digit a).
Proof.
  revert acc. induction r as [|b r IH]; simpl; intros acc H.
  - destruct (Str.digit a); [by eexists|done].
  - destruct (Str.digit b) as [d|]; simpl in H; [|done]. by eapply IH.
Qed.
Lemma last_char_eq p r a b : p +:+ String a "" = r +:+ String b "" → a = b.
Proof.
  revert r. induction p as [|x p IH]; intros [|y r] H.
  - by injection H.
  - injection H as _ H. by destruct r.
  - injection H as _ H. by destruct p.
  - injection H as _ H. by eapply IH.
Qed.

Lemma strip_other_unit a b p : a ≠ b → Str.strip_suffix (String b "") (p +:+ String a "") = None.
Proof.
  intros Hab. destruct (Str.strip_suffix _ _) as [r|] eqn:H; [|done].
  apply strip_suffix_Some in H. by apply last_char_eq in H.
Qed.

Lemma pretty_digits (v : N) : Str.parse_digits 0 (pretty v) = Some v.
Proof.
  pose proof (parse_unsigned_pretty v v ltac:(lia)) as H. unfold Str.parse_unsigned in H.
  destruct (decide (v = 0%N)) as [->|Hz]; [done|].
  unfold pretty, pretty_N. rewrite decide_False by done. by rewrite parse_pretty_go.
Qed.

Lemma strip_unit_number b (v : N) : Str.digit b = None → Str.strip_suffix (String b "") (pretty v) = None.
Proof.
  intros Hb. destruct (Str.strip_suffix _ _) as [r|] eqn:H; [|done]. apply strip_suffix_Some in H.
  pose proof (pretty_digits v) as Hv. rewrite H in Hv. apply parse_digits_last in Hv as [? ?]. congruence.
Qed.

(** ** Fields *)

Lemma split_whitespace_spaces a s : Str.is_whitespace a = true → split_whitespace (String a s) = split_whitespace s.
Proof. by intros H; simpl; rewrite H. Qed.

Lemma append_cons a s p : String a s +:+ p = String a (s +:+ p).
Proof. done. Qed.

Lemma split_whitespace_step b c s :
  Str.is_whitespace b = false → Str.is_whitespace c = false →
  split_whitespace (String b (String c s)) =
    match split_whitespace (String c s) with w :: ws => String b w :: ws | [] => [String b ""] end.
Proof. intros Hb Hc. cbn [split_whitespace]. by rewrite Hb, Hc. Qed.

(** A word followed by white space is a field of its own. *)
Lemma split_whitespace_word w a s :
  w ≠ "" → no_space w = true → Str.is_whitespace a = true →
  split_whitespace (w +:+ String a s) = w :: split_whitespace s.
Proof.
  intros Hw Hn Ha. induction w as [|b w IH]; [done|]. simpl in Hn.
  apply andb_true_iff in Hn as [Hb%negb_true_iff Hn]. destruct w as [|c w].
  - rewrite append_cons. change ("" +:+ String a s) with (String a s). cbn [split_whitespace]. by rewrite Hb, Ha.
  - specialize (IH ltac:(done) Hn). simpl in Hn. apply andb_true_iff in Hn as [Hc%negb_true_iff Hn].
    rewrite !append_cons in *. by rewrite split_whitespace_step, IH.
Qed.

Lemma split_whitespace_last w : w ≠ "" → no_space w = true → split_whitespace w = [w].
Proof.
  intros Hw Hn. induction w as [|b w IH]; [done|]. simpl in Hn.
  apply andb_true_iff in Hn as [Hb%negb_true_iff Hn]. destruct w as [|c w]; [by simpl; rewrite Hb|].
  specialize (IH ltac:(done) Hn). simpl in Hn. apply andb_true_iff in Hn as [Hc%negb_true_iff Hn].
  by rewrite split_whitespace_step, IH.
Qed.

(** [k] blanks. *)
Fixpoint blanks (k : nat) : string := match k with O => "" | S k' => String " " (blanks k') end.

Lemma split_whitespace_blanks k s : split_whitespace (blanks k +:+ s) = split_whitespace s.
Proof. by induction k. Qed.

(** Whether a character occurs in a string. *)
Fixpoint char_free (c : ascii) (s : string) : bool :=
  match s with EmptyString => true | String a s' => negb (bool_decide (a = c)) && char_free c s' end.

Lemma char_free_append c s p : char_free c (s +:+ p) = char_free c s && char_free c p.
Proof. induction s as [|a s IH]; simpl; [done|]. change (String.append s p) with (s +:+ p). by rewrite IH, andb_assoc. Qed.

Lemma parse_digits_char_free c s acc n :
  Str.digit c = None → Str.parse_digits acc s = Some n → char_free c s = true.
Proof.
  intros Hc. revert acc. induction s as [|a s IH]; simpl; intros acc H; [done|].
  destruct (Str.digit a) as [d|] eqn:Ha; simpl in H; [|done].
  rewrite (IH _ H), andb_true_r, negb_true_iff, bool_decide_eq_false. congruence.
Qed.
Lemma pretty_char_free c (v : N) : Str.digit c = None → char_free c (pretty v) = true.
Proof. intros Hc. by eapply parse_digits_char_free, pretty_digits. Qed.
Lemma pretty_no_space (v : N) : no_space (pretty v) = true.
Proof. by eapply parse_digits_no_space, pretty_digits. Qed.
Lemma pretty_nonempty (v : N) : pretty v ≠ "".
Proof. intros H. pose proof (parse_unsigned_pretty v v ltac:(lia)) as Hp. by rewrite H in Hp. Qed.

Lemma split_once_found c p r : char_free c p = true → split_once c (p +:+ String c r) = Some (p, r).
Proof.
  induction p as [|a p IH]; simpl; [by rewrite decide_True|].
  intros [Ha%negb_true_iff%bool_decide_eq_false Hp]%andb_true_iff. rewrite decide_False by done.
  change (String.append p (String c r)) with (p +:+ String c r). by rewrite IH.
Qed.
Lemma split_once_absent c s : char_free c s = true → split_once c s = None.
Proof.
  induction s as [|a s IH]; simpl; [done|].
  intros [Ha%negb_true_iff%bool_decide_eq_false Hp]%andb_true_iff. rewrite decide_False by done. by rewrite IH.
Qed.
Lemma split_once_Some c s p r : split_once c s = Some (p, r) → s = p +:+ String c r ∧ char_free c p = true.
Proof.
  revert p. induction s as [|a s IH]; simpl; intros p H; [done|]. case_decide as Ha.
  - simplify_eq. done.
  - destruct (split_once c s) as [[p' r']|] eqn:E; simplify_eq/=. destruct (IH p' eq_refl) as [-> Hf].
    split; [done|]. by rewrite Hf, bool_decide_eq_false_2.
Qed.

Lemma rsplit_once_absent c s : char_free c s = true → rsplit_once c s = None.
Proof.
  induction s as [|a s IH]; simpl; [done|].
  intros [Ha%negb_true_iff%bool_decide_eq_false Hp]%andb_true_iff. by rewrite IH, decide_False.
Qed.
Lemma rsplit_once_found c p r : char_free c r = true → rsplit_once c (p +:+ String c r) = Some (p, r).
Proof.
  intros Hr. induction p as [|a p IH]; simpl; [by rewrite rsplit_once_absent, decide_True|].
  change (String.append p (String c r)) with (p +:+ String c r). by rewrite IH.
Qed.
Lemma splitn_cons n c p r :
  char_free c p = true → splitn (S (S n)) c (p +:+ String c r) = p :: splitn (S n) c r.
Proof. intros Hp. cbn [splitn]. by rewrite split_once_found. Qed.

Lemma split_char_free c s : char_free c s = true → Str.split c s = [s].
Proof.
  induction s as [|a s IH]; simpl; [done|].
  intros [Ha%negb_true_iff%bool_decide_eq_false Hp]%andb_true_iff. rewrite decide_False by done. by rewrite IH.
Qed.
Lemma split_cons c p r : char_free c p = true → Str.split c (p +:+ String c r) = p :: Str.split c r.
Proof.
  induction p as [|a p IH]; simpl; [by rewrite decide_True|].
  intros [Ha%negb_true_iff%bool_decide_eq_false Hp]%andb_true_iff. rewrite decide_False by done.
  change (String.append p (String c r)) with (p +:+ String c r). by rewrite IH.
Qed.

(** Joining pieces free of the separator and splitting them again. *)
Lemma split_join c l :
  l ≠ [] → Forall (λ s, char_free c s = true) l → Str.split c (Str.join (String c "") l) = l.
Proof.
  intros Hl Hf. induction Hf as [|s l Hs Hf IH]; [done|]. destruct l as [|s' l].
  - by apply split_char_free.
  - change (Str.join (String c "") (s :: s' :: l)) with (s +:+ String c (Str.join (String c "") (s' :: l))).
    rewrite split_cons by done. by rewrite IH.
Qed.

Lemma join_is_empty sep s l : s ≠ "" → Str.is_empty (Str.join sep (s :: l)) = false.
Proof. intros Hs. destruct s as [|a s]; [done|]. by destruct l. Qed.

(** A text of lines ended by line feeds. *)
Definition newline : ascii := ascii_of_N 10.
Definition unlines (l : list string) : string :=
  foldr (λ s t, s +:+ String newline t) "" l.

Definition plain_line (s : string) : Prop :=
  char_free newline s = true ∧ char_free (ascii_of_N 13) s = true.
#[export] Instance plain_line_dec s : Decision (plain_line s).
Proof. apply _. Defined.

Lemma no_space_plain s : no_space s = true → plain_line s.
Proof.
  intros H. split; induction s as [|a s IH]; simpl in *; try done;
    apply andb_true_iff in H as [Ha%negb_true_iff Hs]; rewrite IH by done; rewrite andb_true_r, negb_true_iff, bool_decide_eq_false;
    intros ->; by vm_compute in Ha.
Qed.
Lemma plain_line_append s p : plain_line s → plain_line p → plain_line (s +:+ p).
Proof. unfold plain_line. rewrite !char_free_append. by intros [-> ->] [-> ->]. Qed.

Lemma split_unlines l :
  Forall plain_line l → Str.split newline (unlines l) = l ++ [""].
Proof.
  induction 1 as [|s l [Hs _] Hl IH]; [done|]. change (unlines (s :: l)) with (s +:+ String newline (unlines l)).
  by rewrite split_cons, IH.
Qed.
Lemma strip_cr_plain s : plain_line s → strip_cr s = s.
Proof.
  intros [_ Hs]. unfold strip_cr. destruct (Str.strip_suffix _ s) as [r|] eqn:E; [|done].
  apply strip_suffix_Some in E. rewrite E, char_free_append in Hs. simpl in Hs. by rewrite andb_false_r in Hs.
Qed.
Lemma str_lines_unlines l : Forall plain_line l → str_lines (unlines l) = l.
Proof.
  intros Hl. unfold str_lines. change (ascii_of_N 10) with newline. rewrite split_unlines by done.
  rewrite reverse_app. simpl. rewrite reverse_involutive. clear -Hl.
  induction Hl as [|s l Hs Hl IH]; [done|]. rewrite fmap_cons. by rewrite strip_cr_plain, IH.
Qed.
Lemma unlines_cons s l : unlines (s :: l) = s +:+ String newline (unlines l).
Proof. done. Qed.
Lemma unlines_app l1 l2 : unlines (l1 ++ l2) = unlines l1 +:+ unlines l2.
Proof.
  induction l1 as [|s l1 IH]; [done|]. change (unlines ((s :: l1) ++ l2)) with (s +:+ String newline (unlines (l1 ++ l2))).
  rewrite IH. by change (unlines (s :: l1)) with (s +:+ String newline (unlines l1)); rewrite append_assoc.
Qed.

Lemma trim_start_no_space s p : s ≠ "" → no_space s = true → Str.trim_start (s +:+ p) = s +:+ p.
Proof. destruct s as [|a s]; [done|]. simpl. by intros _ [->%negb_true_iff _]%andb_true_iff. Qed.

#[export] Hint Resolve pretty_no_space pretty_nonempty : pact.

(** Trimming a text that begins or ends with one that is already trimmed. *)
Lemma trim_end_append s p : Str.trim_end p ≠ "" → Str.trim_end (s +:+ p) = s +:+ Str.trim_end p.
Proof.
  intros Hp. induction s as [|a s IH]; [done|]. rewrite append_cons. simpl. rewrite IH.
  destruct s as [|b s]; simpl; [|done]. by destruct (Str.trim_end p).
Qed.
Lemma trim_start_append s p : Str.trim_start s = s → s ≠ "" → Str.trim_start (s +:+ p) = s +:+ p.
Proof.
  destruct s as [|a s]; [done|]. intros H _. rewrite append_cons. simpl in *.
  destruct (Str.is_whitespace a); [|done]. pose proof (trim_start_length s) as Hl. rewrite H in Hl. simpl in Hl. lia.
Qed.
