(* ===== verification/Float64.v ===== *)
(** * IEEE 754 binary64, the Rust type [f64]

    Values and the basic operations come from the standard library's
    executable specification of floating point (SpecFloat) at precision 53
    and largest exponent 1024. This file adds the operations of Rust the
    source uses on top of them: comparison, [f64::max], [f64::min], the
    saturating cast [as u32], [f64::from(u32)] and the fused [mul_add]. *)

From S2P Require Import Prelude.
From Stdlib Require Import SpecFloat ZArith Ascii.
From stdpp Require Import options.

#[local] Open Scope Z_scope.

Abbreviation f64 := spec_float.

#[export] Instance f64_eq_dec : EqDecision f64.
Proof. solve_decision. Defined.

Module F64.

Definition prec : Z := 53.
Definition emax : Z := 1024.

Definition add (x y : f64) : f64 := SFadd prec emax x y.
Definition mul (x y : f64) : f64 := SFmul prec emax x y.
Definition div (x y : f64) : f64 := SFdiv prec emax x y.
Definition sub (x y : f64) : f64 := SFsub prec emax x y.
Definition sqrt (x : f64) : f64 := SFsqrt prec emax x.

(** The float nearest to an integer: a literal, or [f64::from] of a [u32]. *)
Definition of_Z (z : Z) : f64 := binary_normalize prec emax z 0 false.
Definition of_N (n : N) : f64 := of_Z (Z.of_N n).

Definition zero : f64 := S754_zero false.
Definition one : f64 := of_Z 1.

Definition is_nan (x : f64) : bool :=
  match x with S754_nan => true | _ => false end.

(** The signed integer [z] with [x = z * 2^e] at a common exponent [e]. *)
Definition scale (s : bool) (m : positive) (k : Z) : Z :=
  (if s then -1 else 1) * (Zpos m * 2 ^ k).

(** Comparison of the real values of two finite floats. *)
Definition compare_finite (s1 : bool) (m1 : positive) (e1 : Z)
    (s2 : bool) (m2 : positive) (e2 : Z) : comparison :=
  let e := Z.min e1 e2 in
  Z.compare (scale s1 m1 (e1 - e)) (scale s2 m2 (e2 - e)).

(** Partial comparison: [None] exactly when an operand is NaN. *)
Definition compare (x y : f64) : option comparison :=
  match x, y with
  | S754_nan, _ | _, S754_nan => None
  | S754_infinity s1, S754_infinity s2 =>
      Some (match s1, s2 with
            | true, false => Lt | false, true => Gt | _, _ => Eq end)
  | S754_infinity s, _ => Some (if s then Lt else Gt)
  | _, S754_infinity s => Some (if s then Gt else Lt)
  | S754_zero _, S754_zero _ => Some Eq
  | S754_zero _, S754_finite s _ _ => Some (if s then Gt else Lt)
  | S754_finite s _ _, S754_zero _ => Some (if s then Lt else Gt)
  | S754_finite s1 m1 e1, S754_finite s2 m2 e2 =>
      Some (compare_finite s1 m1 e1 s2 m2 e2)
  end.

Definition ge (x y : f64) : bool :=
  match compare x y with Some Gt | Some Eq => true | _ => false end.
Definition gt (x y : f64) : bool :=
  match compare x y with Some Gt => true | _ => false end.

(** [f64::max] and [f64::min] return the other operand on NaN. *)
Definition max (x y : f64) : f64 :=
  if is_nan x then y else if is_nan y then x else if ge x y then x else y.
Definition min (x y : f64) : f64 :=
  if is_nan x then y else if is_nan y then x else if ge y x then x else y.

(** Truncation of a finite float towards zero, in absolute value. *)
Definition trunc_abs (m : positive) (e : Z) : Z :=
  if decide (0 <= e) then Zpos m * 2 ^ e else Zpos m / 2 ^ (- e).

(** [x as u32]: truncates, saturates, and maps NaN to zero. *)
Definition to_u32 (x : f64) : N :=
  match x with
  | S754_nan | S754_zero _ | S754_infinity true | S754_finite true _ _ => 0%N
  | S754_infinity false => u32_max
  | S754_finite false m e => N.min (Z.to_N (trunc_abs m e)) u32_max
  end.

(** [x.mul_add(y, z)]: [x * y + z] rounded once. *)
Definition mul_add (x y z : f64) : f64 :=
  match x, y with
  | S754_finite s1 m1 e1, S754_finite s2 m2 e2 =>
      let s := xorb s1 s2 in
      let mp := (m1 * m2)%positive in
      let ep := e1 + e2 in
      match z with
      | S754_finite s3 m3 e3 =>
          let e := Z.min ep e3 in
          binary_normalize prec emax
            (scale s mp (ep - e) + scale s3 m3 (e3 - e)) e (s && s3)
      | S754_zero _ => binary_normalize prec emax (scale s mp 0) ep s
      | _ => z
      end
  | _, _ => add (mul x y) z
  end.

(** [m * 10^k] with a sign, rounded once. *)
Definition of_decimal (s : bool) (m : positive) (k : Z) : f64 :=
  if decide (0 <= k) then binary_normalize prec emax (scale s m 0 * 10 ^ k) 0 s
  else SFdiv prec emax (S754_finite s m 0) (S754_finite false (Z.to_pos (10 ^ (- k))) 0).

(** The leading digits of a string and the rest. *)
Fixpoint span_digits (s : string) : string * string :=
  match s with
  | EmptyString => (EmptyString, EmptyString)
  | String a s' =>
      match Str.digit a with
      | Some _ => let '(d, r) := span_digits s' in (String a d, r)
      | None => (EmptyString, s)
      end
  end.

(** The exponent of a decimal number, if the rest of the string is one. *)
Definition parse_exponent (s : string) : option Z :=
  match s with
  | EmptyString => Some 0
  | String a r =>
      if decide (a = "e"%char ∨ a = "E"%char) then
        let '(neg, d) := match r with
                         | String "-"%char r' => (true, r')
                         | String "+"%char r' => (false, r')
                         | _ => (false, r)
                         end in
        match d with
        | EmptyString => None
        | _ => (λ n, if neg : bool then - Z.of_N n else Z.of_N n) <$> Str.parse_digits 0 d
        end
      else None
  end.

(** [str::parse::<f64>]. *)
Definition parse (s : string) : option f64 :=
  let '(neg, body) := match s with
                      | String "-"%char r => (true, r)
                      | String "+"%char r => (false, r)
                      | _ => (false, s)
                      end in
  let lower := Str.to_lowercase body in
  if decide (lower = "inf"%string ∨ lower = "infinity"%string) then Some (S754_infinity neg)
  else if decide (lower = "nan"%string) then Some S754_nan
  else
    let '(ip, r) := span_digits body in
    let '(fp, r') := match r with String "."%char r1 => span_digits r1 | _ => (EmptyString, r) end in
    match ip +:+ fp with
    | EmptyString => None
    | digits =>
        e ← parse_exponent r'; m ← Str.parse_digits 0 digits;
        Some (match m with
              | N0 => S754_zero neg
              | Npos p => of_decimal neg p (e - Z.of_nat (String.length fp))
              end)
    end.

(** ** Signs *)

(** Not negative and not NaN. *)
Definition nonneg (x : f64) : Prop :=
  match x with
  | S754_zero _ => True
  | S754_infinity s | S754_finite s _ _ => s = false
  | S754_nan => False
  end.

Definition finite (x : f64) : Prop :=
  match x with S754_zero _ | S754_finite _ _ _ => True | _ => False end.

#[export] Instance nonneg_dec x : Decision (nonneg x).
Proof. destruct x; simpl; apply _. Defined.
#[export] Instance finite_dec x : Decision (finite x).
Proof. destruct x; simpl; apply _. Defined.

End F64.

(** Sixty and one hundred as floats, and a fused operation, evaluated. *)
Example f64_of_Z_60 : F64.to_u32 (F64.of_Z 60) = 60%N.
Proof. reflexivity. Qed.
Example f64_third : F64.to_u32 (F64.div (F64.of_Z 900) (F64.mul_add (F64.of_Z 1) (F64.of_Z 2) (F64.of_Z 1))) = 300%N.
Proof. reflexivity. Qed.

(** Decimal numbers are parsed with one rounding, as the literals are. *)
Example f64_parse_mhz : F64.to_u32 <$> F64.parse "2794.748" = Some 2794%N.
Proof. vm_compute. reflexivity. Qed.
Example f64_parse_tenth : F64.parse "0.1" = Some (F64.div (F64.of_Z 1) (F64.of_Z 10)).
Proof. vm_compute. reflexivity. Qed.
Example f64_parse_rejects : F64.parse <$> [""; "."; "1e"; "e5"; "0x10"; "1 "] = replicate 6 None.
Proof. vm_compute. reflexivity. Qed.
