(* ===== verification/Types.v ===== *)
(** * Domain types of pact-common

    Translated from crates/pact-common/src/types.rs. Enums are inductive
    types with the source's constructors, structs are records whose fields
    carry a prefix naming the struct. [DateTime<Utc>] is a count of
    nanoseconds since the epoch; the current time is an argument of every
    operation that reads the clock. *)

From S2P Require Import Prelude Float64.
From stdpp Require Import options.

Abbreviation NodeId := string.
Abbreviation VClusterId := string.
Abbreviation DomainId := string.
Abbreviation EntrySeq := N.
Abbreviation DateTime := Z.
Abbreviation bytes := (list N).

(** Nanoseconds of a number of seconds, as [Duration::seconds]. *)
Definition seconds (s : Z) : Z := (s * 1000000000)%Z.

Inductive ConfigState := ObserveOnly | Committed | Drifted | Converging | Emergency.

Inductive EntryType :=
| ET_Commit | ET_Rollback | ET_AutoConverge | ET_DriftDetected
| ET_CapabilityChange | ET_PolicyUpdate | ET_BootConfig | ET_EmergencyStart
| ET_EmergencyEnd | ET_ExecLog | ET_ShellSession | ET_ServiceLifecycle
| ET_PendingApproval | ET_NodeEnrolled | ET_NodeActivated
| ET_NodeDeactivated | ET_NodeDecommissioned | ET_NodeAssigned
| ET_NodeUnassigned | ET_CertSigned | ET_CertRevoked.

Inductive Scope := Global | VCluster (vc : VClusterId) | Node (n : NodeId).

Inductive PrincipalType := Human | Agent | Service.

Record Identity := {
  principal : string;
  principal_type : PrincipalType;
  role : string;
}.

Inductive DeltaAction := Add | Remove | Modify.

Record DeltaItem := {
  item_action : DeltaAction;
  item_key : string;
  item_value : option string;
  item_previous : option string;
}.

Record StateDelta := {
  delta_mounts : list DeltaItem;
  delta_files : list DeltaItem;
  delta_network : list DeltaItem;
  delta_services : list DeltaItem;
  delta_kernel : list DeltaItem;
  delta_packages : list DeltaItem;
  delta_gpu : list DeltaItem;
}.

Record ConfigEntry := {
  entry_sequence : EntrySeq;
  entry_timestamp : DateTime;
  entry_type : EntryType;
  entry_scope : Scope;
  entry_author : Identity;
  entry_parent : option EntrySeq;
  entry_state_delta : option StateDelta;
  entry_policy_ref : option string;
  entry_ttl_seconds : option N;
  entry_emergency_reason : option string;
}.

(** [entry.sequence = seq]. *)
Definition with_sequence (e : ConfigEntry) (seq : EntrySeq) : ConfigEntry :=
  {| entry_sequence := seq;
     entry_timestamp := entry_timestamp e;
     entry_type := entry_type e;
     entry_scope := entry_scope e;
     entry_author := entry_author e;
     entry_parent := entry_parent e;
     entry_state_delta := entry_state_delta e;
     entry_policy_ref := entry_policy_ref e;
     entry_ttl_seconds := entry_ttl_seconds e;
     entry_emergency_reason := entry_emergency_reason e |}.

Record DriftVector := {
  drift_mounts : f64;
  drift_files : f64;
  drift_network : f64;
  drift_services : f64;
  drift_kernel : f64;
  drift_packages : f64;
  drift_gpu : f64;
}.

Record DriftWeights := {
  weight_mounts : f64;
  weight_files : f64;
  weight_network : f64;
  weight_services : f64;
  weight_kernel : f64;
  weight_packages : f64;
  weight_gpu : f64;
}.

(** [DriftVector::magnitude]: the weighted L2 norm, in the source's order
    of additions and multiplications. *)
Definition magnitude (d : DriftVector) (w : DriftWeights) : f64 :=
  let t (wt x : f64) := F64.mul (F64.mul wt x) x in
  F64.sqrt
    (F64.add (F64.add (F64.add (F64.add (F64.add (F64.add
      (t (weight_mounts w) (drift_mounts d))
      (t (weight_files w) (drift_files d)))
      (t (weight_network w) (drift_network d)))
      (t (weight_services w) (drift_services d)))
      (t (weight_kernel w) (drift_kernel d)))
      (t (weight_packages w) (drift_packages d)))
      (t (weight_gpu w) (drift_gpu d))).

Definition drift_weights_default : DriftWeights :=
  {| weight_mounts := F64.of_Z 1; weight_files := F64.of_Z 1;
     weight_network := F64.of_Z 1; weight_services := F64.of_Z 1;
     weight_kernel := F64.of_Z 2; weight_packages := F64.of_Z 1;
     weight_gpu := F64.of_Z 2 |}.

Inductive ServiceState := Starting | Running | Stopping | Stopped | Failed | Restarting.
Inductive RestartPolicy := Always | OnFailure | Never.
Inductive HealthCheckType := Process | Http (url : string) | Tcp (port : N).

Record HealthCheck := { check_type : HealthCheckType; interval_seconds : N }.

Record ServiceDecl := {
  svc_name : string;
  svc_binary : string;
  svc_args : list string;
  svc_restart : RestartPolicy;
  svc_restart_delay_seconds : N;
  svc_depends_on : list string;
  svc_order : N;
  svc_cgroup_memory_max : option string;
  svc_cgroup_slice : option string;
  svc_cgroup_cpu_weight : option N;
  svc_health_check : option HealthCheck;
}.

Inductive SupervisorBackend := Pact | Systemd.

Record RoleBinding := {
  binding_role : string;
  binding_principals : list string;
  binding_allowed_actions : list string;
}.

Record VClusterPolicy := {
  pol_vcluster_id : VClusterId;
  pol_policy_id : string;
  pol_updated_at : option DateTime;
  pol_drift_sensitivity : f64;
  pol_base_commit_window_seconds : N;
  pol_emergency_window_seconds : N;
  pol_auto_converge_categories : list string;
  pol_require_ack_categories : list string;
  pol_enforcement_mode : string;
  pol_role_bindings : list RoleBinding;
  pol_regulated : bool;
  pol_two_person_approval : bool;
  pol_emergency_allowed : bool;
  pol_audit_retention_days : N;
  pol_ai_exec_allowed : bool;
  pol_federation_template : option string;
  pol_supervisor_backend : string;
  pol_exec_whitelist : list string;
  pol_shell_whitelist : list string;
}.

(** [VClusterPolicy { vcluster_id: vc, ..VClusterPolicy::default() }]. *)
Definition default_policy_for (vc : VClusterId) : VClusterPolicy :=
  {| pol_vcluster_id := vc;
     pol_policy_id := "";
     pol_updated_at := None;
     pol_drift_sensitivity := F64.of_Z 2;
     pol_base_commit_window_seconds := 900;
     pol_emergency_window_seconds := 14400;
     pol_auto_converge_categories := [];
     pol_require_ack_categories := [];
     pol_enforcement_mode := "observe";
     pol_role_bindings := [];
     pol_regulated := false;
     pol_two_person_approval := false;
     pol_emergency_allowed := true;
     pol_audit_retention_days := 2555;
     pol_ai_exec_allowed := false;
     pol_federation_template := None;
     pol_supervisor_backend := "pact";
     pol_exec_whitelist := [];
     pol_shell_whitelist := [] |}.

Definition vcluster_policy_default : VClusterPolicy := default_policy_for "".

Record BootOverlay := {
  ov_vcluster_id : VClusterId;
  ov_version : N;
  ov_data : bytes;
  ov_checksum : string;
}.

Inductive AdminOperationType :=
| Op_Exec | Op_ShellSessionStart | Op_ShellSessionEnd | Op_ServiceStart
| Op_ServiceStop | Op_ServiceRestart | Op_EmergencyStart | Op_EmergencyEnd
| Op_ApprovalDecision | Op_NodeEnroll | Op_NodeDecommission | Op_NodeAssign
| Op_NodeUnassign | Op_NodeMove | Op_CertRenew | Op_CertRevoke.

Record AdminOperation := {
  op_operation_id : string;
  op_timestamp : DateTime;
  op_actor : Identity;
  op_operation_type : AdminOperationType;
  op_scope : Scope;
  op_detail : string;
}.

Inductive ApprovalStatus := Pending | Approved | Rejected | Expired.

Record PendingApproval := {
  apr_approval_id : string;
  apr_original_request : string;
  apr_action : string;
  apr_scope : Scope;
  apr_requester : Identity;
  apr_approver : option Identity;
  apr_status : ApprovalStatus;
  apr_created_at : DateTime;
  apr_expires_at : DateTime;
}.

(** [approval.status = st; approval.approver = who]. *)
Definition decide_with (a : PendingApproval) (st : ApprovalStatus)
    (who : option Identity) : PendingApproval :=
  {| apr_approval_id := apr_approval_id a;
     apr_original_request := apr_original_request a;
     apr_action := apr_action a;
     apr_scope := apr_scope a;
     apr_requester := apr_requester a;
     apr_approver := who;
     apr_status := st;
     apr_created_at := apr_created_at a;
     apr_expires_at := apr_expires_at a |}.

Inductive EnrollmentState := Registered | Active | Inactive | Revoked.

Record HardwareIdentity := {
  hw_mac_address : string;
  hw_bmc_serial : option string;
  hw_extra : gmap string string;
}.

Record NodeEnrollment := {
  enr_node_id : NodeId;
  enr_domain_id : DomainId;
  enr_state : EnrollmentState;
  enr_hardware_identity : HardwareIdentity;
  enr_vcluster_id : option VClusterId;
  enr_cert_serial : option string;
  enr_cert_expires_at : option DateTime;
  enr_last_seen : option DateTime;
  enr_enrolled_at : DateTime;
  enr_enrolled_by : Identity;
  enr_active_sessions : N;
}.

(** Field assignments on an enrollment record. *)
Definition enr_with (e : NodeEnrollment) (st : EnrollmentState)
    (vc : option VClusterId) (serial : option string)
    (expires seen : option DateTime) : NodeEnrollment :=
  {| enr_node_id := enr_node_id e;
     enr_domain_id := enr_domain_id e;
     enr_state := st;
     enr_hardware_identity := enr_hardware_identity e;
     enr_vcluster_id := vc;
     enr_cert_serial := serial;
     enr_cert_expires_at := expires;
     enr_last_seen := seen;
     enr_enrolled_at := enr_enrolled_at e;
     enr_enrolled_by := enr_enrolled_by e;
     enr_active_sessions := enr_active_sessions e |}.

Definition set_enr_state e st :=
  enr_with e st (enr_vcluster_id e) (enr_cert_serial e) (enr_cert_expires_at e) (enr_last_seen e).
Definition set_enr_vcluster e vc :=
  enr_with e (enr_state e) vc (enr_cert_serial e) (enr_cert_expires_at e) (enr_last_seen e).
Definition set_enr_last_seen e t :=
  enr_with e (enr_state e) (enr_vcluster_id e) (enr_cert_serial e) (enr_cert_expires_at e) t.
Definition set_enr_cert e serial expires seen :=
  enr_with e (enr_state e) (enr_vcluster_id e) serial expires seen.

(** ** Decidable equality *)

#[export] Instance ConfigState_eq_dec : EqDecision ConfigState.
Proof. solve_decision. Defined.
#[export] Instance EntryType_eq_dec : EqDecision EntryType.
Proof. solve_decision. Defined.
#[export] Instance Scope_eq_dec : EqDecision Scope.
Proof. solve_decision. Defined.
#[export] Instance PrincipalType_eq_dec : EqDecision PrincipalType.
Proof. solve_decision. Defined.
#[export] Instance Identity_eq_dec : EqDecision Identity.
Proof. solve_decision. Defined.
#[export] Instance DeltaAction_eq_dec : EqDecision DeltaAction.
Proof. solve_decision. Defined.
#[export] Instance DeltaItem_eq_dec : EqDecision DeltaItem.
Proof. solve_decision. Defined.
#[export] Instance StateDelta_eq_dec : EqDecision StateDelta.
Proof. solve_decision. Defined.
#[export] Instance ConfigEntry_eq_dec : EqDecision ConfigEntry.
Proof. solve_decision. Defined.
#[export] Instance ServiceState_eq_dec : EqDecision ServiceState.
Proof. solve_decision. Defined.
#[export] Instance RestartPolicy_eq_dec : EqDecision RestartPolicy.
Proof. solve_decision. Defined.
#[export] Instance SupervisorBackend_eq_dec : EqDecision SupervisorBackend.
Proof. solve_decision. Defined.
#[export] Instance ApprovalStatus_eq_dec : EqDecision ApprovalStatus.
Proof. solve_decision. Defined.
#[export] Instance EnrollmentState_eq_dec : EqDecision EnrollmentState.
Proof. solve_decision. Defined.

(** ** Debug formatting

    [format!("{:?}", x)] of the enums the source prints. *)

Definition debug_approval_status (s : ApprovalStatus) : string :=
  match s with
  | Pending => "Pending" | Approved => "Approved"
  | Rejected => "Rejected" | Expired => "Expired"
  end.

Definition debug_enrollment_state (s : EnrollmentState) : string :=
  match s with
  | Registered => "Registered" | Active => "Active"
  | Inactive => "Inactive" | Revoked => "Revoked"
  end.

Definition debug_config_state (s : ConfigState) : string :=
  match s with
  | ObserveOnly => "ObserveOnly" | Committed => "Committed"
  | Drifted => "Drifted" | Converging => "Converging"
  | Emergency => "Emergency"
  end.

Definition debug_principal_type (p : PrincipalType) : string :=
  match p with Human => "Human" | Agent => "Agent" | Service => "Service" end.

Definition debug_service_state (s : ServiceState) : string :=
  match s with
  | Starting => "Starting" | Running => "Running" | Stopping => "Stopping"
  | Stopped => "Stopped" | Failed => "Failed" | Restarting => "Restarting"
  end.

(** The vCluster a scope names for policy purposes: node scopes carry the
    identifier in the same position. *)
Definition scope_vcluster (s : Scope) : VClusterId :=
  match s with VCluster vc => vc | Node n => n | Global => "" end.
