(* ===== verification/Checksum.v ===== *)
(** * Overlay checksums

    [compute_overlay_checksum] of crates/pact-common/src/types.rs hashes the
    overlay bytes with Rust's [DefaultHasher], which is SipHash-1-3 with a
    zero key, and prints the 64-bit digest in hexadecimal. Hashing a byte
    slice first feeds the length as eight little-endian bytes. *)

From S2P Require Import Prelude Types.
From stdpp Require Import options.

#[local] Open Scope N_scope.

Module SipHash.

Definition w64 (n : N) : N := N.land n u64_max.
Definition add64 (a b : N) : N := w64 (a + b).
Definition rotl (x : N) (k : N) : N :=
  w64 (N.lor (N.shiftl x k) (N.shiftr x (64 - k))).

Record state := { v0 : N; v1 : N; v2 : N; v3 : N }.

Definition init : state :=
  {| v0 := 0x736f6d6570736575; v1 := 0x646f72616e646f6d;
     v2 := 0x6c7967656e657261; v3 := 0x7465646279746573 |}.

(** One SipRound. *)
Definition round (s : state) : state :=
  let a0 := add64 (v0 s) (v1 s) in
  let a1 := N.lxor (rotl (v1 s) 13) a0 in
  let a0 := rotl a0 32 in
  let a2 := add64 (v2 s) (v3 s) in
  let a3 := N.lxor (rotl (v3 s) 16) a2 in
  let a0 := add64 a0 a3 in
  let a3 := N.lxor (rotl a3 21) a0 in
  let a2 := add64 a2 a1 in
  let a1 := N.lxor (rotl a1 17) a2 in
  let a2 := rotl a2 32 in
  {| v0 := a0; v1 := a1; v2 := a2; v3 := a3 |}.

(** Absorbs one 64-bit word with one compression round. *)
Definition absorb (m : N) (s : state) : state :=
  let s := {| v0 := v0 s; v1 := v1 s; v2 := v2 s; v3 := N.lxor (v3 s) m |} in
  let s := round s in
  {| v0 := N.lxor (v0 s) m; v1 := v1 s; v2 := v2 s; v3 := v3 s |}.

Fixpoint le_word (bs : bytes) : N :=
  match bs with [] => 0 | b :: bs' => N.lor b (N.shiftl (le_word bs') 8) end.

Fixpoint le_split (n : nat) (w : N) : bytes :=
  match n with
  | O => []
  | S n' => N.land w 255 :: le_split n' (N.shiftr w 8)
  end.

(** Full words in turn; the last word carries the message length in its
    top byte. *)
Fixpoint absorb_all (fuel : nat) (len : N) (bs : bytes) (s : state) : state :=
  match fuel with
  | O => s
  | S fuel' =>
      if decide (8 ≤ length bs)%nat
      then absorb_all fuel' len (drop 8 bs) (absorb (le_word (take 8 bs)) s)
      else absorb (N.lor (N.shiftl (N.land len 255) 56) (le_word bs)) s
  end.

Definition finish (s : state) : N :=
  let s := {| v0 := v0 s; v1 := v1 s; v2 := N.lxor (v2 s) 255; v3 := v3 s |} in
  let s := round (round (round s)) in
  N.lxor (N.lxor (v0 s) (v1 s)) (N.lxor (v2 s) (v3 s)).

Definition hash (bs : bytes) : N :=
  finish (absorb_all (S (length bs)) (N.of_nat (length bs)) bs init).

End SipHash.

(** [data.hash(&mut DefaultHasher::new())] followed by [finish]. *)
Definition default_hash (data : bytes) : N :=
  SipHash.hash (SipHash.le_split 8 (N.of_nat (length data)) ++ data).

Definition compute_overlay_checksum (data : bytes) : string :=
  Str.format_hex (default_hash data).

(** [BootOverlay::new]. *)
Definition boot_overlay_new (vc : VClusterId) (version : N) (data : bytes) : BootOverlay :=
  {| ov_vcluster_id := vc; ov_version := version; ov_data := data;
     ov_checksum := compute_overlay_checksum data |}.

(** A digest checked against an independent SipHash-1-3 implementation. *)
Example siphash_abc : SipHash.hash [97; 98; 99] = 13851880170939887858.
Proof. reflexivity. Qed.
Example siphash_13_bytes :
  SipHash.hash [97; 98; 99; 100; 101; 102; 103; 104; 49; 50; 51; 52; 53] = 15412854867247066816.
Proof. reflexivity. Qed.
