(* ===== verification/JournalState.v ===== *)
(** * The journal's replicated state machine

    Commands and responses of crates/pact-journal/src/raft/types.rs and the
    state machine of crates/pact-journal/src/raft/state.rs. [apply] is
    composed of one definition per arm of the source's match. It takes the
    replica's clock reading, which two commands store. RFC 3339 parsing is
    the chrono crate's and is a parameter. *)

From S2P Require Import Prelude Types Checksum.
From stdpp Require Import options.

(** Conversion of timestamps to and from RFC 3339 text (chrono). *)
Class Chrono := {
  parse_from_rfc3339 : string → option DateTime;
  to_rfc3339 : DateTime → string;
}.

Inductive JournalCommand :=
| AppendEntry (entry : ConfigEntry)
| UpdateNodeState (node_id : NodeId) (state : ConfigState)
| SetPolicy (vcluster_id : VClusterId) (policy : VClusterPolicy)
| SetOverlay (vcluster_id : VClusterId) (overlay : BootOverlay)
| RecordOperation (op : AdminOperation)
| AssignNode (node_id : NodeId) (vcluster_id : VClusterId)
| CreateApproval (approval : PendingApproval)
| DecideApproval (approval_id : string) (approver : Identity) (decision : ApprovalStatus)
| RegisterNode (enrollment : NodeEnrollment)
| ActivateNode (node_id : NodeId) (cert_serial cert_expires_at : string)
| DeactivateNode (node_id : NodeId)
| RevokeNode (node_id : NodeId)
| AssignNodeToVCluster (node_id : NodeId) (vcluster_id : VClusterId)
| UnassignNode (node_id : NodeId)
| MoveNodeVCluster (node_id : NodeId) (from_vcluster_id to_vcluster_id : VClusterId)
| UpdateNodeLastSeen (node_id : NodeId) (timestamp : string)
| UpdateNodeCert (node_id : NodeId) (cert_serial cert_expires_at : string).

Inductive JournalResponse :=
| RespOk
| EntryAppended (sequence : N)
| ValidationError (reason : string)
| EnrollmentResult (node_id : NodeId) (state : EnrollmentState) (vcluster_id : option VClusterId).

#[export] Instance JournalResponse_eq_dec : EqDecision JournalResponse.
Proof. solve_decision. Defined.

Record JournalState := {
  entries : gmap N ConfigEntry;
  next_sequence : EntrySeq;
  node_states : gmap string ConfigState;
  policies : gmap string VClusterPolicy;
  overlays : gmap string BootOverlay;
  audit_log : list AdminOperation;
  node_assignments : gmap string string;
  pending_approvals : gmap string PendingApproval;
  enrollments : gmap string NodeEnrollment;
  hw_index : gmap string string;
  revoked_serials : gset string;
}.

(** [JournalState::default()]. *)
Definition journal_init : JournalState :=
  {| entries := ∅; next_sequence := 0; node_states := ∅; policies := ∅;
     overlays := ∅; audit_log := []; node_assignments := ∅;
     pending_approvals := ∅; enrollments := ∅; hw_index := ∅;
     revoked_serials := ∅ |}.

(** Field assignments. *)
Definition set_entries s es nx :=
  {| entries := es; next_sequence := nx; node_states := node_states s;
     policies := policies s; overlays := overlays s; audit_log := audit_log s;
     node_assignments := node_assignments s;
     pending_approvals := pending_approvals s; enrollments := enrollments s;
     hw_index := hw_index s; revoked_serials := revoked_serials s |}.
Definition set_node_states s x :=
  {| entries := entries s; next_sequence := next_sequence s; node_states := x;
     policies := policies s; overlays := overlays s; audit_log := audit_log s;
     node_assignments := node_assignments s;
     pending_approvals := pending_approvals s; enrollments := enrollments s;
     hw_index := hw_index s; revoked_serials := revoked_serials s |}.
Definition set_policies s x :=
  {| entries := entries s; next_sequence := next_sequence s;
     node_states := node_states s; policies := x; overlays := overlays s;
     audit_log := audit_log s; node_assignments := node_assignments s;
     pending_approvals := pending_approvals s; enrollments := enrollments s;
     hw_index := hw_index s; revoked_serials := revoked_serials s |}.
Definition set_overlays s x :=
  {| entries := entries s; next_sequence := next_sequence s;
     node_states := node_states s; policies := policies s; overlays := x;
     audit_log := audit_log s; node_assignments := node_assignments s;
     pending_approvals := pending_approvals s; enrollments := enrollments s;
     hw_index := hw_index s; revoked_serials := revoked_serials s |}.
Definition set_audit_log s x :=
  {| entries := entries s; next_sequence := next_sequence s;
     node_states := node_states s; policies := policies s;
     overlays := overlays s; audit_log := x;
     node_assignments := node_assignments s;
     pending_approvals := pending_approvals s; enrollments := enrollments s;
     hw_index := hw_index s; revoked_serials := revoked_serials s |}.
Definition set_approvals s x :=
  {| entries := entries s; next_sequence := next_sequence s;
     node_states := node_states s; policies := policies s;
     overlays := overlays s; audit_log := audit_log s;
     node_assignments := node_assignments s; pending_approvals := x;
     enrollments := enrollments s; hw_index := hw_index s;
     revoked_serials := revoked_serials s |}.
(** Enrollments together with the two indexes kept beside them. *)
Definition set_nodes s enr assigns hw :=
  {| entries := entries s; next_sequence := next_sequence s;
     node_states := node_states s; policies := policies s;
     overlays := overlays s; audit_log := audit_log s;
     node_assignments := assigns; pending_approvals := pending_approvals s;
     enrollments := enr; hw_index := hw;
     revoked_serials := revoked_serials s |}.

(** ** Conflict detection and homogeneity *)

Record ConflictEntry := { cf_key : string; cf_local_value : string; cf_journal_value : string }.

(** [Option<String>::unwrap_or_default]. *)
Definition unwrap_or_default (o : option string) : string := default "" o.

Definition item_conflict (local existing : DeltaItem) : option ConflictEntry :=
  if decide (item_key existing = item_key local ∧ item_value existing ≠ item_value local)
  then Some {| cf_key := item_key local;
               cf_local_value := unwrap_or_default (item_value local);
               cf_journal_value := unwrap_or_default (item_value existing) |}
  else None.

Definition kernel_items (e : ConfigEntry) : list DeltaItem :=
  match entry_state_delta e with Some d => delta_kernel d | None => [] end.

(** [JournalState::detect_conflicts]: for each local kernel item, the
    journal entries from the newest to the oldest. *)
Definition detect_conflicts (s : JournalState) (local_entries : list ConfigEntry) : list ConflictEntry :=
  local ← local_entries;
  local_item ← kernel_items local;
  existing ← reverse (btree_values (entries s));
  omap (item_conflict local_item) (kernel_items existing).

Record HomogeneityWarning := { hom_node_id : NodeId; hom_delta_keys : list string }.

Definition node_delta_keys (s : JournalState) (node : NodeId) : list string :=
  e ← filter (λ e, entry_scope e = Node node) (btree_values (entries s));
  item_key <$> kernel_items e.

(** [JournalState::check_homogeneity]. *)
Definition check_homogeneity (s : JournalState) (vc : VClusterId) : list HomogeneityWarning :=
  let nodes := (filter (λ p, p.2 = vc) (map_to_list (node_assignments s))).*1 in
  omap (λ n, match node_delta_keys s n with
             | [] => None
             | ks => Some {| hom_node_id := n; hom_delta_keys := ks |}
             end) nodes.

(** ** Applying commands *)

Definition hw_canonical_key (hw : HardwareIdentity) : string :=
  match hw_bmc_serial hw with
  | Some serial =>
      if Str.is_empty serial then "mac:" +:+ Str.to_lowercase (hw_mac_address hw)
      else "mac:" +:+ Str.to_lowercase (hw_mac_address hw) +:+ ":bmc:" +:+ Str.to_lowercase serial
  | None => "mac:" +:+ Str.to_lowercase (hw_mac_address hw)
  end.

Definition TTL_MIN_SECONDS : N := 900.
Definition TTL_MAX_SECONDS : N := 864000.
Definition OVERLAY_MAX_BYTES : N := 10 * 1024 * 1024.
Definition AUDIT_LOG_MAX : N := 100000.

Definition not_enrolled (node : NodeId) : JournalResponse :=
  ValidationError ("NODE_NOT_ENROLLED: " +:+ node).

Definition ttl_error (ttl : option N) : option string :=
  match ttl with
  | Some t =>
      if decide (0 < t ∧ t < TTL_MIN_SECONDS)%N then
        Some ("TTL must be >= " +:+ pretty TTL_MIN_SECONDS +:+ " seconds (15 minutes)")
      else if decide (TTL_MAX_SECONDS < t)%N then
        Some ("TTL must be <= " +:+ pretty TTL_MAX_SECONDS +:+ " seconds (10 days)")
      else None
  | None => None
  end.

Definition apply_append_entry (entry : ConfigEntry) (s : JournalState) : JournalState * JournalResponse :=
  if Str.is_empty (principal (entry_author entry)) then
    (s, ValidationError "author principal required")
  else if Str.is_empty (role (entry_author entry)) then
    (s, ValidationError "author role required")
  else if (match entry_parent entry with
           | Some parent => bool_decide (next_sequence s ≤ parent)%N
           | None => false end) then
    (s, ValidationError "parent must precede entry")
  else match ttl_error (entry_ttl_seconds entry) with
  | Some reason => (s, ValidationError reason)
  | None =>
      let seq := next_sequence s in
      (set_entries s (<[seq := with_sequence entry seq]> (entries s)) (wrap_u64 (seq + 1)),
       EntryAppended seq)
  end.

Definition apply_set_overlay (vc : VClusterId) (ov : BootOverlay) (s : JournalState) : JournalState * JournalResponse :=
  let len := N.of_nat (length (ov_data ov)) in
  if decide (OVERLAY_MAX_BYTES < len)%N then
    (s, ValidationError ("overlay data too large: " +:+ pretty len +:+ " bytes (max "
         +:+ pretty OVERLAY_MAX_BYTES +:+ ")"))
  else
    let computed := compute_overlay_checksum (ov_data ov) in
    if decide (ov_checksum ov = computed) then
      (set_overlays s (<[vc := ov]> (overlays s)), RespOk)
    else
      (s, ValidationError ("overlay checksum mismatch: expected " +:+ ov_checksum ov
           +:+ ", got " +:+ computed)).

(** Pushes the operation and drops the oldest ones above the cap. *)
Definition apply_record_operation (op : AdminOperation) (s : JournalState) : JournalState * JournalResponse :=
  let log := audit_log s ++ [op] in
  let len := N.of_nat (length log) in
  let log' := if decide (AUDIT_LOG_MAX < len)%N
              then drop (N.to_nat (len - AUDIT_LOG_MAX)) log else log in
  (set_audit_log s log', RespOk).

Definition apply_decide_approval (id : string) (approver : Identity)
    (decision : ApprovalStatus) (s : JournalState) : JournalState * JournalResponse :=
  match pending_approvals s !! id with
  | Some a =>
      if decide (apr_status a ≠ Pending) then
        (s, ValidationError ("approval " +:+ id +:+ " already " +:+ debug_approval_status (apr_status a)))
      else if decide (principal (apr_requester a) = principal approver) then
        (s, ValidationError "SELF_APPROVAL: cannot approve your own request (P4)")
      else
        (set_approvals s (<[id := decide_with a decision (Some approver)]> (pending_approvals s)), RespOk)
  | None => (s, ValidationError ("approval " +:+ id +:+ " not found"))
  end.

Definition apply_register_node (e : NodeEnrollment) (s : JournalState) : JournalState * JournalResponse :=
  match enrollments s !! enr_node_id e with
  | Some _ => (s, ValidationError ("NODE_ALREADY_ENROLLED: " +:+ enr_node_id e))
  | None =>
      let key := hw_canonical_key (enr_hardware_identity e) in
      match hw_index s !! key with
      | Some existing =>
          (s, ValidationError ("HARDWARE_IDENTITY_CONFLICT: hardware already registered to " +:+ existing))
      | None =>
          (set_nodes s (<[enr_node_id e := e]> (enrollments s)) (node_assignments s)
             (<[key := enr_node_id e]> (hw_index s)),
           EnrollmentResult (enr_node_id e) Registered None)
      end
  end.

(** [enrollments.get_mut(&node_id)] followed by an in-place update of the
    record, shared by the enrollment arms. *)
Definition update_enrollment (node : NodeId) (s : JournalState)
    (k : NodeEnrollment → JournalState * JournalResponse) : JournalState * JournalResponse :=
  match enrollments s !! node with
  | Some e => k e
  | None => (s, not_enrolled node)
  end.

Definition put_enrollment (node : NodeId) (e : NodeEnrollment) (s : JournalState) : JournalState :=
  set_nodes s (<[node := e]> (enrollments s)) (node_assignments s) (hw_index s).

Section apply.
Context `{Chrono}.

Definition apply_activate_node (now : DateTime) (node : NodeId) (serial expires : string)
    (s : JournalState) : JournalState * JournalResponse :=
  update_enrollment node s (λ e,
    if decide (enr_state e = Revoked) then (s, ValidationError ("NODE_REVOKED: " +:+ node))
    else if decide (enr_state e = Active) then (s, ValidationError ("ALREADY_ACTIVE: " +:+ node))
    else
      (put_enrollment node
         (enr_with e Active (enr_vcluster_id e) (Some serial) (parse_from_rfc3339 expires) (Some now)) s,
       EnrollmentResult node Active (enr_vcluster_id e))).

Definition apply_set_state (node : NodeId) (st : EnrollmentState) (s : JournalState) : JournalState * JournalResponse :=
  update_enrollment node s (λ e, (put_enrollment node (set_enr_state e st) s, RespOk)).

Definition apply_deactivate_node (node : NodeId) s := apply_set_state node Inactive s.
Definition apply_revoke_node (node : NodeId) s := apply_set_state node Revoked s.

Definition apply_assign_to_vcluster (node : NodeId) (vc : VClusterId) (s : JournalState) : JournalState * JournalResponse :=
  update_enrollment node s (λ e,
    (set_nodes s (<[node := set_enr_vcluster e (Some vc)]> (enrollments s))
       (<[node := vc]> (node_assignments s)) (hw_index s), RespOk)).

Definition apply_unassign_node (node : NodeId) (s : JournalState) : JournalState * JournalResponse :=
  update_enrollment node s (λ e,
    (set_nodes s (<[node := set_enr_vcluster e None]> (enrollments s))
       (delete node (node_assignments s)) (hw_index s), RespOk)).

Definition apply_move_node (node : NodeId) (to : VClusterId) (s : JournalState) : JournalState * JournalResponse :=
  apply_assign_to_vcluster node to s.

Definition apply_update_last_seen (node : NodeId) (timestamp : string) (s : JournalState) : JournalState * JournalResponse :=
  update_enrollment node s (λ e,
    (put_enrollment node (set_enr_last_seen e (parse_from_rfc3339 timestamp)) s, RespOk)).

Definition apply_update_cert (now : DateTime) (node : NodeId) (serial expires : string)
    (s : JournalState) : JournalState * JournalResponse :=
  update_enrollment node s (λ e,
    (put_enrollment node (set_enr_cert e (Some serial) (parse_from_rfc3339 expires) (Some now)) s, RespOk)).

(** [StateMachineState::apply]. *)
Definition apply (now : DateTime) (cmd : JournalCommand) (s : JournalState) : JournalState * JournalResponse :=
  match cmd with
  | AppendEntry entry => apply_append_entry entry s
  | UpdateNodeState node st => (set_node_states s (<[node := st]> (node_states s)), RespOk)
  | SetPolicy vc p => (set_policies s (<[vc := p]> (policies s)), RespOk)
  | SetOverlay vc ov => apply_set_overlay vc ov s
  | RecordOperation op => apply_record_operation op s
  | AssignNode node vc =>
      (set_nodes s (enrollments s) (<[node := vc]> (node_assignments s)) (hw_index s), RespOk)
  | CreateApproval a => (set_approvals s (<[apr_approval_id a := a]> (pending_approvals s)), RespOk)
  | DecideApproval id approver decision => apply_decide_approval id approver decision s
  | RegisterNode e => apply_register_node e s
  | ActivateNode node serial expires => apply_activate_node now node serial expires s
  | DeactivateNode node => apply_deactivate_node node s
  | RevokeNode node => apply_revoke_node node s
  | AssignNodeToVCluster node vc => apply_assign_to_vcluster node vc s
  | UnassignNode node => apply_unassign_node node s
  | MoveNodeVCluster node _ to => apply_move_node node to s
  | UpdateNodeLastSeen node ts => apply_update_last_seen node ts s
  | UpdateNodeCert node serial expires => apply_update_cert now node serial expires s
  end.

(** A log: the committed commands, each with the clock reading of the
    replica that applies it. *)
Definition apply_log (log : list (DateTime * JournalCommand)) (s : JournalState) : JournalState :=
  foldl (λ s c, (apply c.1 c.2 s).1) s log.

End apply.
