(* ===== verification/JournalInvariants.v ===== *)
(** * Invariants of the journal state machine

    The well-formedness of the journal state (sequence numbering, immutable
    history, authorship, parent chain, time-to-live bounds, overlay
    checksums, audit log cap, hardware index), its preservation by every
    command, and what the state machine guarantees to its clients. *)

From S2P Require Import Prelude Types Checksum JournalState.
From stdpp Require Import options.

(** ** The invariant, by part *)

(** J1, J3, J4, ND1, ND2: the entries are numbered without gaps, carry an
    author, point only to earlier entries and have an accepted lifetime. *)
Record entry_ok (i : N) (e : ConfigEntry) : Prop := {
  eo_sequence : entry_sequence e = i;
  eo_principal : principal (entry_author e) ≠ "";
  eo_role : role (entry_author e) ≠ "";
  eo_parent : ∀ p, entry_parent e = Some p → (p < i)%N;
  eo_ttl : ∀ t, entry_ttl_seconds e = Some t →
    t = 0%N ∨ (TTL_MIN_SECONDS <= t <= TTL_MAX_SECONDS)%N;
}.

Definition entries_wf (s : JournalState) : Prop :=
  (∀ i, is_Some (entries s !! i) ↔ (i < next_sequence s)%N) ∧
  (∀ i e, entries s !! i = Some e → entry_ok i e).

(** J5: stored overlays match their checksum and the size limit. *)
Definition overlays_wf (s : JournalState) : Prop :=
  ∀ vc ov, overlays s !! vc = Some ov →
    ov_checksum ov = compute_overlay_checksum (ov_data ov) ∧
    (N.of_nat (length (ov_data ov)) <= OVERLAY_MAX_BYTES)%N.

Definition audit_wf (s : JournalState) : Prop :=
  (N.of_nat (length (audit_log s)) <= AUDIT_LOG_MAX)%N.

(** E2: the hardware index and the enrollment records are inverse to each
    other. *)
Definition hw_wf (s : JournalState) : Prop :=
  (∀ n e, enrollments s !! n = Some e →
     enr_node_id e = n ∧ hw_index s !! hw_canonical_key (enr_hardware_identity e) = Some n) ∧
  (∀ k n, hw_index s !! k = Some n →
     ∃ e, enrollments s !! n = Some e ∧ hw_canonical_key (enr_hardware_identity e) = k).

Record journal_wf (s : JournalState) : Prop := {
  jw_entries : entries_wf s;
  jw_overlays : overlays_wf s;
  jw_audit : audit_wf s;
  jw_hw : hw_wf s;
}.

(** ** Frame lemmas: what a command leaves alone *)

(** Unfolds the arms of [apply]. *)
Ltac unfold_apply :=
  unfold apply, apply_move_node, apply_activate_node, apply_deactivate_node,
    apply_revoke_node, apply_assign_to_vcluster, apply_unassign_node,
    apply_update_last_seen, apply_update_cert, apply_register_node,
    apply_decide_approval, apply_record_operation, apply_set_overlay,
    apply_append_entry, apply_set_state, update_enrollment, put_enrollment in *.

Section invariants.
Context `{Chrono}.
Implicit Types (s : JournalState) (cmd : JournalCommand).

Lemma append_or_not cmd : (∃ e, cmd = AppendEntry e) ∨ (∀ e, cmd ≠ AppendEntry e).
Proof. destruct cmd; eauto; by right. Qed.
Lemma overlay_or_not cmd :
  (∃ vc ov, cmd = SetOverlay vc ov) ∨ (∀ vc ov, cmd ≠ SetOverlay vc ov).
Proof. destruct cmd; eauto; by right. Qed.
Lemma record_or_not cmd :
  (∃ op, cmd = RecordOperation op) ∨ (∀ op, cmd ≠ RecordOperation op).
Proof. destruct cmd; eauto; by right. Qed.

(** Only [AppendEntry] touches the history. *)
Lemma apply_entries_frame now cmd s :
  (∀ e, cmd ≠ AppendEntry e) →
  entries (apply now cmd s).1 = entries s ∧
  next_sequence (apply now cmd s).1 = next_sequence s.
Proof. intros Hne. destruct cmd; try (by destruct (Hne entry)); unfold_apply; repeat case_match; done. Qed.

Lemma apply_overlays_frame now cmd s :
  (∀ vc ov, cmd ≠ SetOverlay vc ov) → overlays (apply now cmd s).1 = overlays s.
Proof. intros Hne. destruct cmd; try (by edestruct Hne); unfold_apply; repeat case_match; done. Qed.

Lemma apply_audit_frame now cmd s :
  (∀ op, cmd ≠ RecordOperation op) → audit_log (apply now cmd s).1 = audit_log s.
Proof. intros Hne. destruct cmd; try (by edestruct Hne); unfold_apply; repeat case_match; done. Qed.

Lemma ttl_error_None t x :
  ttl_error (Some t) = None → x = t → x = 0%N ∨ (TTL_MIN_SECONDS <= x <= TTL_MAX_SECONDS)%N.
Proof. unfold ttl_error. intros ? ->. case_all. lia. Qed.

Lemma is_empty_false str : Str.is_empty str = false → str ≠ "".
Proof. by destruct str. Qed.

(** What a successful append does, and that every other outcome changes
    nothing. *)
Lemma append_entry_cases entry s s' r :
  apply_append_entry entry s = (s', r) →
  (s' = s ∧ ∃ reason, r = ValidationError reason) ∨
  (let seq := next_sequence s in
   s' = set_entries s (<[seq := with_sequence entry seq]> (entries s)) (wrap_u64 (seq + 1)) ∧
   r = EntryAppended seq ∧
   ((next_sequence s < 2 ^ 64)%N → entry_ok seq (with_sequence entry seq))).
Proof.
  unfold apply_append_entry.
  destruct (Str.is_empty (principal _)) eqn:Hp; [intros; simplify_eq; eauto|].
  destruct (Str.is_empty (role _)) eqn:Hr; [intros; simplify_eq; eauto|].
  destruct (match entry_parent entry with Some _ => _ | None => _ end) eqn:Hpar;
    [intros; simplify_eq; eauto|].
  destruct (ttl_error _) eqn:Ht; intros; simplify_eq; [eauto|]. right. split_and!; try done.
  intros _. split; simpl; [done|by apply is_empty_false|by apply is_empty_false| |].
  - intros p Hp'. rewrite Hp' in Hpar. apply bool_decide_eq_false in Hpar. lia.
  - intros t Ht'. rewrite Ht' in Ht. by eapply ttl_error_None.
Qed.

(** The checks of an append are all there is to it. *)
Lemma append_entry_taken e s :
  principal (entry_author e) ≠ "" → role (entry_author e) ≠ "" →
  (∀ p, entry_parent e = Some p → (p < next_sequence s)%N) →
  (∀ t, entry_ttl_seconds e = Some t → t = 0%N ∨ (TTL_MIN_SECONDS <= t <= TTL_MAX_SECONDS)%N) →
  (apply_append_entry e s).2 = EntryAppended (next_sequence s).
Proof.
  intros Hp Hr Hpar Httl. unfold apply_append_entry.
  destruct (principal (entry_author e)); [done|]. destruct (role (entry_author e)); [done|]. simpl.
  assert (ttl_error (entry_ttl_seconds e) = None) as ->.
  { unfold ttl_error. destruct (entry_ttl_seconds e) as [t|]; [|done].
    specialize (Httl t eq_refl). rewrite !decide_False by lia. done. }
  destruct (entry_parent e) as [p|]; [|done]. specialize (Hpar p eq_refl).
  rewrite bool_decide_eq_false_2 by lia. done.
Qed.

Lemma wrap_u64_small n : (n < 2 ^ 64)%N → wrap_u64 n = n.
Proof. intros Hn. apply N.mod_small. exact Hn. Qed.

Lemma apply_entries_wf now cmd s :
  (next_sequence s + 1 < 2 ^ 64)%N → entries_wf s → entries_wf (apply now cmd s).1.
Proof.
  intros Hb [Hdom Hok].
  destruct (append_or_not cmd) as [[e ->]|Hne]; last first.
  { unfold entries_wf. edestruct (apply_entries_frame now cmd s) as [-> ->]; done. }
  simpl. destruct (apply_append_entry e s) as [s' r] eqn:E.
  apply append_entry_cases in E as [[-> _]|(-> & _ & Heok)]; [done|].
  simpl in Heok. split; simpl; rewrite ?wrap_u64_small by done.
  - intros i. rewrite lookup_insert. case_decide; [|rewrite Hdom; lia].
    split; [lia|eauto].
  - intros i e'. rewrite lookup_insert. case_decide; [|apply Hok].
    intros; simplify_eq. apply Heok. lia.
Qed.

Lemma apply_overlays_wf now cmd s : overlays_wf s → overlays_wf (apply now cmd s).1.
Proof.
  intros Hwf. destruct (overlay_or_not cmd) as [(vc & ov & ->)|Hne]; last first.
  { unfold overlays_wf. rewrite apply_overlays_frame; done. }
  simpl. unfold apply_set_overlay. repeat case_decide; simpl; try done.
  intros vc' ov' Hl. simpl in Hl. lookup_cases; [|by eapply Hwf]. split; [done|]. lia.
Qed.

Lemma apply_audit_wf now cmd s : audit_wf s → audit_wf (apply now cmd s).1.
Proof.
  intros Hwf. destruct (record_or_not cmd) as [[op ->]|Hne]; last first.
  { unfold audit_wf. rewrite apply_audit_frame; done. }
  unfold audit_wf. simpl. case_decide; simpl; [|lia]. rewrite length_drop. lia.
Qed.

(** The commands that update one enrollment keep its node and hardware. *)
Lemma hw_wf_update s n e e' assigns :
  hw_wf s → enrollments s !! n = Some e →
  enr_node_id e' = enr_node_id e → enr_hardware_identity e' = enr_hardware_identity e →
  hw_wf (set_nodes s (<[n := e']> (enrollments s)) assigns (hw_index s)).
Proof.
  intros [H1 H2] Hn Hid Hhw. split; simpl.
  - intros n' e0 Hl. lookup_cases; [|by apply H1]. rewrite Hid, Hhw. by apply H1.
  - intros k n' Hk. destruct (H2 _ _ Hk) as (e0 & He0 & Hkey).
    lookup_cases; [|eauto]. eexists. split; [done|]. congruence.
Qed.

Lemma hw_wf_register s e :
  hw_wf s → enrollments s !! enr_node_id e = None →
  hw_index s !! hw_canonical_key (enr_hardware_identity e) = None →
  hw_wf (set_nodes s (<[enr_node_id e := e]> (enrollments s)) (node_assignments s)
           (<[hw_canonical_key (enr_hardware_identity e) := enr_node_id e]> (hw_index s))).
Proof.
  intros [H1 H2] Hn Hk. split; simpl.
  - intros n' e0 Hl. lookup_cases; try done.
    + exfalso. destruct (H1 _ _ Hl). congruence.
    + by apply H1.
  - intros k n' Hl. rewrite lookup_insert in Hl. case_decide; simplify_eq.
    + exists e. by rewrite lookup_insert_eq.
    + destruct (H2 _ _ Hl) as (e0 & He0 & Hkey). exists e0. lookup_cases; done.
Qed.

Lemma apply_hw_wf now cmd s : hw_wf s → hw_wf (apply now cmd s).1.
Proof.
  intros Hwf. destruct cmd; unfold_apply; repeat (case_decide || case_match); simpl; try done;
    try (by eapply hw_wf_update); by apply hw_wf_register.
Qed.

Lemma apply_wf now cmd s :
  (next_sequence s + 1 < 2 ^ 64)%N → journal_wf s → journal_wf (apply now cmd s).1.
Proof.
  intros Hb [He Ho Ha Hh].
  split; eauto using apply_entries_wf, apply_overlays_wf, apply_audit_wf, apply_hw_wf.
Qed.

Lemma journal_init_wf : journal_wf journal_init.
Proof.
  split.
  - split; simpl; intros i; rewrite lookup_empty; [|done]. split; [by intros []|lia].
  - intros vc ov. simpl. by rewrite lookup_empty.
  - unfold audit_wf. simpl. lia.
  - split; simpl; intros ??; by rewrite lookup_empty.
Qed.

(** One command numbers at most one entry. *)
Lemma apply_next_sequence now cmd s :
  (next_sequence s + 1 < 2 ^ 64)%N →
  (next_sequence s <= next_sequence (apply now cmd s).1 <= next_sequence s + 1)%N.
Proof.
  intros Hb. destruct (append_or_not cmd) as [[e ->]|Hne]; last first.
  { edestruct (apply_entries_frame now cmd s) as [_ ->]; [done|lia]. }
  simpl. destruct (apply_append_entry e s) as [s' r] eqn:E.
  apply append_entry_cases in E as [[-> _]|(-> & _ & _)]; simpl; [lia|].
  rewrite wrap_u64_small by done. lia.
Qed.

(** Every log preserves the invariant, as long as fewer than 2^64 commands
    have been applied. *)
Lemma apply_log_wf log s :
  (next_sequence s + N.of_nat (length log) < 2 ^ 64)%N →
  journal_wf s → journal_wf (apply_log log s).
Proof.
  revert s. induction log as [|[now cmd] log IH]; intros s Hb Hwf; [done|].
  simpl in *. apply IH.
  - pose proof (apply_next_sequence now cmd s). lia.
  - apply apply_wf; [lia|done].
Qed.

(** J2: no command removes or changes an entry. *)
Lemma apply_entries_mono now cmd s :
  journal_wf s → entries s ⊆ entries (apply now cmd s).1.
Proof.
  intros [[Hdom _] _ _ _].
  destruct (append_or_not cmd) as [[e ->]|Hne]; last first.
  { edestruct (apply_entries_frame now cmd s) as [-> _]; [done|done]. }
  simpl. destruct (apply_append_entry e s) as [s' r] eqn:E.
  apply append_entry_cases in E as [[-> _]|(-> & _ & _)]; [done|]. simpl.
  apply insert_subseteq. apply eq_None_not_Some. rewrite Hdom. lia.
Qed.

Lemma apply_log_app log1 log2 s :
  apply_log (log1 ++ log2) s = apply_log log2 (apply_log log1 s).
Proof. apply foldl_app. Qed.

Lemma apply_log_entries_mono log s :
  (next_sequence s + N.of_nat (length log) < 2 ^ 64)%N →
  journal_wf s → entries s ⊆ entries (apply_log log s).
Proof.
  revert s. induction log as [|[now cmd] log IH]; intros s Hb Hwf; [done|]. simpl in *.
  pose proof (apply_next_sequence now cmd s ltac:(lia)).
  etrans; [by apply (apply_entries_mono now cmd)|].
  apply IH; [lia|]. apply apply_wf; [lia|done].
Qed.

Lemma apply_log_next_sequence log s :
  (next_sequence s + N.of_nat (length log) < 2 ^ 64)%N →
  (next_sequence (apply_log log s) <= next_sequence s + N.of_nat (length log))%N.
Proof.
  revert s. induction log as [|[now cmd] log IH]; intros s Hb; simpl in *; [lia|].
  pose proof (apply_next_sequence now cmd s ltac:(lia)).
  specialize (IH (apply now cmd s).1). lia.
Qed.

Lemma apply_log_next_sequence_mono log s :
  (next_sequence s + N.of_nat (length log) < 2 ^ 64)%N →
  (next_sequence s <= next_sequence (apply_log log s))%N.
Proof.
  revert s. induction log as [|[now cmd] log IH]; intros s Hb; simpl in *; [lia|].
  pose proof (apply_next_sequence now cmd s ltac:(lia)).
  specialize (IH (apply now cmd s).1). lia.
Qed.

(** ** Frames of the enrollment part *)

Lemma apply_revoked_serials now cmd s :
  revoked_serials (apply now cmd s).1 = revoked_serials s.
Proof. destruct cmd; unfold_apply; repeat case_match; done. Qed.

(** The node a command may move in the enrollment life cycle. *)
Definition lifecycle_node (cmd : JournalCommand) : option NodeId :=
  match cmd with
  | ActivateNode n _ _ | DeactivateNode n | RevokeNode n => Some n
  | _ => None
  end.

(** The life cycle step each command allows; registration creates the
    record in the state it was submitted with. *)
Definition lifecycle_step (cmd : JournalCommand) (n : NodeId) (a b : EnrollmentState) : Prop :=
  a = b ∨
  (∃ ser exp, cmd = ActivateNode n ser exp ∧ (a = Registered ∨ a = Inactive) ∧ b = Active) ∨
  (cmd = DeactivateNode n ∧ b = Inactive) ∨
  (cmd = RevokeNode n ∧ b = Revoked).

Lemma apply_lifecycle now cmd s n e :
  enrollments s !! n = Some e →
  ∃ e', enrollments (apply now cmd s).1 !! n = Some e' ∧
    lifecycle_step cmd n (enr_state e) (enr_state e').
Proof.
  intros Hn. unfold lifecycle_step.
  destruct cmd; unfold_apply; repeat (case_decide || case_match); simpl;
    try (exists e; by auto); lookup_cases; eauto 10.
  - eexists. split; [done|]. right. left. do 2 eexists. split; [done|]. split; [|done].
    destruct (enr_state e); naive_solver.
Qed.

(** Decided approvals are only touched by a new request of the same id. *)
Lemma apply_approval_stable now cmd s id a :
  pending_approvals s !! id = Some a → apr_status a ≠ Pending →
  (∀ b, cmd = CreateApproval b → apr_approval_id b ≠ id) →
  pending_approvals (apply now cmd s).1 !! id = Some a.
Proof.
  intros Ha Hst Hne. destruct cmd; unfold_apply; repeat (case_decide || case_match); simpl; try done.
  - lookup_cases; [|done]. by destruct (Hne approval).
  - lookup_cases; done.
Qed.

Lemma decided_approval_stable log s id a :
  pending_approvals s !! id = Some a → apr_status a ≠ Pending →
  (∀ t b, (t, CreateApproval b) ∈ log → apr_approval_id b ≠ id) →
  pending_approvals (apply_log log s) !! id = Some a.
Proof.
  revert s. induction log as [|[t c] log IH]; intros s Ha Hst Hne; [done|].
  simpl. apply IH; [|done|].
  - apply apply_approval_stable; [done|done|]. intros b ->. eapply Hne. left.
  - intros t' b Hin. eapply Hne. by right.
Qed.

(** A decision is refused, or it decides a pending request of someone else. *)
Lemma decide_approval_cases id who d s :
  (∃ reason, apply_decide_approval id who d s = (s, ValidationError reason)) ∨
  (∃ a, pending_approvals s !! id = Some a ∧ apr_status a = Pending ∧
     principal (apr_requester a) ≠ principal who ∧
     apply_decide_approval id who d s =
       (set_approvals s (<[id := decide_with a d (Some who)]> (pending_approvals s)), RespOk)).
Proof.
  unfold apply_decide_approval. destruct (pending_approvals s !! id) as [a|]; [|left; by eexists].
  repeat case_decide; [left; by eexists..|]. right. exists a. split_and!; try done.
Qed.

(** Records of enrolled nodes stay, with their hardware identity. *)
Lemma apply_hardware now cmd s n e :
  enrollments s !! n = Some e →
  ∃ e', enrollments (apply now cmd s).1 !! n = Some e' ∧
    enr_hardware_identity e' = enr_hardware_identity e.
Proof.
  intros Hn. destruct cmd; unfold_apply; repeat (case_decide || case_match); simpl; eauto;
    lookup_cases; eauto.
Qed.

Lemma apply_log_hardware log s n e :
  enrollments s !! n = Some e →
  ∃ e', enrollments (apply_log log s) !! n = Some e' ∧
    enr_hardware_identity e' = enr_hardware_identity e.
Proof.
  revert s e. induction log as [|[t c] log IH]; intros s e Hn; [eauto|]. simpl.
  destruct (apply_hardware t c s n e Hn) as (e1 & H1 & <-). by apply IH.
Qed.

Lemma apply_log_hw_wf log s : hw_wf s → hw_wf (apply_log log s).
Proof.
  revert s. induction log as [|[t c] log IH]; intros s Hwf; [done|]. simpl. apply IH. by apply apply_hw_wf.
Qed.

(** An activation is refused, or it activates a registered or inactive node. *)
Lemma activate_node_cases now n ser exp s :
  (∃ reason, apply_activate_node now n ser exp s = (s, ValidationError reason)) ∨
  (∃ e, enrollments s !! n = Some e ∧ (enr_state e = Registered ∨ enr_state e = Inactive) ∧
     apply_activate_node now n ser exp s =
       (put_enrollment n (enr_with e Active (enr_vcluster_id e) (Some ser) (parse_from_rfc3339 exp) (Some now)) s,
        EnrollmentResult n Active (enr_vcluster_id e))).
Proof.
  unfold apply_activate_node, update_enrollment, not_enrolled.
  destruct (enrollments s !! n) as [e|]; [|left; by eexists].
  repeat case_decide; [left; by eexists..|]. right. exists e. split_and!; try done.
  destruct (enr_state e); naive_solver.
Qed.

(** Along a log without a deactivation, a node that is active or revoked
    stays one of the two. *)
Lemma active_or_revoked log s n e :
  enrollments s !! n = Some e → enr_state e = Active ∨ enr_state e = Revoked →
  (∀ t, (t, DeactivateNode n) ∉ log) →
  ∃ e', enrollments (apply_log log s) !! n = Some e' ∧ (enr_state e' = Active ∨ enr_state e' = Revoked).
Proof.
  revert s e. induction log as [|[t c] log IH]; intros s e Hn Hst Hno; [eauto|]. simpl.
  destruct (apply_lifecycle t c s n e Hn) as (e' & Hn' & Hstep). apply (IH _ e' Hn').
  - unfold lifecycle_step in Hstep. destruct Hstep as [<-|[(? & ? & ? & ? & ->)|[[-> ?]|[? ->]]]]; auto.
    exfalso. apply (Hno t). left.
  - intros t' Hin. apply (Hno t'). by right.
Qed.

End invariants.

#[export] Hint Resolve journal_init_wf apply_wf : pact.
