(* ===== verification/JournalProperties.v ===== *)
(** * What the journal guarantees

    The theorems on the state machine: reachable states are well formed,
    history is immutable, rejected commands change nothing, replicas that
    apply the same log agree up to clock readings, hardware identities are
    unique, and the approval and enrollment life cycles. *)

From S2P Require Import Prelude Types Checksum JournalState JournalInvariants.
From stdpp Require Import options.

(** ** Concrete values for the witnesses *)

Module JournalSample.

#[export] Instance chrono : Chrono :=
  {| parse_from_rfc3339 := λ s, Z.of_N <$> Str.parse_unsigned u64_max s;
     to_rfc3339 := λ t, pretty t |}.

Definition admin : Identity :=
  {| principal := "admin@example.com"; principal_type := Human; role := "pact-platform-admin" |}.
Definition second : Identity :=
  {| principal := "second@example.com"; principal_type := Human; role := "pact-ops-ml" |}.

Definition entry (parent : option N) (ttl : option N) : ConfigEntry :=
  {| entry_sequence := 0; entry_timestamp := 0; entry_type := ET_Commit;
     entry_scope := Global; entry_author := admin; entry_parent := parent;
     entry_state_delta := None; entry_policy_ref := None;
     entry_ttl_seconds := ttl; entry_emergency_reason := None |}.

Definition hw (mac : string) : HardwareIdentity :=
  {| hw_mac_address := mac; hw_bmc_serial := None; hw_extra := ∅ |}.

Definition enrollment (node mac : string) : NodeEnrollment :=
  {| enr_node_id := node; enr_domain_id := "site"; enr_state := Registered;
     enr_hardware_identity := hw mac; enr_vcluster_id := None;
     enr_cert_serial := None; enr_cert_expires_at := None;
     enr_last_seen := None; enr_enrolled_at := 0;
     enr_enrolled_by := admin; enr_active_sessions := 0 |}.

Definition approval (id : string) : PendingApproval :=
  {| apr_approval_id := id; apr_original_request := "commit";
     apr_action := "commit"; apr_scope := VCluster "ml";
     apr_requester := admin; apr_approver := None; apr_status := Pending;
     apr_created_at := 0; apr_expires_at := seconds 100 |}.

Definition log : list (DateTime * JournalCommand) :=
  [(0%Z, AppendEntry (entry None None));
   (1%Z, RegisterNode (enrollment "node-1" "AA:BB"));
   (2%Z, AppendEntry (entry (Some 0%N) (Some 900%N)));
   (3%Z, ActivateNode "node-1" "serial-1" "9000");
   (4%Z, CreateApproval (approval "a1"))].

End JournalSample.

Section properties.
Context `{Chrono}.

(** ** Replicas *)

(** Forgets the last-seen times, the only data that depends on a clock. *)
Definition erase_clock (s : JournalState) : JournalState :=
  set_nodes s ((λ e, set_enr_last_seen e None) <$> enrollments s) (node_assignments s) (hw_index s).

Definition state_equiv (s1 s2 : JournalState) : Prop := erase_clock s1 = erase_clock s2.

#[local] Instance state_equiv_equiv : Equivalence state_equiv.
Proof. unfold state_equiv. split; [done|by intros ??|intros ???; congruence]. Qed.

Lemma apply_erase_clock now now' cmd s :
  erase_clock (apply now cmd s).1 = erase_clock (apply now' cmd (erase_clock s)).1 ∧
  (apply now cmd s).2 = (apply now' cmd (erase_clock s)).2.
Proof.
  unfold erase_clock.
  destruct cmd; unfold_apply; simpl; rewrite ?lookup_fmap;
    repeat (case_match; simpl in *; simplify_eq); try done;
    (split; [|done]); unfold set_nodes; simpl; f_equal; rewrite ?fmap_insert, <- ?map_fmap_compose; try done;
    try (f_equal; by apply map_fmap_ext).
Qed.

#[local] Instance apply_proper now cmd :
  Proper (state_equiv ==> state_equiv) (λ s, (apply now cmd s).1).
Proof.
  intros s1 s2 Heq. unfold state_equiv in *.
  destruct (apply_erase_clock now now cmd s1) as [-> _].
  destruct (apply_erase_clock now now cmd s2) as [-> _]. by rewrite Heq.
Qed.

Lemma apply_response_equiv now now' cmd s1 s2 :
  state_equiv s1 s2 → (apply now cmd s1).2 = (apply now' cmd s2).2.
Proof.
  intros Heq. destruct (apply_erase_clock now now cmd s1) as [_ ->].
  destruct (apply_erase_clock now' now cmd s2) as [_ ->]. unfold state_equiv in Heq. by rewrite Heq.
Qed.

Lemma apply_clock_equiv now now' cmd s : state_equiv (apply now cmd s).1 (apply now' cmd s).1.
Proof.
  unfold state_equiv. destruct (apply_erase_clock now now cmd s) as [-> _].
  by destruct (apply_erase_clock now' now cmd s) as [-> _].
Qed.

(** The responses a replica gives along a log. *)
Fixpoint log_responses (log : list (DateTime * JournalCommand)) (s : JournalState) : list JournalResponse :=
  match log with
  | [] => []
  | (now, cmd) :: log' => (apply now cmd s).2 :: log_responses log' (apply now cmd s).1
  end.

Lemma log_replicas l1 l2 s1 s2 :
  l1.*2 = l2.*2 → state_equiv s1 s2 →
  state_equiv (apply_log l1 s1) (apply_log l2 s2) ∧ log_responses l1 s1 = log_responses l2 s2.
Proof.
  revert l2 s1 s2. induction l1 as [|[t1 c1] l1 IH]; intros [|[t2 c2] l2] s1 s2 Hc Heq;
    simplify_eq/=; [done|].
  destruct (IH l2 (apply t1 c2 s1).1 (apply t2 c2 s2).1) as [Hs Hr]; [done| |].
  { etrans; [by apply apply_proper|]. apply apply_clock_equiv. }
  split; [done|]. by rewrite (apply_response_equiv t1 t2 c2 s1 s2), Hr.
Qed.

(** C1: Every state reachable by applying fewer than 2^64 commands to the
    initial state satisfies the journal invariant: entries are numbered 0,
    1, 2, ... without gaps and carry their own number, an author principal
    and role, a parent that precedes them and a lifetime of zero or between
    15 minutes and 10 days; stored overlays match their checksum and size
    limit; the audit log is capped; and the hardware index is the inverse of
    the enrollment table. *)
Theorem journal_reachable_wf log :
  (N.of_nat (length log) < 2 ^ 64)%N → journal_wf (apply_log log journal_init).
Proof. intros Hl. apply apply_log_wf; [done|]. apply journal_init_wf. Qed.

(** History is immutable and append-only: whatever commands follow, every
    entry of the journal stays in place unchanged. *)
Theorem journal_history_immutable log1 log2 :
  (N.of_nat (length (log1 ++ log2)) < 2 ^ 64)%N →
  entries (apply_log log1 journal_init) ⊆ entries (apply_log (log1 ++ log2) journal_init).
Proof.
  intros Hl. rewrite length_app in Hl. rewrite apply_log_app.
  pose proof (apply_log_next_sequence log1 journal_init) as Hn. simpl in Hn.
  apply apply_log_entries_mono; [lia|]. apply apply_log_wf; [simpl; lia|]. apply journal_init_wf.
Qed.

(** Appending accepts exactly the entries with a non-empty author, a parent
    that precedes the next number and an accepted lifetime; an accepted entry
    is stored under the next sequence number, which is returned, and the
    counter advances by one. *)
Theorem append_entry_accepts now e s :
  (next_sequence s + 1 < 2 ^ 64)%N →
  ((∃ seq, (apply now (AppendEntry e) s).2 = EntryAppended seq) ↔
   principal (entry_author e) ≠ "" ∧ role (entry_author e) ≠ "" ∧
   (∀ p, entry_parent e = Some p → (p < next_sequence s)%N) ∧
   (∀ t, entry_ttl_seconds e = Some t → t = 0%N ∨ (TTL_MIN_SECONDS <= t <= TTL_MAX_SECONDS)%N)) ∧
  (∀ seq, (apply now (AppendEntry e) s).2 = EntryAppended seq →
   apply now (AppendEntry e) s =
    (set_entries s (<[next_sequence s := with_sequence e (next_sequence s)]> (entries s)) (next_sequence s + 1),
     EntryAppended (next_sequence s))).
Proof.
  intros Hb. simpl. destruct (apply_append_entry e s) as [s' r] eqn:E.
  pose proof (append_entry_cases _ _ _ _ E) as Hcases. simpl. split; [split|].
  - intros [seq ->]. destruct Hcases as [[_ [? ?]]|(_ & _ & Hok)]; [done|].
    destruct Hok as [? ? ? ? ?]; [lia|]. simpl in *. by split_and!.
  - intros (Hp & Hr & Hpar & Httl). exists (next_sequence s).
    pose proof (append_entry_taken e s Hp Hr Hpar Httl) as Ht. by rewrite E in Ht.
  - intros seq ->. destruct Hcases as [[_ [? ?]]|(-> & -> & _)]; [done|].
    simpl. by rewrite wrap_u64_small.
Qed.

(** Errors are atomic: a command answered with a validation error leaves the
    state exactly as it was. *)
Theorem apply_error_unchanged now cmd s reason :
  (apply now cmd s).2 = ValidationError reason → (apply now cmd s).1 = s.
Proof. destruct cmd; unfold_apply; repeat (case_decide || case_match); simpl; done. Qed.

(** C27: Replicas agree: two replicas that apply the same commands give the same
    responses and reach the same state up to the last-seen times, whatever
    their clocks read. *)
Theorem replicas_agree l1 l2 :
  l1.*2 = l2.*2 →
  state_equiv (apply_log l1 journal_init) (apply_log l2 journal_init) ∧
  log_responses l1 journal_init = log_responses l2 journal_init.
Proof. intros Hc. by apply log_replicas. Qed.

(** Hardware identities are unique: in a reachable state, two enrolled nodes
    whose hardware has the same canonical key are the same node. *)
Theorem hardware_identity_unique log n1 n2 e1 e2 :
  (N.of_nat (length log) < 2 ^ 64)%N →
  enrollments (apply_log log journal_init) !! n1 = Some e1 →
  enrollments (apply_log log journal_init) !! n2 = Some e2 →
  hw_canonical_key (enr_hardware_identity e1) = hw_canonical_key (enr_hardware_identity e2) →
  n1 = n2.
Proof.
  intros Hl H1 H2 Hk.
  destruct (apply_log_wf log journal_init Hl journal_init_wf) as [_ _ _ [Hw _]].
  apply Hw in H1 as [_ H1]. apply Hw in H2 as [_ H2]. congruence.
Qed.

(** Two-person approval: a decision is recorded exactly when the request
    exists, is still pending and the decider is not the requester, and a
    decided approval keeps its status and decider under every later command
    other than a new request with the same identifier. *)
Theorem approval_decided_once now id who d s :
  ((apply now (DecideApproval id who d) s).2 = RespOk ↔
   ∃ a, pending_approvals s !! id = Some a ∧ apr_status a = Pending ∧
        principal (apr_requester a) ≠ principal who) ∧
  (∀ log a, pending_approvals s !! id = Some a → apr_status a ≠ Pending →
     (∀ t b, (t, CreateApproval b) ∈ log → apr_approval_id b ≠ id) →
     pending_approvals (apply_log log s) !! id = Some a).
Proof.
  split; [|intros log a; apply decided_approval_stable].
  simpl. unfold apply_decide_approval.
  destruct (pending_approvals s !! id) as [a|]; [|naive_solver].
  repeat case_decide; simpl; split; try done; try (by intros (? & ? & ? & ?); simplify_eq).
  intros _. exists a. by split_and!.
Qed.

(** Enrollment life cycle: a command moves an enrolled node only along
    Registered or Inactive to Active (activation), any state to Inactive
    (deactivation) or any state to Revoked (revocation), never removes its
    record, and activation of a revoked or active node is refused. *)
Theorem enrollment_lifecycle now cmd s n e :
  enrollments s !! n = Some e →
  (∃ e', enrollments (apply now cmd s).1 !! n = Some e' ∧
     lifecycle_step cmd n (enr_state e) (enr_state e')) ∧
  (∀ ser exp, enr_state e = Revoked ∨ enr_state e = Active →
     ∃ reason, apply now (ActivateNode n ser exp) s = (s, ValidationError reason)).
Proof.
  intros Hn. split; [by apply apply_lifecycle|]. intros ser exp Hst.
  simpl. unfold apply_activate_node, update_enrollment. rewrite Hn.
  repeat case_decide; naive_solver.
Qed.

(** Revocation lasts exactly as long as no deactivation of the node is
    committed: along any log without one, a revoked node stays revoked. *)
Theorem revoked_until_deactivated log s n e :
  enrollments s !! n = Some e → enr_state e = Revoked →
  (∀ t, (t, DeactivateNode n) ∉ log) →
  ∃ e', enrollments (apply_log log s) !! n = Some e' ∧ enr_state e' = Revoked.
Proof.
  revert s e. induction log as [|[t c] log IH]; intros s e Hn Hst Hno; [eauto|]. simpl.
  destruct (apply_lifecycle t c s n e Hn) as (e' & Hn' & Hstep).
  apply (IH _ e' Hn').
  - unfold lifecycle_step in Hstep. rewrite Hst in Hstep.
    destruct Hstep as [?|[(? & ? & ? & [?|?] & ?)|[[-> ?]|[? ?]]]]; try done.
    exfalso. apply (Hno t). left.
  - intros t' Hin. apply (Hno t'). by right.
Qed.

(** The revocation registry stays empty: no command adds a certificate
    serial to it, so revoking a node never records its certificate. *)
Theorem revocation_registry_never_filled log :
  revoked_serials (apply_log log journal_init) = ∅.
Proof.
  unfold apply_log.
  assert (∀ l s, revoked_serials (foldl (λ s c, (apply c.1 c.2 s).1) s l) = revoked_serials s) as Hl.
  { induction l as [|c l IH]; intros s; [done|]. simpl. by rewrite IH, apply_revoked_serials. }
  apply Hl.
Qed.

End properties.

(** ** Witnesses *)

#[local] Existing Instance JournalSample.chrono.

Lemma journal_reachable_wf_witness : journal_wf (apply_log JournalSample.log journal_init).
Proof. apply journal_reachable_wf. vm_compute. reflexivity. Defined.

Lemma journal_history_immutable_witness :
  entries (apply_log (take 3 JournalSample.log) journal_init) ⊆
  entries (apply_log (take 3 JournalSample.log ++ drop 3 JournalSample.log) journal_init).
Proof. apply journal_history_immutable. vm_compute. reflexivity. Defined.

Lemma append_entry_accepts_witness :
  apply 0%Z (AppendEntry (JournalSample.entry None (Some 900%N))) journal_init =
    (set_entries journal_init {[ 0%N := JournalSample.entry None (Some 900%N) ]} 1, EntryAppended 0).
Proof.
  destruct (append_entry_accepts 0%Z (JournalSample.entry None (Some 900%N)) journal_init) as [_ Heq];
    [vm_compute; reflexivity|].
  exact (Heq 0%N eq_refl).
Defined.

Lemma apply_error_unchanged_witness :
  (apply 0%Z (RevokeNode "ghost") journal_init).1 = journal_init.
Proof. apply (apply_error_unchanged 0%Z (RevokeNode "ghost") journal_init "NODE_NOT_ENROLLED: ghost"). reflexivity. Defined.

Lemma replicas_agree_witness :
  state_equiv (apply_log JournalSample.log journal_init)
    (apply_log ((λ p, ((p.1 + 7)%Z, p.2)) <$> JournalSample.log) journal_init).
Proof. apply replicas_agree. reflexivity. Defined.

Lemma hardware_identity_unique_witness : "node-1" = "node-1".
Proof.
  apply (hardware_identity_unique JournalSample.log "node-1" "node-1"
    (default (JournalSample.enrollment "" "") (enrollments (apply_log JournalSample.log journal_init) !! "node-1"))
    (default (JournalSample.enrollment "" "") (enrollments (apply_log JournalSample.log journal_init) !! "node-1")));
    vm_compute; reflexivity.
Defined.

Lemma approval_decided_once_witness :
  (apply 0%Z (DecideApproval "a1" JournalSample.second Approved)
     (apply_log JournalSample.log journal_init)).2 = RespOk.
Proof.
  apply (approval_decided_once 0%Z "a1" JournalSample.second Approved (apply_log JournalSample.log journal_init)).
  exists (JournalSample.approval "a1"). split; [vm_compute; reflexivity|]. split; [reflexivity|]. discriminate.
Defined.

Lemma enrollment_lifecycle_witness :
  ∃ reason, apply 9%Z (ActivateNode "node-1" "serial-2" "9001") (apply_log JournalSample.log journal_init) =
    (apply_log JournalSample.log journal_init, ValidationError reason).
Proof.
  apply (enrollment_lifecycle 9%Z (RevokeNode "node-1") _ "node-1"
    (default (JournalSample.enrollment "" "") (enrollments (apply_log JournalSample.log journal_init) !! "node-1")));
    [vm_compute; reflexivity|]. right. vm_compute. reflexivity.
Defined.

Lemma revoked_until_deactivated_witness :
  ∃ e', enrollments (apply_log [(6%Z, ActivateNode "node-1" "s" "1")]
    (apply 5%Z (RevokeNode "node-1") (apply_log JournalSample.log journal_init)).1) !! "node-1" = Some e' ∧
    enr_state e' = Revoked.
Proof.
  apply (revoked_until_deactivated _ _ "node-1"
    (default (JournalSample.enrollment "" "")
       (enrollments (apply 5%Z (RevokeNode "node-1") (apply_log JournalSample.log journal_init)).1 !! "node-1"))).
  - vm_compute. reflexivity.
  - vm_compute. reflexivity.
  - intros t Hin. apply list_elem_of_singleton in Hin. discriminate.
Defined.
