(* ===== verification/Raft.v ===== *)
(** * Request handlers over the replicated log

    The gRPC handlers of the journal read the local state machine and write
    through Raft. A handler is a tree of these effects; the consensus layer
    (openraft, not part of the repository) is modelled by what a caller may
    observe: a write is applied and answered with the state machine's
    response, or fails, in which case it may or may not have been applied.
    Other clients' commands may be applied between any two effects. *)

From S2P Require Import Prelude Types JournalState.
From stdpp Require Import options.

(** gRPC status codes the source returns, and a status with its message. *)
Inductive Code :=
| InvalidArgument | NotFound | AlreadyExists | PermissionDenied
| Unauthenticated | ResourceExhausted | FailedPrecondition | Internal.

#[export] Instance Code_eq_dec : EqDecision Code.
Proof. solve_decision. Defined.

Record Status := mkStatus { status_code : Code; status_message : string }.

#[export] Instance Status_eq_dec : EqDecision Status.
Proof. solve_decision. Defined.

(** What becomes of a request on the network: it is answered, it never
    arrives, or its answer is lost. *)
Inductive CallFault := Delivered | NotSent (st : Status) | ReplyLost (st : Status).

(** What a handler asks for besides the journal: a signature of the
    certificate authority. *)
Inductive outside := SignRequest (csr : bytes) (node : NodeId).

Inductive prog (R : Type) : Type :=
| Ret (r : R)
| Read (k : JournalState → prog R)
| Write (cmd : JournalCommand) (k : result JournalResponse string → prog R)
| Ask (x : outside) (k : prog R).
Arguments Ret {_} _.
Arguments Read {_} _.
Arguments Write {_} _ _.
Arguments Ask {_} _ _.

Fixpoint prog_bind {R S} (p : prog R) (f : R → prog S) : prog S :=
  match p with
  | Ret r => f r
  | Read k => Read (λ s, prog_bind (k s) f)
  | Write c k => Write c (λ r, prog_bind (k r) f)
  | Ask x k => Ask x (prog_bind k f)
  end.

#[export] Instance prog_mret : MRet prog := @Ret.
#[export] Instance prog_mbind : MBind prog := λ R S f p, prog_bind p f.

(** [self.state.read().await]. *)
Definition read_state : prog JournalState := Read Ret.

(** [self.raft.client_write(cmd).await]. *)
Definition client_write (cmd : JournalCommand) : prog (result JournalResponse string) := Write cmd Ret.

(** [.map_err(|e| Status::internal(format!("Raft write failed: {e}")))]. *)
Definition raft_failed (e : string) : Status := mkStatus Internal ("Raft write failed: " +:+ e).

(** A call of a handler over the network. *)
Definition over_network {A} (fault : CallFault) (p : prog (result A Status)) : prog (result A Status) :=
  match fault with
  | Delivered => p
  | NotSent st => mret (Err st)
  | ReplyLost st => _ ← p; mret (Err st)
  end.

(** A handler's own write: the state it was applied to, the command, and
    what the handler was told. *)
Record event := { ev_before : JournalState; ev_cmd : JournalCommand;
                  ev_answer : result JournalResponse string }.

(** What happens during a request, in order: commands of others, own writes
    that were applied (answered or not) or never were, and calls outside. *)
Inductive occurrence :=
| Other (now : DateTime) (c : JournalCommand)
| Applied (now : DateTime) (c : JournalCommand)
| Missed (c : JournalCommand)
| Asked (x : outside).

Definition command_of (o : occurrence) : option (DateTime * JournalCommand) :=
  match o with Other t c | Applied t c => Some (t, c) | Missed _ | Asked _ => None end.
(** The commands the journal applied meanwhile. *)
Definition commands (h : list occurrence) : list (DateTime * JournalCommand) := omap command_of h.
(** Nothing but the own writes and calls, and every write applied. *)
Definition undisturbed (h : list occurrence) : Prop :=
  Forall (λ o, match o with Applied _ _ | Asked _ => True | Other _ _ | Missed _ => False end) h.
Definition others (log : list (DateTime * JournalCommand)) : list occurrence := (λ c, Other c.1 c.2) <$> log.

Lemma commands_app h1 h2 : commands (h1 ++ h2) = commands h1 ++ commands h2.
Proof. apply omap_app. Qed.
Lemma commands_others log : commands (others log) = log.
Proof. induction log as [|[t c] log IH]; [done|]. simpl. by f_equal. Qed.

Lemma undisturbed_others log h : undisturbed (others log ++ h) → log = [] ∧ undisturbed h.
Proof. destruct log as [|[t c] log]; [done|]. by intros [[] _]%Forall_cons. Qed.
Lemma undisturbed_cons o h : undisturbed (o :: h) → (∀ c, o ≠ Missed c) ∧ undisturbed h.
Proof. intros [Ho ?]%Forall_cons. split; [|done]. by intros c ->. Qed.
Lemma not_asked_others x log : Asked x ∉ others log.
Proof. unfold others. rewrite list_elem_of_fmap. by intros (? & ? & _). Qed.

Lemma not_asked_after x log o h : o ≠ Asked x → Asked x ∉ h → Asked x ∉ others log ++ o :: h.
Proof. intros Ho Hh. rewrite elem_of_app, elem_of_cons. intros [?%not_asked_others|[?|?]]; congruence. Qed.

Section semantics.
Context `{Chrono} {R : Type}.

(** One run without interference in which every write succeeds. *)
Fixpoint run (now : DateTime) (p : prog R) (s : JournalState) : JournalState * R :=
  match p with
  | Ret r => (s, r)
  | Read k => run now (k s) s
  | Write c k => let '(s', resp) := apply now c s in run now (k (Ok resp)) s'
  | Ask _ k => run now k s
  end.

(** Runs under interference: [runs_in h s p s' r tr] when [p] started in [s]
    may return [r] with the journal then in [s'], [h] being all that happened
    meanwhile and [tr] its own applied writes, in order. *)
Inductive runs_in : list occurrence → JournalState → prog R → JournalState → R → list event → Prop :=
| in_ret s r : runs_in [] s (Ret r) s r []
| in_env h s p s' r tr now c :
    runs_in h (apply now c s).1 p s' r tr → runs_in (Other now c :: h) s p s' r tr
| in_read h s k s' r tr :
    runs_in h s (k s) s' r tr → runs_in h s (Read k) s' r tr
| in_write h s c k s' r tr now :
    runs_in h (apply now c s).1 (k (Ok (apply now c s).2)) s' r tr →
    runs_in (Applied now c :: h) s (Write c k) s' r
      ({| ev_before := s; ev_cmd := c; ev_answer := Ok (apply now c s).2 |} :: tr)
| in_write_lost h s c k s' r tr e :
    runs_in h s (k (Err e)) s' r tr → runs_in (Missed c :: h) s (Write c k) s' r tr
| in_write_late h s c k s' r tr now e :
    runs_in h (apply now c s).1 (k (Err e)) s' r tr →
    runs_in (Applied now c :: h) s (Write c k) s' r ({| ev_before := s; ev_cmd := c; ev_answer := Err e |} :: tr)
| in_ask h s x k s' r tr :
    runs_in h s k s' r tr → runs_in (Asked x :: h) s (Ask x k) s' r tr.

Definition runs (s : JournalState) (p : prog R) (s' : JournalState) (r : R) (tr : list event) : Prop :=
  ∃ h, runs_in h s p s' r tr.

Lemma runs_ret s r : runs s (Ret r) s r [].
Proof. eexists. constructor. Qed.
Lemma runs_env s p s' r tr now c : runs (apply now c s).1 p s' r tr → runs s p s' r tr.
Proof. intros [h Hr]. eexists. by eapply in_env. Qed.
Lemma runs_read s k s' r tr : runs s (k s) s' r tr → runs s (Read k) s' r tr.
Proof. intros [h Hr]. eexists. by eapply in_read. Qed.
Lemma runs_write s c k s' r tr now :
  runs (apply now c s).1 (k (Ok (apply now c s).2)) s' r tr →
  runs s (Write c k) s' r ({| ev_before := s; ev_cmd := c; ev_answer := Ok (apply now c s).2 |} :: tr).
Proof. intros [h Hr]. eexists. by eapply in_write. Qed.

(** The executable run is one of the possible runs. *)
Lemma run_runs now p s : ∃ tr, runs s p (run now p s).1 (run now p s).2 tr.
Proof.
  revert s. induction p as [r|k IH|c k IH|x k IH]; intros s; simpl.
  - eexists. apply runs_ret.
  - destruct (IH s s) as [tr Ht]. eexists. by apply runs_read.
  - destruct (apply now c s) as [s' resp] eqn:E. destruct (IH (Ok resp) s') as [tr Ht].
    eexists. apply (runs_write s c k _ _ tr now). by rewrite E.
  - destruct (IH s) as [tr [h Ht]]. exists tr. eexists. by apply in_ask.
Qed.

(** What happens in that run. *)
Fixpoint history (now : DateTime) (p : prog R) (s : JournalState) : list occurrence :=
  match p with
  | Ret _ => []
  | Read k => history now (k s) s
  | Write c k => let '(s', resp) := apply now c s in Applied now c :: history now (k (Ok resp)) s'
  | Ask x k => Asked x :: history now k s
  end.
Lemma run_runs_in now p s : ∃ tr, runs_in (history now p s) s p (run now p s).1 (run now p s).2 tr.
Proof.
  revert s. induction p as [r|k IH|c k IH|x k IH]; intros s; simpl.
  - eexists. apply in_ret.
  - destruct (IH s s) as [tr Ht]. eexists. by apply in_read.
  - destruct (IH (Ok (apply now c s).2) (apply now c s).1) as [tr Ht]. pose proof (in_write _ s c k _ _ tr now Ht) as Hw.
    destruct (apply now c s) as [s' resp]. by eexists.
  - destruct (IH s) as [tr Ht]. eexists. by apply in_ask.
Qed.

(** Whatever the interference, the journal moves along the commands. *)
Lemma runs_in_state h s p s' r tr : runs_in h s p s' r tr → s' = apply_log (commands h) s.
Proof. induction 1; done. Qed.
Lemma runs_log s p s' r tr : runs s p s' r tr → ∃ log, s' = apply_log log s.
Proof. intros [h Hr]. eexists. by eapply runs_in_state. Qed.

(** A handler that only reads leaves the answer to the state it read. *)
Lemma runs_in_ret_inv h s r0 s' r tr :
  runs_in h s (Ret r0) s' r tr → r = r0 ∧ tr = [] ∧ ∃ log, h = others log.
Proof.
  remember (Ret r0) as p eqn:Hp. induction 1 as [|h s p s' r tr now c Hr IH| | | | |]; simplify_eq; [by split_and!; [..|exists []]|].
  destruct (IH eq_refl) as (-> & -> & log & ->). split_and!; [done..|by exists ((now, c) :: log)].
Qed.
Lemma runs_ret_inv s r0 s' r tr : runs s (Ret r0) s' r tr → r = r0 ∧ tr = [].
Proof. intros [h Hr]. by destruct (runs_in_ret_inv _ _ _ _ _ _ Hr) as (? & ? & _). Qed.

Lemma runs_in_read_inv h s k s' r tr :
  runs_in h s (Read k) s' r tr →
  ∃ log h', h = others log ++ h' ∧ runs_in h' (apply_log log s) (k (apply_log log s)) s' r tr.
Proof.
  remember (Read k) as p eqn:Hp.
  induction 1 as [|h s p s' r tr now c Hr IH|h s k' s' r tr Hr _| | | |]; simplify_eq; [|by exists [], h].
  destruct (IH eq_refl) as (log & h' & -> & Hl). by exists ((now, c) :: log), h'.
Qed.
Lemma runs_read_inv s k s' r tr :
  runs s (Read k) s' r tr → ∃ log, runs (apply_log log s) (k (apply_log log s)) s' r tr.
Proof. intros [h (log & h' & -> & Hr)%runs_in_read_inv]. exists log. by exists h'. Qed.

Lemma runs_in_ask_inv h s x k s' r tr :
  runs_in h s (Ask x k) s' r tr → ∃ log h', h = others log ++ Asked x :: h' ∧ runs_in h' (apply_log log s) k s' r tr.
Proof.
  remember (Ask x k) as p eqn:Hp.
  induction 1 as [|h s p s' r tr now c Hr IH| | | | |h s x' k' s' r tr Hr _]; simplify_eq; [|by exists [], h].
  destruct (IH eq_refl) as (log & h' & -> & Hl). by exists ((now, c) :: log), h'.
Qed.
Lemma runs_ask_inv s x k s' r tr : runs s (Ask x k) s' r tr → ∃ log, runs (apply_log log s) k s' r tr.
Proof. intros [h (log & h' & -> & Hr)%runs_in_ask_inv]. exists log. by exists h'. Qed.

(** The first write of a run: where it was applied and how it was answered,
    or that it failed, applied or not. *)
Lemma runs_in_write_inv h s c k s' r tr :
  runs_in h s (Write c k) s' r tr →
  ∃ log h', let s1 := apply_log log s in
  (∃ now tr', h = others log ++ Applied now c :: h' ∧
     tr = {| ev_before := s1; ev_cmd := c; ev_answer := Ok (apply now c s1).2 |} :: tr' ∧
     runs_in h' (apply now c s1).1 (k (Ok (apply now c s1).2)) s' r tr') ∨
  (∃ e, h = others log ++ Missed c :: h' ∧ runs_in h' s1 (k (Err e)) s' r tr) ∨
  (∃ now e tr', h = others log ++ Applied now c :: h' ∧
     tr = {| ev_before := s1; ev_cmd := c; ev_answer := Err e |} :: tr' ∧
     runs_in h' (apply now c s1).1 (k (Err e)) s' r tr').
Proof.
  remember (Write c k) as p eqn:Hp.
  induction 1 as [|h s p s' r tr now c' Hr IH| |h s c' k' s' r tr now|h s c' k' s' r tr e|h s c' k' s' r tr now e|]; simplify_eq.
  - destruct (IH eq_refl) as (log & h' & [(t & tr' & -> & -> & Hl)|[(e & -> & Hl)|(t & e & tr' & -> & -> & Hl)]]);
      exists ((now, c') :: log), h'; [left; by exists t, tr'|right; left; by exists e|right; right; by exists t, e, tr'].
  - exists [], h. left. by exists now, tr.
  - exists [], h. right. left. by exists e.
  - exists [], h. right. right. by exists now, e, tr.
Qed.

Lemma runs_write_inv s c k s' r tr :
  runs s (Write c k) s' r tr →
  (∃ log now tr', let s1 := apply_log log s in
     tr = {| ev_before := s1; ev_cmd := c; ev_answer := Ok (apply now c s1).2 |} :: tr' ∧
     runs (apply now c s1).1 (k (Ok (apply now c s1).2)) s' r tr') ∨
  (∃ log e tr', runs (apply_log log s) (k (Err e)) s' r tr' ∧
     (tr = tr' ∨ ∃ s0, tr = {| ev_before := s0; ev_cmd := c; ev_answer := Err e |} :: tr')).
Proof.
  intros [h (log & h' & [(t & tr' & -> & -> & Hl)|[(e & -> & Hl)|(t & e & tr' & -> & -> & Hl)]])%runs_in_write_inv].
  - left. exists log, t, tr'. split; [done|]. by exists h'.
  - right. exists log, e, tr. split; [by exists h'|by left].
  - right. exists (log ++ [(t, c)]), e, tr'. split; [|right; by eexists]. exists h'. unfold apply_log. by rewrite foldl_app.
Qed.

End semantics.

(** A run of a sequence is a run of its parts. *)
Lemma runs_in_bind_inv `{Chrono} {R S} (p : prog R) (f : R → prog S) h s s' r tr :
  runs_in h s (prog_bind p f) s' r tr →
  ∃ h1 h2 s1 r1 tr1 tr2, runs_in h1 s p s1 r1 tr1 ∧ runs_in h2 s1 (f r1) s' r tr2 ∧ h = h1 ++ h2 ∧ tr = tr1 ++ tr2.
Proof.
  remember (prog_bind p f) as q eqn:Hq. intros Hr. revert p Hq.
  assert (∀ r0 h s s' r tr q, runs_in h s q s' r tr → q = prog_bind (Ret r0) f →
    ∃ h1 h2 s1 r1 tr1 tr2, runs_in h1 s (Ret r0) s1 r1 tr1 ∧ runs_in h2 s1 (f r1) s' r tr2 ∧ h = h1 ++ h2 ∧ tr = tr1 ++ tr2) as Hret.
  { intros r0 h0 s0 s0' r' tr0 q0 Hr0 ->. exists [], h0, s0, r0, [], tr0. split_and!; [constructor|done..]. }
  induction Hr as [s r|h s q s' r tr now c Hr IH|h s k s' r tr Hr IH|h s c k s' r tr now Hr IH
    |h s c k s' r tr e Hr IH|h s c k s' r tr now e Hr IH|h s x k s' r tr Hr IH]; intros p Hq.
  - destruct p as [r0| | |]; simplify_eq/=. eapply Hret; [constructor|done].
  - destruct (IH p Hq) as (h1 & h2 & s1 & r1 & tr1 & tr2 & H1 & H2 & -> & ->). exists (Other now c :: h1), h2, s1, r1, tr1, tr2.
    split_and!; [by eapply in_env|done..].
  - destruct p as [r0|k0| |]; simplify_eq/=; [eapply Hret; [by apply in_read|done]|].
    destruct (IH (k0 s) eq_refl) as (h1 & h2 & s1 & r1 & tr1 & tr2 & H1 & H2 & -> & ->). exists h1, h2, s1, r1, tr1, tr2.
    split_and!; [by apply in_read|done..].
  - destruct p as [r0| |c0 k0|]; simplify_eq/=; [eapply Hret; [by apply in_write|done]|].
    destruct (IH (k0 _) eq_refl) as (h1 & h2 & s1 & r1 & tr1 & tr2 & H1 & H2 & -> & ->).
    eexists (_ :: h1), h2, s1, r1, (_ :: tr1), tr2. split_and!; [by eapply in_write|done..].
  - destruct p as [r0| |c0 k0|]; simplify_eq/=; [eapply Hret; [by eapply in_write_lost|done]|].
    destruct (IH (k0 _) eq_refl) as (h1 & h2 & s1 & r1 & tr1 & tr2 & H1 & H2 & -> & ->).
    eexists (_ :: h1), h2, s1, r1, tr1, tr2. split_and!; [by eapply in_write_lost|done..].
  - destruct p as [r0| |c0 k0|]; simplify_eq/=; [eapply Hret; [by eapply in_write_late|done]|].
    destruct (IH (k0 _) eq_refl) as (h1 & h2 & s1 & r1 & tr1 & tr2 & H1 & H2 & -> & ->).
    eexists (_ :: h1), h2, s1, r1, (_ :: tr1), tr2. split_and!; [by eapply in_write_late|done..].
  - destruct p as [r0| | |x0 k0]; simplify_eq/=; [eapply Hret; [by apply in_ask|done]|].
    destruct (IH k0 eq_refl) as (h1 & h2 & s1 & r1 & tr1 & tr2 & H1 & H2 & -> & ->).
    eexists (_ :: h1), h2, s1, r1, tr1, tr2. split_and!; [by eapply in_ask|done..].
Qed.
Lemma runs_bind_inv `{Chrono} {R S} (p : prog R) (f : R → prog S) s s' r tr :
  runs s (prog_bind p f) s' r tr →
  ∃ s1 r1 tr1 tr2, runs s p s1 r1 tr1 ∧ runs s1 (f r1) s' r tr2 ∧ tr = tr1 ++ tr2.
Proof.
  intros [h (h1 & h2 & s1 & r1 & tr1 & tr2 & H1 & H2 & -> & ->)%runs_in_bind_inv]. exists s1, r1, tr1, tr2.
  split_and!; [by exists h1|by exists h2|done].
Qed.

Lemma run_bind `{Chrono} {R S} now (p : prog R) (f : R → prog S) s :
  run now (p ≫= f) s = run now (f (run now p s).2) (run now p s).1.
Proof.
  revert s. induction p as [r|k IH|c k IH|x k IH]; intros s; [done|apply IH| |apply IH].
  simpl. destruct (apply now c s) as [s1 resp]. apply IH.
Qed.

(** A write whose outcome is ignored. *)
Lemma runs_write_ignored `{Chrono} {R} c (p : prog R) s s' r tr :
  runs s (client_write c ≫= λ _, p) s' r tr → ∃ s1 tr1, runs s1 p s' r tr1.
Proof. intros [(? & ? & ? & _ & Hr)|(? & ? & ? & Hr & _)]%runs_write_inv; eauto. Qed.

(** The commands a handler may write, whatever it reads and is told. *)
Fixpoint may_write {R} (P : JournalCommand → Prop) (p : prog R) : Prop :=
  match p with
  | Ret _ => True
  | Read k => ∀ s, may_write P (k s)
  | Write c k => P c ∧ ∀ r, may_write P (k r)
  | Ask _ k => may_write P k
  end.

Lemma may_write_runs `{Chrono} {R} P (p : prog R) s s' r tr :
  may_write P p → runs s p s' r tr → Forall (λ ev, P (ev_cmd ev)) tr.
Proof.
  intros Hp [h Hr]. induction Hr; simpl in *; try destruct Hp; try constructor; auto.
Qed.

Lemma may_write_bind {R S} P (p : prog R) (f : R → prog S) :
  may_write P p → (∀ r, may_write P (f r)) → may_write P (p ≫= f).
Proof.
  intros Hp Hf. induction p as [r|k IH|c k IH|x k IH]; simpl in *; [apply Hf|intros s; by apply IH| |by apply IH].
  split; [apply Hp|]. intros r. apply IH, Hp.
Qed.

(** What a program may return, whatever it reads and is told. *)
Fixpoint may_return {R} (P : R → Prop) (p : prog R) : Prop :=
  match p with
  | Ret r => P r
  | Read k => ∀ s, may_return P (k s)
  | Write c k => ∀ r, may_return P (k r)
  | Ask _ k => may_return P k
  end.

Lemma may_return_runs `{Chrono} {R} P (p : prog R) s s' r tr : may_return P p → runs s p s' r tr → P r.
Proof. intros Hp [h Hr]. induction Hr; simpl in *; auto. Qed.

Lemma may_return_bind {R S} (P : S → Prop) (p : prog R) (f : R → prog S) :
  (∀ r, may_return P (f r)) → may_return P (p ≫= f).
Proof. intros Hf. induction p as [r|k IH|c k IH|x k IH]; simpl; [apply Hf|intros ?; apply IH..|apply IH]. Qed.

Lemma may_return_impl {R} (P Q : R → Prop) (p : prog R) : (∀ r, P r → Q r) → may_return P p → may_return Q p.
Proof. intros HPQ. induction p as [r|k IH|c k IH|x k IH]; simpl; auto. Qed.

(** With what the first part may return. *)
Lemma may_return_bind' {R S} (P : R → Prop) (Q : S → Prop) (p : prog R) (f : R → prog S) :
  may_return P p → (∀ r, P r → may_return Q (f r)) → may_return Q (p ≫= f).
Proof. intros Hp Hf. induction p as [r|k IH|c k IH|x k IH]; simpl in *; [by apply Hf|intros ?; apply IH, Hp..|by apply IH]. Qed.
