(* ===== verification/ConfigService.v ===== *)
(** * The configuration service

    crates/pact-journal/src/service.rs: the gRPC ConfigService. Writes go
    through Raft, reads are served from the local state. The wire messages
    are those of proto/pact/config.proto; JSON serialisation (serde_json) is
    a parameter. *)

From S2P Require Import Prelude Types JournalState JournalInvariants JournalProperties Raft.
From stdpp Require Import options.

(** ** Wire messages *)

Record ProtoTimestamp := { ts_seconds : Z; ts_nanos : Z }.
Record ProtoIdentity := { pi_principal : string; pi_principal_type : string; pi_role : string }.
Inductive ProtoScope := PNodeId (n : string) | PVclusterId (v : string) | PGlobal (b : bool).
Record ProtoMountSpec := { ms_fs_type : string; ms_source : string; ms_options : string; ms_read_only : bool }.
Record ProtoMountDelta := { md_path : string; md_action : Z; md_declared : option ProtoMountSpec; md_actual : option ProtoMountSpec }.
Record ProtoFileDelta := { fd_path : string; fd_action : Z; fd_content_hash : option string; fd_mode : option N; fd_owner : option string }.
Record ProtoNetworkDelta := { nd_interface : string; nd_action : Z; nd_detail : option string }.
Record ProtoServiceDelta := { sd_name : string; sd_action : Z; sd_declared_state : option string; sd_actual_state : option string }.
Record ProtoKernelDelta := { kd_key : string; kd_action : Z; kd_declared_value : option string; kd_actual_value : option string }.
Record ProtoPackageDelta := { pd_name : string; pd_action : Z; pd_version : option string }.
Record ProtoGpuDelta := { gd_gpu_index : N; gd_action : Z; gd_detail : option string }.

Record ProtoStateDelta := {
  ps_mounts : list ProtoMountDelta;
  ps_files : list ProtoFileDelta;
  ps_network : list ProtoNetworkDelta;
  ps_services : list ProtoServiceDelta;
  ps_kernel : list ProtoKernelDelta;
  ps_packages : list ProtoPackageDelta;
  ps_gpu : list ProtoGpuDelta;
}.

Record ProtoConfigEntry := {
  pe_sequence : N;
  pe_timestamp : option ProtoTimestamp;
  pe_entry_type : Z;
  pe_scope : option (option ProtoScope);
  pe_author : option ProtoIdentity;
  pe_parent : option N;
  pe_state_delta : option ProtoStateDelta;
  pe_policy_ref : string;
  pe_ttl : option Z;  (** whole seconds of the duration *)
  pe_emergency_reason : option string;
}.

(** ** Conversions *)

(** Seconds and sub-second nanoseconds of a time. *)
Definition to_timestamp (t : DateTime) : ProtoTimestamp :=
  {| ts_seconds := (t `div` 1000000000)%Z; ts_nanos := (t `mod` 1000000000)%Z |}.

(** [x as u32] of an [i64]: the low 32 bits. *)
Definition i64_as_u32 (z : Z) : N := Z.to_N (z `mod` 4294967296)%Z.

Definition proto_entry_type (n : Z) : option EntryType :=
  match n with
  | 1 => Some ET_Commit | 2 => Some ET_Rollback | 3 => Some ET_AutoConverge
  | 4 => Some ET_DriftDetected | 5 => Some ET_CapabilityChange
  | 6 => Some ET_PolicyUpdate | 7 => Some ET_BootConfig
  | 8 => Some ET_EmergencyStart | 9 => Some ET_EmergencyEnd
  | 10 => Some ET_ExecLog | 11 => Some ET_ShellSession
  | 12 => Some ET_ServiceLifecycle | 13 => Some ET_PendingApproval
  | _ => None
  end%Z.

Definition entry_type_number (t : EntryType) : Z :=
  match t with
  | ET_Commit => 1 | ET_Rollback => 2 | ET_AutoConverge => 3
  | ET_DriftDetected => 4 | ET_CapabilityChange => 5 | ET_PolicyUpdate => 6
  | ET_BootConfig => 7 | ET_EmergencyStart => 8 | ET_EmergencyEnd => 9
  | ET_ExecLog => 10 | ET_ShellSession => 11 | ET_ServiceLifecycle => 12
  | ET_PendingApproval => 13 | ET_NodeEnrolled => 14 | ET_NodeActivated => 15
  | ET_NodeDeactivated => 16 | ET_NodeDecommissioned => 17
  | ET_NodeAssigned => 18 | ET_NodeUnassigned => 19 | ET_CertSigned => 20
  | ET_CertRevoked => 21
  end%Z.

Definition scope_of_proto (s : ProtoScope) : Scope :=
  match s with PNodeId n => Node n | PVclusterId v => VCluster v | PGlobal _ => Global end.

Definition scope_to_proto (s : Scope) : ProtoScope :=
  match s with Global => PGlobal true | VCluster v => PVclusterId v | Node n => PNodeId n end.

Definition principal_type_of_proto (s : string) : PrincipalType :=
  if decide (s = "agent" ∨ s = "Agent") then Agent
  else if decide (s = "service" ∨ s = "Service") then Service
  else Human.

Definition proto_action (a : Z) : DeltaAction :=
  match a with 1 => Add | 2 => Remove | 3 => Modify | _ => Modify end%Z.

Definition domain_action (a : DeltaAction) : Z :=
  match a with Add => 1 | Remove => 2 | Modify => 3 end%Z.

Definition mount_text (m : ProtoMountSpec) : string :=
  ms_fs_type m +:+ ":" +:+ ms_source m +:+ " (" +:+ ms_options m +:+ ")".

Definition proto_to_state_delta (p : ProtoStateDelta) : StateDelta :=
  {| delta_mounts := (λ m, {| item_action := proto_action (md_action m); item_key := md_path m;
        item_value := mount_text <$> md_declared m; item_previous := mount_text <$> md_actual m |}) <$> ps_mounts p;
     delta_files := (λ f, {| item_action := proto_action (fd_action f); item_key := fd_path f;
        item_value := fd_content_hash f; item_previous := fd_owner f |}) <$> ps_files p;
     delta_network := (λ n, {| item_action := proto_action (nd_action n); item_key := nd_interface n;
        item_value := nd_detail n; item_previous := None |}) <$> ps_network p;
     delta_services := (λ s, {| item_action := proto_action (sd_action s); item_key := sd_name s;
        item_value := sd_declared_state s; item_previous := sd_actual_state s |}) <$> ps_services p;
     delta_kernel := (λ k, {| item_action := proto_action (kd_action k); item_key := kd_key k;
        item_value := kd_declared_value k; item_previous := kd_actual_value k |}) <$> ps_kernel p;
     delta_packages := (λ q, {| item_action := proto_action (pd_action q); item_key := pd_name q;
        item_value := pd_version q; item_previous := None |}) <$> ps_packages p;
     delta_gpu := (λ g, {| item_action := proto_action (gd_action g); item_key := pretty (gd_gpu_index g);
        item_value := gd_detail g; item_previous := None |}) <$> ps_gpu p |}.

Definition state_delta_to_proto (d : StateDelta) : ProtoStateDelta :=
  {| ps_mounts := (λ m, {| md_path := item_key m; md_action := domain_action (item_action m);
        md_declared := None; md_actual := None |}) <$> delta_mounts d;
     ps_files := (λ f, {| fd_path := item_key f; fd_action := domain_action (item_action f);
        fd_content_hash := item_value f; fd_mode := None; fd_owner := item_previous f |}) <$> delta_files d;
     ps_network := (λ n, {| nd_interface := item_key n; nd_action := domain_action (item_action n);
        nd_detail := item_value n |}) <$> delta_network d;
     ps_services := (λ s, {| sd_name := item_key s; sd_action := domain_action (item_action s);
        sd_declared_state := item_value s; sd_actual_state := item_previous s |}) <$> delta_services d;
     ps_kernel := (λ k, {| kd_key := item_key k; kd_action := domain_action (item_action k);
        kd_declared_value := item_value k; kd_actual_value := item_previous k |}) <$> delta_kernel d;
     ps_packages := (λ q, {| pd_name := item_key q; pd_action := domain_action (item_action q);
        pd_version := item_value q |}) <$> delta_packages d;
     ps_gpu := (λ g, {| gd_gpu_index := default 0%N (Str.parse_unsigned u32_max (item_key g));
        gd_action := domain_action (item_action g); gd_detail := item_value g |}) <$> delta_gpu d |}.

(** [proto_to_config_entry]; the server assigns the timestamp. *)
Definition proto_to_config_entry (now : DateTime) (p : ProtoConfigEntry) : result ConfigEntry Status :=
  let? author := ok_or (pe_author p) (mkStatus InvalidArgument "author required") in
  let scope := from_option scope_of_proto Global (mjoin (pe_scope p)) in
  let? et := ok_or (proto_entry_type (pe_entry_type p)) (mkStatus InvalidArgument "unknown entry type") in
  Ok {| entry_sequence := pe_sequence p;
        entry_timestamp := now;
        entry_type := et;
        entry_scope := scope;
        entry_author := {| principal := pi_principal author;
                           principal_type := principal_type_of_proto (pi_principal_type author);
                           role := pi_role author |};
        entry_parent := pe_parent p;
        entry_state_delta := proto_to_state_delta <$> pe_state_delta p;
        entry_policy_ref := if Str.is_empty (pe_policy_ref p) then None else Some (pe_policy_ref p);
        entry_ttl_seconds := i64_as_u32 <$> pe_ttl p;
        entry_emergency_reason := pe_emergency_reason p |}.

(** [config_entry_to_proto]. *)
Definition config_entry_to_proto (e : ConfigEntry) : ProtoConfigEntry :=
  {| pe_sequence := entry_sequence e;
     pe_timestamp := Some (to_timestamp (entry_timestamp e));
     pe_entry_type := entry_type_number (entry_type e);
     pe_scope := Some (Some (scope_to_proto (entry_scope e)));
     pe_author := Some {| pi_principal := principal (entry_author e);
                          pi_principal_type := debug_principal_type (principal_type (entry_author e));
                          pi_role := role (entry_author e) |};
     pe_parent := entry_parent e;
     pe_state_delta := state_delta_to_proto <$> entry_state_delta e;
     pe_policy_ref := unwrap_or_default (entry_policy_ref e);
     pe_ttl := Z.of_N <$> entry_ttl_seconds e;
     pe_emergency_reason := entry_emergency_reason e |}.

(** ** Notifications *)

Inductive UpdatePayload :=
| VClusterChange (data : bytes) | NodeChange (data : bytes)
| PolicyChange (data : bytes) | BlacklistChange (data : bytes).

Record ConfigUpdate := {
  cu_sequence : N;
  cu_timestamp : option ProtoTimestamp;
  cu_update : option UpdatePayload;
}.

(** JSON serialisation of entries (serde_json). *)
Class EntryJson := {
  entry_to_json : ConfigEntry → bytes;
  entries_to_json : list ConfigEntry → bytes;
}.

(** The notification sent for an entry of the journal. *)
Definition entry_update `{EntryJson} (seq : N) (e : ConfigEntry) : ConfigUpdate :=
  {| cu_sequence := seq;
     cu_timestamp := Some (to_timestamp (entry_timestamp e));
     cu_update := Some (VClusterChange (entry_to_json e)) |}.

(** ** Handlers *)

(** [append_entry]: the updates broadcast to subscribers, and the answer. *)
Definition append_entry `{EntryJson} (now : DateTime) (req : option ProtoConfigEntry) :
    prog (list ConfigUpdate * result N Status) :=
  match req with
  | None => mret ([], Err (mkStatus InvalidArgument "entry required"))
  | Some p =>
      match proto_to_config_entry now p with
      | Err st => mret ([], Err st)
      | Ok entry =>
          resp ← client_write (AppendEntry entry);
          match resp with
          | Err e => mret ([], Err (raft_failed e))
          | Ok (EntryAppended seq) =>
              state ← read_state;
              match entries state !! seq with
              | Some e => mret ([entry_update seq e], Ok seq)
              | None => mret ([], Ok seq)
              end
          | Ok (ValidationError reason) => mret ([], Err (mkStatus FailedPrecondition reason))
          | Ok RespOk | Ok (EnrollmentResult _ _ _) =>
              mret ([], Err (mkStatus Internal "unexpected response for AppendEntry"))
          end
      end
  end.

Definition get_entry (seq : N) (s : JournalState) : result ProtoConfigEntry Status :=
  let? e := ok_or (entries s !! seq) (mkStatus NotFound ("entry " +:+ pretty seq +:+ " not found")) in
  Ok (config_entry_to_proto e).

Definition get_node_state (node : string) (s : JournalState) : result (string * string) Status :=
  let? st := ok_or (node_states s !! node) (mkStatus NotFound ("node " +:+ node +:+ " not found")) in
  Ok (node, debug_config_state st).

Record ListEntriesRequest := {
  le_scope : option (option ProtoScope);
  le_from : option N;
  le_to : option N;
  le_limit : option N;
}.

Definition scope_matches (f : option Scope) (e : ConfigEntry) : bool :=
  match f with Some f => bool_decide (entry_scope e = f) | None => true end.

(** The entries a listing selects, before conversion; [None] is the panic of
    [BTreeMap::range] on a range that starts after its end. *)
Definition select_entries (req : ListEntriesRequest) (s : JournalState) : option (list (N * ConfigEntry)) :=
  let from := default 0%N (le_from req) in
  let to := default u64_max (le_to req) in
  let limit := default u32_max (le_limit req) in
  let filt := scope_of_proto <$> mjoin (le_scope req) in
  if (to <? from)%N then None
  else Some (takeN limit
    (filter (λ p, scope_matches filt p.2 = true)
       (btree_range from to (entries s)))).

(** [list_entries]: the streamed entries, [None] when the handler panics. *)
Definition list_entries (req : ListEntriesRequest) (s : JournalState) : option (list ProtoConfigEntry) :=
  (λ out, config_entry_to_proto <$> out.*2) <$> select_entries req s.

Definition get_overlay (vc : string) (s : JournalState) : result BootOverlay Status :=
  let? ov := ok_or (overlays s !! vc) (mkStatus NotFound ("overlay for " +:+ vc +:+ " not found")) in
  Ok {| ov_vcluster_id := vc; ov_version := ov_version ov; ov_data := ov_data ov;
        ov_checksum := ov_checksum ov |}.

(** ** Round trip *)

(** The delta items the wire format keeps. *)
Definition no_value (i : DeltaItem) : Prop := item_value i = None ∧ item_previous i = None.
Definition no_previous (i : DeltaItem) : Prop := item_previous i = None.
Definition gpu_item (i : DeltaItem) : Prop :=
  item_previous i = None ∧ ∃ n, item_key i = pretty n ∧ (n <= u32_max)%N.

Record delta_on_wire (d : StateDelta) : Prop := {
  dw_mounts : Forall no_value (delta_mounts d);
  dw_network : Forall no_previous (delta_network d);
  dw_packages : Forall no_previous (delta_packages d);
  dw_gpu : Forall gpu_item (delta_gpu d);
}.

Record entry_on_wire (e : ConfigEntry) : Prop := {
  ew_type : (entry_type_number (entry_type e) <= 13)%Z;
  ew_policy : entry_policy_ref e ≠ Some "";
  ew_ttl : ∀ t, entry_ttl_seconds e = Some t → (t <= u32_max)%N;
  ew_delta : ∀ d, entry_state_delta e = Some d → delta_on_wire d;
}.

Lemma action_roundtrip a : proto_action (domain_action a) = a.
Proof. by destruct a. Qed.

Lemma principal_type_roundtrip p : principal_type_of_proto (debug_principal_type p) = p.
Proof. by destruct p. Qed.

Lemma scope_roundtrip sc : scope_of_proto (scope_to_proto sc) = sc.
Proof. by destruct sc. Qed.

Lemma list_fmap_roundtrip {A B} (f : A → B) (g : B → A) (P : A → Prop) l :
  (∀ x, P x → g (f x) = x) → Forall P l → g <$> (f <$> l) = l.
Proof. intros Hgf. induction 1; csimpl; f_equal; auto. Qed.

Lemma delta_roundtrip d : delta_on_wire d → proto_to_state_delta (state_delta_to_proto d) = d.
Proof.
  intros [Hm Hn Hp Hg]. destruct d as [m f n sv k p g]. unfold proto_to_state_delta. simpl in *.
  f_equal.
  - apply (list_fmap_roundtrip _ _ no_value); [|done].
    intros [a key v pr] [Hv Hpr]. simpl in *. by rewrite action_roundtrip, Hv, Hpr.
  - apply (list_fmap_roundtrip _ _ (λ _, True)); [|by apply Forall_true].
    intros [a key v pr] _. simpl. by rewrite action_roundtrip.
  - apply (list_fmap_roundtrip _ _ no_previous); [|done].
    intros [a key v pr] Hpr. unfold no_previous in *. simpl in *. by rewrite action_roundtrip, Hpr.
  - apply (list_fmap_roundtrip _ _ (λ _, True)); [|by apply Forall_true].
    intros [a key v pr] _. simpl. by rewrite action_roundtrip.
  - apply (list_fmap_roundtrip _ _ (λ _, True)); [|by apply Forall_true].
    intros [a key v pr] _. simpl. by rewrite action_roundtrip.
  - apply (list_fmap_roundtrip _ _ no_previous); [|done].
    intros [a key v pr] Hpr. unfold no_previous in *. simpl in *. by rewrite action_roundtrip, Hpr.
  - apply (list_fmap_roundtrip _ _ gpu_item); [|done].
    intros [a key v pr] [Hpr (i & Hk & Hi)]. simpl in *. subst.
    rewrite action_roundtrip, parse_unsigned_pretty by done. done.
Qed.

(** [entry.timestamp = now]. *)
Definition with_timestamp (e : ConfigEntry) (now : DateTime) : ConfigEntry :=
  {| entry_sequence := entry_sequence e; entry_timestamp := now;
     entry_type := entry_type e; entry_scope := entry_scope e;
     entry_author := entry_author e; entry_parent := entry_parent e;
     entry_state_delta := entry_state_delta e;
     entry_policy_ref := entry_policy_ref e;
     entry_ttl_seconds := entry_ttl_seconds e;
     entry_emergency_reason := entry_emergency_reason e |}.

Lemma i64_as_u32_small t : (t <= u32_max)%N → i64_as_u32 (Z.of_N t) = t.
Proof. unfold i64_as_u32, u32_max. intros Ht. rewrite Z.mod_small by lia. lia. Qed.

(** C29: Converting an entry to its wire form and back gives the entry again,
    with the server's timestamp, for every entry whose type the client API
    can name and whose delta items carry only what the wire format keeps. *)
Theorem config_entry_roundtrip now e :
  entry_on_wire e →
  proto_to_config_entry now (config_entry_to_proto e) = Ok (with_timestamp e now).
Proof.
  intros [Ht Hp Httl Hd]. destruct e as [sq ts et sc [p pt r] par dl pr ttl er]. simpl in *.
  unfold proto_to_config_entry, with_timestamp. simpl.
  assert (proto_entry_type (entry_type_number et) = Some et) as -> by (destruct et; by simpl in *).
  simpl. rewrite scope_roundtrip, principal_type_roundtrip. f_equal. f_equal.
  - destruct dl as [d|]; simpl; [|done]. f_equal. apply delta_roundtrip. by apply Hd.
  - destruct pr as [[|c x]|]; naive_solver.
  - destruct ttl as [t|]; simpl; [|done]. f_equal. apply i64_as_u32_small. by apply Httl.
Qed.

(** A lifetime beyond the ten-day limit can pass: only its low 32 bits reach
    the check, so a request for 2^32 + 900 seconds is stored as 900 seconds. *)
Theorem ttl_truncated_before_check `{Chrono} now p e :
  pe_ttl p = Some (2 ^ 32 + 900)%Z → proto_to_config_entry now p = Ok e →
  entry_ttl_seconds e = Some 900%N ∧ ttl_error (entry_ttl_seconds e) = None.
Proof.
  unfold proto_to_config_entry. intros Ht. destruct (pe_author p); simpl; [|done].
  destruct (proto_entry_type _); simpl; [|done]. intros [= <-]. simpl. rewrite Ht. done.
Qed.

(** ** Listing *)

(** An entry a listing request asks for. *)
Definition requested (req : ListEntriesRequest) (k : N) (e : ConfigEntry) : Prop :=
  (default 0%N (le_from req) <= k <= default u64_max (le_to req))%N ∧
  scope_matches (scope_of_proto <$> mjoin (le_scope req)) e = true.

(** A listing panics exactly when its range starts after its end; every
    other listing returns, in ascending order of sequence number and at most as
    many as the limit, only entries of the journal in the requested range and
    scope, and when it returns fewer than the limit, it returns all of them. *)
Theorem list_entries_spec req s :
  match select_entries req s with
  | None => (default u64_max (le_to req) < default 0 (le_from req))%N
  | Some out =>
      list_entries req s = Some (config_entry_to_proto <$> out.*2) ∧
      StronglySorted key_le out ∧
      (N.of_nat (length out) <= default u32_max (le_limit req))%N ∧
      (∀ k e, (k, e) ∈ out → entries s !! k = Some e ∧ requested req k e) ∧
      ((N.of_nat (length out) < default u32_max (le_limit req))%N →
         ∀ k e, entries s !! k = Some e → requested req k e → (k, e) ∈ out)
  end.
Proof.
  unfold list_entries, select_entries, requested. destruct (N.ltb_spec (default u64_max (le_to req)) (default 0%N (le_from req))) as [|_]; [done|].
  rewrite takeN_take. set (l := filter _ (btree_range _ _ _)).
  assert (Hl : ∀ k e, (k, e) ∈ l ↔ entries s !! k = Some e ∧ requested req k e).
  { intros k e. unfold l, requested. rewrite list_elem_of_filter, elem_of_btree_range. naive_solver. }
  split_and!; [done|..].
  - apply StronglySorted_take, StronglySorted_filter, StronglySorted_filter, btree_iter_sorted.
  - rewrite length_take. lia.
  - intros k e Hin. apply Hl. rewrite <- (take_drop (N.to_nat (default u32_max (le_limit req))) l). set_solver.
  - rewrite length_take. intros Hlt k e He Hreq. rewrite take_ge by lia. by apply Hl.
Qed.

(** ** Appending under interference *)

Section append.
Context `{Chrono} `{EntryJson}.

(** An entry accepted along a log is in every later state. *)
Lemma appended_persists log1 t e log2 s seq :
  journal_wf s →
  (next_sequence s + N.of_nat (length (log1 ++ (t, AppendEntry e) :: log2)) < 2 ^ 64)%N →
  (apply t (AppendEntry e) (apply_log log1 s)).2 = EntryAppended seq →
  entries (apply_log (log1 ++ (t, AppendEntry e) :: log2) s) !! seq = Some (with_sequence e seq) ∧
  (seq = next_sequence (apply_log log1 s)).
Proof.
  intros Hwf Hlen Hresp. rewrite length_app in Hlen. simpl in Hlen.
  pose proof (apply_log_wf log1 s ltac:(lia) Hwf) as Hwf1.
  pose proof (apply_log_next_sequence log1 s ltac:(lia)) as Hn1.
  rewrite apply_log_app. simpl in *. set (s1 := apply_log log1 s) in *.
  pose proof (apply_wf t (AppendEntry e) s1 ltac:(lia) Hwf1) as Hwf2.
  pose proof (apply_next_sequence t (AppendEntry e) s1 ltac:(lia)) as Hn2. simpl in Hwf2, Hn2.
  destruct (apply_append_entry e s1) as [s2 r] eqn:E. simpl in *. subst r.
  apply append_entry_cases in E as [[_ [? ?]]|(-> & Hr & _)]; [done|]. injection Hr as ->.
  split; [|done]. eapply lookup_weaken; [|apply apply_log_entries_mono; [lia|done]].
  simpl. apply lookup_insert_eq.
Qed.

(** How a successful append ran: the entry was accepted in some state the
    journal passed through, looked up in a later one, and further commands
    led to the final state. *)
Lemma append_entry_runs_in now p h s s' ups seq tr :
  runs_in h s (append_entry now (Some p)) s' (ups, Ok seq) tr →
  ∃ e log1 t log2 log3, proto_to_config_entry now p = Ok e ∧
    (apply t (AppendEntry e) (apply_log log1 s)).2 = EntryAppended seq ∧
    commands h = (log1 ++ (t, AppendEntry e) :: log2) ++ log3 ∧
    tr = [{| ev_before := apply_log log1 s; ev_cmd := AppendEntry e; ev_answer := Ok (EntryAppended seq) |}] ∧
    ups = match entries (apply_log (log1 ++ (t, AppendEntry e) :: log2) s) !! seq with
          | Some e' => [entry_update seq e'] | None => [] end.
Proof.
  unfold append_entry.
  destruct (proto_to_config_entry now p) as [e|st] eqn:Hp; [|intros (? & ? & _)%runs_in_ret_inv; simplify_eq].
  intros (log1 & h' & [(t & tr' & -> & -> & Hr)|[(err & -> & Hr)|(t & err & tr' & -> & -> & Hr)]])%runs_in_write_inv;
    [|apply runs_in_ret_inv in Hr as (? & _); simplify_eq..].
  simpl in Hr. destruct (apply_append_entry e (apply_log log1 s)).2 as [|sq|reason|? ? ?] eqn:Hresp;
    try (apply runs_in_ret_inv in Hr as (? & _); simplify_eq; fail).
  apply runs_in_read_inv in Hr as (log2 & h2 & -> & Hr). simpl in Hr.
  assert (Hmid : apply_log log2 (apply_append_entry e (apply_log log1 s)).1
    = apply_log (log1 ++ (t, AppendEntry e) :: log2) s) by by rewrite apply_log_app.
  rewrite Hmid in Hr. exists e, log1, t, log2.
  destruct (entries _ !! sq) as [e'|] eqn:He; apply runs_in_ret_inv in Hr as ([= -> ->] & -> & log3 & ->);
    exists log3; rewrite !commands_app, commands_others, He; simpl; rewrite Hresp, commands_app, !commands_others;
    (split_and!; [done|done|by rewrite <- app_assoc|done|done]).
Qed.

Lemma append_entry_runs now p s s' ups seq tr :
  runs s (append_entry now (Some p)) s' (ups, Ok seq) tr →
  ∃ e log1 t log2 log3, proto_to_config_entry now p = Ok e ∧
    (apply t (AppendEntry e) (apply_log log1 s)).2 = EntryAppended seq ∧
    s' = apply_log ((log1 ++ (t, AppendEntry e) :: log2) ++ log3) s ∧
    ups = match entries (apply_log (log1 ++ (t, AppendEntry e) :: log2) s) !! seq with
          | Some e' => [entry_update seq e'] | None => [] end.
Proof.
  intros [h Hr]. pose proof (runs_in_state _ _ _ _ _ _ Hr) as ->.
  destruct (append_entry_runs_in _ _ _ _ _ _ _ _ Hr) as (e & log1 & t & log2 & log3 & Hp & Hresp & -> & _ & ->).
  by exists e, log1, t, log2, log3.
Qed.

(** C2: A client that is told its entry was appended can rely on it: whatever
    other commands were applied before, during and after the call, as long as
    fewer than 2^64 numbers are used, the handler wrote exactly this entry,
    once; the journal holds it under the returned number, which is not below
    the counter at the start; exactly it was announced to the subscribers;
    and no later command changes it. *)
Theorem append_entry_durable now p h s s' ups seq tr later :
  journal_wf s → runs_in h s (append_entry now (Some p)) s' (ups, Ok seq) tr →
  (next_sequence s + N.of_nat (length (commands h) + length later) < 2 ^ 64)%N →
  ∃ e s1, proto_to_config_entry now p = Ok e ∧
    tr = [{| ev_before := s1; ev_cmd := AppendEntry e; ev_answer := Ok (EntryAppended seq) |}] ∧
    entries s' !! seq = Some (with_sequence e seq) ∧ (next_sequence s <= seq)%N ∧
    ups = [entry_update seq (with_sequence e seq)] ∧
    entries (apply_log later s') !! seq = Some (with_sequence e seq).
Proof.
  intros Hwf Hr Hlen. pose proof (runs_in_state _ _ _ _ _ _ Hr) as ->.
  destruct (append_entry_runs_in _ _ _ _ _ _ _ _ Hr) as (e & log1 & t & log2 & log3 & Hp & Hresp & Hh & -> & ->).
  rewrite Hh in Hlen |- *. rewrite !length_app in Hlen. simpl in Hlen.
  assert (∀ log, (length log <= length log2 + length log3 + length later)%nat →
    entries (apply_log (log1 ++ (t, AppendEntry e) :: log) s) !! seq = Some (with_sequence e seq) ∧
    seq = next_sequence (apply_log log1 s)) as Hin.
  { intros log Hl. apply appended_persists; [done| |done]. rewrite length_app. simpl. lia. }
  exists e, (apply_log log1 s). split; [done|]. split; [done|].
  rewrite (proj1 (Hin log2 ltac:(lia))), <- apply_log_app, <- !app_assoc. simpl.
  split; [apply Hin; rewrite length_app; lia|]. split; [|split; [done|apply Hin; rewrite !length_app; lia]].
  rewrite (proj2 (Hin [] ltac:(simpl; lia))). apply apply_log_next_sequence_mono. lia.
Qed.

End append.

(** ** Witnesses *)

Module ConfigSample.

#[export] Existing Instance JournalSample.chrono.

#[export] Instance json : EntryJson :=
  {| entry_to_json := λ e, [entry_sequence e]; entries_to_json := λ es, entry_sequence <$> es |}.

Definition entry : ConfigEntry :=
  {| entry_sequence := 0; entry_timestamp := seconds 5; entry_type := ET_Commit;
     entry_scope := VCluster "ml"; entry_author := JournalSample.admin; entry_parent := None;
     entry_state_delta := Some {| delta_mounts := []; delta_files := []; delta_network := [];
       delta_services := []; delta_packages := [];
       delta_kernel := [{| item_action := Modify; item_key := "vm.swappiness";
                           item_value := Some "10"; item_previous := Some "60" |}];
       delta_gpu := [{| item_action := Add; item_key := pretty 3%N;
                        item_value := Some "mig"; item_previous := None |}] |};
     entry_policy_ref := Some "p1"; entry_ttl_seconds := Some 900%N;
     entry_emergency_reason := None |}.

Definition with_ttl (ttl : Z) : ProtoConfigEntry :=
  {| pe_sequence := 0; pe_timestamp := None; pe_entry_type := 1; pe_scope := None;
     pe_author := Some {| pi_principal := "admin@example.com"; pi_principal_type := "Human"; pi_role := "pact-platform-admin" |};
     pe_parent := None; pe_state_delta := None; pe_policy_ref := ""; pe_ttl := Some ttl;
     pe_emergency_reason := None |}.

Lemma entry_wire : entry_on_wire entry.
Proof.
  split; [done|done|by intros t [= <-]|]. intros d [= <-].
  split; repeat constructor. exists 3%N. done.
Qed.

End ConfigSample.
Import ConfigSample.

Lemma config_entry_roundtrip_witness :
  proto_to_config_entry 7%Z (config_entry_to_proto ConfigSample.entry)
    = Ok (with_timestamp ConfigSample.entry 7%Z).
Proof. apply (config_entry_roundtrip 7%Z ConfigSample.entry). apply ConfigSample.entry_wire. Defined.

Lemma ttl_truncated_before_check_witness :
  let e := JournalSample.entry None (Some 900%N) in
  entry_ttl_seconds e = Some 900%N ∧ ttl_error (entry_ttl_seconds e) = None.
Proof.
  apply (ttl_truncated_before_check 0%Z (ConfigSample.with_ttl (2 ^ 32 + 900))); reflexivity.
Defined.

(** Another command is applied after the request. *)
Lemma append_entry_durable_witness :
  let p := config_entry_to_proto ConfigSample.entry in
  let e := with_timestamp ConfigSample.entry 7 in
  let s' := (apply 9 (AppendEntry e) journal_init).1 in
  entries (apply_log [(10%Z, AppendEntry e)] s') !! 0%N = Some (with_sequence e 0).
Proof.
  intros p e s'.
  assert (runs_in [Applied 9 (AppendEntry e)] journal_init (append_entry 7 (Some p)) s' ([entry_update 0 e], Ok 0%N)
    [{| ev_before := journal_init; ev_cmd := AppendEntry e; ev_answer := Ok (EntryAppended 0) |}]) as Hr.
  { apply (in_write [] journal_init (AppendEntry e) _ s' ([entry_update 0 e], Ok 0%N) [] 9%Z). apply in_read. apply in_ret. }
  destruct (append_entry_durable 7%Z p [Applied 9 (AppendEntry e)] journal_init s' [entry_update 0 e] 0%N _
    [(10%Z, AppendEntry e)] journal_init_wf Hr ltac:(vm_compute; reflexivity)) as (e' & s1 & He & _ & _ & _ & _ & Hl).
  assert (Ok (E := Status) e' = Ok e) as [= ->] by (rewrite <- He; vm_compute; reflexivity). exact Hl.
Defined.
