(* ===== verification/Rbac.v ===== *)
(** * Role-based access control

    [RbacEngine::evaluate] of crates/pact-policy/src/rbac/mod.rs: the first
    authorization layer, a pure function of the caller's identity, the
    action, the scope and the vCluster policy. *)

From S2P Require Import Prelude Types.
From stdpp Require Import options.

Inductive RbacDecision := Allow | Deny (reason : string) | Defer.

#[export] Instance RbacDecision_eq_dec : EqDecision RbacDecision.
Proof. solve_decision. Defined.

Module actions.
Definition COMMIT := "commit".
Definition ROLLBACK := "rollback".
Definition EXEC := "exec".
Definition SHELL := "shell".
Definition EMERGENCY_START := "emergency_start".
Definition EMERGENCY_END := "emergency_end".
Definition SERVICE_START := "service_start".
Definition SERVICE_STOP := "service_stop".
Definition SERVICE_RESTART := "service_restart".
Definition STATUS := "status".
Definition DIFF := "diff".
Definition LOG := "log".
Definition APPROVE := "approve".
Definition POLICY_UPDATE := "policy_update".
End actions.
Import actions.

Definition READ_ACTIONS : list string := [STATUS; DIFF; LOG].
Definition WRITE_ACTIONS : list string :=
  [COMMIT; ROLLBACK; EXEC; SHELL; SERVICE_START; SERVICE_STOP; SERVICE_RESTART].

Definition is_emergency (action : string) : bool :=
  bool_decide (action = EMERGENCY_START ∨ action = EMERGENCY_END).

Definition extract_vcluster_from_role (r : string) : option string :=
  match Str.strip_prefix "pact-ops-" r with
  | Some vc => Some vc
  | None =>
      match Str.strip_prefix "pact-viewer-" r with
      | Some vc => Some vc
      | None => Str.strip_prefix "pact-regulated-" r
      end
  end.

(** The loop over the policy's role bindings: the first matching binding
    decides, and a wildcard never grants an emergency action. *)
Fixpoint check_bindings (id : Identity) (action : string) (bs : list RoleBinding) : RbacDecision :=
  match bs with
  | [] => Deny ("unknown role: " +:+ role id)
  | b :: bs' =>
      if decide (binding_role b = role id ∧ principal id ∈ binding_principals b ∧
                 Exists (λ a, a = action ∨ a = "*") (binding_allowed_actions b)) then
        if is_emergency action && negb (bool_decide (action ∈ binding_allowed_actions b))
        then Deny "emergency actions require explicit binding, not wildcard"
        else Allow
      else check_bindings id action bs'
  end.

(** The checks for a caller whose scope names the vCluster [vc]. *)
Definition evaluate_role (id : Identity) (action : string) (vc : string) (policy : VClusterPolicy) : RbacDecision :=
  if decide (action = POLICY_UPDATE) then Deny "policy_update requires pact-platform-admin role"
  else if Str.starts_with (role id) "pact-viewer-" then
    if decide (action ∈ READ_ACTIONS) then Allow
    else Deny ("viewer role cannot perform action: " +:+ action +:+ " (P2)")
  else if Str.starts_with (role id) "pact-regulated-" then
    if decide (action ∈ READ_ACTIONS) then Allow
    else if decide (pol_two_person_approval policy = true ∧ action ∈ WRITE_ACTIONS) then Defer
    else if decide (action ∈ WRITE_ACTIONS ∨ action = APPROVE) then Allow
    else Deny ("action not permitted for regulated role: " +:+ action)
  else if Str.starts_with (role id) "pact-ops-" then
    if decide (action ∈ READ_ACTIONS ∨ action ∈ WRITE_ACTIONS) then Allow
    else if is_emergency action then Allow
    else if decide (action = APPROVE) then Allow
    else Deny ("action not permitted for ops role: " +:+ action)
  else if decide (role id = "pact-service-agent") then
    if decide (action = STATUS ∨ action = LOG) then Allow
    else Deny ("service agent cannot perform action: " +:+ action)
  else if decide (role id = "pact-service-ai") then
    if decide (action ∈ READ_ACTIONS) then Allow
    else if decide (action = EXEC ∧ pol_ai_exec_allowed policy = true) then Allow
    else if decide (action = EXEC) then
      Deny ("AI exec not authorized for vCluster '" +:+ vc +:+ "' (set ai_exec_allowed in policy)")
    else Deny ("AI agent cannot perform action: " +:+ action)
  else check_bindings id action (pol_role_bindings policy).

(** [RbacEngine::evaluate]. *)
Definition evaluate (id : Identity) (action : string) (scope : Scope) (policy : VClusterPolicy) : RbacDecision :=
  if decide (role id = "pact-platform-admin") then Allow
  else if bool_decide (role id = "pact-service-ai") && is_emergency action then
    Deny "AI agents cannot enter or exit emergency mode (P8)"
  else match scope with
  | Global => Deny "global scope requires pact-platform-admin role"
  | VCluster vc | Node vc =>
      match extract_vcluster_from_role (role id) with
      | Some role_vc =>
          if decide (role_vc = vc) then evaluate_role id action vc policy
          else Deny ("role " +:+ role id +:+ " is scoped to vCluster " +:+ role_vc
                     +:+ ", not " +:+ vc +:+ " (P3)")
      | None => evaluate_role id action vc policy
      end
  end.

(** ** Role families *)

Definition ops_role (vc : string) : string := "pact-ops-" +:+ vc.
Definition viewer_role (vc : string) : string := "pact-viewer-" +:+ vc.
Definition regulated_role (vc : string) : string := "pact-regulated-" +:+ vc.

(** Not one of the role families the engine knows. *)
Definition custom_role (r : string) : Prop :=
  r ≠ "pact-platform-admin" ∧ r ≠ "pact-service-agent" ∧ r ≠ "pact-service-ai" ∧
  ∀ vc, r ≠ ops_role vc ∧ r ≠ viewer_role vc ∧ r ≠ regulated_role vc.

Lemma extract_ops vc : extract_vcluster_from_role (ops_role vc) = Some vc.
Proof. done. Qed.
Lemma extract_viewer vc : extract_vcluster_from_role (viewer_role vc) = Some vc.
Proof. done. Qed.
Lemma extract_regulated vc : extract_vcluster_from_role (regulated_role vc) = Some vc.
Proof. done. Qed.

Lemma extract_Some r vc :
  extract_vcluster_from_role r = Some vc ↔ r = ops_role vc ∨ r = viewer_role vc ∨ r = regulated_role vc.
Proof.
  split; [|by intros [->|[->| ->]]]. unfold extract_vcluster_from_role.
  destruct (Str.strip_prefix "pact-ops-" r) eqn:E1; [intros [= ->]; left; by apply strip_prefix_Some|].
  destruct (Str.strip_prefix "pact-viewer-" r) eqn:E2; [intros [= ->]; right; left; by apply strip_prefix_Some|].
  intros E3. right; right. by apply strip_prefix_Some.
Qed.

Lemma starts_with_custom r :
  custom_role r →
  Str.starts_with r "pact-viewer-" = false ∧ Str.starts_with r "pact-regulated-" = false ∧
  Str.starts_with r "pact-ops-" = false.
Proof.
  intros (_ & _ & _ & Hvc). repeat split; apply not_true_iff_false;
    rewrite starts_with_true; intros [vc ->]; naive_solver.
Qed.

#[export] Hint Rewrite extract_ops extract_viewer extract_regulated : pact.

(** The bindings decide access for roles outside the known families. *)
Definition binding_grants (id : Identity) (action : string) (b : RoleBinding) : Prop :=
  binding_role b = role id ∧ principal id ∈ binding_principals b ∧
  Exists (λ a, a = action ∨ a = "*") (binding_allowed_actions b).

Lemma check_bindings_allow id action bs :
  check_bindings id action bs = Allow →
  ∃ b, b ∈ bs ∧ binding_grants id action b ∧
    (is_emergency action = true → action ∈ binding_allowed_actions b).
Proof.
  induction bs as [|b bs IH]; simpl; [done|]. case_decide as Hb.
  - case_match eqn:E; [done|]. intros _. exists b. split; [left|]. split; [done|].
    intros He. rewrite He in E. simpl in E. apply negb_false_iff, bool_decide_eq_true in E. done.
  - intros Hc. destruct (IH Hc) as (b' & ? & ?). exists b'. split; [by right|done].
Qed.

Lemma check_bindings_not_defer id action bs : check_bindings id action bs ≠ Defer.
Proof. induction bs as [|b bs IH]; simpl; repeat case_match; done. Qed.

(** The prefix tests on the roles of the known families compute. *)
Section prefixes.
Implicit Types vc : string.
Lemma ops_not_viewer vc : Str.starts_with (ops_role vc) "pact-viewer-" = false.
Proof. done. Qed.
Lemma ops_not_regulated vc : Str.starts_with (ops_role vc) "pact-regulated-" = false.
Proof. done. Qed.
Lemma ops_is_ops vc : Str.starts_with (ops_role vc) "pact-ops-" = true.
Proof. done. Qed.
Lemma viewer_is_viewer vc : Str.starts_with (viewer_role vc) "pact-viewer-" = true.
Proof. done. Qed.
Lemma regulated_not_viewer vc : Str.starts_with (regulated_role vc) "pact-viewer-" = false.
Proof. done. Qed.
Lemma regulated_is_regulated vc : Str.starts_with (regulated_role vc) "pact-regulated-" = true.
Proof. done. Qed.
End prefixes.
#[export] Hint Rewrite ops_not_viewer ops_not_regulated ops_is_ops viewer_is_viewer
  regulated_not_viewer regulated_is_regulated : pact.

Lemma policy_update_neither :
  (POLICY_UPDATE ∉ READ_ACTIONS) ∧ (POLICY_UPDATE ∉ WRITE_ACTIONS) ∧
  POLICY_UPDATE ≠ APPROVE ∧ POLICY_UPDATE ≠ EMERGENCY_START ∧ POLICY_UPDATE ≠ EMERGENCY_END.
Proof. split_and!; try done; set_solver. Qed.

Definition regulated_actions (policy : VClusterPolicy) (action : string) : Prop :=
  action ∈ READ_ACTIONS ∨ action = APPROVE ∨
  (action ∈ WRITE_ACTIONS ∧ pol_two_person_approval policy = false).
Definition deferred_actions (policy : VClusterPolicy) (action : string) : Prop :=
  action ∈ WRITE_ACTIONS ∧ pol_two_person_approval policy = true.



Lemma read_not_write action : action ∈ READ_ACTIONS → action ∈ WRITE_ACTIONS → False.
Proof. unfold READ_ACTIONS, WRITE_ACTIONS. set_solver. Qed.

Lemma evaluate_role_regulated id action vc policy c :
  role id = regulated_role c →
  (evaluate_role id action vc policy = Allow ↔ regulated_actions policy action) ∧
  (evaluate_role id action vc policy = Defer ↔ deferred_actions policy action).
Proof.
  intros Hr. unfold evaluate_role, regulated_actions, deferred_actions. rewrite Hr. autorewrite with pact.
  pose proof policy_update_neither. pose proof (read_not_write action).
  assert (APPROVE ∉ WRITE_ACTIONS) by set_solver.
  destruct (pol_two_person_approval policy); repeat case_decide; naive_solver.
Qed.

Lemma evaluate_role_defer id action vc policy :
  evaluate_role id action vc policy = Defer →
  ∃ c, role id = regulated_role c ∧ deferred_actions policy action.
Proof.
  intros Hd. destruct (Str.starts_with (role id) "pact-regulated-") eqn:E.
  - apply starts_with_true in E as [c Hc]. exists c. split; [done|].
    by apply (evaluate_role_regulated id action vc policy c).
  - exfalso. unfold evaluate_role in Hd. rewrite E in Hd.
    repeat (case_decide || case_match); try done; by apply check_bindings_not_defer in Hd.
Qed.

(** The checks behind the scope extraction. *)
Lemma evaluate_unfold id action scope policy :
  role id ≠ "pact-platform-admin" →
  role id ≠ "pact-service-ai" ∨ is_emergency action = false →
  evaluate id action scope policy =
    match scope with
    | Global => Deny "global scope requires pact-platform-admin role"
    | VCluster vc | Node vc =>
        match extract_vcluster_from_role (role id) with
        | Some role_vc =>
            if decide (role_vc = vc) then evaluate_role id action vc policy
            else Deny ("role " +:+ role id +:+ " is scoped to vCluster " +:+ role_vc
                       +:+ ", not " +:+ vc +:+ " (P3)")
        | None => evaluate_role id action vc policy
        end
    end.
Proof.
  intros Hr Hai. unfold evaluate. rewrite decide_False by done.
  destruct Hai as [Hai| ->]; [rewrite bool_decide_eq_false_2 by done; done|].
  by rewrite andb_false_r.
Qed.

(** A scope that names the vCluster of a role. *)
Definition on_vcluster (scope : Scope) (vc : string) : Prop := scope = VCluster vc ∨ scope = Node vc.

Lemma family_not_builtin r vc :
  r = ops_role vc ∨ r = viewer_role vc ∨ r = regulated_role vc →
  r ≠ "pact-platform-admin" ∧ r ≠ "pact-service-ai".
Proof. by intros [->|[->| ->]]. Qed.

Lemma evaluate_family id action scope policy vc :
  role id = ops_role vc ∨ role id = viewer_role vc ∨ role id = regulated_role vc →
  (on_vcluster scope vc → evaluate id action scope policy = evaluate_role id action vc policy) ∧
  (¬ on_vcluster scope vc → ∃ reason, evaluate id action scope policy = Deny reason).
Proof.
  intros Hr. assert (Hx := proj2 (extract_Some _ _) Hr). unfold on_vcluster.
  destruct (family_not_builtin _ _ Hr). rewrite evaluate_unfold by auto.
  destruct scope as [|v|v]; rewrite ?Hx; [split; [by intros [|]|eauto]|..];
    (case_decide; subst; split; intros Hn; try done; try (by destruct Hn; auto);
     [by destruct Hn; simplify_eq|eauto]).
Qed.

#[export] Instance on_vcluster_dec scope vc : Decision (on_vcluster scope vc).
Proof. unfold on_vcluster. apply _. Defined.

Lemma evaluate_defer_iff id action scope policy :
  evaluate id action scope policy = Defer ↔
  ∃ vc, role id = regulated_role vc ∧ on_vcluster scope vc ∧ deferred_actions policy action.
Proof.
  split.
  - intros Hd. assert (Hdef : ∃ c, role id = regulated_role c ∧ deferred_actions policy action).
    { revert Hd. unfold evaluate. repeat (case_decide || case_match); try done; apply evaluate_role_defer. }
    destruct Hdef as (vc & Hr & Hact). exists vc. split; [done|]. split; [|done].
    destruct (evaluate_family id action scope policy vc) as [_ Hoff]; [auto|].
    apply dec_stable. intros Hn. destruct (Hoff Hn) as [reason Hd']. congruence.
  - intros (vc & Hr & Hon & Hact).
    destruct (evaluate_family id action scope policy vc) as [-> _]; [auto| |done].
    by apply (evaluate_role_regulated id action vc policy vc Hr).
Qed.


(** Only a regulated operator on its own vCluster, writing under a policy
    that demands a second person, is ever deferred; every other request is
    decided by the role checks alone. *)
Theorem rbac_defer_iff id action scope policy :
  evaluate id action scope policy = Defer ↔
  ∃ vc, role id = regulated_role vc ∧ on_vcluster scope vc ∧ deferred_actions policy action.
Proof. apply evaluate_defer_iff. Qed.

(** Emergency mode is never open to an AI principal, whatever the policy
    binds; a role outside the built-in families gets it only through a
    binding that lists the action explicitly, never through a wildcard. *)
Theorem emergency_access id action scope policy :
  is_emergency action = true →
  (role id = "pact-service-ai" → ∃ reason, evaluate id action scope policy = Deny reason) ∧
  (custom_role (role id) → evaluate id action scope policy = Allow →
     ∃ b, b ∈ pol_role_bindings policy ∧ binding_role b = role id ∧
       principal id ∈ binding_principals b ∧ action ∈ binding_allowed_actions b).
Proof.
  intros He. split.
  - intros Hr. unfold evaluate. rewrite Hr, decide_False by done.
    rewrite bool_decide_eq_true_2 by done. rewrite He. simpl. eauto.
  - intros Hc. destruct (starts_with_custom _ Hc) as (Hv & Hrg & Ho). destruct Hc as (Ha & Hs & Hai & _).
    rewrite evaluate_unfold by auto. intros Hal.
    assert (check_bindings id action (pol_role_bindings policy) = Allow) as Hcb.
    { revert Hal. unfold evaluate_role. rewrite Hv, Hrg, Ho.
      repeat (case_decide || case_match); try done. }
    apply check_bindings_allow in Hcb as (b & Hin & (? & ? & _) & Hex). eauto 10.
Qed.

(** ** Witnesses *)

Module RbacSample.
Definition ident (p r : string) : Identity := {| principal := p; principal_type := Human; role := r |}.
Definition regulated_policy : VClusterPolicy :=
  {| pol_vcluster_id := "ml"; pol_policy_id := "p1"; pol_updated_at := None;
     pol_drift_sensitivity := pol_drift_sensitivity vcluster_policy_default;
     pol_base_commit_window_seconds := 900; pol_emergency_window_seconds := 14400;
     pol_auto_converge_categories := []; pol_require_ack_categories := [];
     pol_enforcement_mode := "enforce";
     pol_role_bindings := [{| binding_role := "site-admin"; binding_principals := ["eve"];
                              binding_allowed_actions := ["*"] |}];
     pol_regulated := true; pol_two_person_approval := true; pol_emergency_allowed := true;
     pol_audit_retention_days := 2555; pol_ai_exec_allowed := false;
     pol_federation_template := None; pol_supervisor_backend := "pact";
     pol_exec_whitelist := []; pol_shell_whitelist := [] |}.
End RbacSample.


Lemma emergency_access_witness :
  ∃ reason, evaluate (RbacSample.ident "bot" "pact-service-ai") EMERGENCY_START (VCluster "ml")
    RbacSample.regulated_policy = Deny reason.
Proof.
  apply (emergency_access (RbacSample.ident "bot" "pact-service-ai") EMERGENCY_START (VCluster "ml")
    RbacSample.regulated_policy); reflexivity.
Defined.

(** A wildcard binding grants ordinary actions and refuses emergencies. *)
Example wildcard_binding :
  evaluate (RbacSample.ident "eve" "site-admin") COMMIT (VCluster "ml") RbacSample.regulated_policy = Allow ∧
  evaluate (RbacSample.ident "eve" "site-admin") EMERGENCY_END (VCluster "ml") RbacSample.regulated_policy
    = Deny "emergency actions require explicit binding, not wildcard".
Proof. split; reflexivity. Qed.
