(* ===== verification/PolicyEngine.v ===== *)
(** * The policy engine

    [DefaultPolicyEngine] of crates/pact-policy/src/rules/mod.rs: RBAC first,
    the two-person approval workflow on a deferral, an optional external OPA
    client. The OPA client is a parameter (a remote service), as are the
    clock and the fresh identifier of a new approval. *)

From S2P Require Import Prelude Types Rbac.
From stdpp Require Import options.

Record PolicyRequest := {
  req_identity : Identity;
  req_scope : Scope;
  req_action : string;
  req_proposed_change : option StateDelta;
  req_command : option string;
}.

Inductive PolicyDecision :=
| PAllow (policy_ref : string)
| PDeny (policy_ref reason : string)
| PRequireApproval (policy_ref approval_id : string).

Inductive PolicyError :=
| PolicyNotFound (vc : string)
| ApprovalNotFound (id : string)
| ApprovalExpired (id : string)
| ApprovalAlreadyResolved (id : string)
| SelfApproval
| InsufficientPrivileges (why : string)
| OpaError (why : string)
| NotImplemented (why : string).

(** ** OPA input *)

Record OpaInput := {
  opa_principal : string;
  opa_role : string;
  opa_principal_type : string;
  opa_action : string;
  opa_vcluster : string;
  opa_command : option string;
}.

Inductive OpaDecision := OpaAllow | OpaDeny (reason : string).

Abbreviation OpaClient := (OpaInput → result OpaDecision PolicyError).

(** [OpaInput::from_request]. *)
Definition opa_from_request (r : PolicyRequest) : OpaInput :=
  {| opa_principal := principal (req_identity r);
     opa_role := role (req_identity r);
     opa_principal_type := debug_principal_type (principal_type (req_identity r));
     opa_action := req_action r;
     opa_vcluster := scope_vcluster (req_scope r);
     opa_command := req_command r |}.

(** ** State and operations *)

Record PolicyEngine := {
  eng_policies : gmap string VClusterPolicy;
  eng_pending_approvals : gmap string PendingApproval;
  eng_approval_timeout_seconds : Z;
}.

Definition engine_new (timeout : Z) : PolicyEngine :=
  {| eng_policies := ∅; eng_pending_approvals := ∅; eng_approval_timeout_seconds := timeout |}.

Definition set_eng_approvals (g : PolicyEngine) (m : gmap string PendingApproval) : PolicyEngine :=
  {| eng_policies := eng_policies g; eng_pending_approvals := m;
     eng_approval_timeout_seconds := eng_approval_timeout_seconds g |}.

Definition set_policy (p : VClusterPolicy) (g : PolicyEngine) : PolicyEngine :=
  {| eng_policies := <[pol_vcluster_id p := p]> (eng_policies g);
     eng_pending_approvals := eng_pending_approvals g;
     eng_approval_timeout_seconds := eng_approval_timeout_seconds g |}.

(** The cached policy of the vCluster of a scope, or the default one. *)
Definition effective_policy (g : PolicyEngine) (scope : Scope) : VClusterPolicy :=
  default (default_policy_for (scope_vcluster scope)) (eng_policies g !! scope_vcluster scope).

Definition engine_policy_ref (scope : Scope) (p : VClusterPolicy) : string :=
  if Str.is_empty (pol_policy_id p) then "default:" +:+ scope_vcluster scope else pol_policy_id p.

Definition new_approval (g : PolicyEngine) (r : PolicyRequest) (now : DateTime) (uuid : string) : PendingApproval :=
  {| apr_approval_id := uuid;
     apr_original_request := req_action r +:+ " on " +:+ scope_vcluster (req_scope r);
     apr_action := req_action r;
     apr_scope := req_scope r;
     apr_requester := req_identity r;
     apr_approver := None;
     apr_status := Pending;
     apr_created_at := now;
     apr_expires_at := (now + seconds (eng_approval_timeout_seconds g))%Z |}.

(** [create_approval], with the generated identifier. *)
Definition create_approval (r : PolicyRequest) (now : DateTime) (uuid : string)
    (g : PolicyEngine) : PolicyEngine * string :=
  (set_eng_approvals g (<[uuid := new_approval g r now uuid]> (eng_pending_approvals g)), uuid).

(** [evaluate_sync]. *)
Definition evaluate_sync (r : PolicyRequest) (now : DateTime) (uuid : string)
    (g : PolicyEngine) : PolicyEngine * PolicyDecision :=
  let policy := effective_policy g (req_scope r) in
  let pref := engine_policy_ref (req_scope r) policy in
  match evaluate (req_identity r) (req_action r) (req_scope r) policy with
  | Allow => (g, PAllow pref)
  | Deny reason => (g, PDeny pref reason)
  | Defer =>
      if pol_two_person_approval policy then
        let '(g', id) := create_approval r now uuid g in (g', PRequireApproval pref id)
      else (g, PAllow pref)
  end.

(** The asynchronous [PolicyEngine::evaluate], which cannot create
    approvals and may ask OPA. *)
Definition evaluate_async (opa : option OpaClient) (r : PolicyRequest) (g : PolicyEngine) : PolicyDecision :=
  let policy := effective_policy g (req_scope r) in
  let pref := engine_policy_ref (req_scope r) policy in
  match evaluate (req_identity r) (req_action r) (req_scope r) policy with
  | Allow => PAllow pref
  | Deny reason => PDeny pref reason
  | Defer =>
      if pol_two_person_approval policy then PRequireApproval pref "pending"
      else match opa with
      | Some client =>
          match client (opa_from_request r) with
          | Ok OpaAllow => PAllow pref
          | Ok (OpaDeny reason) => PDeny pref reason
          | Err _ => PAllow pref
          end
      | None => PAllow pref
      end
  end.

Definition get_effective_policy (vc : string) (g : PolicyEngine) : result VClusterPolicy PolicyError :=
  ok_or (eng_policies g !! vc) (PolicyNotFound vc).

Definition approver_has_access (approver : Identity) (vc : string) : bool :=
  bool_decide (role approver = "pact-platform-admin" ∨
               role approver = "pact-ops-" +:+ vc ∨
               role approver = "pact-regulated-" +:+ vc).

(** [approve]: expiry, then resolution, then the two-person rule, then the
    approver's privileges. *)
Definition approve (now : DateTime) (id : string) (approver : Identity)
    (g : PolicyEngine) : PolicyEngine * result PolicyDecision PolicyError :=
  match eng_pending_approvals g !! id with
  | None => (g, Err (ApprovalNotFound id))
  | Some a =>
      if decide (apr_expires_at a < now)%Z then
        (set_eng_approvals g (<[id := decide_with a Expired (apr_approver a)]> (eng_pending_approvals g)),
         Err (ApprovalExpired id))
      else if decide (apr_status a ≠ Pending) then (g, Err (ApprovalAlreadyResolved id))
      else if decide (principal (apr_requester a) = principal approver) then (g, Err SelfApproval)
      else
        let vc := scope_vcluster (apr_scope a) in
        if approver_has_access approver vc then
          (set_eng_approvals g (<[id := decide_with a Approved (Some approver)]> (eng_pending_approvals g)),
           Ok (PAllow ("approved:" +:+ id)))
        else
          (g, Err (InsufficientPrivileges ("approver role '" +:+ role approver
                +:+ "' does not have ops access to vCluster '" +:+ vc +:+ "'")))
  end.

Definition reject (id : string) (rejector : Identity) (g : PolicyEngine) : PolicyEngine * result () PolicyError :=
  match eng_pending_approvals g !! id with
  | None => (g, Err (ApprovalNotFound id))
  | Some a =>
      if decide (apr_status a ≠ Pending) then (g, Err (ApprovalAlreadyResolved id))
      else (set_eng_approvals g (<[id := decide_with a Rejected (Some rejector)]> (eng_pending_approvals g)), Ok ())
  end.

Definition timed_out (now : DateTime) (a : PendingApproval) : bool :=
  bool_decide (apr_status a = Pending ∧ (apr_expires_at a < now)%Z).

(** [expire_approvals]: marks and returns the timed-out requests. *)
Definition expire_approvals (now : DateTime) (g : PolicyEngine) : PolicyEngine * list string :=
  (set_eng_approvals g
     ((λ a, if timed_out now a then decide_with a Expired (apr_approver a) else a) <$> eng_pending_approvals g),
   (filter (λ p, timed_out now p.2 = true) (map_to_list (eng_pending_approvals g))).*1).

Definition list_pending (g : PolicyEngine) : list PendingApproval :=
  filter (λ a, apr_status a = Pending) (hash_values (eng_pending_approvals g)).

Definition get_approval (id : string) (g : PolicyEngine) : option PendingApproval :=
  eng_pending_approvals g !! id.

Definition cleanup_resolved (g : PolicyEngine) : PolicyEngine :=
  set_eng_approvals g (filter (λ p, apr_status p.2 = Pending) (eng_pending_approvals g)).

(** ** Reachable engines *)

(** Calls on the engine; identifiers of new approvals are fresh. *)
Inductive engine_step : PolicyEngine → PolicyEngine → Prop :=
| step_set_policy p g : engine_step g (set_policy p g)
| step_evaluate r now uuid g :
    eng_pending_approvals g !! uuid = None → engine_step g (evaluate_sync r now uuid g).1
| step_approve now id who g : engine_step g (approve now id who g).1
| step_reject id who g : engine_step g (reject id who g).1
| step_expire now g : engine_step g (expire_approvals now g).1
| step_cleanup g : engine_step g (cleanup_resolved g).

(** What an approval in the engine satisfies. *)
Record approval_ok (id : string) (a : PendingApproval) : Prop := {
  ao_id : apr_approval_id a = id;
  ao_pending : apr_status a = Pending → apr_approver a = None;
  ao_approved : apr_status a = Approved → ∃ who, apr_approver a = Some who ∧
    principal who ≠ principal (apr_requester a) ∧
    approver_has_access who (scope_vcluster (apr_scope a)) = true;
  ao_regulated : ∃ vc, role (apr_requester a) = regulated_role vc ∧ on_vcluster (apr_scope a) vc ∧
    apr_action a ∈ WRITE_ACTIONS;
}.

Definition engine_ok (g : PolicyEngine) : Prop :=
  map_Forall approval_ok (eng_pending_approvals g).

Lemma approval_ok_decide id a st who :
  approval_ok id a → st ≠ Pending →
  (st = Approved → ∃ w, who = Some w ∧ principal w ≠ principal (apr_requester a) ∧
     approver_has_access w (scope_vcluster (apr_scope a)) = true) →
  approval_ok id (decide_with a st who).
Proof. intros [] ? ?. by split. Qed.

Lemma engine_ok_insert g id a :
  engine_ok g → approval_ok id a →
  engine_ok (set_eng_approvals g (<[id := a]> (eng_pending_approvals g))).
Proof. intros. by apply map_Forall_insert_2. Qed.

#[export] Hint Resolve approval_ok_decide engine_ok_insert : pact.

(** A deferral creates the approval of a regulated write. *)
Lemma evaluate_sync_cases r now uuid g :
  let d := evaluate (req_identity r) (req_action r) (req_scope r) (effective_policy g (req_scope r)) in
  let pref := engine_policy_ref (req_scope r) (effective_policy g (req_scope r)) in
  (d = Allow ∧ evaluate_sync r now uuid g = (g, PAllow pref)) ∨
  (∃ reason, d = Deny reason ∧ evaluate_sync r now uuid g = (g, PDeny pref reason)) ∨
  (d = Defer ∧ evaluate_sync r now uuid g =
     (set_eng_approvals g (<[uuid := new_approval g r now uuid]> (eng_pending_approvals g)),
      PRequireApproval pref uuid)).
Proof.
  simpl. unfold evaluate_sync. case_match eqn:E; [eauto..|].
  apply evaluate_defer_iff in E as (vc & _ & _ & _ & ->). eauto.
Qed.

Lemma new_approval_ok r now uuid g :
  evaluate (req_identity r) (req_action r) (req_scope r) (effective_policy g (req_scope r)) = Defer →
  approval_ok uuid (new_approval g r now uuid).
Proof.
  intros (vc & Hr & Hon & Hw & _)%evaluate_defer_iff. split; simpl; try done. eauto.
Qed.

Lemma engine_step_ok g g' : engine_ok g → engine_step g g' → engine_ok g'.
Proof.
  intros Hok Hs. destruct Hs as [p g|r now uuid g Hf|now id who g|id who g|now g|g]; simpl.
  - done.
  - destruct (evaluate_sync_cases r now uuid g) as [[_ ->]|[(? & _ & ->)|[Hd ->]]]; try done.
    apply engine_ok_insert; [done|]. by apply new_approval_ok.
  - unfold approve. destruct (_ !! id) as [a|] eqn:Ha; [|done].
    pose proof (map_Forall_lookup_1 _ _ _ _ Hok Ha) as Hao.
    repeat (case_decide || case_match); simpl; try done; apply engine_ok_insert; try done;
      apply approval_ok_decide; try done. intros _. exists who. naive_solver.
  - unfold reject. destruct (_ !! id) as [a|] eqn:Ha; [|done].
    pose proof (map_Forall_lookup_1 _ _ _ _ Hok Ha) as Hao.
    case_decide; simpl; [done|]. apply engine_ok_insert; [done|]. by apply approval_ok_decide.
  - intros id a. simpl. rewrite lookup_fmap. intros (b & Hb & ->)%fmap_Some.
    pose proof (map_Forall_lookup_1 _ _ _ _ Hok Hb) as Hao.
    case_match; [|done]. by apply approval_ok_decide.
  - intros id a. simpl. intros [Ha _]%map_lookup_filter_Some. by apply Hok.
Qed.

Lemma engine_reachable_ok t g : rtc engine_step (engine_new t) g → engine_ok g.
Proof.
  intros Hr. assert (engine_ok (engine_new t)) as Hok by (intros id a; simpl; by rewrite lookup_empty).
  induction Hr; eauto using engine_step_ok.
Qed.

(** C16: In every reachable engine, a pending approval has no approver, and an
    approved one was approved by a principal other than the requester whose
    role is platform admin, operator or regulated operator of the target
    vCluster; approvals exist only for writes of regulated operators on their
    own vCluster. *)
Theorem approvals_two_person t g id a :
  rtc engine_step (engine_new t) g → get_approval id g = Some a → approval_ok id a.
Proof. intros Hr%engine_reachable_ok Ha. by apply Hr. Qed.

(** Approving succeeds exactly when the request exists, is pending, has not
    expired, comes from someone else and the approver has access; success
    marks it approved by that approver and nothing else. *)
Theorem approve_succeeds_iff now id who g :
  (is_ok (approve now id who g).2 = true ↔
   ∃ a, get_approval id g = Some a ∧ apr_status a = Pending ∧ (now <= apr_expires_at a)%Z ∧
     principal (apr_requester a) ≠ principal who ∧
     approver_has_access who (scope_vcluster (apr_scope a)) = true) ∧
  (∀ d, (approve now id who g).2 = Ok d → d = PAllow ("approved:" +:+ id) ∧
     ∃ a, get_approval id g = Some a ∧ (approve now id who g).1 =
       set_eng_approvals g (<[id := decide_with a Approved (Some who)]> (eng_pending_approvals g))).
Proof.
  unfold get_approval, approve. destruct (eng_pending_approvals g !! id) as [a|] eqn:Ha;
    [|split; [|done]; split; [done|by intros (? & ? & _)]].
  repeat (case_decide || case_match); simpl; (split; [split|]);
    try done; try (intros (? & ? & ? & ? & ? & ?); simplify_eq; congruence || lia).
  - intros _. exists a. split_and!; try done; lia.
  - intros d [= <-]. eauto.
Qed.

(** The engine's decision is the RBAC decision: it allows exactly what RBAC
    allows, denies exactly what RBAC denies with the same reason, and asks
    for approval exactly when RBAC defers; only then does it change, by one
    new pending request that expires after the configured timeout. *)
Theorem evaluate_sync_refines_rbac r now uuid g :
  let d := evaluate (req_identity r) (req_action r) (req_scope r) (effective_policy g (req_scope r)) in
  let '(g', out) := evaluate_sync r now uuid g in
  ((∃ pref, out = PAllow pref) ↔ d = Allow) ∧
  (∀ reason, (∃ pref, out = PDeny pref reason) ↔ d = Deny reason) ∧
  ((∃ pref i, out = PRequireApproval pref i) ↔ d = Defer) ∧
  (d ≠ Defer → g' = g) ∧
  (d = Defer → get_approval uuid g' = Some (new_approval g r now uuid) ∧
     ∀ i, i ≠ uuid → get_approval i g' = get_approval i g).
Proof.
  simpl. unfold get_approval.
  destruct (evaluate_sync_cases r now uuid g) as [[-> ->]|[(reason & -> & ->)|[-> ->]]];
    (split_and!; try done; try naive_solver).
  intros _. simpl. split; [by rewrite lookup_insert_eq|]. intros. by rewrite lookup_insert_ne.
Qed.

(** The external policy service is never consulted: whatever OPA client is
    attached, the asynchronous evaluation returns what it returns without
    one, because every deferral is a two-person approval. *)
Theorem opa_never_consulted opa r g : evaluate_async opa r g = evaluate_async None r g.
Proof.
  unfold evaluate_async. case_match eqn:E; [done..|].
  apply evaluate_defer_iff in E as (vc & _ & _ & _ & ->). done.
Qed.

(** The expiry sweep marks exactly the timed-out pending requests, returns
    their identifiers, and leaves every other request unchanged. *)
Theorem expire_approvals_exact now g id :
  let '(g', expired) := expire_approvals now g in
  (id ∈ expired ↔ ∃ a, get_approval id g = Some a ∧ timed_out now a = true) ∧
  get_approval id g' =
    (λ a, if timed_out now a then decide_with a Expired (apr_approver a) else a) <$> get_approval id g.
Proof.
  unfold expire_approvals, get_approval. simpl. split; [|by rewrite lookup_fmap].
  rewrite list_elem_of_fmap. split.
  - intros ([k a] & -> & [Ht Hin]%list_elem_of_filter). apply elem_of_map_to_list in Hin. eauto.
  - intros (a & Ha & Ht). exists (id, a). rewrite list_elem_of_filter, elem_of_map_to_list. done.
Qed.

(** Approving after the deadline rewrites the status of a request that was
    already approved: it ends as expired although its approval was granted in
    time. *)
Theorem late_approve_overwrites now id who g a :
  get_approval id g = Some a → (apr_expires_at a < now)%Z →
  (approve now id who g).2 = Err (ApprovalExpired id) ∧
  apr_status <$> get_approval id (approve now id who g).1 = Some Expired.
Proof.
  unfold get_approval, approve. intros -> Hlt. rewrite decide_True by done. simpl.
  by rewrite lookup_insert_eq.
Qed.

(** ** Witnesses *)

Module EngineSample.
Definition request : PolicyRequest :=
  {| req_identity := RbacSample.ident "reg" (regulated_role "ml"); req_scope := VCluster "ml";
     req_action := actions.COMMIT; req_proposed_change := None; req_command := None |}.
Definition start : PolicyEngine := set_policy RbacSample.regulated_policy (engine_new 1800).
Definition pending : PolicyEngine := (evaluate_sync request 0 "a1" start).1.
Definition approver : Identity := RbacSample.ident "boss" "pact-platform-admin".
Definition approved : PolicyEngine := (approve 5 "a1" approver pending).1.
Definition the (g : PolicyEngine) : PendingApproval :=
  default (new_approval g request 0 "") (get_approval "a1" g).
End EngineSample.

Lemma approvals_two_person_witness : approval_ok "a1" (EngineSample.the EngineSample.approved).
Proof.
  apply (approvals_two_person 1800 EngineSample.approved).
  - eapply rtc_l; [apply (step_set_policy RbacSample.regulated_policy)|].
    eapply rtc_l; [apply (step_evaluate EngineSample.request 0 "a1"); reflexivity|].
    apply rtc_once. apply (step_approve 5 "a1" EngineSample.approver).
  - vm_compute. reflexivity.
Defined.

Lemma late_approve_overwrites_witness :
  apr_status <$> get_approval "a1" EngineSample.approved = Some Approved ∧
  apr_status <$> get_approval "a1"
    (approve (seconds 1801) "a1" EngineSample.approver EngineSample.approved).1 = Some Expired.
Proof.
  split; [vm_compute; reflexivity|].
  apply (late_approve_overwrites (seconds 1801) "a1" EngineSample.approver EngineSample.approved
    (EngineSample.the EngineSample.approved)); vm_compute; reflexivity.
Defined.
