(* ===== verification/PolicyService.v ===== *)
(** * The policy service

    crates/pact-journal/src/policy_service.rs: the gRPC PolicyService hosted
    by the journal. Decisions come from the RBAC engine with the policy
    stored in the journal; approvals and policies are written through Raft.
    The OPA client, the clock and the generated identifiers are parameters;
    so is chrono's [DateTime::from_timestamp]. *)

From S2P Require Import Prelude Float64 Types JournalState JournalInvariants JournalProperties Raft ConfigService Rbac PolicyEngine.
From stdpp Require Import options.

(** ** Wire messages *)

Record PolicyEvalRequest := {
  pq_author : option ProtoIdentity;
  pq_scope : option (option ProtoScope);
  pq_action : string;
  pq_command : option string;
}.

Record ApprovalRequired := { ar_approval_type : string; ar_pending_approval_id : string }.

Record PolicyEvalResponse := {
  pr_authorized : bool;
  pr_policy_ref : string;
  pr_denial_reason : option string;
  pr_approval : option ApprovalRequired;
}.

Record ProtoVClusterPolicy := {
  pp_vcluster_id : string;
  pp_policy_id : string;
  pp_updated_at : option ProtoTimestamp;
  pp_drift_sensitivity : f64;
  pp_base_commit_window_seconds : N;
  pp_emergency_window_seconds : N;
  pp_auto_converge_categories : list string;
  pp_require_ack_categories : list string;
  pp_enforcement_mode : string;
  pp_role_bindings : list RoleBinding;
  pp_regulated : bool;
  pp_two_person_approval : bool;
  pp_audit_retention_days : N;
  pp_federation_template : option string;
  pp_supervisor_backend : string;
  pp_exec_whitelist : list string;
  pp_shell_whitelist : list string;
  pp_emergency_allowed : bool;
  pp_ai_exec_allowed : bool;
}.

Record UpdatePolicyRequest := { up_vcluster_id : string; up_policy : option ProtoVClusterPolicy }.
Record UpdatePolicyResponse := { upr_success : bool; upr_policy_ref : string; upr_error : option string }.

Record PendingApprovalEntry := {
  pa_approval_id : string;
  pa_action : string;
  pa_scope : string;
  pa_requester : string;
  pa_status : string;
  pa_created_at : option ProtoTimestamp;
  pa_expires_at : option ProtoTimestamp;
}.

Record DecideApprovalRequest := {
  da_approval_id : string;
  da_approver : option ProtoIdentity;
  da_decision : string;
}.
Record DecideApprovalResponse := { dar_success : bool; dar_error : option string }.

(** ** Conversions *)

Definition proto_to_identity (p : ProtoIdentity) : Identity :=
  {| principal := pi_principal p;
     principal_type := if decide (pi_principal_type p = "agent") then Agent
                       else if decide (pi_principal_type p = "service") then Service
                       else Human;
     role := pi_role p |}.

Definition proto_to_scope (p : option ProtoScope) : Scope :=
  match p with
  | Some (PNodeId n) => Node n
  | Some (PVclusterId vc) => VCluster vc
  | Some (PGlobal true) => Global
  | _ => Global
  end.

Definition make_response (authorized : bool) (pref : string) (denial : option string) : PolicyEvalResponse :=
  {| pr_authorized := authorized; pr_policy_ref := pref; pr_denial_reason := denial; pr_approval := None |}.

Definition policy_ref (policy : option VClusterPolicy) (prefix action : string) : string :=
  match policy with
  | None => prefix +:+ ":default:" +:+ action
  | Some p => prefix +:+ ":" +:+ pol_policy_id p +:+ ":" +:+ action
  end.

(** [DateTime::from_timestamp] of chrono, with what its documentation says of
    the times it represents. *)
Class ChronoTimestamp := {
  from_timestamp : Z → N → option DateTime;
  representable : DateTime → Prop;
  from_timestamp_ok t : representable t →
    from_timestamp (t `div` 1000000000)%Z (Z.to_N (t `mod` 1000000000)%Z) = Some t;
}.

(** The Unix epoch, chrono's default time. *)
Definition epoch : DateTime := 0%Z.

Definition vcluster_policy_to_proto (p : VClusterPolicy) : ProtoVClusterPolicy :=
  {| pp_vcluster_id := pol_vcluster_id p;
     pp_policy_id := pol_policy_id p;
     pp_updated_at := to_timestamp <$> pol_updated_at p;
     pp_drift_sensitivity := pol_drift_sensitivity p;
     pp_base_commit_window_seconds := pol_base_commit_window_seconds p;
     pp_emergency_window_seconds := pol_emergency_window_seconds p;
     pp_auto_converge_categories := pol_auto_converge_categories p;
     pp_require_ack_categories := pol_require_ack_categories p;
     pp_enforcement_mode := pol_enforcement_mode p;
     pp_role_bindings := (λ rb, {| binding_role := binding_role rb;
        binding_principals := binding_principals rb;
        binding_allowed_actions := binding_allowed_actions rb |}) <$> pol_role_bindings p;
     pp_regulated := pol_regulated p;
     pp_two_person_approval := pol_two_person_approval p;
     pp_audit_retention_days := pol_audit_retention_days p;
     pp_federation_template := pol_federation_template p;
     pp_supervisor_backend := pol_supervisor_backend p;
     pp_exec_whitelist := pol_exec_whitelist p;
     pp_shell_whitelist := pol_shell_whitelist p;
     pp_emergency_allowed := pol_emergency_allowed p;
     pp_ai_exec_allowed := pol_ai_exec_allowed p |}.

Definition proto_to_vcluster_policy `{ChronoTimestamp} (p : ProtoVClusterPolicy) : VClusterPolicy :=
  {| pol_vcluster_id := pp_vcluster_id p;
     pol_policy_id := pp_policy_id p;
     pol_updated_at := (λ ts, default epoch
        (from_timestamp (ts_seconds ts) (i64_as_u32 (ts_nanos ts)))) <$> pp_updated_at p;
     pol_drift_sensitivity := pp_drift_sensitivity p;
     pol_base_commit_window_seconds := pp_base_commit_window_seconds p;
     pol_emergency_window_seconds := pp_emergency_window_seconds p;
     pol_auto_converge_categories := pp_auto_converge_categories p;
     pol_require_ack_categories := pp_require_ack_categories p;
     pol_enforcement_mode := pp_enforcement_mode p;
     pol_role_bindings := (λ rb, {| binding_role := binding_role rb;
        binding_principals := binding_principals rb;
        binding_allowed_actions := binding_allowed_actions rb |}) <$> pp_role_bindings p;
     pol_regulated := pp_regulated p;
     pol_two_person_approval := pp_two_person_approval p;
     pol_emergency_allowed := pp_emergency_allowed p;
     pol_audit_retention_days := pp_audit_retention_days p;
     pol_federation_template := pp_federation_template p;
     pol_supervisor_backend := pp_supervisor_backend p;
     pol_ai_exec_allowed := pp_ai_exec_allowed p;
     pol_exec_whitelist := pp_exec_whitelist p;
     pol_shell_whitelist := pp_shell_whitelist p |}.

(** ** Handlers *)

Definition anonymous : Identity :=
  {| principal := "anonymous"; principal_type := Human; role := "" |}.

(** Who asks, and for which scope. *)
Definition eval_identity (req : PolicyEvalRequest) : Identity :=
  from_option proto_to_identity anonymous (pq_author req).
Definition eval_scope (req : PolicyEvalRequest) : Scope :=
  from_option proto_to_scope Global (pq_scope req).

(** The stored policy of a request: looked up for vCluster scopes only. *)
Definition eval_policy (scope : Scope) (s : JournalState) : option VClusterPolicy :=
  match scope with VCluster vc => policies s !! vc | _ => None end.

Definition evaluate_opa (opa : option OpaClient) (id : Identity) (scope : Scope)
    (action : string) (command : option string) (policy : option VClusterPolicy) : PolicyEvalResponse :=
  match opa with
  | Some client =>
      match client {| opa_principal := principal id; opa_role := role id;
                      opa_principal_type := debug_principal_type (principal_type id);
                      opa_action := action;
                      opa_vcluster := match scope with VCluster vc | Node vc => vc | Global => "" end;
                      opa_command := command |} with
      | Ok OpaAllow => make_response true (policy_ref policy "opa" action) None
      | Ok (OpaDeny reason) => make_response false ("opa:denied:" +:+ action) (Some reason)
      | Err _ => make_response true (policy_ref policy "degraded" action) None
      end
  | None => make_response true (policy_ref policy "rbac" action) None
  end.

Definition deferred_approval (req : PolicyEvalRequest) (now : DateTime) (uuid : string) : PendingApproval :=
  {| apr_approval_id := uuid;
     apr_original_request := default (pq_action req) (pq_command req);
     apr_action := pq_action req;
     apr_scope := eval_scope req;
     apr_requester := eval_identity req;
     apr_approver := None;
     apr_status := Pending;
     apr_created_at := now;
     apr_expires_at := (now + seconds (24 * 3600))%Z |}.

Definition svc_evaluate (opa : option OpaClient) (now : DateTime) (uuid : string)
    (req : PolicyEvalRequest) : prog (result PolicyEvalResponse Status) :=
  let id := eval_identity req in
  let scope := eval_scope req in
  let action := pq_action req in
  state ← read_state;
  let vcluster_policy := eval_policy scope state in
  let policy := default vcluster_policy_default vcluster_policy in
  match evaluate id action scope policy with
  | Allow => mret (Ok (make_response true (policy_ref vcluster_policy "rbac" action) None))
  | Deny reason => mret (Ok (make_response false ("rbac:denied:" +:+ action) (Some reason)))
  | Defer =>
      if pol_two_person_approval policy then
        resp ← client_write (CreateApproval (deferred_approval req now uuid));
        match resp with
        | Err e => mret (Err (raft_failed e))
        | Ok _ =>
            mret (Ok {| pr_authorized := false; pr_policy_ref := "rbac:deferred:" +:+ action;
                        pr_denial_reason := None;
                        pr_approval := Some {| ar_approval_type := "two_person";
                                               ar_pending_approval_id := uuid |} |})
        end
      else mret (Ok (evaluate_opa opa id scope action (pq_command req) vcluster_policy))
  end.

Definition svc_get_effective_policy (vc : string) (s : JournalState) : result ProtoVClusterPolicy Status :=
  let? p := ok_or (policies s !! vc) (mkStatus NotFound ("policy for " +:+ vc +:+ " not found")) in
  Ok (vcluster_policy_to_proto p).

Definition update_policy `{ChronoTimestamp} (req : UpdatePolicyRequest) : prog (result UpdatePolicyResponse Status) :=
  match up_policy req with
  | None => mret (Err (mkStatus InvalidArgument "policy required"))
  | Some pp =>
      resp ← client_write (SetPolicy (up_vcluster_id req) (proto_to_vcluster_policy pp));
      mret match resp with
      | Err e => Err (raft_failed e)
      | Ok RespOk => Ok {| upr_success := true; upr_policy_ref := "policy:" +:+ up_vcluster_id req; upr_error := None |}
      | Ok (ValidationError reason) => Ok {| upr_success := false; upr_policy_ref := ""; upr_error := Some reason |}
      | Ok (EntryAppended _) | Ok (EnrollmentResult _ _ _) =>
          Err (mkStatus Internal "unexpected response for UpdatePolicy")
      end
  end.

Definition approval_in_scope (filter : option string) (a : PendingApproval) : bool :=
  match filter with
  | Some f => match apr_scope a with VCluster vc => bool_decide (vc = f) | _ => Str.is_empty f end
  | None => true
  end.

Definition scope_text (s : Scope) : string :=
  match s with Global => "global" | VCluster vc => "vc:" +:+ vc | Node n => "node:" +:+ n end.

(** A time with its sub-second part dropped. *)
Definition whole_seconds (t : DateTime) : ProtoTimestamp :=
  {| ts_seconds := (t `div` 1000000000)%Z; ts_nanos := 0 |}.

Definition approval_entry (a : PendingApproval) : PendingApprovalEntry :=
  {| pa_approval_id := apr_approval_id a;
     pa_action := apr_action a;
     pa_scope := scope_text (apr_scope a);
     pa_requester := principal (apr_requester a);
     pa_status := debug_approval_status (apr_status a);
     pa_created_at := Some (whole_seconds (apr_created_at a));
     pa_expires_at := Some (whole_seconds (apr_expires_at a)) |}.

Definition list_pending_approvals (scope_filter : option string) (s : JournalState) : list PendingApprovalEntry :=
  approval_entry <$> filter (λ a, approval_in_scope scope_filter a = true) (hash_values (pending_approvals s)).

Definition parse_decision (d : string) : result ApprovalStatus Status :=
  if decide (d = "approved") then Ok Approved
  else if decide (d = "rejected") then Ok Rejected
  else Err (mkStatus InvalidArgument ("invalid decision '" +:+ d +:+ "', must be 'approved' or 'rejected'")).

Definition decide_approval (req : DecideApprovalRequest) : prog (result DecideApprovalResponse Status) :=
  match da_approver req with
  | None => mret (Err (mkStatus InvalidArgument "approver identity required"))
  | Some proto =>
      match parse_decision (da_decision req) with
      | Err st => mret (Err st)
      | Ok decision =>
          resp ← client_write (DecideApproval (da_approval_id req) (proto_to_identity proto) decision);
          mret match resp with
          | Err e => Err (raft_failed e)
          | Ok RespOk => Ok {| dar_success := true; dar_error := None |}
          | Ok (ValidationError reason) => Ok {| dar_success := false; dar_error := Some reason |}
          | Ok (EntryAppended _) | Ok (EnrollmentResult _ _ _) =>
              Err (mkStatus Internal "unexpected response for DecideApproval")
          end
      end
  end.

(** ** Properties *)

Lemma nanos_small t : i64_as_u32 (t `mod` 1000000000)%Z = Z.to_N (t `mod` 1000000000)%Z.
Proof.
  unfold i64_as_u32. f_equal. apply Z.mod_small.
  pose proof (Z.mod_pos_bound t 1000000000). lia.
Qed.

(** Converting a policy to its wire form and back gives the policy again,
    for every update time chrono can represent. *)
Theorem policy_roundtrip `{ChronoTimestamp} p :
  (∀ t, pol_updated_at p = Some t → representable t) →
  proto_to_vcluster_policy (vcluster_policy_to_proto p) = p.
Proof.
  intros Ht. destruct p as [? ? up ? ? ? ? ? ? rbs ? ? ? ? ? ? ? ? ?].
  unfold proto_to_vcluster_policy, vcluster_policy_to_proto. simpl in *. f_equal.
  - destruct up as [t|]; [|done]. simpl. f_equal. rewrite nanos_small, from_timestamp_ok by auto. done.
  - rewrite <- list_fmap_compose. induction rbs as [|[] rbs IH]; csimpl; [done|]. by f_equal.
Qed.

Section service.
Context `{Chrono}.

(** The decision a request gets in a state of the journal. *)
Definition decision_in (req : PolicyEvalRequest) (s : JournalState) : RbacDecision :=
  evaluate (eval_identity req) (pq_action req) (eval_scope req)
    (default vcluster_policy_default (eval_policy (eval_scope req) s)).

Lemma default_never_defers id action scope :
  evaluate id action scope vcluster_policy_default ≠ Defer.
Proof. intros (vc & _ & _ & _ & ?)%evaluate_defer_iff. done. Qed.

Lemma defer_needs_policy req s :
  decision_in req s = Defer →
  ∃ p, eval_policy (eval_scope req) s = Some p ∧ pol_two_person_approval p = true.
Proof.
  unfold decision_in. destruct (eval_policy _ s) as [p|]; simpl.
  - intros (vc & _ & _ & _ & Hp)%evaluate_defer_iff. eauto.
  - by intros ?%default_never_defers.
Qed.

(** C3: A policy evaluation, under any interference by other writers, answers
    with the RBAC decision for the policy the journal holds when it is read,
    which is after some first commands of others during the request (none
    when there are none): authorised exactly on Allow, denied with the reason
    on Deny; on Defer, and only then, it asks for a second person, after
    exactly one pending approval with the requester's identity, the announced
    identifier and a 24 hour lifetime was applied. *)
Theorem svc_evaluate_follows_rbac opa now uuid req h s s' r tr :
  runs_in h s (svc_evaluate opa now uuid req) s' (Ok r) tr →
  ∃ log h', h = others log ++ h' ∧ let d := decision_in req (apply_log log s) in
  (pr_authorized r = true ↔ d = Allow) ∧
  (∀ reason, d = Deny reason ↔ pr_denial_reason r = Some reason) ∧
  (pr_approval r = Some {| ar_approval_type := "two_person"; ar_pending_approval_id := uuid |} ↔ d = Defer) ∧
  (d ≠ Defer → tr = [] ∧ ∃ log', h' = others log') ∧
  (d = Defer → ∃ log1 t log2, let cmd := CreateApproval (deferred_approval req now uuid) in
     h' = others log1 ++ Applied t cmd :: others log2 ∧
     tr = [{| ev_before := apply_log (log ++ log1) s; ev_cmd := cmd; ev_answer := Ok RespOk |}]).
Proof.
  intros (log & h' & -> & Hr)%runs_in_read_inv. exists log, h'. split; [done|]. simpl.
  pose proof (defer_needs_policy req (apply_log log s)) as Hneed.
  unfold decision_in in *. destruct (evaluate _ _ _ _) as [|reason|] eqn:E.
  - apply runs_in_ret_inv in Hr as ([= ->] & -> & Hl). naive_solver.
  - apply runs_in_ret_inv in Hr as ([= ->] & -> & Hl). naive_solver.
  - destruct (Hneed eq_refl) as (p & Hp & Htwo). rewrite Hp in Hr. simpl in Hr. rewrite Htwo in Hr.
    apply runs_in_write_inv in Hr as (log1 & h2 & [(t & tr' & -> & -> & Hr)|[(e & -> & Hr)|(t & e & tr' & -> & -> & Hr)]]);
      [|by apply runs_in_ret_inv in Hr as (? & _)..].
    apply runs_in_ret_inv in Hr as ([= ->] & -> & log2 & ->). simpl.
    split_and!; [naive_solver..|done|]. intros _. exists log1, t, log2. by rewrite apply_log_app.
Qed.

(** The two-person rule of a vCluster does not bind requests that name a
    node: for a regulated operator, a write scoped to the vCluster is
    deferred, while the same write scoped to a node of that name is
    authorised at once, whatever policies the journal holds. *)
Theorem node_scope_skips_two_person opa now uuid req vc s s' r tr p :
  role (eval_identity req) = regulated_role vc → pq_action req ∈ WRITE_ACTIONS →
  policies s !! vc = Some p → pol_two_person_approval p = true →
  runs s (svc_evaluate opa now uuid req) s' (Ok r) tr →
  (eval_scope req = Node vc → pr_authorized r = true ∧ tr = []) ∧
  (eval_scope req = VCluster vc → decision_in req s = Defer).
Proof.
  intros Hrole Hw Hp Htwo Hr. split; intros Hsc.
  - apply runs_read_inv in Hr as [log Hr]. rewrite Hsc in Hr. simpl in Hr.
    destruct (evaluate_family (eval_identity req) (pq_action req) (Node vc) vcluster_policy_default vc)
      as [Heq _]; [tauto|].
    rewrite Heq in Hr by by right.
    destruct (evaluate_role_regulated (eval_identity req) (pq_action req) vc vcluster_policy_default vc Hrole)
      as [[_ Hallow] _].
    rewrite Hallow in Hr by (right; right; done).
    apply runs_ret_inv in Hr as [[= ->] ->]. done.
  - unfold decision_in. rewrite Hsc. simpl. rewrite Hp. simpl. apply evaluate_defer_iff.
    exists vc. split; [done|]. split; [by left|]. by split.
Qed.

Lemma apply_policies_frame now cmd s vc :
  (∀ q, cmd ≠ SetPolicy vc q) → policies (apply now cmd s).1 !! vc = policies s !! vc.
Proof.
  intros Hc. destruct cmd as [| |vc' q| | | | | | | | | | | | | |]; unfold_apply; try (by repeat case_match).
  simpl. rewrite lookup_insert_ne; [done|]. intros ->. by apply (Hc q).
Qed.
Lemma apply_log_policies_frame log s vc :
  Forall (λ c, ∀ q, c.2 ≠ SetPolicy vc q) log → policies (apply_log log s) !! vc = policies s !! vc.
Proof.
  revert s. induction log as [|[t c] log IH]; intros s; [done|]. intros [Hc Hl]%Forall_cons.
  change (apply_log ((t, c) :: log) s) with (apply_log log (apply t c s).1). rewrite IH by done. by apply apply_policies_frame.
Qed.

(** C4: An approval authorises nothing: while the policy of the vCluster stays,
    whatever was asked, approved or rejected meanwhile, a request that was
    deferred is deferred again when it is repeated, with a new pending
    approval, which again has no approver. *)
Theorem approval_authorises_nothing opa now uuid req vc log t s :
  eval_scope req = VCluster vc → decision_in req s = Defer → Forall (λ c, ∀ q, c.2 ≠ SetPolicy vc q) log →
  let '(s', r) := run t (svc_evaluate opa now uuid req) (apply_log log s) in
  (∃ resp, r = Ok resp ∧ pr_authorized resp = false ∧
     pr_approval resp = Some {| ar_approval_type := "two_person"; ar_pending_approval_id := uuid |}) ∧
  pending_approvals s' = <[uuid := deferred_approval req now uuid]> (pending_approvals (apply_log log s)).
Proof.
  intros Hsc Hd Hlog. destruct (defer_needs_policy req s Hd) as (p & Hp & Htwo).
  assert (eval_policy (eval_scope req) (apply_log log s) = Some p) as Hp'.
  { rewrite Hsc in Hp |- *. simpl in *. by rewrite apply_log_policies_frame. }
  unfold decision_in in Hd. rewrite Hp in Hd. unfold svc_evaluate. simpl in *. rewrite Hp'. simpl. rewrite Hd, Htwo. simpl.
  split; [by eexists|done].
Qed.

Lemma parse_decision_not_pending x d : parse_decision x = Ok d → d ≠ Pending.
Proof. unfold parse_decision. repeat case_decide; naive_solver. Qed.

(** A decision reported as successful was recorded: when it was applied the
    request existed, was pending and came from another principal, and the
    decided approval with this approver and status is in the journal from
    then on, unless a new request reuses its identifier. Answers to malformed
    requests apply nothing. *)
Theorem decide_approval_recorded req s s' tr :
  runs s (decide_approval req) s' (Ok {| dar_success := true; dar_error := None |}) tr →
  ∃ who d s1 a, da_approver req = Some who ∧ parse_decision (da_decision req) = Ok d ∧
    tr = [{| ev_before := s1; ev_cmd := DecideApproval (da_approval_id req) (proto_to_identity who) d;
             ev_answer := Ok RespOk |}] ∧
    pending_approvals s1 !! da_approval_id req = Some a ∧ apr_status a = Pending ∧
    principal (apr_requester a) ≠ pi_principal who ∧
    ∃ log, s' = apply_log log (apply 0 (DecideApproval (da_approval_id req) (proto_to_identity who) d) s1).1 ∧
      ((∀ t b, (t, CreateApproval b) ∈ log → apr_approval_id b ≠ da_approval_id req) →
       pending_approvals s' !! da_approval_id req = Some (decide_with a d (Some (proto_to_identity who)))).
Proof.
  unfold decide_approval. destruct (da_approver req) as [who|]; [|by intros [? _]%runs_ret_inv].
  destruct (parse_decision (da_decision req)) as [d|] eqn:Hd; [|by intros [? _]%runs_ret_inv].
  intros [(log & t & tr' & -> & Hr)|(log & e & tr' & Hr & _)]%runs_write_inv;
    [|by apply runs_ret_inv in Hr as [? _]].
  set (s1 := apply_log log s) in *. destruct (runs_log _ _ _ _ _ Hr) as [log2 ->].
  apply runs_ret_inv in Hr as [Hans ->]. simpl in *.
  destruct (decide_approval_cases (da_approval_id req) (proto_to_identity who) d s1)
    as [(reason & Heq)|(a & Ha & Hst & Hne & Heq)]; rewrite Heq in Hans |- *; simpl in *; [done|].
  exists who, d, s1, a. split_and!; try done. exists log2. rewrite Heq. split; [done|].
  intros Hnew. apply decided_approval_stable; [by apply lookup_insert_eq| |done].
  intros Hp. simpl in Hp. apply parse_decision_not_pending in Hd. done.
Qed.

End service.

(** ** Witnesses *)

Module PolicySample.

#[export] Existing Instance JournalSample.chrono.

#[export, program] Instance timestamps : ChronoTimestamp :=
  {| from_timestamp := λ s n, Some (s * 1000000000 + Z.of_N n)%Z; representable := λ _, True |}.
Next Obligation.
  intros t _. simpl. pose proof (Z.mod_pos_bound t 1000000000). pose proof (Z.div_mod t 1000000000).
  rewrite Z2N.id by lia. f_equal. lia.
Qed.

Definition request (sc : ProtoScope) : PolicyEvalRequest :=
  {| pq_author := Some {| pi_principal := "reg"; pi_principal_type := "human"; pi_role := "pact-regulated-ml" |};
     pq_scope := Some (Some sc); pq_action := actions.COMMIT; pq_command := None |}.

Definition journal : JournalState :=
  apply_log [(0%Z, SetPolicy "ml" RbacSample.regulated_policy)] journal_init.

Definition deferred := run 1 (svc_evaluate None 1 "a1" (request (PVclusterId "ml"))) journal.
Definition direct := run 1 (svc_evaluate None 1 "a1" (request (PNodeId "ml"))) journal.

Definition answer (r : result PolicyEvalResponse Status) : PolicyEvalResponse :=
  match r with Ok r => r | Err _ => make_response false "" None end.

Definition decision (d : string) : DecideApprovalRequest :=
  {| da_approval_id := "a1"; da_decision := d;
     da_approver := Some {| pi_principal := "boss"; pi_principal_type := "human"; pi_role := "pact-platform-admin" |} |}.

End PolicySample.
Import PolicySample.

Lemma policy_roundtrip_witness :
  proto_to_vcluster_policy (vcluster_policy_to_proto RbacSample.regulated_policy) = RbacSample.regulated_policy.
Proof. apply (policy_roundtrip RbacSample.regulated_policy). discriminate. Defined.

(** A policy with the two-person rule is set while the request is on its
    way; the approval is written in the state the request found. *)
Lemma svc_evaluate_follows_rbac_witness :
  let set := SetPolicy "ml" RbacSample.regulated_policy in
  let cmd := CreateApproval (deferred_approval (request (PVclusterId "ml")) 1 "a1") in
  ∃ log h', [Other 0 set; Applied 1 cmd] = others log ++ h' ∧
    (decision_in (request (PVclusterId "ml")) (apply_log log journal_init) = Defer ∧
     ∃ log1 t log2, h' = others log1 ++ Applied t cmd :: others log2).
Proof.
  intros set cmd.
  assert (runs_in [Other 0 set; Applied 1 cmd] journal_init (svc_evaluate None 1 "a1" (request (PVclusterId "ml")))
    deferred.1 (Ok (answer deferred.2)) [{| ev_before := journal; ev_cmd := cmd; ev_answer := Ok RespOk |}]) as Hr.
  { apply in_env, in_read. apply (in_write [] journal cmd _ deferred.1 (Ok (answer deferred.2)) [] 1%Z). apply in_ret. }
  destruct (svc_evaluate_follows_rbac None 1%Z "a1" (request (PVclusterId "ml")) _ journal_init deferred.1
    (answer deferred.2) _ Hr) as (log & h' & Hh & _ & _ & Hd & _ & Hw).
  exists log, h'. split; [exact Hh|].
  assert (decision_in (request (PVclusterId "ml")) (apply_log log journal_init) = Defer) as Hdef
    by (apply Hd; vm_compute; reflexivity).
  split; [exact Hdef|]. destruct (Hw Hdef) as (log1 & t & log2 & -> & _). exists log1, t, log2. reflexivity.
Defined.

Lemma node_scope_skips_two_person_witness : pr_authorized (answer direct.2) = true.
Proof.
  destruct (run_runs 1 (svc_evaluate None 1 "a1" (request (PNodeId "ml"))) journal) as [tr Htr].
  destruct (node_scope_skips_two_person None 1%Z "a1" (request (PNodeId "ml")) "ml" journal direct.1
    (answer direct.2) tr RbacSample.regulated_policy) as [Hn _];
    [reflexivity|by apply (bool_decide_unpack _); vm_compute|vm_compute; reflexivity|reflexivity|exact Htr|].
  destruct Hn as [Hn _]; [reflexivity|exact Hn].
Defined.

Lemma decide_approval_recorded_witness :
  let s' := (run 2 (decide_approval (decision "approved")) deferred.1).1 in
  ∃ who d s1 a, da_approver (decision "approved") = Some who ∧ parse_decision "approved" = Ok d ∧
    pending_approvals s1 !! "a1" = Some a ∧ apr_status a = Pending ∧
    principal (apr_requester a) ≠ pi_principal who ∧
    ∃ log, s' = apply_log log (apply 0 (DecideApproval "a1" (proto_to_identity who) d) s1).1.
Proof.
  destruct (run_runs 2 (decide_approval (decision "approved")) deferred.1) as [tr Htr].
  destruct (decide_approval_recorded (decision "approved") deferred.1 _ tr Htr)
    as (who & d & s1 & a & H1 & H2 & _ & H4 & H5 & H6 & log & H7 & _).
  exists who, d, s1, a. split_and!; try assumption. exists log. exact H7.
Defined.

(** The request is repeated after the approval. *)
Lemma approval_authorises_nothing_witness :
  let log := [(1%Z, CreateApproval (deferred_approval (request (PVclusterId "ml")) 1 "a1"));
              (2%Z, DecideApproval "a1" {| principal := "boss"; principal_type := Human; role := "pact-platform-admin" |} Approved)] in
  (∃ a, pending_approvals (apply_log log journal) !! "a1" = Some a ∧ apr_status a = Approved) ∧
  let '(s', r) := run 3 (svc_evaluate None 3 "a2" (request (PVclusterId "ml"))) (apply_log log journal) in
  (∃ resp, r = Ok resp ∧ pr_authorized resp = false ∧
     pr_approval resp = Some {| ar_approval_type := "two_person"; ar_pending_approval_id := "a2" |}) ∧
  pending_approvals s' = <["a2" := deferred_approval (request (PVclusterId "ml")) 3 "a2"]> (pending_approvals (apply_log log journal)).
Proof.
  intros log. split; [eexists; split; vm_compute; reflexivity|].
  apply (approval_authorises_nothing None 3%Z "a2" (request (PVclusterId "ml")) "ml" log 3%Z journal).
  - vm_compute. reflexivity.
  - vm_compute. reflexivity.
  - repeat constructor; discriminate.
Defined.
