(* ===== verification/EnrollmentService.v ===== *)
(** * The enrollment service

    crates/pact-journal/src/enrollment_service.rs: node registration, the
    unauthenticated enrollment of agents, assignment to vClusters and the
    certificate life cycle; with the bearer-token pre-filter of auth.rs. The
    token validator, the certificate authority, the rate limiter's verdict,
    the clock and the generated identifiers are parameters. *)

From Stdlib Require Import Ascii.
From S2P Require Import Prelude Types JournalState JournalInvariants JournalProperties Raft.
From stdpp Require Import options.

(** ** Wire messages *)

Record ProtoHardware := { ph_mac_address : string; ph_bmc_serial : string; ph_extra : gmap string string }.
Record EnrollRequest := { eq_hardware_identity : option ProtoHardware; eq_csr : bytes }.
Record EnrollResponse := {
  es_node_id : string;
  es_domain_id : string;
  es_signed_cert : string;
  es_ca_chain : string;
  es_vcluster_id : string;
  es_cert_serial : string;
  es_cert_expires_at : string;
}.
Record RegisterNodeRequest := { rn_node_id : string; rn_hardware_identity : option ProtoHardware }.
Record BatchNodeResult := {
  bn_node_id : string;
  bn_success : bool;
  bn_enrollment_state : string;
  bn_error : string;
}.
Record BatchRegisterNodesResponse := {
  br_results : list BatchNodeResult;
  br_succeeded : N;
  br_failed : N;
}.
Record DecommissionNodeResponse := {
  dn_node_id : string;
  dn_enrollment_state : string;
  dn_sessions_terminated : N;
  dn_cert_serial_revoked : string;
}.
Record RenewCertResponse := {
  rc_signed_cert : string;
  rc_ca_chain : string;
  rc_cert_serial : string;
  rc_cert_expires_at : string;
}.
Record ListNodesRequest := {
  ln_state_filter : string;
  ln_vcluster_filter : string;
  ln_unassigned_only : bool;
}.
Record NodeSummary := {
  ns_node_id : string;
  ns_enrollment_state : string;
  ns_vcluster_id : string;
  ns_last_seen : string;
  ns_mac_address : string;
}.
Record InspectNodeResponse := {
  in_node_id : string;
  in_domain_id : string;
  in_enrollment_state : string;
  in_hardware_identity : option ProtoHardware;
  in_vcluster_id : string;
  in_cert_serial : string;
  in_cert_expires_at : string;
  in_last_seen : string;
  in_enrolled_at : string;
  in_enrolled_by : string;
  in_active_sessions : N;
}.

(** ** Authentication *)

(** The authorization header of a request: absent, not printable, or text. *)
Inductive AuthHeader := NoHeader | Unprintable | Header (value : string).

Definition auth_interceptor (h : AuthHeader) : result () Status :=
  match h with
  | Header v =>
      if Str.starts_with v "Bearer " then Ok ()
      else Err (mkStatus Unauthenticated "expected Bearer token")
  | Unprintable => Err (mkStatus Unauthenticated "invalid authorization header")
  | NoHeader => Err (mkStatus Unauthenticated "missing authorization header")
  end.

Definition extract_token (h : AuthHeader) : result string Status :=
  match h with
  | NoHeader => Err (mkStatus Unauthenticated "missing authorization header")
  | Unprintable => Err (mkStatus Unauthenticated "invalid authorization header")
  | Header v => ok_or (Str.strip_prefix "Bearer " v) (mkStatus Unauthenticated "expected Bearer token")
  end.

(** The validator of bearer tokens (OIDC or HMAC), with its error text. *)
Abbreviation TokenValidator := (string → result Identity string).

Definition validate_token_str (v : TokenValidator) (token : string) : result Identity Status :=
  match v token with
  | Ok id => Ok id
  | Err e => Err (mkStatus Unauthenticated ("invalid token: " +:+ e))
  end.

(** The caller of a request with a valid token. *)
Definition authenticated (v : TokenValidator) (h : AuthHeader) : result Identity Status :=
  let? t := extract_token h in validate_token_str v t.

Definition PLATFORM_ADMIN : string := "pact-platform-admin".

Definition platform_admin (v : TokenValidator) (h : AuthHeader) : result Identity Status :=
  let? id := authenticated v h in
  if decide (role id = PLATFORM_ADMIN) then Ok id
  else Err (mkStatus PermissionDenied "requires pact-platform-admin").

Definition assign_caller (v : TokenValidator) (h : AuthHeader) (vc : string) : result Identity Status :=
  let? id := authenticated v h in
  if decide (role id ≠ PLATFORM_ADMIN ∧ role id ≠ "pact-ops-" +:+ vc) then
    Err (mkStatus PermissionDenied "requires platform-admin or ops role")
  else Ok id.

(** ** Handlers *)

Record SignedCert := {
  sc_cert_pem : string;
  sc_ca_chain_pem : string;
  sc_cert_serial : string;
  sc_cert_expires_at : string;
}.

(** The certificate authority, [CaKeyManager::sign_csr]. *)
Abbreviation SignCsr := (bytes → NodeId → string → result SignedCert string).

Definition proto_hw_to_domain (hw : ProtoHardware) : HardwareIdentity :=
  {| hw_mac_address := ph_mac_address hw;
     hw_bmc_serial := if Str.is_empty (ph_bmc_serial hw) then None else Some (ph_bmc_serial hw);
     hw_extra := ph_extra hw |}.

(** The clock readings and generated identifiers of one request, in order. *)
Record RequestCtx := { rq_clock : nat → DateTime; rq_uuid : nat → string }.

Definition enrollment_actor : Identity :=
  {| principal := "enrollment-service"; principal_type := Service; role := "pact-service-agent" |}.

(** [audit_enrollment]; the outcome of the write is ignored. *)
Definition audit_record (ctx : RequestCtx) (ty : AdminOperationType) (node detail : string) : AdminOperation :=
  {| op_operation_id := rq_uuid ctx 1; op_timestamp := rq_clock ctx 1; op_actor := enrollment_actor;
     op_operation_type := ty; op_scope := Node node; op_detail := detail |}.
Definition audit_enrollment (ctx : RequestCtx) (ty : AdminOperationType) (node detail : string) : prog () :=
  client_write (RecordOperation (audit_record ctx ty node detail)) ≫= λ _, mret ().

Section handlers.
Context `{Chrono} (validator : TokenValidator) (sign_csr : SignCsr) (domain_id : string).

(** [self.ca.sign_csr(..)]: a call that is seen from outside. *)
Definition ask_signature (csr : bytes) (node : NodeId) : prog (result SignedCert string) :=
  Ask (SignRequest csr node) (mret (sign_csr csr node domain_id)).

(** Refusals of [enroll] after the audit record. *)
Definition refuse_enroll (ctx : RequestCtx) (node detail : string) (st : Status) : prog (result EnrollResponse Status) :=
  audit_enrollment ctx Op_NodeEnroll node detail ≫= λ _, mret (Err st).

(** The part of [enroll] after Raft accepted the activation. *)
Definition enroll_sign (ctx : RequestCtx) (csr : bytes) (node_id : NodeId)
    (vcluster_id : option VClusterId) : prog (result EnrollResponse Status) :=
  answer ← ask_signature csr node_id;
  match answer with
  | Err e => mret (Err (mkStatus Internal ("CSR signing failed: " +:+ e)))
  | Ok signed =>
      client_write (UpdateNodeCert node_id (sc_cert_serial signed) (sc_cert_expires_at signed)) ≫= λ _,
      audit_enrollment ctx Op_NodeEnroll node_id
        ("SUCCESS: node activated, cert_serial=" +:+ sc_cert_serial signed) ≫= λ _,
      mret (Ok {| es_node_id := node_id; es_domain_id := domain_id;
                  es_signed_cert := sc_cert_pem signed; es_ca_chain := sc_ca_chain_pem signed;
                  es_vcluster_id := unwrap_or_default vcluster_id;
                  es_cert_serial := sc_cert_serial signed;
                  es_cert_expires_at := sc_cert_expires_at signed |})
  end.

(** [enroll]; [admitted] is the rate limiter's verdict. *)
Definition enroll (ctx : RequestCtx) (admitted : bool) (req : EnrollRequest) : prog (result EnrollResponse Status) :=
  if negb admitted then mret (Err (mkStatus ResourceExhausted "RATE_LIMITED"))
  else match eq_hardware_identity req with
  | None => mret (Err (mkStatus InvalidArgument "hardware_identity required"))
  | Some hw =>
      state ← read_state;
      match hw_index state !! hw_canonical_key (proto_hw_to_domain hw) with
      | None => refuse_enroll ctx (ph_mac_address hw)
                  ("REJECTED: NODE_NOT_ENROLLED mac=" +:+ ph_mac_address hw)
                  (mkStatus NotFound "NODE_NOT_ENROLLED")
      | Some node_id =>
          match enrollments state !! node_id with
          | None => mret (Err (mkStatus Internal "enrollment index inconsistency"))
          | Some enrollment =>
              match enr_state enrollment with
              | Revoked => refuse_enroll ctx node_id "REJECTED: NODE_REVOKED" (mkStatus PermissionDenied "NODE_REVOKED")
              | Active => refuse_enroll ctx node_id "REJECTED: ALREADY_ACTIVE" (mkStatus AlreadyExists "ALREADY_ACTIVE")
              | Registered | Inactive =>
                  resp ← client_write (ActivateNode node_id (rq_uuid ctx 0)
                           (to_rfc3339 (rq_clock ctx 0 + seconds (3 * 86400))%Z));
                  match resp with
                  | Err e => mret (Err (raft_failed e))
                  | Ok (EnrollmentResult _ _ vcluster_id) => enroll_sign ctx (eq_csr req) node_id vcluster_id
                  | Ok (ValidationError reason) => mret (Err (mkStatus FailedPrecondition reason))
                  | Ok RespOk | Ok (EntryAppended _) => mret (Err (mkStatus Internal "unexpected Raft response"))
                  end
              end
          end
      end
  end.

(** The record a registration by [who] creates. *)
Definition registration (now : DateTime) (who : string) (node : NodeId) (hw : ProtoHardware) : NodeEnrollment :=
  {| enr_node_id := node; enr_domain_id := domain_id; enr_state := Registered;
     enr_hardware_identity := proto_hw_to_domain hw; enr_vcluster_id := None;
     enr_cert_serial := None; enr_cert_expires_at := None; enr_last_seen := None;
     enr_enrolled_at := now;
     enr_enrolled_by := {| principal := who; principal_type := Human; role := PLATFORM_ADMIN |};
     enr_active_sessions := 0 |}.

Definition register_node (now : DateTime) (h : AuthHeader) (req : RegisterNodeRequest) :
    prog (result (string * string) Status) :=
  match platform_admin validator h with
  | Err st => mret (Err st)
  | Ok admin =>
      match rn_hardware_identity req with
      | None => mret (Err (mkStatus InvalidArgument "hardware_identity required"))
      | Some hw =>
          resp ← client_write (RegisterNode (registration now (principal admin) (rn_node_id req) hw));
          mret match resp with
          | Err e => Err (raft_failed e)
          | Ok (EnrollmentResult node st _) => Ok (node, debug_enrollment_state st)
          | Ok (ValidationError reason) => Err (mkStatus FailedPrecondition reason)
          | Ok RespOk | Ok (EntryAppended _) => Err (mkStatus Internal "unexpected Raft response")
          end
      end
  end.

Definition batch_failure (node error : string) : BatchNodeResult :=
  {| bn_node_id := node; bn_success := false; bn_enrollment_state := ""; bn_error := error |}.

(** What the batch loop reports for one node. *)
Definition batch_result (node : string) (resp : result JournalResponse string) : BatchNodeResult :=
  match resp with
  | Ok (EnrollmentResult n st _) =>
      {| bn_node_id := n; bn_success := true; bn_enrollment_state := debug_enrollment_state st; bn_error := "" |}
  | Ok (ValidationError reason) => batch_failure node reason
  | Ok RespOk | Ok (EntryAppended _) => batch_failure node "unexpected response"
  | Err e => batch_failure node ("Raft error: " +:+ e)
  end.

Definition batch_one (now : DateTime) (who : string) (req : RegisterNodeRequest) : prog BatchNodeResult :=
  match rn_hardware_identity req with
  | None => mret (batch_failure (rn_node_id req) "hardware_identity required")
  | Some hw =>
      resp ← client_write (RegisterNode (registration now who (rn_node_id req) hw));
      mret (batch_result (rn_node_id req) resp)
  end.

(** The loop with its accumulators; the counters are [u32]. *)
Fixpoint batch_loop (clock : nat → DateTime) (who : string) (reqs : list RegisterNodeRequest)
    (acc : BatchRegisterNodesResponse) : prog BatchRegisterNodesResponse :=
  match reqs with
  | [] => mret acc
  | req :: rest =>
      r ← batch_one (clock (length rest)) who req;
      batch_loop clock who rest
        {| br_results := br_results acc ++ [r];
           br_succeeded := if bn_success r then wrap_u32 (br_succeeded acc + 1) else br_succeeded acc;
           br_failed := if bn_success r then br_failed acc else wrap_u32 (br_failed acc + 1) |}
  end.

Definition batch_register_nodes (clock : nat → DateTime) (h : AuthHeader) (nodes : list RegisterNodeRequest) :
    prog (result BatchRegisterNodesResponse Status) :=
  match platform_admin validator h with
  | Err st => mret (Err st)
  | Ok admin =>
      r ← batch_loop clock (principal admin) nodes {| br_results := []; br_succeeded := 0; br_failed := 0 |};
      mret (Ok r)
  end.

(** [match resp.data] of the handlers that expect a plain acknowledgement. *)
Definition expect_ok {A} (resp : result JournalResponse string) (a : A) : result A Status :=
  match resp with
  | Err e => Err (raft_failed e)
  | Ok RespOk => Ok a
  | Ok (ValidationError reason) => Err (mkStatus FailedPrecondition reason)
  | Ok (EntryAppended _) | Ok (EnrollmentResult _ _ _) => Err (mkStatus Internal "unexpected response")
  end.

Definition decommission_node (h : AuthHeader) (node : NodeId) (force : bool) :
    prog (result DecommissionNodeResponse Status) :=
  match platform_admin validator h with
  | Err st => mret (Err st)
  | Ok _ =>
      state ← read_state;
      let enrollment := enrollments state !! node in
      let sessions := from_option enr_active_sessions 0%N enrollment in
      if ((0 <? sessions)%N && negb force)%bool then
        mret (Err (mkStatus FailedPrecondition (pretty sessions +:+
          " active session(s) on this node — use --force to terminate")))
      else
        let cert_serial := unwrap_or_default (enrollment ≫= enr_cert_serial) in
        resp ← client_write (RevokeNode node);
        mret (expect_ok resp {| dn_node_id := node; dn_enrollment_state := "Revoked";
                                dn_sessions_terminated := 0; dn_cert_serial_revoked := cert_serial |})
  end.

Definition assign_node (h : AuthHeader) (node : NodeId) (vc : VClusterId) :
    prog (result (string * string) Status) :=
  match assign_caller validator h vc with
  | Err st => mret (Err st)
  | Ok _ => resp ← client_write (AssignNodeToVCluster node vc); mret (expect_ok resp (node, vc))
  end.

Definition unassign_node (h : AuthHeader) (node : NodeId) : prog (result string Status) :=
  match authenticated validator h with
  | Err st => mret (Err st)
  | Ok _ => resp ← client_write (UnassignNode node); mret (expect_ok resp node)
  end.

Definition move_node (h : AuthHeader) (node : NodeId) (to : VClusterId) :
    prog (result (string * string * string) Status) :=
  match authenticated validator h with
  | Err st => mret (Err st)
  | Ok _ =>
      state ← read_state;
      let from_vc := unwrap_or_default (enrollments state !! node ≫= enr_vcluster_id) in
      resp ← client_write (MoveNodeVCluster node from_vc to);
      mret (expect_ok resp (node, from_vc, to))
  end.

Definition renew_cert (h : AuthHeader) (current_serial : string) (csr : bytes) :
    prog (result RenewCertResponse Status) :=
  match authenticated validator h with
  | Err st => mret (Err st)
  | Ok _ =>
      state ← read_state;
      match list_find (λ e, enr_cert_serial e = Some current_serial) (hash_values (enrollments state)) with
      | None => mret (Err (mkStatus NotFound "no enrollment for this certificate serial"))
      | Some (_, e) =>
          answer ← ask_signature csr (enr_node_id e);
          match answer with
          | Err why => mret (Err (mkStatus Internal ("CSR signing failed: " +:+ why)))
          | Ok signed =>
              resp ← client_write (UpdateNodeCert (enr_node_id e) (sc_cert_serial signed) (sc_cert_expires_at signed));
              mret match resp with
              | Err e => Err (raft_failed e)
              | Ok _ => Ok {| rc_signed_cert := sc_cert_pem signed; rc_ca_chain := sc_ca_chain_pem signed;
                              rc_cert_serial := sc_cert_serial signed;
                              rc_cert_expires_at := sc_cert_expires_at signed |}
              end
          end
      end
  end.

(** [role.split('-').skip(2).collect().join("-")]. *)
Definition role_vcluster (r : string) : string := Str.join "-" (drop 2 (Str.split "-"%char r)).

Definition scoped_role (r : string) : bool :=
  (Str.starts_with r "pact-ops-" || Str.starts_with r "pact-viewer-")%bool.

Definition allowed_vcluster (r : string) : option string :=
  if decide (r = PLATFORM_ADMIN) then None
  else if scoped_role r then Some (role_vcluster r) else None.

Definition node_listed (allowed : option string) (req : ListNodesRequest) (e : NodeEnrollment) : bool :=
  if (match allowed with Some vc => bool_decide (enr_vcluster_id e ≠ Some vc) | None => false end) then false
  else if (negb (Str.is_empty (ln_state_filter req)) &&
           negb (bool_decide (Str.to_lowercase (debug_enrollment_state (enr_state e))
                              = Str.to_lowercase (ln_state_filter req))))%bool then false
  else if (negb (Str.is_empty (ln_vcluster_filter req)) &&
           bool_decide (enr_vcluster_id e ≠ Some (ln_vcluster_filter req)))%bool then false
  else if (ln_unassigned_only req && bool_decide (is_Some (enr_vcluster_id e)))%bool then false
  else true.

Definition node_summary (e : NodeEnrollment) : NodeSummary :=
  {| ns_node_id := enr_node_id e;
     ns_enrollment_state := debug_enrollment_state (enr_state e);
     ns_vcluster_id := unwrap_or_default (enr_vcluster_id e);
     ns_last_seen := from_option to_rfc3339 "" (enr_last_seen e);
     ns_mac_address := hw_mac_address (enr_hardware_identity e) |}.

Definition list_nodes (h : AuthHeader) (req : ListNodesRequest) (s : JournalState) : result (list NodeSummary) Status :=
  let? caller := authenticated validator h in
  Ok (node_summary <$> filter (λ e, node_listed (allowed_vcluster (role caller)) req e = true)
        (hash_values (enrollments s))).

Definition inspect_response (e : NodeEnrollment) : InspectNodeResponse :=
  {| in_node_id := enr_node_id e;
     in_domain_id := enr_domain_id e;
     in_enrollment_state := debug_enrollment_state (enr_state e);
     in_hardware_identity := Some {| ph_mac_address := hw_mac_address (enr_hardware_identity e);
        ph_bmc_serial := unwrap_or_default (hw_bmc_serial (enr_hardware_identity e));
        ph_extra := hw_extra (enr_hardware_identity e) |};
     in_vcluster_id := unwrap_or_default (enr_vcluster_id e);
     in_cert_serial := unwrap_or_default (enr_cert_serial e);
     in_cert_expires_at := from_option to_rfc3339 "" (enr_cert_expires_at e);
     in_last_seen := from_option to_rfc3339 "" (enr_last_seen e);
     in_enrolled_at := to_rfc3339 (enr_enrolled_at e);
     in_enrolled_by := principal (enr_enrolled_by e);
     in_active_sessions := enr_active_sessions e |}.

Definition inspect_node (h : AuthHeader) (node : NodeId) (s : JournalState) : result InspectNodeResponse Status :=
  let? caller := authenticated validator h in
  let? e := ok_or (enrollments s !! node) (mkStatus NotFound ("node " +:+ node +:+ " not found")) in
  if (negb (bool_decide (role caller = PLATFORM_ADMIN)) && scoped_role (role caller) &&
      bool_decide (enr_vcluster_id e ≠ Some (role_vcluster (role caller))))%bool then
    Err (mkStatus PermissionDenied "PERMISSION_DENIED: node not in your vCluster")
  else Ok (inspect_response e).

End handlers.

(** ** Enrollment *)

Section enrollment.
Context `{Chrono} (sign_csr : SignCsr) (domain_id : string).

Lemma runs_audit {R} ctx ty n d (p : prog R) s s' r tr :
  runs s (audit_enrollment ctx ty n d ≫= λ _, p) s' r tr → ∃ s1 tr1, runs s1 p s' r tr1.
Proof. exact (runs_write_ignored _ p s s' r tr). Qed.

(** An own write: applied, or failed without effect. *)
Definition tried (c : JournalCommand) (o : occurrence) : Prop := (∃ t, o = Applied t c) ∨ o = Missed c.

Lemma tried_not_asked c o x : tried c o → o ≠ Asked x.
Proof. by intros [[t ->]| ->]. Qed.

(** A write whose outcome is ignored, and what follows. *)
Lemma runs_in_ignored {R} c (p : prog R) h s s' r tr :
  runs_in h s (client_write c ≫= λ _, p) s' r tr →
  ∃ log o h' tr1 tr2 s1, h = others log ++ o :: h' ∧ tried c o ∧
    Forall (λ ev, ev_cmd ev = c) tr1 ∧ tr = tr1 ++ tr2 ∧ runs_in h' s1 p s' r tr2.
Proof.
  intros (log & h' & [(t & tr' & -> & -> & Hr)|[(err & -> & Hr)|(t & err & tr' & -> & -> & Hr)]])%runs_in_write_inv.
  - eexists log, (Applied t c), h', [_], tr', _. split; [done|]. split; [by left; exists t|]. split; [|split; [done|exact Hr]]. by constructor.
  - eexists log, (Missed c), h', [], tr, _. split; [done|]. split; [by right|]. split; [|split; [done|exact Hr]]. constructor.
  - eexists log, (Applied t c), h', [_], tr', _. split; [done|]. split; [by left; exists t|]. split; [|split; [done|exact Hr]]. by constructor.
Qed.

Definition cert_answer (node : NodeId) (vc : option VClusterId) (cert : SignedCert) : EnrollResponse :=
  {| es_node_id := node; es_domain_id := domain_id; es_signed_cert := sc_cert_pem cert;
     es_ca_chain := sc_ca_chain_pem cert; es_vcluster_id := unwrap_or_default vc;
     es_cert_serial := sc_cert_serial cert; es_cert_expires_at := sc_cert_expires_at cert |}.
(** Signing and the writes that follow: the only outcomes. *)
Lemma enroll_sign_shape ctx csr node vc h s s' r tr :
  runs_in h s (enroll_sign sign_csr domain_id ctx csr node vc) s' r tr →
  ∃ log h', h = others log ++ Asked (SignRequest csr node) :: h' ∧ (∀ x, Asked x ∉ h') ∧
  match sign_csr csr node domain_id with
  | Err e => r = Err (mkStatus Internal ("CSR signing failed: " +:+ e)) ∧ tr = []
  | Ok cert => let upd := UpdateNodeCert node (sc_cert_serial cert) (sc_cert_expires_at cert) in
      r = Ok (cert_answer node vc cert) ∧ Forall (λ ev, ev_cmd ev = upd ∨ ∃ op, ev_cmd ev = RecordOperation op) tr ∧
      ∃ log1 o1 log2 o2 log3 op, h' = others log1 ++ o1 :: others log2 ++ o2 :: others log3 ∧
        tried upd o1 ∧ tried (RecordOperation op) o2
  end.
Proof.
  intros (log & h' & -> & Hr)%runs_in_ask_inv. exists log, h'. split; [done|]. simpl in Hr.
  destruct (sign_csr csr node domain_id) as [cert|e]; last first.
  { apply runs_in_ret_inv in Hr as (-> & -> & log' & ->). split; [intros x; apply not_asked_others|done]. }
  apply runs_in_ignored in Hr as (log1 & o1 & h2 & tr1 & tr2 & s1 & -> & Ho1 & Ht1 & -> & Hr).
  apply (runs_in_ignored _ (mret (Ok (cert_answer node vc cert)))) in Hr as (log2 & o2 & h3 & tr3 & tr4 & s2 & -> & Ho2 & Ht3 & -> & Hr).
  apply runs_in_ret_inv in Hr as (-> & -> & log3 & ->). split; [|split; [done|split]].
  - intros x. apply not_asked_after, not_asked_after, not_asked_others; eauto using tried_not_asked.
  - rewrite app_nil_r. apply Forall_app. split; [eapply Forall_impl; [done|]; by left|].
    eapply Forall_impl; [done|]. intros ev ->. right. by eexists.
  - by eexists log1, o1, log2, o2, log3, _.
Qed.

(** A write of [enroll] that leaves no node active: an audit record, or an
    activation that is not reported as accepted. *)
Definition harmless (ev : event) : Prop :=
  (∃ op, ev_cmd ev = RecordOperation op) ∨
  (∃ n ser exp, ev_cmd ev = ActivateNode n ser exp ∧ ∀ n' st vc, ev_answer ev ≠ Ok (EnrollmentResult n' st vc)).

(** An enrollment is refused before the authority is asked, or it gets to the
    signature after an accepted activation of the node its hardware is
    registered as. *)
Lemma enroll_shape ctx admitted req h s s' r tr :
  hw_wf s → runs_in h s (enroll sign_csr domain_id ctx admitted req) s' r tr →
  (is_ok r = false ∧ (∀ x, Asked x ∉ h) ∧ Forall harmless tr) ∨
  ∃ hw node log log1 t expires e h2 tr2, let s1 := apply_log (log ++ log1) s in let act := ActivateNode node (rq_uuid ctx 0) expires in
    admitted = true ∧ eq_hardware_identity req = Some hw ∧
    hw_index (apply_log log s) !! hw_canonical_key (proto_hw_to_domain hw) = Some node ∧
    h = others (log ++ log1) ++ Applied t act :: h2 ∧
    tr = {| ev_before := s1; ev_cmd := act; ev_answer := Ok (EnrollmentResult node Active (enr_vcluster_id e)) |} :: tr2 ∧
    enrollments s1 !! node = Some e ∧ (enr_state e = Registered ∨ enr_state e = Inactive) ∧
    hw_canonical_key (enr_hardware_identity e) = hw_canonical_key (proto_hw_to_domain hw) ∧
    apply t act s1 = (put_enrollment node (enr_with e Active (enr_vcluster_id e) (Some (rq_uuid ctx 0)) (parse_from_rfc3339 expires) (Some t)) s1,
                      EnrollmentResult node Active (enr_vcluster_id e)) ∧
    runs_in h2 (apply t act s1).1 (enroll_sign sign_csr domain_id ctx (eq_csr req) node (enr_vcluster_id e)) s' r tr2.
Proof.
  intros Hwf.
  assert (Hret : ∀ h s st tr, runs_in h s (Ret (Err st)) s' r tr → is_ok r = false ∧ (∀ x, Asked x ∉ h) ∧ Forall harmless tr).
  { intros h0 s0 st tr0 (-> & -> & log & ->)%runs_in_ret_inv. split; [done|]. split; [intros x; apply not_asked_others|done]. }
  unfold enroll. destruct admitted; simpl; [|intros Hr; left; by eapply Hret].
  destruct (eq_hardware_identity req) as [hw|]; [|intros Hr; left; by eapply Hret].
  intros (log & h0 & -> & Hr)%runs_in_read_inv. simpl in Hr.
  assert (Happ : ∀ h1 tr1, (is_ok r = false ∧ (∀ x, Asked x ∉ h1) ∧ Forall harmless tr1) →
    is_ok r = false ∧ (∀ x, Asked x ∉ others log ++ h1) ∧ Forall harmless tr1).
  { intros h1 tr1 (Hf & Ha & Ht). split; [done|]. split; [|done]. intros x. rewrite elem_of_app.
    intros [?%not_asked_others|?%Ha]; done. }
  assert (Hrefuse : ∀ n d st s1, runs_in h0 s1 (refuse_enroll ctx n d st) s' r tr → is_ok r = false ∧ (∀ x, Asked x ∉ h0) ∧ Forall harmless tr).
  { intros n d st s1 (log1 & o & h2 & tr1 & tr2 & s2 & -> & Ho & Ht1 & -> & Hr1)%(runs_in_ignored _ (mret (Err st))).
    destruct (Hret _ _ _ _ Hr1) as (Hf & Ha & Ht2). split; [done|]. split; [|apply Forall_app; split; [|done]].
    - intros x. apply not_asked_after; [exact (tried_not_asked _ _ x Ho)|apply Ha].
    - eapply Forall_impl; [done|]. intros ev Hev. left. eexists. exact Hev. }
  destruct (hw_index _ !! _) as [n|] eqn:Hix; [|left; by eapply Happ, Hrefuse].
  destruct (apply_log_hw_wf log s Hwf) as [_ Hinv]. destruct (Hinv _ _ Hix) as (e0 & He0 & Hkey).
  rewrite He0 in Hr. destruct (enr_state e0).
  2,4: left; by eapply Happ, Hrefuse.
  all: apply runs_in_write_inv in Hr as (log1 & h2 & [(t & tr' & -> & -> & Hr)|[(err & -> & Hr)|(t & err & tr' & -> & -> & Hr)]]).
  2,5: left; apply Happ; destruct (Hret _ _ _ _ Hr) as (Hf & Ha & Ht); (split; [done|]); (split; [|done]); intros x;
    by apply not_asked_after.
  2,4: left; apply Happ; destruct (Hret _ _ _ _ Hr) as (Hf & Ha & Ht); (split; [done|]); (split; [|constructor; [|done]; right; by eexists _, _, _]); intros x;
    by apply not_asked_after.
  all: simpl in Hr; match type of Hr with context [apply_activate_node ?t ?n ?ser ?exp ?s1] =>
    destruct (activate_node_cases t n ser exp s1) as [(reason & Heq)|(e & He & Hst & Heq)] end; simpl; rewrite Heq in Hr |- *; simpl in Hr |- *.
  1,3: left; apply Happ; destruct (Hret _ _ _ _ Hr) as (Hf & Ha & Ht); (split; [done|]); (split; [|constructor; [|done]; right; by eexists _, _, _]); intros x;
    by apply not_asked_after.
  all: right; eexists hw, n, log, log1, t, _, e, h2, tr'; rewrite apply_log_app.
  all: destruct (apply_log_hardware log1 _ _ _ He0) as (e' & He' & Hhw); simplify_eq.
  all: split_and!; [done..|unfold others; by rewrite fmap_app, <- app_assoc|done|done|done|by rewrite Hhw|exact Heq|].
  all: by rewrite Heq.
Qed.

(** C5: An agent that is told it is enrolled was activated: the first write of
    the request is an activation that Raft accepted, when the node was
    registered or inactive, for the node whose registered hardware matches
    the request; the authority is asked for a signature only after that, once,
    and the certificate returned is the one it signed for that node; the only
    other writes store it and record the audit trail. And whatever the answer,
    the authority is never asked before an accepted activation. *)
Theorem enroll_activates ctx admitted req h s s' r tr :
  hw_wf s → runs_in h s (enroll sign_csr domain_id ctx admitted req) s' r tr →
  ((∃ a, r = Ok a) ∨ (∃ x, Asked x ∈ h)) →
  ∃ hw node log t e expires log1 h2 tr', let s1 := apply_log log s in
    admitted = true ∧ eq_hardware_identity req = Some hw ∧
    h = others log ++ Applied t (ActivateNode node (rq_uuid ctx 0) expires) ::
        others log1 ++ Asked (SignRequest (eq_csr req) node) :: h2 ∧ (∀ x, Asked x ∉ h2) ∧
    tr = {| ev_before := s1; ev_cmd := ActivateNode node (rq_uuid ctx 0) expires;
            ev_answer := Ok (EnrollmentResult node Active (enr_vcluster_id e)) |} :: tr' ∧
    enrollments s1 !! node = Some e ∧ (enr_state e = Registered ∨ enr_state e = Inactive) ∧
    hw_canonical_key (enr_hardware_identity e) = hw_canonical_key (proto_hw_to_domain hw) ∧
    match r with
    | Ok a => ∃ cert, sign_csr (eq_csr req) node domain_id = Ok cert ∧ a = cert_answer node (enr_vcluster_id e) cert ∧
        Forall (λ ev, ev_cmd ev = UpdateNodeCert node (sc_cert_serial cert) (sc_cert_expires_at cert) ∨
                      ∃ op, ev_cmd ev = RecordOperation op) tr'
    | Err _ => ∃ why, sign_csr (eq_csr req) node domain_id = Err why ∧ tr' = []
    end.
Proof.
  intros Hwf Hr Hcase.
  destruct (enroll_shape _ _ _ _ _ _ _ _ Hwf Hr) as [(Hf & Ha & _)
    |(hw & node & log & log1 & t & expires & e & h2 & tr2 & -> & Hhw & _ & -> & -> & He & Hst & Hk & _ & Hs)].
  { destruct Hcase as [[a ->]|[x Hx]]; [done|by apply Ha in Hx]. }
  destruct (enroll_sign_shape _ _ _ _ _ _ _ _ _ Hs) as (log2 & h3 & -> & Hno & Hres).
  exists hw, node, (log ++ log1), t, e, expires, log2, h3, tr2. split_and!; try done.
  destruct (sign_csr (eq_csr req) node domain_id) as [cert|why].
  - destruct Hres as (-> & Hall & _). by exists cert.
  - destruct Hres as (-> & ->). by exists why.
Qed.

End enrollment.

Section authorisation.
Context `{Chrono}.

(** No two activations of a node without a deactivation between them: after
    an accepted activation, along any log without a deactivation of the node,
    a second activation is refused, so concurrent enrollments of one node
    cannot both obtain a certificate. *)
Theorem activation_exclusive t1 t2 n ser1 exp1 ser2 exp2 st vc log s :
  (apply t1 (ActivateNode n ser1 exp1) s).2 = EnrollmentResult n st vc →
  (∀ t, (t, DeactivateNode n) ∉ log) →
  ∃ reason, (apply t2 (ActivateNode n ser2 exp2)
    (apply_log log (apply t1 (ActivateNode n ser1 exp1) s).1)).2 = ValidationError reason.
Proof.
  simpl. destruct (activate_node_cases t1 n ser1 exp1 s) as [(reason & ->)|(e & He & _ & ->)]; [done|].
  simpl. intros _ Hno. set (s1 := put_enrollment _ _ _).
  destruct (active_or_revoked log s1 n (enr_with e Active (enr_vcluster_id e) (Some ser1) (parse_from_rfc3339 exp1) (Some t1)))
    as (e' & He' & Hst'); [by apply lookup_insert_eq|by left|done|].
  destruct (activate_node_cases t2 n ser2 exp2 (apply_log log s1)) as [(reason & ->)|(e2 & He2 & Hst2 & _)].
  - by eexists.
  - simplify_eq. destruct Hst', Hst2; congruence.
Qed.


(** ** Authorisation *)

Context (validator : TokenValidator) (domain_id : string).

(** The caller presented a valid token for an identity with property [P]. *)
Definition caller_with (P : Identity → Prop) (h : AuthHeader) : Prop :=
  ∃ token id, h = Header ("Bearer " +:+ token) ∧ validator token = Ok id ∧ P id.

Lemma authenticated_Ok h id :
  authenticated validator h = Ok id → ∃ token, h = Header ("Bearer " +:+ token) ∧ validator token = Ok id.
Proof.
  unfold authenticated, extract_token, validate_token_str. destruct h as [| |v]; try done.
  destruct (Str.strip_prefix "Bearer " v) as [t|] eqn:E; [|done]. simpl.
  apply strip_prefix_Some in E as ->. destruct (validator t) as [id'|] eqn:Hv; [|done].
  intros [= ->]. eauto.
Qed.

Lemma authenticated_bearer token id :
  validator token = Ok id → authenticated validator (Header ("Bearer " +:+ token)) = Ok id.
Proof.
  intros Hv. unfold authenticated, extract_token.
  assert (Str.strip_prefix "Bearer " ("Bearer " +:+ token) = Some token) as -> by by apply strip_prefix_Some.
  simpl. unfold validate_token_str. by rewrite Hv.
Qed.

Lemma platform_admin_Ok h id :
  platform_admin validator h = Ok id → caller_with (λ id, role id = PLATFORM_ADMIN) h.
Proof.
  unfold platform_admin. destruct (authenticated validator h) as [id'|] eqn:E; [|done].
  apply authenticated_Ok in E as (t & -> & Hv). case_decide; [|done]. intros _. by exists t, id'.
Qed.

Lemma assign_caller_Ok h vc id :
  assign_caller validator h vc = Ok id →
  caller_with (λ id, role id = PLATFORM_ADMIN ∨ role id = "pact-ops-" +:+ vc) h.
Proof.
  unfold assign_caller. destruct (authenticated validator h) as [id'|] eqn:E; [|done].
  apply authenticated_Ok in E as (t & -> & Hv). case_decide as Hd; [done|]. intros _. exists t, id'.
  split_and!; [done|done|]. destruct (decide (role id' = PLATFORM_ADMIN)); [by left|].
  destruct (decide (role id' = "pact-ops-" +:+ vc)); [by right|]. tauto.
Qed.

(** A handler that returns at once when its guard fails writes nothing then. *)
Lemma guarded_writes {A R} (g : result A Status) (k : A → prog (result R Status)) s s' r tr :
  runs s (match g with Err st => mret (Err st) | Ok a => k a end) s' r tr → tr ≠ [] → ∃ a, g = Ok a.
Proof. destruct g; [eauto|]. by intros [_ ?]%runs_ret_inv. Qed.

(** Registering, batch-registering and decommissioning nodes write to the
    journal only for callers with a valid token and the platform-admin role;
    assigning a node writes only for the platform admin or the operator of
    the target vCluster. *)
Theorem enrollment_writes_authorised now clock h req reqs n vc force s s' tr :
  tr ≠ [] →
  (∀ r, runs s (register_node validator domain_id now h req) s' r tr →
     caller_with (λ id, role id = PLATFORM_ADMIN) h) ∧
  (∀ r, runs s (batch_register_nodes validator domain_id clock h reqs) s' r tr →
     caller_with (λ id, role id = PLATFORM_ADMIN) h) ∧
  (∀ r, runs s (decommission_node validator h n force) s' r tr →
     caller_with (λ id, role id = PLATFORM_ADMIN) h) ∧
  (∀ r, runs s (assign_node validator h n vc) s' r tr →
     caller_with (λ id, role id = PLATFORM_ADMIN ∨ role id = "pact-ops-" +:+ vc) h).
Proof.
  intros Htr. split_and!; intros r Hr;
    (eapply guarded_writes in Hr as [id Hid]; [|exact Htr]);
    by (eapply platform_admin_Ok || eapply assign_caller_Ok).
Qed.

(** Unassigning and moving a node are open to every holder of a valid
    token: whatever role the identity has, the request is applied. *)
Theorem membership_changes_need_only_token t token id n to s e :
  validator token = Ok id → enrollments s !! n = Some e →
  let h := Header ("Bearer " +:+ token) in
  run t (unassign_node validator h n) s =
    ((apply t (UnassignNode n) s).1, Ok n) ∧
  (∃ from, run t (move_node validator h n to) s =
    ((apply t (MoveNodeVCluster n from to) s).1, Ok (n, from, to))).
Proof.
  intros Hv%authenticated_bearer He h. unfold unassign_node, move_node. subst h. rewrite Hv. split.
  - simpl. unfold apply_unassign_node, update_enrollment. by rewrite He.
  - eexists. simpl. unfold apply_move_node, apply_assign_to_vcluster, update_enrollment. by rewrite He.
Qed.

End authorisation.

(** ** Batches and listings *)

Section batch.
Context `{Chrono}.

Definition successes (rs : list BatchNodeResult) : nat := length (filter (λ r, bn_success r = true) rs).

(** The answer says that a node was registered. *)
Definition is_registered (ev : event) : bool :=
  match ev_answer ev with Ok (EnrollmentResult _ _ _) => true | _ => false end.

Definition registrations (tr : list event) : nat := length (filter (λ ev, is_registered ev = true) tr).

Lemma successes_cons r l : successes (r :: l) = (if bn_success r then 1 else 0) + successes l.
Proof. unfold successes. rewrite filter_cons. by destruct (bn_success r). Qed.
Lemma registrations_app l1 l2 : registrations (l1 ++ l2) = registrations l1 + registrations l2.
Proof. unfold registrations. by rewrite filter_app, length_app. Qed.

Lemma batch_one_runs domain now who req s s' r tr :
  runs s (batch_one domain now who req) s' r tr →
  registrations tr = if bn_success r then 1 else 0.
Proof.
  unfold batch_one. destruct (rn_hardware_identity req) as [hw|]; [|by intros [-> ->]%runs_ret_inv].
  intros [(log & t & tr' & -> & Hr)|(log & e & tr' & Hr & Htr)]%runs_write_inv;
    apply runs_ret_inv in Hr as [-> ->].
  - unfold registrations, batch_result. rewrite filter_cons. unfold is_registered at 1. simpl.
    by destruct (apply_register_node _ _).2.
  - destruct Htr as [->|[s0 ->]]; done.
Qed.

Lemma batch_loop_runs domain clock who reqs acc s s' r tr :
  (br_succeeded acc + br_failed acc + N.of_nat (length reqs) < 2 ^ 32)%N →
  runs s (batch_loop domain clock who reqs acc) s' r tr →
  ∃ rs, br_results r = br_results acc ++ rs ∧ length rs = length reqs ∧
    br_succeeded r = (br_succeeded acc + N.of_nat (successes rs))%N ∧
    (br_succeeded r + br_failed r = br_succeeded acc + br_failed acc + N.of_nat (length reqs))%N ∧
    registrations tr = successes rs.
Proof.
  revert acc s tr. induction reqs as [|req reqs IH]; intros acc s tr Hb Hr.
  { apply runs_ret_inv in Hr as [-> ->]. exists []. unfold registrations, successes. simpl.
    rewrite app_nil_r. split_and!; try done; lia. }
  apply runs_bind_inv in Hr as (s1 & r1 & tr1 & tr2 & H1 & H2 & ->).
  apply batch_one_runs in H1. simpl in Hb.
  apply IH in H2 as (rs & Hres & Hlen & Hsucc & Hsum & Hreg).
  - exists (r1 :: rs). rewrite Hres. simpl. rewrite <- app_assoc. simpl.
    rewrite registrations_app, H1, Hreg, successes_cons. unfold wrap_u32 in *. simpl in *. destruct (bn_success r1); simpl in *;
      rewrite ?N.mod_small in Hsucc by lia; rewrite ?N.mod_small in Hsum by lia;
      split_and!; try done; try lia.
  - simpl. unfold wrap_u32. destruct (bn_success r1); rewrite N.mod_small by lia; lia.
Qed.

(** A batch registration accounts for every node: one result per requested
    node, the two counters add up to the number of nodes (below 2^32), and
    the success counter is the number of results marked successful, which is
    the number of registrations the journal accepted. *)
Theorem batch_register_counts validator domain clock h nodes s s' r tr :
  (N.of_nat (length nodes) < 2 ^ 32)%N →
  runs s (batch_register_nodes validator domain clock h nodes) s' (Ok r) tr →
  length (br_results r) = length nodes ∧
  (br_succeeded r + br_failed r = N.of_nat (length nodes))%N ∧
  br_succeeded r = N.of_nat (successes (br_results r)) ∧
  registrations tr = successes (br_results r).
Proof.
  intros Hb. unfold batch_register_nodes.
  destruct (platform_admin validator h) as [admin|]; [|by intros [? _]%runs_ret_inv].
  intros (s1 & r1 & tr1 & tr2 & H1 & H2 & ->)%runs_bind_inv. apply runs_ret_inv in H2 as [[= <-] ->].
  apply batch_loop_runs in H1 as (rs & Hres & Hlen & Hsucc & Hsum & Hreg); [|done].
  simpl in *. rewrite app_nil_r. subst rs. split_and!; try done; lia.
Qed.

End batch.

Section listing.
Context `{Chrono} (validator : TokenValidator).

Lemma role_vcluster_ops vc : role_vcluster ("pact-ops-" +:+ vc) = vc.
Proof. exact (join_split "-" vc). Qed.
Lemma role_vcluster_viewer vc : role_vcluster ("pact-viewer-" +:+ vc) = vc.
Proof. exact (join_split "-" vc). Qed.

(** Visibility of nodes: an operator or viewer of a vCluster sees in a
    listing, and can inspect, only nodes assigned to it; a listing without
    filters by the platform admin shows every node; and so does one by any
    other role, such as a regulated operator's, despite belonging to one
    vCluster. *)
Theorem node_visibility token id h req s out :
  h = Header ("Bearer " +:+ token) → validator token = Ok id →
  list_nodes validator h req s = Ok out →
  (∀ vc, role id = "pact-ops-" +:+ vc ∨ role id = "pact-viewer-" +:+ vc →
     (∀ ns, ns ∈ out → ∃ n e, enrollments s !! n = Some e ∧ ns = node_summary e ∧ enr_vcluster_id e = Some vc) ∧
     (∀ n r, inspect_node validator h n s = Ok r →
        ∃ e, enrollments s !! n = Some e ∧ r = inspect_response e ∧ enr_vcluster_id e = Some vc)) ∧
  (role id = PLATFORM_ADMIN ∨ scoped_role (role id) = false →
   req = {| ln_state_filter := ""; ln_vcluster_filter := ""; ln_unassigned_only := false |} →
   ∀ n e, enrollments s !! n = Some e → node_summary e ∈ out).
Proof.
  intros -> Hv. unfold list_nodes, inspect_node. rewrite (authenticated_bearer _ _ _ Hv). intros [= <-]. split.
  - intros vc Hr.
    assert (scoped_role (role id) = true ∧ role_vcluster (role id) = vc ∧ role id ≠ PLATFORM_ADMIN)
      as (Hsc & Hvc & Hna).
    { destruct Hr as [->| ->]; rewrite ?role_vcluster_ops, ?role_vcluster_viewer; done. }
    split.
    + intros ns (e & -> & He)%list_elem_of_fmap. apply list_elem_of_filter in He as [Hl He].
      apply elem_of_hash_values in He as [n Hn]. exists n, e. split_and!; [done|done|].
      unfold node_listed, allowed_vcluster in Hl. rewrite decide_False, Hsc in Hl by done.
      rewrite Hvc in Hl. by destruct (bool_decide_reflect (enr_vcluster_id e ≠ Some vc)) as [|?%dec_stable].
    + intros n r. destruct (enrollments s !! n) as [e|] eqn:He; [|done]. simpl.
      rewrite bool_decide_eq_false_2, Hsc, Hvc by done. simpl.
      destruct (bool_decide_reflect (enr_vcluster_id e ≠ Some vc)) as [|?%dec_stable]; [done|].
      intros [= <-]. eauto.
  - intros Hr -> n e He. apply list_elem_of_fmap_2, list_elem_of_filter. split; [|apply elem_of_hash_values; eauto].
    unfold node_listed, allowed_vcluster. destruct Hr as [->| ->]; [done|]. by case_decide.
Qed.

End listing.

(** ** Witnesses *)

Module EnrollSample.

#[export] Existing Instance JournalSample.chrono.

Definition validator : TokenValidator := λ t,
  if decide (t = "admin") then Ok JournalSample.admin
  else if decide (t = "ops") then Ok JournalSample.second
  else Err "bad signature".
Definition sign : SignCsr := λ _ n d,
  Ok {| sc_cert_pem := n +:+ "@" +:+ d; sc_ca_chain_pem := "ca"; sc_cert_serial := "42"; sc_cert_expires_at := "99" |}.
Definition ctx : RequestCtx := {| rq_clock := λ _, 0%Z; rq_uuid := pretty |}.
Definition hardware (mac : string) : ProtoHardware := {| ph_mac_address := mac; ph_bmc_serial := ""; ph_extra := ∅ |}.
Definition new_node (n mac : string) : RegisterNodeRequest :=
  {| rn_node_id := n; rn_hardware_identity := Some (hardware mac) |}.
Definition admin : AuthHeader := Header "Bearer admin".
Definition ops : AuthHeader := Header "Bearer ops".

Definition registered := run 0 (register_node validator "site" 0 admin (new_node "n1" "aa")) journal_init.
Definition enroll_request : EnrollRequest := {| eq_hardware_identity := Some (hardware "aa"); eq_csr := [] |}.
Definition enrolled := run 1 (enroll sign "site" ctx true enroll_request) registered.1.
Definition assigned : JournalState := (run 2 (assign_node validator ops "n1" "ml") enrolled.1).1.

Definition ok_or_default {A E} (d : A) (r : result A E) : A := match r with Ok a => a | Err _ => d end.
Definition enroll_answer : EnrollResponse :=
  ok_or_default {| es_node_id := ""; es_domain_id := ""; es_signed_cert := ""; es_ca_chain := "";
                   es_vcluster_id := ""; es_cert_serial := ""; es_cert_expires_at := "" |} enrolled.2.

Lemma registered_hw : hw_wf registered.1.
Proof.
  destruct (run_runs 0 (register_node validator "site" 0 admin (new_node "n1" "aa")) journal_init) as [tr Htr].
  destruct (runs_log _ _ _ _ _ Htr) as [log Hlog]. unfold registered. rewrite Hlog.
  apply apply_log_hw_wf, journal_init_wf.
Qed.

End EnrollSample.
Import EnrollSample.

Lemma enroll_activates_witness :
  es_node_id enroll_answer = "n1" ∧ es_cert_serial enroll_answer = "42" ∧
  ∃ s1 e, enrollments s1 !! "n1" = Some e ∧ (enr_state e = Registered ∨ enr_state e = Inactive).
Proof.
  split; [vm_compute; reflexivity|]. split; [vm_compute; reflexivity|].
  destruct (run_runs 1 (enroll sign "site" ctx true enroll_request) registered.1) as [tr [h Htr]].
  destruct (enroll_activates sign "site" ctx true enroll_request h registered.1 enrolled.1 (Ok enroll_answer) tr
    registered_hw Htr (or_introl (ex_intro _ enroll_answer eq_refl)))
    as (hw & node & log & t & e & expires & log1 & h2 & tr' & _ & _ & _ & _ & _ & He & Hst & _ & cert & _ & Ha & _).
  assert (node = "n1") as -> by (change (es_node_id (cert_answer "site" node (enr_vcluster_id e) cert) = "n1"); rewrite <- Ha; vm_compute; reflexivity).
  eexists _, e. split; [exact He|exact Hst].
Defined.

Lemma activation_exclusive_witness :
  ∃ reason, (apply 5%Z (ActivateNode "n1" "s2" "2")
    (apply_log [(4%Z, RevokeNode "n1")] (apply 3%Z (ActivateNode "n1" "s1" "1") registered.1).1)).2
    = ValidationError reason.
Proof.
  apply (activation_exclusive 3%Z 5%Z "n1" "s1" "1" "s2" "2" Active None [(4%Z, RevokeNode "n1")] registered.1).
  - vm_compute. reflexivity.
  - intros t Hin. apply list_elem_of_singleton in Hin. discriminate.
Defined.

Lemma enrollment_writes_authorised_witness :
  caller_with validator (λ id, role id = PLATFORM_ADMIN ∨ role id = "pact-ops-" +:+ "ml") ops.
Proof.
  eapply (enrollment_writes_authorised validator "site" 0%Z (λ _, 0%Z) ops (new_node "n1" "aa") [] "n1" "ml" false
    enrolled.1 assigned [{| ev_before := enrolled.1; ev_cmd := AssignNodeToVCluster "n1" "ml"; ev_answer := Ok RespOk |}]).
  - discriminate.
  - exact (runs_write enrolled.1 (AssignNodeToVCluster "n1" "ml") (λ r, Ret (expect_ok r ("n1", "ml")))
             assigned (Ok ("n1", "ml")) [] 2%Z (runs_ret assigned (Ok ("n1", "ml")))).
Defined.

Lemma membership_changes_need_only_token_witness :
  run 3 (unassign_node validator ops "n1") assigned = ((apply 3 (UnassignNode "n1") assigned).1, Ok "n1").
Proof.
  apply (membership_changes_need_only_token validator 3%Z "ops" JournalSample.second "n1" "other" assigned
    (default (JournalSample.enrollment "" "") (enrollments assigned !! "n1"))); vm_compute; reflexivity.
Defined.

Lemma batch_register_counts_witness :
  let nodes := [new_node "n1" "aa"; new_node "n2" "aa"; {| rn_node_id := "n3"; rn_hardware_identity := None |}] in
  let r := ok_or_default {| br_results := []; br_succeeded := 0; br_failed := 0 |}
             (run 0 (batch_register_nodes validator "site" (λ _, 0%Z) admin nodes) journal_init).2 in
  br_succeeded r = 1%N ∧ br_failed r = 2%N ∧ (br_succeeded r + br_failed r)%N = N.of_nat (length nodes).
Proof.
  intros nodes r. split; [vm_compute; reflexivity|]. split; [vm_compute; reflexivity|].
  destruct (run_runs 0 (batch_register_nodes validator "site" (λ _, 0%Z) admin nodes) journal_init) as [tr Htr].
  eapply (batch_register_counts validator "site" (λ _, 0%Z) admin nodes journal_init _ r tr);
    [vm_compute; reflexivity|exact Htr].
Defined.

Lemma node_visibility_witness :
  node_summary (default (JournalSample.enrollment "" "") (enrollments assigned !! "n1")) ∈
    ok_or_default [] (list_nodes validator admin {| ln_state_filter := ""; ln_vcluster_filter := ""; ln_unassigned_only := false |} assigned).
Proof.
  eapply (node_visibility validator "admin" JournalSample.admin admin
    {| ln_state_filter := ""; ln_vcluster_filter := ""; ln_unassigned_only := false |} assigned);
    [reflexivity|reflexivity|reflexivity|left; reflexivity|reflexivity|].
  instantiate (1 := "n1"). vm_compute. reflexivity.
Defined.
