(* ===== verification/Heartbeat.v ===== *)
(** * The heartbeat monitor

    crates/pact-journal/src/heartbeat.rs: a background task of the journal
    that deactivates nodes it has not seen for a while and expires pending
    approvals. It reads the state once and then writes one command per
    timed-out item, without holding the lock. *)

From S2P Require Import Prelude Types JournalState JournalInvariants JournalProperties Raft.
From stdpp Require Import options.

Definition system : Identity :=
  {| principal := "system"; principal_type := Service; role := "pact-service-agent" |}.

(** The write loop: every outcome is only logged. *)
Fixpoint write_all (cmds : list JournalCommand) : prog () :=
  match cmds with
  | [] => mret ()
  | c :: rest => client_write c ≫= λ _, write_all rest
  end.

Definition approval_expired (now : DateTime) (a : PendingApproval) : bool :=
  bool_decide (apr_status a = Pending ∧ (apr_expires_at a < now)%Z).

Definition expire_approvals (now : DateTime) : prog () :=
  state ← read_state;
  let expired := apr_approval_id <$> filter (λ a, approval_expired now a = true) (hash_values (pending_approvals state)) in
  write_all ((λ id, DecideApproval id system Expired) <$> expired).

Definition node_timed_out (timeout_seconds : N) (now : DateTime) (e : NodeEnrollment) : bool :=
  bool_decide (enr_state e = Active) &&
  match enr_last_seen e with
  | Some ls => bool_decide (seconds (Z.of_N timeout_seconds) < now - ls)%Z
  | None => false
  end.

Definition check_timeouts (timeout_seconds : N) (now : DateTime) : prog () :=
  state ← read_state;
  let timed_out := enr_node_id <$> filter (λ e, node_timed_out timeout_seconds now e = true) (hash_values (enrollments state)) in
  write_all (DeactivateNode <$> timed_out).

(** One tick of [run]; the two checks read the clock on their own. *)
Definition tick (timeout_seconds : N) (now1 now2 : DateTime) : prog () :=
  check_timeouts timeout_seconds now1 ≫= λ _, expire_approvals now2.

(** ** Properties *)

Section properties.
Context `{Chrono}.

Lemma write_all_may cmds (P : JournalCommand → Prop) : Forall P cmds → may_write P (write_all cmds).
Proof. induction 1; simpl; [done|]. by split. Qed.

(** Without interference the loop applies its commands in order. *)
Lemma run_write_all now cmds s :
  run now (write_all cmds) s = (apply_log ((now,.) <$> cmds) s, ()).
Proof.
  revert s. induction cmds as [|c cmds IH]; intros s; [done|]. rewrite !fmap_cons.
  change (apply_log ((now, c) :: ((now,.) <$> cmds)) s) with (apply_log ((now,.) <$> cmds) (apply now c s).1).
  rewrite <- IH. simpl. by destruct (apply now c s).
Qed.

(** The monitor's deactivations name only nodes that were active and silent
    for longer than the timeout in one state the journal passed through, and
    its expiries only requests that were pending past their deadline there. *)
Theorem heartbeat_writes_justified timeout now1 now2 s s' r tr :
  hw_wf s → runs s (tick timeout now1 now2) s' r tr →
  ∃ log1 log2, Forall (λ ev,
    (∃ n e, ev_cmd ev = DeactivateNode n ∧ enrollments (apply_log log1 s) !! n = Some e ∧
       enr_state e = Active ∧ ∃ ls, enr_last_seen e = Some ls ∧ (seconds (Z.of_N timeout) < now1 - ls)%Z) ∨
    (∃ k a, ev_cmd ev = DecideApproval (apr_approval_id a) system Expired ∧
       pending_approvals (apply_log log2 s) !! k = Some a ∧ apr_status a = Pending ∧
       (apr_expires_at a < now2)%Z)) tr.
Proof.
  intros Hwf (s1 & [] & tr1 & tr2 & H1 & H2 & ->)%runs_bind_inv.
  destruct (runs_log _ _ _ _ _ H1) as [logm ->].
  apply runs_read_inv in H1 as [log1 H1]. apply runs_read_inv in H2 as [log2 H2].
  rewrite <- apply_log_app in H2. exists log1, (logm ++ log2). simpl in H1, H2.
  apply Forall_app. split.
  - eapply Forall_impl; [eapply (may_write_runs (λ c, ∃ e, c = DeactivateNode (enr_node_id e) ∧
      (∃ k, enrollments (apply_log log1 s) !! k = Some e) ∧ node_timed_out timeout now1 e = true)); [|exact H1]|].
    { apply write_all_may, Forall_fmap, Forall_fmap, Forall_forall. intros e [Ht Hin]%list_elem_of_filter.
      exists e. split; [done|]. split; [by apply elem_of_hash_values|done]. }
    intros ev (e & Hc & (k & Hk) & Ht). left.
    destruct (apply_log_hw_wf log1 s Hwf) as [Hid _]. destruct (Hid _ _ Hk) as [Hid' _].
    exists k, e. rewrite Hid' in Hc. unfold node_timed_out in Ht.
    destruct (bool_decide_reflect (enr_state e = Active)); [|done]. simpl in Ht.
    destruct (enr_last_seen e) as [ls|]; [|done]. apply bool_decide_eq_true in Ht. eauto 10.
  - eapply Forall_impl; [eapply (may_write_runs (λ c, ∃ a, c = DecideApproval (apr_approval_id a) system Expired ∧
      (∃ k, pending_approvals (apply_log (logm ++ log2) s) !! k = Some a) ∧ approval_expired now2 a = true)); [|exact H2]|].
    { apply write_all_may, Forall_fmap, Forall_fmap, Forall_forall. intros a [Ht Hin]%list_elem_of_filter.
      exists a. split; [done|]. split; [by apply elem_of_hash_values|done]. }
    intros ev (a & Hc & (k & Hk) & Ht). right. apply bool_decide_eq_true in Ht as [? ?]. eauto 10.
Qed.

(** Deactivations of the listed nodes. *)
Lemma deactivate_all now (ns : list NodeId) s n e :
  enrollments s !! n = Some e →
  ∃ e', enrollments (apply_log ((now,.) <$> (DeactivateNode <$> ns)) s) !! n = Some e' ∧
    enr_state e' = (if decide (n ∈ ns) then Inactive else enr_state e).
Proof.
  revert s e. induction ns as [|m ns IH]; intros s e He; [by exists e|]. csimpl.
  unfold apply_deactivate_node, apply_set_state, update_enrollment, not_enrolled.
  destruct (decide (n = m)) as [->|Hne].
  - rewrite He. simpl. destruct (IH (put_enrollment m (set_enr_state e Inactive) s) (set_enr_state e Inactive))
      as (e' & He' & Hst); [by apply lookup_insert_eq|].
    exists e'. split; [done|]. rewrite Hst. simpl. rewrite (decide_True (P := m ∈ m :: ns)) by set_solver.
    by case_decide.
  - destruct (IH (apply_set_state m Inactive s).1 e) as (e' & He' & Hst).
    { unfold apply_set_state, update_enrollment, not_enrolled. destruct (enrollments s !! m); simpl; [|done].
      by rewrite lookup_insert_ne. }
    exists e'. split; [done|]. rewrite Hst. destruct (decide (n ∈ ns)), (decide (n ∈ m :: ns)); set_solver.
Qed.

(** A quiet check deactivates exactly the timed-out nodes: after a check
    without interference every enrolled node is inactive if it was active and
    silent for longer than the timeout, and keeps its state otherwise. *)
Theorem check_timeouts_exact timeout now s n e :
  hw_wf s → enrollments s !! n = Some e →
  ∃ e', enrollments (run now (check_timeouts timeout now) s).1 !! n = Some e' ∧
    enr_state e' = (if node_timed_out timeout now e then Inactive else enr_state e).
Proof.
  intros [Hid _] He. unfold check_timeouts. simpl. rewrite run_write_all.
  edestruct (deactivate_all now) as (e' & He' & Hst); [exact He|]. exists e'. split; [exact He'|].
  rewrite Hst. destruct (Hid _ _ He) as [Hn _]. destruct (node_timed_out timeout now e) eqn:Ht.
  - rewrite decide_True; [done|]. apply list_elem_of_fmap. exists e. split; [done|].
    apply list_elem_of_filter. split; [done|]. apply elem_of_hash_values. eauto.
  - rewrite decide_False; [done|]. intros (e2 & Heq & Hin)%list_elem_of_fmap.
    apply list_elem_of_filter in Hin as [Ht2 [k Hk]%elem_of_hash_values].
    destruct (Hid _ _ Hk) as [Hk' _]. simplify_eq. congruence.
Qed.

(** The check can undo a decommissioning: when a node that timed out is
    revoked between the monitor's read and its write, the node ends up
    inactive, and a new activation of it is accepted. *)
Theorem decommission_undone_by_heartbeat timeout now t s n e :
  hw_wf s → enrollments s !! n = Some e → node_timed_out timeout now e = true →
  ∃ s' tr e', runs s (check_timeouts timeout now) s' () tr ∧
    (∃ log, s' = apply_log ((t, RevokeNode n) :: log) s) ∧
    enrollments s' !! n = Some e' ∧ enr_state e' = Inactive ∧
    ∀ ser exp, (apply t (ActivateNode n ser exp) s').2 = EnrollmentResult n Active (enr_vcluster_id e').
Proof.
  intros Hwf He Ht. pose proof Hwf as [Hid _]. destruct (Hid _ _ He) as [Hn _].
  set (ns := enr_node_id <$> filter (λ e, node_timed_out timeout now e = true) (hash_values (enrollments s))).
  set (s1 := (apply t (RevokeNode n) s).1).
  destruct (run_runs now (write_all (DeactivateNode <$> ns)) s1) as [tr Htr].
  rewrite run_write_all in Htr. simpl in Htr.
  assert (He1 : enrollments s1 !! n = Some (set_enr_state e Revoked)).
  { subst s1. simpl. unfold apply_revoke_node, apply_set_state, update_enrollment. rewrite He. apply lookup_insert_eq. }
  destruct (deactivate_all now ns s1 n _ He1) as (e' & He' & Hst).
  rewrite decide_True in Hst; last first.
  { apply list_elem_of_fmap. exists e. split; [done|]. apply list_elem_of_filter. split; [done|].
    apply elem_of_hash_values. eauto. }
  exists (apply_log ((now,.) <$> (DeactivateNode <$> ns)) s1), tr, e'.
  split_and!; [|by eexists|exact He'|done|].
  - apply runs_read. simpl. eapply runs_env. exact Htr.
  - intros ser exp. unfold apply, apply_activate_node, update_enrollment.
    rewrite He', Hst. rewrite !decide_False by done. done.
Qed.

End properties.

(** ** Witnesses *)

Module HeartbeatSample.
#[export] Existing Instance JournalSample.chrono.
Definition journal : JournalState := apply_log JournalSample.log journal_init.
Definition node : NodeEnrollment :=
  default (JournalSample.enrollment "" "") (enrollments journal !! "node-1").
Definition late : DateTime := (3 + seconds 61)%Z.
Lemma journal_hw : hw_wf journal.
Proof. apply apply_log_hw_wf, journal_init_wf. Qed.
End HeartbeatSample.
Import HeartbeatSample.

Lemma heartbeat_writes_justified_witness :
  ∃ tr, runs journal (tick 60 late (seconds 101)) (run 7 (tick 60 late (seconds 101)) journal).1 () tr ∧
  ∃ log1 log2, Forall (λ ev,
    (∃ n e, ev_cmd ev = DeactivateNode n ∧ enrollments (apply_log log1 journal) !! n = Some e ∧
       enr_state e = Active ∧ ∃ ls, enr_last_seen e = Some ls ∧ (seconds 60 < late - ls)%Z) ∨
    (∃ k a, ev_cmd ev = DecideApproval (apr_approval_id a) system Expired ∧
       pending_approvals (apply_log log2 journal) !! k = Some a ∧ apr_status a = Pending ∧
       (apr_expires_at a < seconds 101)%Z)) tr.
Proof.
  destruct (run_runs 7 (tick 60 late (seconds 101)) journal) as [tr Htr].
  destruct (run 7 (tick 60 late (seconds 101)) journal).2 in Htr. exists tr. split; [exact Htr|].
  exact (heartbeat_writes_justified 60 late (seconds 101) journal _ () tr journal_hw Htr).
Defined.

Lemma check_timeouts_exact_witness :
  ∃ e', enrollments (run late (check_timeouts 60 late) journal).1 !! "node-1" = Some e' ∧
    enr_state e' = Inactive.
Proof. apply (check_timeouts_exact 60 late journal "node-1" node journal_hw). vm_compute. reflexivity. Defined.

Lemma decommission_undone_by_heartbeat_witness :
  ∃ s' tr e', runs journal (check_timeouts 60 late) s' () tr ∧
    (∃ log, s' = apply_log ((9%Z, RevokeNode "node-1") :: log) journal) ∧
    enrollments s' !! "node-1" = Some e' ∧ enr_state e' = Inactive ∧
    ∀ ser exp, (apply 9%Z (ActivateNode "node-1" ser exp) s').2 = EnrollmentResult "node-1" Active (enr_vcluster_id e').
Proof.
  apply (decommission_undone_by_heartbeat 60 late 9%Z journal "node-1" node journal_hw); vm_compute; reflexivity.
Defined.
