(* ===== verification/BootStream.v ===== *)
(** * Boot configuration and live updates

    crates/pact-journal/src/boot_service.rs (the streams the journal serves)
    and the receiving side of crates/pact-agent/src/boot/mod.rs. Compression
    (zstd) and JSON serialisation are parameters. *)

From S2P Require Import Prelude Types Checksum JournalState JournalInvariants JournalProperties Raft ConfigService.
From stdpp Require Import options.

(** zstd: what is documented of [encode_all] and [decode_all] is that a frame
    decodes to what was encoded and starts with a four-byte magic number. *)
Class Zstd := {
  encode_all : bytes → option bytes;
  decode_all : bytes → option bytes;
  decode_encode d c : encode_all d = Some c → decode_all c = Some d;
  frame_magic d c : encode_all d = Some c → (4 <= length c)%nat;
}.

Definition CHUNK_SIZE : nat := N.to_nat 65536.
#[global] Opaque CHUNK_SIZE.

Lemma CHUNK_SIZE_pos : (0 < CHUNK_SIZE)%nat.
Proof. with_strategy transparent [CHUNK_SIZE] (unfold CHUNK_SIZE; lia). Qed.

(** ** Wire messages *)

Record OverlayChunk := {
  oc_version : N;
  oc_vcluster_id : string;
  oc_data : bytes;
  oc_chunk_index : N;
  oc_total_chunks : N;
  oc_checksum : string;
}.
Record NodeDelta := { nc_node_id : string; nc_version : N; nc_data : bytes; nc_checksum : string }.
Record ConfigComplete := { cc_base_version : N; cc_node_version : N; cc_timestamp : option ProtoTimestamp }.
Inductive ConfigChunk :=
| BaseOverlay (c : OverlayChunk)
| NodeDeltaChunk (d : NodeDelta)
| Complete (c : ConfigComplete)
| NoChunk.

Record BootConfigRequest := { bc_node_id : string; bc_vcluster_id : string; bc_last_known_version : option N }.

(** ** The journal's side *)

(** [data.chunks(n)]. *)
Fixpoint chunks_fuel (fuel n : nat) (data : bytes) : list bytes :=
  match fuel, data with
  | S fuel', _ :: _ => take n data :: chunks_fuel fuel' n (drop n data)
  | _, _ => []
  end.
Definition chunks (n : nat) (data : bytes) : list bytes := chunks_fuel (length data) n data.

Definition node_scoped (node : NodeId) (e : ConfigEntry) : Prop := entry_scope e = Node node.
#[export] Instance node_scoped_dec node e : Decision (node_scoped node e) := decide (entry_scope e = Node node).

Definition build_node_delta `{EntryJson} (s : JournalState) (node : NodeId) : bytes :=
  match filter (node_scoped node) (btree_values (entries s)) with
  | [] => []
  | es => entries_to_json es
  end.

Definition overlay_chunk (ov : BootOverlay) (data : bytes) (i total : N) : ConfigChunk :=
  BaseOverlay {| oc_version := ov_version ov; oc_vcluster_id := ov_vcluster_id ov; oc_data := data;
                 oc_chunk_index := i; oc_total_chunks := total; oc_checksum := ov_checksum ov |}.

Definition overlay_chunks (ov : BootOverlay) (data : bytes) : list ConfigChunk :=
  let total := wrap_u32 (N.of_nat (Nat.max 1 ((length data + (CHUNK_SIZE - 1)) / CHUNK_SIZE))) in
  match data with
  | [] => [overlay_chunk ov [] 0 1]
  | _ => imap (λ i d, overlay_chunk ov d (wrap_u32 (N.of_nat i)) total) (chunks CHUNK_SIZE data)
  end.

Definition complete_chunk (base node : N) (now : DateTime) : ConfigChunk :=
  Complete {| cc_base_version := base; cc_node_version := node;
              cc_timestamp := Some {| ts_seconds := (now `div` 1000000000)%Z; ts_nanos := 0 |} |}.

Section journal_side.
Context `{Zstd} `{EntryJson}.

(** [stream_boot_config] of the journal: the chunks of the stream. *)
Definition stream_boot_config (now : DateTime) (req : BootConfigRequest) (s : JournalState) :
    result (list ConfigChunk) Status :=
  let? ov := ok_or (overlays s !! bc_vcluster_id req)
               (mkStatus NotFound ("no overlay for vCluster " +:+ bc_vcluster_id req)) in
  if (match bc_last_known_version req with
      | Some known => bool_decide (ov_version ov <= known)%N
      | None => false end)
  then Ok [complete_chunk (ov_version ov) 0 now]
  else
    let data := default (ov_data ov) (encode_all (ov_data ov)) in
    let delta := build_node_delta s (bc_node_id req) in
    let node_chunk := match delta with
      | [] => []
      | _ => [NodeDeltaChunk {| nc_node_id := bc_node_id req; nc_version := ov_version ov; nc_data := delta;
                                nc_checksum := Str.format_hex (default_hash delta) |}]
      end in
    Ok (overlay_chunks ov data ++ node_chunk ++ [complete_chunk (ov_version ov) (ov_version ov) now]).

(** ** The agent's side *)

Record BootConfigData := { bd_overlay_data : bytes; bd_node_delta_data : bytes; bd_base_version : N }.

(** The receive loop; a stream item is a chunk or a transport error. *)
Fixpoint receive_chunks (stream : list (result ConfigChunk string)) (acc : BootConfigData) : result BootConfigData string :=
  match stream with
  | [] => Ok acc
  | Err e :: _ => Err ("boot config stream error: " +:+ e)
  | Ok (BaseOverlay ov) :: rest =>
      receive_chunks rest {| bd_overlay_data := bd_overlay_data acc ++ oc_data ov;
                             bd_node_delta_data := bd_node_delta_data acc;
                             bd_base_version := oc_version ov |}
  | Ok (NodeDeltaChunk nd) :: rest =>
      receive_chunks rest {| bd_overlay_data := bd_overlay_data acc;
                             bd_node_delta_data := nc_data nd;
                             bd_base_version := bd_base_version acc |}
  | Ok (Complete _) :: _ => Ok acc
  | Ok NoChunk :: rest => receive_chunks rest acc
  end.

(** [zstd::decode_all(..).unwrap_or(..)] on data of at least four bytes. *)
Definition decompress (d : bytes) : bytes :=
  if (4 <=? length d)%nat then default d (decode_all d) else d.

(** [stream_boot_config] of the agent, from the answer of the journal. *)
Definition agent_stream_boot_config (answer : result (list (result ConfigChunk string)) string) :
    result BootConfigData string :=
  match answer with
  | Err e => Err ("StreamBootConfig failed: " +:+ e)
  | Ok stream =>
      let? d := receive_chunks stream {| bd_overlay_data := []; bd_node_delta_data := []; bd_base_version := 0 |} in
      Ok {| bd_overlay_data := decompress (bd_overlay_data d);
            bd_node_delta_data := bd_node_delta_data d; bd_base_version := bd_base_version d |}
  end.

End journal_side.

(** ** Properties of the boot stream *)

Lemma chunks_fuel_concat fuel n data :
  (0 < n)%nat → (length data <= fuel)%nat → concat (chunks_fuel fuel n data) = data.
Proof.
  intros Hn. revert data. induction fuel as [|fuel IH]; intros [|x data] Hl; simpl in *; try done; [lia|].
  destruct n as [|n]; [lia|]. simpl. f_equal. rewrite IH.
  - by rewrite take_drop.
  - rewrite length_drop. lia.
Qed.

Lemma chunks_fuel_size fuel n data : Forall (λ c, (length c <= n)%nat) (chunks_fuel fuel n data).
Proof.
  revert data. induction fuel as [|fuel IH]; intros [|x data]; simpl; constructor; [|apply IH].
  rewrite length_take. lia.
Qed.

Lemma chunks_fuel_length fuel n data :
  (0 < n)%nat → (length data <= fuel)%nat →
  length (chunks_fuel fuel n data) = ((length data + (n - 1)) / n)%nat.
Proof.
  intros Hn. revert data. induction fuel as [|fuel IH]; intros data Hl.
  { destruct data; simpl in *; [|lia]. rewrite Nat.div_small by lia. done. }
  destruct data as [|x data]; [simpl; rewrite Nat.div_small by lia; done|].
  change (chunks_fuel (S fuel) n (x :: data)) with (take n (x :: data) :: chunks_fuel fuel n (drop n (x :: data))).
  simpl length at 1. rewrite IH by (rewrite length_drop; simpl in *; lia). rewrite length_drop.
  destruct (decide (length (x :: data) <= n)%nat) as [Hle|Hgt].
  - replace (length (x :: data) - n)%nat with 0%nat by lia. rewrite (Nat.div_small (0 + _)) by lia.
    apply Nat.div_unique with (r := (length (x :: data) - 1)%nat); simpl in *; lia.
  - replace (length (x :: data) + (n - 1))%nat with ((length (x :: data) - n + (n - 1)) + 1 * n)%nat by lia.
    rewrite Nat.div_add by lia. lia.
Qed.

(** The chunks of a stream as items that arrived. *)
Definition arrived (cs : list ConfigChunk) : list (result ConfigChunk string) := Ok <$> cs.

Definition chunk_of (ov : BootOverlay) (d : bytes) (c : ConfigChunk) : Prop :=
  ∃ i total, c = overlay_chunk ov d i total.

Lemma receive_overlay_chunks ov ds cs rest acc :
  Forall2 (chunk_of ov) ds cs →
  receive_chunks (arrived cs ++ rest) acc =
  receive_chunks rest {| bd_overlay_data := bd_overlay_data acc ++ concat ds;
                         bd_node_delta_data := bd_node_delta_data acc;
                         bd_base_version := match cs with [] => bd_base_version acc | _ => ov_version ov end |}.
Proof.
  intros Hf. revert acc. induction Hf as [|d c ds cs (i & total & ->) _ IH]; intros acc.
  - simpl. rewrite app_nil_r. by destruct acc.
  - simpl. fold (arrived cs). rewrite IH. simpl. rewrite <- app_assoc. by destruct cs.
Qed.

(** Reassembling the chunks of some bytes gives the bytes. *)
Lemma overlay_chunks_spec ov data :
  ∃ ds, Forall2 (chunk_of ov) ds (overlay_chunks ov data) ∧ concat ds = data ∧ overlay_chunks ov data ≠ [].
Proof.
  destruct data as [|x data].
  { exists [[]]. split_and!; [|done|done]. constructor; [|constructor]. by eexists _, _. }
  exists (chunks CHUNK_SIZE (x :: data)). split_and!.
  - unfold overlay_chunks. set (f := λ i d, _). revert f.
    generalize (chunks CHUNK_SIZE (x :: data)). intros ds. generalize (wrap_u32 (N.of_nat (Nat.max 1
      ((length (x :: data) + (CHUNK_SIZE - 1)) / CHUNK_SIZE)))). intros total f.
    apply Forall2_same_length_lookup. split; [by rewrite length_imap|].
    intros i d c Hd Hc. rewrite list_lookup_imap, Hd in Hc. simplify_eq/=. by eexists _, _.
  - apply chunks_fuel_concat; [apply CHUNK_SIZE_pos|done].
  - unfold overlay_chunks. change (chunks CHUNK_SIZE (x :: data)) with
      (take CHUNK_SIZE (x :: data) :: chunks_fuel (length data) CHUNK_SIZE (drop CHUNK_SIZE (x :: data))).
    done.
Qed.

Section stream.
Context `{Zstd} `{EntryJson}.

Lemma decompress_encoded d c : encode_all d = Some c → decompress c = d.
Proof.
  intros Hc. unfold decompress. pose proof (frame_magic _ _ Hc) as Hm.
  apply Nat.leb_le in Hm. rewrite Hm. by rewrite (decode_encode _ _ Hc).
Qed.

(** C14: A booting agent receives exactly what the journal stores: for a vCluster
    with an overlay whose compression succeeds, the agent's reassembly of the
    journal's stream is the overlay data byte for byte, the node's delta and
    the overlay version. *)
Theorem boot_stream_roundtrip now req s ov c :
  overlays s !! bc_vcluster_id req = Some ov → bc_last_known_version req = None →
  encode_all (ov_data ov) = Some c →
  ∃ cs, stream_boot_config now req s = Ok cs ∧
    agent_stream_boot_config (Ok (arrived cs)) =
      Ok {| bd_overlay_data := ov_data ov; bd_node_delta_data := build_node_delta s (bc_node_id req);
            bd_base_version := ov_version ov |}.
Proof.
  intros Hov Hknown Henc. unfold stream_boot_config. rewrite Hov, Hknown. simpl. rewrite Henc. simpl.
  eexists. split; [done|]. unfold agent_stream_boot_config.
  destruct (overlay_chunks_spec ov c) as (ds & Hds & Hcat & Hne).
  unfold arrived. rewrite fmap_app. fold (arrived (overlay_chunks ov c)).
  rewrite (receive_overlay_chunks ov ds) by done. simpl. rewrite Hcat.
  destruct (overlay_chunks ov c); [done|].
  destruct (build_node_delta s (bc_node_id req)); simpl; by rewrite (decompress_encoded _ _ Henc).
Qed.

(** The overlay part of a stream is well formed: at most 64 KiB of data per
    chunk, chunks numbered from zero, and every chunk announces the number of
    chunks (below 2^32). *)
Theorem overlay_chunks_numbered ov data :
  (N.of_nat (length data) < 2 ^ 32)%N →
  ∀ i c, overlay_chunks ov data !! i = Some c →
  ∃ d, c = overlay_chunk ov d (N.of_nat i) (N.of_nat (length (overlay_chunks ov data))) ∧
    (length d <= CHUNK_SIZE)%nat.
Proof.
  intros Hlen i c. destruct data as [|x data].
  { destruct i as [|i]; simpl; [|done]. intros [= <-]. exists []. split; [done|]. simpl. lia. }
  unfold overlay_chunks. rewrite length_imap, list_lookup_imap.
  destruct (chunks CHUNK_SIZE (x :: data) !! i) as [d|] eqn:Hd; [|done]. intros [= <-].
  pose proof CHUNK_SIZE_pos as Hcs.
  pose proof (chunks_fuel_length (length (x :: data)) CHUNK_SIZE (x :: data) Hcs (le_n _)) as Hl.
  fold (chunks CHUNK_SIZE (x :: data)) in Hl. pose proof (lookup_lt_Some _ _ _ Hd) as Hi. rewrite Hl in Hi.
  assert (Hle : ((length (x :: data) + (CHUNK_SIZE - 1)) / CHUNK_SIZE <= length (x :: data))%nat).
  { apply Nat.Div0.div_le_upper_bound. simpl in *. nia. }
  exists d. split.
  - rewrite Hl. unfold overlay_chunk. do 2 f_equal; unfold wrap_u32.
    + apply N.mod_small. lia.
    + change (S (length data + (CHUNK_SIZE - 1))) with (length (x :: data) + (CHUNK_SIZE - 1))%nat. rewrite Nat.max_r by lia. apply N.mod_small. lia.
  - pose proof (chunks_fuel_size (length (x :: data)) CHUNK_SIZE (x :: data)) as Hs.
    rewrite Forall_forall in Hs. apply Hs. by eapply list_elem_of_lookup_2.
Qed.

(** A client that already has the current version is told so with a single
    completion marker. *)
Theorem stream_up_to_date now req s ov known :
  overlays s !! bc_vcluster_id req = Some ov → bc_last_known_version req = Some known →
  (ov_version ov <= known)%N →
  stream_boot_config now req s = Ok [complete_chunk (ov_version ov) 0 now].
Proof.
  intros Hov Hk Hle. unfold stream_boot_config. rewrite Hov, Hk. simpl.
  by rewrite bool_decide_eq_true_2.
Qed.

(** The agent does not notice a truncated stream: for every prefix of the
    journal's overlay chunks, a stream that ends there is accepted, and the
    data is what is left of it, compared with no checksum. *)
Theorem truncated_stream_accepted ov data n :
  ∃ d, agent_stream_boot_config (Ok (arrived (take n (overlay_chunks ov data)))) = Ok d ∧
    ∃ part rest, data = part ++ rest ∧ bd_overlay_data d = decompress part ∧
      length part = length (concat (omap (λ c, match c with BaseOverlay o => Some (oc_data o) | _ => None end)
        (take n (overlay_chunks ov data)))).
Proof.
  destruct (overlay_chunks_spec ov data) as (ds & Hds & Hcat & _).
  assert (Hn : Forall2 (chunk_of ov) (take n ds) (take n (overlay_chunks ov data))) by by apply Forall2_take.
  eexists. unfold agent_stream_boot_config. rewrite <- (app_nil_r (arrived _)).
  rewrite (receive_overlay_chunks ov _ _ _ _ Hn). simpl. split; [done|]. simpl.
  exists (concat (take n ds)), (concat (drop n ds)). split_and!.
  - by rewrite <- concat_app, take_drop.
  - done.
  - do 2 f_equal. revert Hn. generalize (take n ds), (take n (overlay_chunks ov data)).
    intros ds' cs'. induction 1 as [|d c ds' cs' (i & t & ->) _ IH]; [done|]. csimpl. by f_equal.
Qed.

End stream.

(** ** Live updates *)

Section live.
Context `{EntryJson}.

(** What the live channel delivers to a subscriber. *)
Inductive LiveEvent := Update (u : ConfigUpdate) | Lagged (n : N) | Closed.

(** An update of the live channel: [last_sent_seq] skips what was already
    sent. *)
Definition live_next (last_sent_seq : N) (u : ConfigUpdate) : N * list ConfigUpdate :=
  if (cu_sequence u <=? last_sent_seq)%N then (last_sent_seq, []) else (cu_sequence u, [u]).

(** The live phase; a lagging subscriber and a closing journal end the
    stream. *)
Fixpoint live_phase (last_sent_seq : N) (live : list LiveEvent) : list ConfigUpdate :=
  match live with
  | [] => []
  | Update u :: rest => let '(last_sent_seq', out) := live_next last_sent_seq u in out ++ live_phase last_sent_seq' rest
  | Lagged _ :: _ => []
  | Closed :: _ => []
  end.

Definition catchup (from : N) (s : JournalState) : list ConfigUpdate :=
  (λ p, entry_update p.1 p.2) <$> filter (λ p, (from <= p.1)%N) (btree_iter (entries s)).

Definition last_sent (from : N) (s : JournalState) : N :=
  match last (catchup from s) with
  | Some u => cu_sequence u
  | None => (from - 1)%N
  end.

(** [subscribe_config_updates]: the updates of a stream whose client stays
    connected; a client that disconnects sees a prefix of them. *)
Definition subscribe_config_updates (from : N) (s : JournalState) (live : list LiveEvent) : list ConfigUpdate :=
  catchup from s ++ live_phase (last_sent from s) live.

(** Updates in the order of their numbers. *)
Definition seq_lt (u v : ConfigUpdate) : Prop := (cu_sequence u < cu_sequence v)%N.
#[local] Instance seq_lt_strict : StrictOrder seq_lt.
Proof. unfold seq_lt. split; [intros u; apply N.lt_irrefl|intros u v w; apply N.lt_trans]. Qed.

Lemma elem_of_catchup from s u :
  u ∈ catchup from s ↔ ∃ k e, entries s !! k = Some e ∧ (from <= k)%N ∧ u = entry_update k e.
Proof.
  unfold catchup. rewrite list_elem_of_fmap. split.
  - intros ([k e] & -> & [Hk He%elem_of_btree_iter]%list_elem_of_filter). eauto.
  - intros (k & e & He & Hk & ->). exists (k, e). split; [done|]. apply list_elem_of_filter.
    split; [done|]. by apply elem_of_btree_iter.
Qed.

Lemma catchup_sorted from s : StronglySorted seq_lt (catchup from s).
Proof.
  eapply StronglySorted_fmap; [|apply StronglySorted_filter, btree_iter_strict].
  intros p q. unfold key_lt, seq_lt. done.
Qed.

(** On updates in order, the live phase keeps what is newer. *)
Lemma live_phase_sorted n us :
  StronglySorted seq_lt us →
  live_phase n (Update <$> us) = filter (λ u, (n < cu_sequence u)%N) us.
Proof.
  intros Hs. revert n. induction Hs as [|u us Hs IH Hu]; intros n; [done|]. csimpl. rewrite filter_cons. unfold live_next.
  destruct (N.leb_spec (cu_sequence u) n) as [Hle|Hlt].
  - rewrite decide_False by lia. apply IH.
  - rewrite decide_True by done. simpl. f_equal. rewrite IH. rewrite !filter_all; [done| |done].
    eapply Forall_impl; [exact Hu|]. unfold seq_lt. simpl. lia.
Qed.

(** The highest number the catch-up sent, for a journal without gaps. *)
Lemma last_sent_spec from s :
  entries_wf s →
  (from < next_sequence s)%N ∧ last_sent from s = (next_sequence s - 1)%N ∨
  (next_sequence s <= from)%N ∧ last_sent from s = (from - 1)%N ∧ catchup from s = [].
Proof.
  intros [Hdom _]. unfold last_sent. destruct (last (catchup from s)) as [u|] eqn:Hl.
  - left. pose proof (StronglySorted_last _ _ _ (catchup_sorted from s) Hl) as Hmax.
    apply last_Some_elem_of in Hl. apply elem_of_catchup in Hl as (k & e & He & Hk & ->). simpl.
    assert (Hk2 : (k < next_sequence s)%N) by (apply Hdom; by eexists).
    destruct (proj2 (Hdom (next_sequence s - 1)%N)) as [e2 He2]; [lia|].
    destruct (Hmax (entry_update (next_sequence s - 1) e2)) as [Heq|Hlt].
    + apply elem_of_catchup. exists (next_sequence s - 1)%N, e2. split_and!; [done|lia|done].
    + injection Heq as ? _. lia.
    + unfold seq_lt in Hlt. simpl in Hlt. lia.
  - right. apply last_None in Hl. split_and!; [|done|done].
    destruct (decide (next_sequence s <= from)%N) as [|Hn]; [done|]. exfalso.
    destruct (proj2 (Hdom from)) as [e He]; [lia|].
    assert (entry_update from e ∈ catchup from s) as Hin by (apply elem_of_catchup; eauto with lia).
    rewrite Hl in Hin. by apply not_elem_of_nil in Hin.
Qed.

(** The first of the live updates above all before it, and above a bound. *)
Lemma elem_of_live_phase n live u :
  u ∈ live_phase n live ↔
  ∃ before rest, live = (Update <$> before) ++ Update u :: rest ∧ (n < cu_sequence u)%N ∧
    Forall (λ v, (cu_sequence v < cu_sequence u)%N) before.
Proof.
  revert n. induction live as [|[v|k|] live IH]; intros n; simpl.
  - split; [by intros ?%not_elem_of_nil|]. intros ([|] & rest & ? & _); done.
  - unfold live_next. destruct (N.leb_spec (cu_sequence v) n) as [Hle|Hlt]; simpl; rewrite ?elem_of_cons, IH; split.
    + intros (before & rest & -> & Hn & Hb). exists (v :: before), rest. split_and!; [done|done|]. constructor; [lia|done].
    + intros ([|w before] & rest & [= -> ->] & Hn & Hb); [lia|]. apply Forall_cons in Hb as [_ Hb]. by exists before, rest.
    + intros [->|(before & rest & -> & Hn & Hb)]; [by exists [], live|].
      exists (v :: before), rest. split_and!; [done|lia|]. by constructor.
    + intros ([|w before] & rest & [= -> ->] & Hn & Hb); [by left|]. apply Forall_cons in Hb as [Hw Hb]. right. by exists before, rest.
  - split; [by intros ?%not_elem_of_nil|]. intros ([|] & rest & ? & _); done.
  - split; [by intros ?%not_elem_of_nil|]. intros ([|] & rest & ? & _); done.
Qed.

Lemma live_phase_increasing n live : StronglySorted seq_lt (live_phase n live) ∧ Forall (λ u, (n < cu_sequence u)%N) (live_phase n live).
Proof.
  revert n. induction live as [|[v|k|] live IH]; intros n; simpl; [by repeat constructor| |by repeat constructor..].
  unfold live_next. destruct (N.leb_spec (cu_sequence v) n) as [Hle|Hlt]; simpl; [apply IH|].
  destruct (IH (cu_sequence v)) as [Hs Hf]. split; constructor; [done..|]. eapply Forall_impl; [exact Hf|]. simpl. lia.
Qed.

Lemma last_sent_spec' from s u :
  (last_sent from s < cu_sequence u)%N ↔
  (catchup from s = [] → (N.max from 1 <= cu_sequence u)%N) ∧ (∀ v, v ∈ catchup from s → seq_lt v u).
Proof.
  unfold last_sent. destruct (last (catchup from s)) as [w|] eqn:Hl.
  - pose proof (StronglySorted_last _ _ _ (catchup_sorted from s) Hl) as Hmax. apply last_Some_elem_of in Hl.
    split.
    + intros Hu. split; [intros E; rewrite E in Hl; by apply not_elem_of_nil in Hl|].
      intros v Hv. destruct (Hmax v Hv) as [->|Hlt]; unfold seq_lt in *; lia.
    + intros [_ Hv]. by apply Hv.
  - apply last_None in Hl. rewrite Hl. split; [intros Hu; split; [lia|by intros v ?%not_elem_of_nil]|].
    intros [Hu _]. specialize (Hu eq_refl). lia.
Qed.

(** C9: What a subscriber receives, whatever the live channel delivers: every
    entry the journal holds from the starting number on comes first, in
    order; after it come exactly those live updates that are announced before
    the channel lags or closes and whose number is above that of everything
    sent or announced before (and at least the starting number, or 1 for an
    empty journal followed from 0). The numbers on the stream only grow, so
    that nothing comes twice. *)
Theorem subscription_stream from s live :
  let out := subscribe_config_updates from s live in
  StronglySorted seq_lt out ∧ catchup from s `prefix_of` out ∧
  (∀ u, u ∈ catchup from s ↔ ∃ k e, entries s !! k = Some e ∧ (from <= k)%N ∧ u = entry_update k e) ∧
  ∀ u, u ∈ out ↔ u ∈ catchup from s ∨
    ∃ before rest, live = (Update <$> before) ++ Update u :: rest ∧
      (catchup from s = [] → (N.max from 1 <= cu_sequence u)%N) ∧
      Forall (λ v, (cu_sequence v < cu_sequence u)%N) (catchup from s ++ before).
Proof.
  intros out. unfold out, subscribe_config_updates. destruct (live_phase_increasing (last_sent from s) live) as [Hs Hf].
  split_and!.
  - apply StronglySorted_app_inter; [apply catchup_sorted|done|]. intros u v Hu Hv. rewrite Forall_forall in Hf.
    apply (last_sent_spec' from s v); [by apply Hf|done].
  - by eexists.
  - intros u. apply elem_of_catchup.
  - intros u. rewrite elem_of_app, elem_of_live_phase. f_equiv. f_equiv. intros before. f_equiv. intros rest.
    rewrite last_sent_spec', Forall_app, (Forall_forall _ (catchup from s)). unfold seq_lt. tauto.
Qed.

(** A subscriber receives every entry from its starting number on, exactly
    once and in order: when the live channel delivers in order what was
    announced from no later than the catch-up snapshot, the stream is the
    list of all entries of the later journal from that number. The one case
    excluded is an empty journal followed from number zero. *)
Theorem subscription_exact from k s s2 :
  entries_wf s → entries_wf s2 → entries s ⊆ entries s2 →
  (k <= next_sequence s)%N → (0 < next_sequence s ∨ 0 < from)%N →
  subscribe_config_updates from s (Update <$> catchup k s2) = catchup from s2.
Proof.
  intros Hwf [Hdom2 _] Hsub Hk Hne. unfold subscribe_config_updates.
  rewrite live_phase_sorted by apply catchup_sorted. pose proof Hwf as [Hdom _].
  assert (Hls : ∀ j e, entries s2 !! j = Some e → (from <= j)%N →
    (last_sent from s < j)%N ↔ (next_sequence s <= j)%N).
  { intros j e Hj Hfj. destruct (last_sent_spec from s Hwf) as [[? ->]|(? & -> & _)]; lia. }
  assert (Hge : ∀ j, (last_sent from s < j)%N → (next_sequence s <= j ∧ from <= j)%N).
  { intros j. destruct (last_sent_spec from s Hwf) as [[? ->]|(? & -> & _)]; lia. }
  apply (StronglySorted_unique_elems seq_lt).
  - apply StronglySorted_app_inter; [apply catchup_sorted|apply StronglySorted_filter, catchup_sorted|].
    intros u v (i & e & He & _ & ->)%elem_of_catchup [Hv _]%list_elem_of_filter.
    unfold seq_lt. simpl. apply Hge in Hv. assert (i < next_sequence s)%N by (apply Hdom; by eexists). lia.
  - apply catchup_sorted.
  - intros u. rewrite elem_of_app, list_elem_of_filter, !elem_of_catchup. split.
    + intros [(i & e & He & Hi & ->)|[Hlt (i & e & He & Hi & ->)]]; exists i, e; split_and!; try done.
      * by eapply lookup_weaken.
      * by apply Hge in Hlt as [].
    + intros (i & e & He & Hi & ->). destruct (decide (i < next_sequence s)%N) as [Hlt|Hnlt].
      * left. apply Hdom in Hlt as [e' He']. exists i, e'. split_and!; [done|done|].
        f_equal. eapply lookup_weaken in He'; [|exact Hsub]. congruence.
      * right. split; [apply (Hls i e); [done|done|lia]|]. exists i, e. split_and!; [done|lia|done].
Qed.

(** The excluded case is a lost update: a subscriber that starts from zero
    on an empty journal never receives entry zero. *)
Theorem first_entry_skipped s u rest :
  entries s = ∅ → cu_sequence u = 0%N →
  subscribe_config_updates 0 s (Update u :: rest) = subscribe_config_updates 0 s rest.
Proof.
  intros He Hu. unfold subscribe_config_updates. f_equal. unfold last_sent.
  assert (catchup 0 s = []) as -> by (unfold catchup; rewrite He; done). simpl. unfold live_next. by rewrite Hu.
Qed.

(** Announcements that overtake each other lose updates: once a live update
    is sent, a later announcement with a smaller number is dropped for good. *)
Theorem overtaken_update_dropped from s u v rest :
  (last_sent from s < cu_sequence u)%N → (cu_sequence v < cu_sequence u)%N →
  subscribe_config_updates from s (Update u :: Update v :: rest) =
  subscribe_config_updates from s (Update u :: rest).
Proof.
  intros Hu Hv. unfold subscribe_config_updates. f_equal. simpl. unfold live_next.
  destruct (N.leb_spec (cu_sequence u) (last_sent from s)); [lia|]. simpl.
  destruct (N.leb_spec (cu_sequence v) (cu_sequence u)); [done|lia].
Qed.

End live.

(** ** Witnesses *)

Module BootSample.

#[export] Existing Instance JournalSample.chrono.
#[export] Existing Instance ConfigSample.json.

#[export, program] Instance zstd : Zstd :=
  {| encode_all := λ d, Some ([40; 181; 47; 253]%N ++ d); decode_all := λ c, Some (drop 4 c) |}.
Next Obligation. intros d c [= <-]. done. Qed.
Next Obligation. intros d c [= <-]. simpl. lia. Qed.

Definition overlay : BootOverlay := boot_overlay_new "ml" 5 [10; 20; 30]%N.
Definition journal : JournalState :=
  apply_log [(0%Z, SetOverlay "ml" overlay); (1%Z, AppendEntry ConfigSample.entry)] journal_init.
Definition later : JournalState := apply_log [(2%Z, AppendEntry ConfigSample.entry)] journal.
Definition request (known : option N) : BootConfigRequest :=
  {| bc_node_id := "n1"; bc_vcluster_id := "ml"; bc_last_known_version := known |}.
Definition update (n : N) : ConfigUpdate := entry_update n ConfigSample.entry.

Lemma journal_ok : journal_wf journal.
Proof. apply apply_log_wf; [vm_compute; reflexivity|apply journal_init_wf]. Qed.
Lemma later_ok : journal_wf later.
Proof. apply apply_log_wf; [vm_compute; reflexivity|apply journal_ok]. Qed.
Lemma later_extends : entries journal ⊆ entries later.
Proof. apply apply_log_entries_mono; [vm_compute; reflexivity|apply journal_ok]. Qed.

End BootSample.
Import BootSample.

Lemma boot_stream_roundtrip_witness :
  ∃ cs, stream_boot_config 0 (request None) journal = Ok cs ∧
    agent_stream_boot_config (Ok (arrived cs)) =
      Ok {| bd_overlay_data := ov_data overlay; bd_node_delta_data := build_node_delta journal (bc_node_id (request None));
            bd_base_version := ov_version overlay |}.
Proof.
  apply (boot_stream_roundtrip 0 (request None) journal overlay ([40; 181; 47; 253; 10; 20; 30]%N));
    vm_compute; reflexivity.
Defined.

Lemma overlay_chunks_numbered_witness :
  ∃ d, overlay_chunk overlay [1; 2]%N 0 1 =
       overlay_chunk overlay d 0 (N.of_nat (length (overlay_chunks overlay [1; 2]%N))) ∧ (length d <= CHUNK_SIZE)%nat.
Proof. apply (overlay_chunks_numbered overlay [1; 2]%N ltac:(vm_compute; reflexivity) 0). vm_compute. reflexivity. Defined.

Lemma stream_up_to_date_witness :
  stream_boot_config 0 (request (Some 6%N)) journal = Ok [complete_chunk (ov_version overlay) 0 0].
Proof. apply (stream_up_to_date 0 (request (Some 6%N)) journal overlay 6%N); [vm_compute; reflexivity|reflexivity|discriminate]. Defined.

Lemma subscription_exact_witness :
  subscribe_config_updates 0 journal (Update <$> catchup 1 later) = catchup 0 later.
Proof.
  apply (subscription_exact 0 1 journal later (jw_entries _ journal_ok) (jw_entries _ later_ok) later_extends);
    [vm_compute; discriminate|left; vm_compute; reflexivity].
Defined.

Lemma first_entry_skipped_witness :
  subscribe_config_updates 0 journal_init [Update (update 0); Update (update 1)] = [update 1].
Proof. apply (first_entry_skipped journal_init (update 0) [Update (update 1)]); reflexivity. Defined.

Lemma overtaken_update_dropped_witness :
  subscribe_config_updates 0 journal [Update (update 2); Update (update 1)] =
  subscribe_config_updates 0 journal [Update (update 2)].
Proof. apply (overtaken_update_dropped 0 journal (update 2) (update 1) []); vm_compute; reflexivity. Defined.
