(* ===== verification/Subscription.v ===== *)
(** * The agent's subscription to the journal

    crates/pact-agent/src/subscription/mod.rs: the agent follows the live
    updates of the journal, dispatches an action for each and reconnects with
    exponential backoff. Decoding of payloads (serde_json) is a parameter. *)

From S2P Require Import Prelude Types JournalState JournalInvariants JournalProperties ConfigService BootStream.
From stdpp Require Import options.

Inductive ConfigUpdateAction :=
| OverlayChanged (data : bytes)
| NodeDeltaChanged (data : bytes)
| PolicyChanged (policy : VClusterPolicy)
| BlacklistChanged (patterns : list string).

Record SubscriptionConfig := {
  sub_node_id : string;
  sub_vcluster_id : string;
  sub_reconnect_base_ms : N;
  sub_reconnect_max_ms : N;
  sub_max_reconnect_attempts : N;
}.

Definition subscription_config_default : SubscriptionConfig :=
  {| sub_node_id := ""; sub_vcluster_id := ""; sub_reconnect_base_ms := 1000;
     sub_reconnect_max_ms := 60000; sub_max_reconnect_attempts := 100 |}.

(** The state of the subscription, with the actions handed to the agent's
    main loop (each with the number of its update) and whether that loop
    still receives. *)
Record SubscriptionState := {
  sub_last_sequence : N;
  sub_reconnect_attempts : N;
  sub_connected : bool;
  sub_actions : list (N * ConfigUpdateAction);
  sub_channel_open : bool;
}.

Definition subscription_new : SubscriptionState :=
  {| sub_last_sequence := 0; sub_reconnect_attempts := 0; sub_connected := false;
     sub_actions := []; sub_channel_open := true |}.

(** JSON decoding of policies and of blacklist patterns. *)
Class PayloadJson := {
  policy_from_json : bytes → result VClusterPolicy string;
  patterns_from_json : bytes → result (list string) string;
}.

Section operations.
Context `{PayloadJson} (cfg : SubscriptionConfig).

Definition update_action (u : UpdatePayload) : result ConfigUpdateAction string :=
  match u with
  | VClusterChange data => Ok (OverlayChanged data)
  | NodeChange data => Ok (NodeDeltaChanged data)
  | PolicyChange data =>
      match policy_from_json data with
      | Ok p => Ok (PolicyChanged p)
      | Err e => Err ("invalid policy payload: " +:+ e)
      end
  | BlacklistChange data =>
      match patterns_from_json data with
      | Ok ps => Ok (BlacklistChanged ps)
      | Err e => Err ("invalid blacklist payload: " +:+ e)
      end
  end.

(** [process_update]: decode, dispatch, then advance the number. *)
Definition process_update (sequence : N) (u : UpdatePayload) (st : SubscriptionState) :
    SubscriptionState * result () string :=
  match update_action u with
  | Err e => (st, Err e)
  | Ok a =>
      if sub_channel_open st then
        ({| sub_last_sequence := sequence; sub_reconnect_attempts := sub_reconnect_attempts st;
            sub_connected := sub_connected st; sub_actions := sub_actions st ++ [(sequence, a)];
            sub_channel_open := true |}, Ok ())
      else (st, Err "action channel closed: channel closed")
  end.

Definition on_connected (st : SubscriptionState) : SubscriptionState :=
  {| sub_last_sequence := sub_last_sequence st; sub_reconnect_attempts := 0; sub_connected := true;
     sub_actions := sub_actions st; sub_channel_open := sub_channel_open st |}.

(** [on_disconnected]: the delay before the next attempt, if any. *)
Definition on_disconnected (st : SubscriptionState) : SubscriptionState * option N :=
  let attempts := wrap_u32 (sub_reconnect_attempts st + 1) in
  let st' := {| sub_last_sequence := sub_last_sequence st; sub_reconnect_attempts := attempts;
                sub_connected := false; sub_actions := sub_actions st;
                sub_channel_open := sub_channel_open st |} in
  if (sub_max_reconnect_attempts cfg <? attempts)%N then (st', None)
  else
    let exp := N.min attempts 10 in
    let delay := wrap_u64 (sub_reconnect_base_ms cfg * 2 ^ exp) in
    (st', Some (N.min delay (sub_reconnect_max_ms cfg))).

Definition from_sequence (st : SubscriptionState) : N := sub_last_sequence st.

(** One connection attempt as the agent sees it: refused, or a stream of
    updates that ends, possibly in a transport error. *)
Inductive Connection := Refused | Session (items : list (result ConfigUpdate string)).

(** The receive loop of one session. *)
Fixpoint process_stream (items : list (result ConfigUpdate string)) (st : SubscriptionState) : SubscriptionState :=
  match items with
  | [] => st
  | Err _ :: _ => st
  | Ok u :: rest =>
      match cu_update u with
      | None => process_stream rest st
      | Some p => process_stream rest (process_update (cu_sequence u) p st).1
      end
  end.

Definition connect (c : Connection) (st : SubscriptionState) : SubscriptionState :=
  match c with
  | Refused => st
  | Session items => process_stream items (on_connected st)
  end.

(** [run] over the connections it makes: the final state, the delays it
    slept, and whether it gave up. *)
Fixpoint run_subscription (conns : list Connection) (st : SubscriptionState) :
    SubscriptionState * list N * bool :=
  match conns with
  | [] => (st, [], false)
  | c :: rest =>
      let '(st', d) := on_disconnected (connect c st) in
      match d with
      | Some ms => let '(st2, ds, fin) := run_subscription rest st' in (st2, ms :: ds, fin)
      | None => (st', [], true)
      end
  end.

(** ** Backoff *)

(** The reconnect delay grows exponentially up to the maximum and the
    subscription gives up exactly past the configured number of consecutive
    failures: the n-th failure in a row waits base * 2^min(n, 10)
    milliseconds, capped at the maximum (when base * 2^10 fits 64 bits). *)
Theorem backoff_bounded st :
  (sub_reconnect_base_ms cfg * 1024 < 2 ^ 64)%N → (sub_reconnect_attempts st + 1 < 2 ^ 32)%N →
  let n := (sub_reconnect_attempts st + 1)%N in
  sub_reconnect_attempts (on_disconnected st).1 = n ∧
  ((on_disconnected st).2 = None ↔ (sub_max_reconnect_attempts cfg < n)%N) ∧
  (∀ d, (on_disconnected st).2 = Some d →
     d = N.min (sub_reconnect_base_ms cfg * 2 ^ N.min n 10) (sub_reconnect_max_ms cfg)).
Proof.
  intros Hb Hn n. unfold on_disconnected, wrap_u32. rewrite N.mod_small by lia. fold n.
  destruct (N.ltb_spec (sub_max_reconnect_attempts cfg) n) as [Hlt|Hge]; simpl.
  - split_and!; [done|done|]. intros d ?. done.
  - split_and!; [done|split; [done|lia]|]. intros d [= <-]. f_equal. unfold wrap_u64. apply N.mod_small.
    assert (2 ^ N.min n 10 <= 2 ^ 10)%N by (apply N.pow_le_mono_r; lia).
    change (2 ^ 10)%N with 1024%N in *. nia.
Qed.

Lemma run_refused n st :
  (sub_max_reconnect_attempts cfg < 2 ^ 32 - 1)%N →
  (sub_reconnect_attempts st <= sub_max_reconnect_attempts cfg)%N →
  (run_subscription (replicate n Refused) st).2 = true ↔
  (sub_max_reconnect_attempts cfg < sub_reconnect_attempts st + N.of_nat n)%N.
Proof.
  intros Hmax. revert st. induction n as [|n IH]; intros st Hst; simpl; [split; [done|lia]|].
  unfold on_disconnected, wrap_u32. rewrite N.mod_small by lia.
  destruct (N.ltb_spec (sub_max_reconnect_attempts cfg) (sub_reconnect_attempts st + 1)) as [Hlt|Hge].
  - simpl. split; [lia|done].
  - simpl. set (st' := {| sub_last_sequence := _ |}). specialize (IH st').
    destruct (run_subscription (replicate n Refused) st') as [[st2 ds] fin]. simpl in *.
    rewrite IH by lia. lia.
Qed.

(** A journal that stays unreachable is abandoned after one attempt more
    than the limit, and not before; a successful connection starts the count
    again. *)
Theorem subscription_gives_up n st :
  (sub_max_reconnect_attempts cfg < 2 ^ 32 - 1)%N →
  (run_subscription (replicate n Refused) (on_connected st)).2 = true ↔
  (sub_max_reconnect_attempts cfg < N.of_nat n)%N.
Proof. intros Hmax. rewrite run_refused; simpl; [lia|done|lia]. Qed.

End operations.

(** ** Delivery *)

Section delivery.
Context `{PayloadJson} `{EntryJson}.

(** The agent was handed the entry with number [k] of the journal [s]. *)
Definition handed (s : JournalState) (k : N) (st : SubscriptionState) : Prop :=
  ∃ e, entries s !! k = Some e ∧ (k, OverlayChanged (entry_to_json e)) ∈ sub_actions st.

(** Everything below the agent's number was handed to it. *)
Definition caught_up (s : JournalState) (st : SubscriptionState) : Prop :=
  sub_channel_open st = true ∧ ∀ k, (k < sub_last_sequence st)%N → handed s k st.

(** A connection as the journal serves it while announcements come in order:
    refused, or a beginning of the stream from the agent's number on, which
    may break off with an error. The journal was in [s1] when the stream was
    opened, and the live channel delivers in order and without gaps what was
    announced from a number [k] not above the end of [s1] up to [s2]. The
    journal then is not empty, or the agent does not start from zero. *)
Definition served (s : JournalState) (st : SubscriptionState) (c : Connection) : Prop :=
  c = Refused ∨
  ∃ s1 s2 k n tail, entries_wf s1 ∧ entries_wf s2 ∧ entries s1 ⊆ entries s2 ∧ entries s2 ⊆ entries s ∧
    (k <= next_sequence s1)%N ∧ (0 < next_sequence s1 ∨ 0 < from_sequence st)%N ∧ (tail = [] ∨ ∃ e, tail = [Err e]) ∧
    c = Session ((Ok <$> take n (subscribe_config_updates (from_sequence st) s1 (Update <$> catchup k s2))) ++ tail).

(** The connections of a run, each served when it is made. *)
Fixpoint all_served (s : JournalState) (cfg : SubscriptionConfig) (conns : list Connection) (st : SubscriptionState) : Prop :=
  match conns with
  | [] => True
  | c :: rest => served s st c ∧ all_served s cfg rest (on_disconnected cfg (connect c st)).1
  end.

(** Updates of entries, processed in order. *)
Definition after_updates (us : list ConfigUpdate) (s' : JournalState) (st st' : SubscriptionState) : Prop :=
  sub_channel_open st' = true ∧
  sub_last_sequence st' = from_option cu_sequence (sub_last_sequence st) (last us) ∧
  (∀ a, a ∈ sub_actions st → a ∈ sub_actions st') ∧
  (∀ k e, entry_update k e ∈ us → (k, OverlayChanged (entry_to_json e)) ∈ sub_actions st').

Lemma process_entries us tail s' st :
  sub_channel_open st = true → (∀ u, u ∈ us → ∃ k e, u = entry_update k e) →
  (tail = [] ∨ ∃ e, tail = [Err e]) →
  after_updates us s' st (process_stream ((Ok <$> us) ++ tail) st).
Proof.
  intros Hopen Hus Htail. revert st Hopen. induction us as [|u us IH]; intros st Hopen; csimpl.
  - destruct Htail as [->|[e ->]]; simpl; split_and!; try done; intros k e' Hin; by apply not_elem_of_nil in Hin.
  - destruct (Hus u ltac:(left)) as (k & e & ->). simpl. unfold process_update. simpl. rewrite Hopen. simpl.
    set (st1 := {| sub_last_sequence := k |}).
    destruct (IH ltac:(intros u Hu; apply Hus; by right) st1 eq_refl) as (Ho & Hl & Hold & Hnew).
    split_and!; [done| | |].
    + rewrite Hl. destruct us as [|u us]; [done|]. rewrite last_cons_cons.
      destruct (last (u :: us)) eqn:E; [done|]. by apply last_None in E.
    + intros a Ha. apply Hold. simpl. set_solver.
    + intros k' e' Hin. apply elem_of_cons in Hin as [Heq|Hin]; [|by apply Hnew].
      apply Hold. assert (Hk := f_equal cu_sequence Heq). assert (Hu := f_equal cu_update Heq).
      simpl in Hk, Hu |- *. injection Hu as ->. subst k'. set_solver.
Qed.

(** A prefix of a catch-up that contains a number contains all before it. *)
Lemma catchup_prefix_closed from s' n u k :
  entries_wf s' → u ∈ take n (catchup from s') → (from <= k)%N → (k < cu_sequence u)%N →
  ∃ e, entries s' !! k = Some e ∧ entry_update k e ∈ take n (catchup from s').
Proof.
  intros [Hdom _] Hu Hfrom Hk.
  assert (Hin : u ∈ catchup from s') by (rewrite <- (take_drop n (catchup from s')); set_solver).
  pose proof Hin as (ku & eu & Hku & _ & ->)%elem_of_catchup. simpl in Hk.
  assert (ku < next_sequence s')%N by (apply Hdom; by eexists).
  destruct (proj2 (Hdom k)) as [e He]; [lia|]. exists e. split; [done|].
  assert (Hc : entry_update k e ∈ catchup from s') by (apply elem_of_catchup; eauto).
  rewrite <- (take_drop n (catchup from s')) in Hc. apply elem_of_app in Hc as [?|Hc]; [done|].
  pose proof (catchup_sorted from s') as Hs. rewrite <- (take_drop n (catchup from s')) in Hs.
  pose proof (StronglySorted_app_lt _ _ _ Hs _ _ Hu Hc) as Hlt. unfold seq_lt in Hlt. simpl in Hlt. lia.
Qed.

Lemma connect_caught_up s st c :
  caught_up s st → served s st c → caught_up s (connect c st).
Proof.
  intros [Hopen Hall] [->|(s1 & s' & k0 & n & tail & Hwf1 & Hwf & Hsub1 & Hsub & Hk0 & Hne & Htail & ->)]; [done|]. simpl.
  rewrite subscription_exact by done.
  set (us := take n (catchup (from_sequence st) s')).
  destruct (process_entries us tail s' (on_connected st)) as (Ho & Hl & Hold & Hnew); [done| |done|].
  { intros u Hu. assert (Hin : u ∈ catchup (from_sequence st) s').
    { rewrite <- (take_drop n (catchup (from_sequence st) s')). set_solver. }
    apply elem_of_catchup in Hin as (k & e & _ & _ & ->). eauto. }
  split; [done|]. intros k Hk.
  destruct (decide (k < sub_last_sequence st)%N) as [Hlt|Hge].
  { destruct (Hall k Hlt) as (e & He & Hin). exists e. split; [done|]. by apply Hold. }
  destruct (last us) as [u|] eqn:Hlast; simpl in Hl; [|lia].
  apply last_Some_elem_of in Hlast.
  destruct (catchup_prefix_closed (from_sequence st) s' n u k) as (e & He & Hin);
    [done|done|unfold from_sequence; lia|lia|].
  exists e. split; [by eapply lookup_weaken|by apply Hnew].
Qed.

(** C10: At-least-once delivery when announcements come in order: whatever
    connections are refused or break off, as long as every stream is opened on
    a journal that is not empty (or from a number above zero) and its live
    channel delivers the entries after the catch-up in order and without gaps,
    the agent was handed every entry below its current number, with that
    entry's contents. *)
Theorem at_least_once s cfg conns :
  all_served s cfg conns subscription_new →
  caught_up s (run_subscription cfg conns subscription_new).1.1.
Proof.
  assert (Hgen : ∀ st, caught_up s st → all_served s cfg conns st →
    caught_up s (run_subscription cfg conns st).1.1).
  { induction conns as [|c conns IH]; intros st Hst Hserved; [done|]. destruct Hserved as [Hc Hrest]. simpl.
    pose proof (connect_caught_up s st c Hst Hc) as Hst1.
    destruct (on_disconnected cfg (connect c st)) as [st2 d] eqn:Hd. simpl in Hrest.
    assert (Hst2 : caught_up s st2).
    { unfold on_disconnected in Hd. by case_match; injection Hd as <- <-. }
    specialize (IH st2 Hst2 Hrest). destruct d as [ms|]; [|done].
    by destruct (run_subscription cfg conns st2) as [[? ?] ?]. }
  apply Hgen. split; [done|]. simpl. lia.
Qed.

(** An update the agent cannot decode is skipped for good when a later one
    succeeds: the number advances past it, and reconnecting does not ask for
    it again. *)
Theorem bad_update_skipped seq1 p1 seq2 data st :
  sub_channel_open st = true → update_action p1 = Err "invalid policy payload: eof" → (seq1 < seq2)%N →
  let st' := process_stream
    [Ok {| cu_sequence := seq1; cu_timestamp := None; cu_update := Some p1 |};
     Ok {| cu_sequence := seq2; cu_timestamp := None; cu_update := Some (VClusterChange data) |}] st in
  (seq1 < from_sequence st')%N ∧ sub_actions st' = sub_actions st ++ [(seq2, OverlayChanged data)].
Proof. intros Hopen Herr Hlt. simpl. unfold process_update. rewrite Herr. simpl. by rewrite Hopen. Qed.

End delivery.

(** ** Witnesses *)

Module SubscriptionSample.
#[export] Existing Instance ConfigSample.json.
#[export] Instance payloads : PayloadJson :=
  {| policy_from_json := λ _, Err "eof"; patterns_from_json := λ _, Ok [] |}.
Import BootSample.
Definition cfg : SubscriptionConfig := subscription_config_default.
Definition first : Connection := Session ((Ok <$> take 1 (catchup 0 later)) ++ [Err "reset"]).
Definition second : Connection := Session (Ok <$> catchup 0 later).
End SubscriptionSample.
Import SubscriptionSample.

Lemma backoff_bounded_witness :
  (on_disconnected cfg subscription_new).2 = Some 2000%N ∧
  2000%N = N.min (sub_reconnect_base_ms cfg * 2 ^ N.min (sub_reconnect_attempts subscription_new + 1) 10)
             (sub_reconnect_max_ms cfg).
Proof.
  split; [vm_compute; reflexivity|].
  apply (backoff_bounded cfg subscription_new); vm_compute; reflexivity.
Defined.

Lemma subscription_gives_up_witness :
  (run_subscription cfg (replicate 101 Refused) (on_connected subscription_new)).2 = true.
Proof. apply (subscription_gives_up cfg 101 subscription_new); vm_compute; reflexivity. Defined.

Lemma at_least_once_witness :
  caught_up BootSample.later (run_subscription cfg [first; Refused; second] subscription_new).1.1.
Proof.
  apply (at_least_once BootSample.later cfg [first; Refused; second]).
  split; [|split; [left; reflexivity|split; [|exact I]]]; right.
  - exists BootSample.journal, BootSample.later, 1%N, 1, [Err "reset"].
    split; [apply BootSample.journal_ok|]. split; [apply BootSample.later_ok|]. split; [apply BootSample.later_extends|].
    split; [reflexivity|]. split; [vm_compute; discriminate|]. split; [left; vm_compute; reflexivity|].
    split; [right; eexists; reflexivity|]. vm_compute. reflexivity.
  - exists BootSample.journal, BootSample.later, 1%N, 2, [].
    split; [apply BootSample.journal_ok|]. split; [apply BootSample.later_ok|]. split; [apply BootSample.later_extends|].
    split; [reflexivity|]. split; [vm_compute; discriminate|]. split; [left; vm_compute; reflexivity|].
    split; [left; reflexivity|]. vm_compute. reflexivity.
Defined.

Lemma bad_update_skipped_witness :
  let st' := process_stream
    [Ok {| cu_sequence := 3; cu_timestamp := None; cu_update := Some (PolicyChange []) |};
     Ok {| cu_sequence := 4; cu_timestamp := None; cu_update := Some (VClusterChange [1%N]) |}] subscription_new in
  (3 < from_sequence st')%N ∧ sub_actions st' = [(4%N, OverlayChanged [1%N])].
Proof. apply (bad_update_skipped 3 (PolicyChange []) 4 [1%N] subscription_new); reflexivity. Defined.
