(* ===== verification/CommitWindow.v ===== *)
(** * Commit windows and emergency mode of the agent

    crates/pact-agent/src/commit/mod.rs (the window within which drift must be
    committed or rolled back), crates/pact-agent/src/emergency/mod.rs (the
    emergency mode that suspends rollback) and the auto-rollback timer that
    crates/pact-agent/src/boot/mod.rs spawns over both. The clock is a
    parameter of every operation that reads it. *)

From Stdlib Require Import SpecFloat.
From S2P Require Import Prelude Float64 Types.
From stdpp Require Import options.

Record CommitWindowConfig := {
  cw_base_window_seconds : N;
  cw_drift_sensitivity : f64;
  cw_emergency_window_seconds : N;
}.

Definition commit_window_config_default : CommitWindowConfig :=
  {| cw_base_window_seconds := 900; cw_drift_sensitivity := F64.of_Z 2; cw_emergency_window_seconds := 14400 |}.

(** ** The commit window *)

Module Window.

Inductive WindowState :=
| Idle
| Open (opened_at deadline : DateTime)
| Expired (opened_at expired_at : DateTime).

Record CommitWindowManager := {
  win_config : CommitWindowConfig;
  win_state : WindowState;
  win_emergency : bool;
}.

Definition window_new (config : CommitWindowConfig) : CommitWindowManager :=
  {| win_config := config; win_state := Idle; win_emergency := false |}.

Definition with_window (w : CommitWindowManager) (st : WindowState) : CommitWindowManager :=
  {| win_config := win_config w; win_state := st; win_emergency := win_emergency w |}.

Definition update_config (base : N) (sensitivity : f64) (emergency : N) (w : CommitWindowManager) : CommitWindowManager :=
  {| win_config := {| cw_base_window_seconds := base; cw_drift_sensitivity := sensitivity;
                      cw_emergency_window_seconds := emergency |};
     win_state := win_state w; win_emergency := win_emergency w |}.

Definition calculate_window_seconds (cfg : CommitWindowConfig) (magnitude : f64) : N :=
  let denominator := F64.mul_add magnitude (cw_drift_sensitivity cfg) F64.one in
  let window := F64.div (F64.of_N (cw_base_window_seconds cfg)) denominator in
  F64.to_u32 (F64.max window (F64.of_Z 60)).

Definition open (now : DateTime) (magnitude : f64) (w : CommitWindowManager) : CommitWindowManager :=
  let window_secs := if win_emergency w then cw_emergency_window_seconds (win_config w)
                     else calculate_window_seconds (win_config w) magnitude in
  with_window w (Open (match win_state w with Open opened_at _ => opened_at | _ => now end)
                    (now + seconds (Z.of_N window_secs))%Z).

Definition check_expired (now : DateTime) (w : CommitWindowManager) : CommitWindowManager * bool :=
  match win_state w with
  | Open opened_at deadline =>
      if (deadline <=? now)%Z then
        if win_emergency w then (w, false)
        else (with_window w (Expired opened_at deadline), true)
      else (w, false)
  | Expired _ _ => (w, true)
  | Idle => (w, false)
  end.

Definition commit (w : CommitWindowManager) : CommitWindowManager := with_window w Idle.
Definition rollback (w : CommitWindowManager) : CommitWindowManager := with_window w Idle.

Definition rollback_with_check (active_consumers : N) (w : CommitWindowManager) : CommitWindowManager * result () string :=
  if (0 <? active_consumers)%N
  then (w, Err (pretty active_consumers +:+ " active consumers — rollback blocked (A5)"))
  else (with_window w Idle, Ok ()).

Definition extend (additional : N) (w : CommitWindowManager) : CommitWindowManager :=
  match win_state w with
  | Open opened_at deadline => with_window w (Open opened_at (deadline + seconds (Z.of_N additional))%Z)
  | _ => w
  end.

Definition enter_emergency (now : DateTime) (w : CommitWindowManager) : CommitWindowManager :=
  {| win_config := win_config w;
     win_state := match win_state w with
       | Open _ _ => Open now (now + seconds (Z.of_N (cw_emergency_window_seconds (win_config w))))%Z
       | st => st
       end;
     win_emergency := true |}.

Definition exit_emergency (w : CommitWindowManager) : CommitWindowManager :=
  {| win_config := win_config w; win_state := win_state w; win_emergency := false |}.

(** Whole seconds until the deadline, cast to [u32]. *)
Definition seconds_remaining (now : DateTime) (w : CommitWindowManager) : N :=
  match win_state w with
  | Open _ deadline => wrap_u32 (Z.to_N (Z.max 0 ((deadline - now) `quot` 1000000000)))
  | _ => 0%N
  end.

(** A call on the manager. *)
Inductive call :=
| COpen (now : DateTime) (magnitude : f64)
| CCheck (now : DateTime)
| CCommit
| CRollback
| CRollbackWithCheck (consumers : N)
| CExtend (additional : N)
| CEnter (now : DateTime)
| CExit
| CUpdateConfig (base : N) (sensitivity : f64) (emergency : N).

Definition step (c : call) (w : CommitWindowManager) : CommitWindowManager :=
  match c with
  | COpen now m => open now m w
  | CCheck now => (check_expired now w).1
  | CCommit => commit w
  | CRollback => rollback w
  | CRollbackWithCheck n => (rollback_with_check n w).1
  | CExtend n => extend n w
  | CEnter now => enter_emergency now w
  | CExit => exit_emergency w
  | CUpdateConfig b s e => update_config b s e w
  end.

Definition expired (w : CommitWindowManager) : bool :=
  match win_state w with Expired _ _ => true | _ => false end.

End Window.

(** ** Emergency mode *)

Module Emergency.

Inductive EmergencyState :=
| Inactive
| Active (started_at : DateTime) (started_by : Identity) (reason : string) (expires_at : DateTime).

Record EmergencyManager := { em_state : EmergencyState; em_default_window_seconds : N }.

Definition emergency_new (window : N) : EmergencyManager :=
  {| em_state := Inactive; em_default_window_seconds := window |}.

Definition is_active (m : EmergencyManager) : bool :=
  match em_state m with Active _ _ _ _ => true | Inactive => false end.

Definition with_emergency (m : EmergencyManager) (st : EmergencyState) : EmergencyManager :=
  {| em_state := st; em_default_window_seconds := em_default_window_seconds m |}.

Definition start (now : DateTime) (actor : Identity) (reason : string) (m : EmergencyManager) :
    EmergencyManager * result () string :=
  if is_active m then (m, Err "emergency mode already active")
  else (with_emergency m (Active now actor reason (now + seconds (Z.of_N (em_default_window_seconds m)))%Z), Ok ()).

(** The parameter [end] of the source; the name is a keyword here. *)
Definition end_ (actor : Identity) (force : bool) (m : EmergencyManager) : EmergencyManager * result () string :=
  match em_state m with
  | Inactive => (m, Err "not in emergency mode")
  | Active _ started_by _ _ =>
      if (negb force && negb (bool_decide (principal started_by = principal actor)))%bool
      then (m, Err ("only " +:+ principal started_by +:+ " or force-end can close this emergency"))
      else (with_emergency m Inactive, Ok ())
  end.

Definition is_stale (now : DateTime) (m : EmergencyManager) : bool :=
  match em_state m with Active _ _ _ expires_at => (expires_at <=? now)%Z | Inactive => false end.

Definition reason_of (m : EmergencyManager) : option string :=
  match em_state m with Active _ _ reason _ => Some reason | Inactive => None end.

Inductive call := CStart (now : DateTime) (actor : Identity) (reason : string) | CEnd (actor : Identity) (force : bool).

Definition step (c : call) (m : EmergencyManager) : EmergencyManager :=
  match c with
  | CStart now actor reason => (start now actor reason m).1
  | CEnd actor force => (end_ actor force m).1
  end.

End Emergency.

(** ** The auto-rollback timer *)

(** One tick of the task spawned by [boot]. *)
Definition auto_rollback_tick (enforcement : string) (em : Emergency.EmergencyManager) (now : DateTime)
    (w : Window.CommitWindowManager) : Window.CommitWindowManager :=
  if decide (enforcement = "observe") then w
  else if Emergency.is_active em then w
  else
    let w1 := (Window.check_expired now w).1 in
    if Window.expired w1 then (Window.rollback_with_check 0 w1).1 else w1.

(** ** Properties *)

(** A float that compares as at least sixty truncates to at least sixty. *)
Lemma trunc_abs_ge_60 m e :
  F64.compare_finite false m e false 8444249301319680 (-47) ≠ Lt → (60 <= F64.trunc_abs m e)%Z.
Proof.
  unfold F64.compare_finite, F64.scale, F64.trunc_abs. rewrite !Z.mul_1_l.
  intros Hc. apply (proj1 (Z.compare_nlt_iff _ _)), Z.nlt_ge in Hc. change 8444249301319680%positive with (60 * 2 ^ 47)%positive in Hc.
  rewrite Pos2Z.inj_mul, Pos2Z.inj_pow in Hc. case_decide as He.
  - rewrite Z.min_r in Hc by lia. replace (-47 - -47)%Z with 0%Z in Hc by lia.
    replace (e - -47)%Z with (e + 47)%Z in Hc by lia. rewrite Z.pow_add_r in Hc by lia.
    rewrite Z.mul_1_r in Hc. apply (Z.mul_le_mono_pos_r _ _ (2 ^ 47)%Z); [lia|]. rewrite <- Z.mul_assoc. exact Hc.
  - apply Z.div_le_lower_bound; [apply Z.pow_pos_nonneg; lia|].
    destruct (decide (-47 <= e)%Z).
    + rewrite Z.min_r in Hc by lia. replace (-47 - -47)%Z with 0%Z in Hc by lia.
      assert (Hp : (2 ^ 47 = 2 ^ (- e) * 2 ^ (e - -47))%Z) by (rewrite <- Z.pow_add_r by lia; f_equal; lia).
      rewrite Z.mul_1_r, Hp in Hc. apply (Z.mul_le_mono_pos_r _ _ (2 ^ (e - -47))%Z); [apply Z.pow_pos_nonneg; lia|].
      rewrite (Z.mul_comm _ 60). by rewrite <- Z.mul_assoc.
    + rewrite Z.min_l in Hc by lia. replace (e - e)%Z with 0%Z in Hc by lia.
      assert (Hp : (2 ^ (- e) = 2 ^ 47 * 2 ^ (-47 - e))%Z) by (rewrite <- Z.pow_add_r by lia; f_equal; lia).
      rewrite Z.mul_1_r in Hc. rewrite Hp, (Z.mul_comm _ 60), Z.mul_assoc. done.
Qed.

Lemma scale_neg_lt m e n k : F64.compare_finite true m e false n k = Lt.
Proof.
  unfold F64.compare_finite, F64.scale. apply Z.compare_lt_iff.
  assert (0 < 2 ^ (e - Z.min e k))%Z by (apply Z.pow_pos_nonneg; lia).
  assert (0 < 2 ^ (k - Z.min e k))%Z by (apply Z.pow_pos_nonneg; lia). nia.
Qed.

Lemma max_60_to_u32 x : (60 <= F64.to_u32 (F64.max x (F64.of_Z 60)))%N.
Proof.
  change (F64.of_Z 60) with (S754_finite false 8444249301319680 (-47)).
  assert (H60 : (60 <= F64.to_u32 (S754_finite false 8444249301319680 (-47)))%N) by (vm_compute; discriminate).
  unfold F64.max, F64.ge. destruct x as [s|s| |s m e]; simpl F64.is_nan; cbv iota; try done.
  - destruct s; [done|]. vm_compute. discriminate.
  - simpl F64.compare. destruct s.
    { rewrite scale_neg_lt. done. }
    destruct (F64.compare_finite false m e false 8444249301319680 (-47)) eqn:Hc; try done.
    all: assert (Ht : (60 <= F64.trunc_abs m e)%Z) by (apply trunc_abs_ge_60; by rewrite Hc).
    all: simpl F64.to_u32; unfold u32_max; lia.
Qed.

Section window.
Import Window.

(** A commit window lasts at least a minute, for every base window, drift
    sensitivity and drift magnitude, including infinities, negative values
    and NaN. *)
Theorem window_at_least_60 cfg magnitude : (60 <= calculate_window_seconds cfg magnitude)%N.
Proof. apply max_60_to_u32. Qed.

(** C31: A window opened outside emergency mode stays open for at least a minute
    and then expires: the expiry check leaves it alone before the deadline
    and marks it expired from the deadline on; in emergency mode it never
    does. *)
Theorem window_expires_on_time now t magnitude w :
  let w' := open now magnitude w in
  ∃ opened deadline, win_state w' = Open opened deadline ∧
    (win_emergency w = false → (now + seconds 60 <= deadline)%Z) ∧
    ((t < deadline)%Z → check_expired t w' = (w', false)) ∧
    ((deadline <= t)%Z → win_emergency w = true → check_expired t w' = (w', false)) ∧
    ((deadline <= t)%Z → win_emergency w = false →
       check_expired t w' = (Window.with_window w' (Expired opened deadline), true)).
Proof.
  unfold open. simpl. eexists _, _. split; [done|].
  split_and!.
  - intros ->. pose proof (max_60_to_u32 (F64.div (F64.of_N (cw_base_window_seconds (win_config w)))
      (F64.mul_add magnitude (cw_drift_sensitivity (win_config w)) F64.one))) as Hm.
    unfold calculate_window_seconds, seconds in *. lia.
  - intros Ht. unfold check_expired. simpl. destruct (Z.leb_spec (now + seconds (Z.of_N (if win_emergency w
      then cw_emergency_window_seconds (win_config w) else calculate_window_seconds (win_config w) magnitude))) t); [lia|done].
  - intros Ht Hem. unfold check_expired. simpl. rewrite Hem in *. by rewrite (proj2 (Z.leb_le _ _)).
  - intros Ht Hem. unfold check_expired. simpl. rewrite Hem in *. by rewrite (proj2 (Z.leb_le _ _)).
Qed.

(** While emergency mode lasts no window expires: along every sequence of
    calls that does not leave emergency mode, a manager that entered it
    without an expired window never gets one. *)
Theorem emergency_suspends_expiry cs w :
  win_emergency w = true → expired w = false → CExit ∉ cs →
  expired (foldl (λ w c, step c w) w cs) = false ∧ win_emergency (foldl (λ w c, step c w) w cs) = true.
Proof.
  revert w. induction cs as [|c cs IH]; intros w Hem Hex Hno; [done|]. simpl. apply not_elem_of_cons in Hno as [Hc Hno].
  assert (Hstep : win_emergency (step c w) = true ∧ expired (step c w) = false).
  { destruct w as [cfg st em]. simpl in *. subst em. unfold expired in *. simpl in *.
    destruct c; simpl; unfold check_expired, rollback_with_check, extend; simpl;
      repeat (case_match; simpl in *); done. }
  destruct Hstep. by apply IH.
Qed.

(** The auto-rollback timer resolves every window that passed its deadline
    on a node that enforces and is in no emergency, and touches nothing on a
    node that only observes or is in an emergency. *)
Theorem auto_rollback_resolves enforcement em now w opened deadline :
  win_state w = Open opened deadline →
  (enforcement ≠ "observe" → Emergency.is_active em = false → win_emergency w = false → (deadline <= now)%Z →
     win_state (auto_rollback_tick enforcement em now w) = Idle) ∧
  (enforcement = "observe" ∨ Emergency.is_active em = true ∨ (now < deadline)%Z →
     auto_rollback_tick enforcement em now w = w).
Proof.
  intros Hst. unfold auto_rollback_tick. split.
  - intros He Hem Hw Hd. rewrite decide_False, Hem by done. unfold check_expired. rewrite Hst, Hw.
    by rewrite (proj2 (Z.leb_le _ _)).
  - intros Hc. case_decide; [done|]. destruct (Emergency.is_active em) eqn:Hem; [done|].
    destruct Hc as [?|[?|Hd]]; [done|done|]. unfold check_expired. rewrite Hst.
    rewrite (proj2 (Z.leb_gt _ _)) by done. simpl. unfold expired. by rewrite Hst.
Qed.

End window.

Section emergency.
Import Emergency.

(** An emergency ends only through its owner or a forced end: once started
    by someone it stays active, with its starter and reason, along every
    sequence of calls in which nobody forces and the starter does not end it;
    and either of the two ends it. *)
Theorem emergency_ends_by_owner_or_force cs m t who reason exp :
  em_state m = Active t who reason exp →
  (∀ a f, CEnd a f ∈ cs → f = false ∧ principal a ≠ principal who) →
  em_state (foldl (λ m c, step c m) m cs) = Active t who reason exp ∧
  (∀ a f, f = true ∨ principal a = principal who →
     em_state (end_ a f (foldl (λ m c, step c m) m cs)).1 = Inactive).
Proof.
  intros Hm Hcs.
  assert (Hstay : em_state (foldl (λ m c, step c m) m cs) = Active t who reason exp).
  { revert m Hm. induction cs as [|c cs IH]; intros m Hm; [done|]. simpl. apply IH.
    { intros a f Hin. apply Hcs. by right. }
    destruct c as [now a r|a f]; simpl.
    - unfold start, is_active. by rewrite Hm.
    - destruct (Hcs a f ltac:(left)) as [-> Hne]. unfold end_. rewrite Hm. simpl.
      by rewrite bool_decide_eq_false_2. }
  split; [done|]. intros a f Hf. unfold end_. rewrite Hstay.
  destruct Hf as [->|Heq]; [done|]. rewrite bool_decide_eq_true_2 by done. by rewrite andb_false_r.
Qed.

End emergency.

(** ** Witnesses *)

Module WindowSample.
Definition manager : Window.CommitWindowManager := Window.window_new commit_window_config_default.
Definition opened : Window.CommitWindowManager := Window.open 0 (F64.of_Z 1) manager.
Definition admin : Identity := {| principal := "alice"; principal_type := Human; role := "pact-platform-admin" |}.
Definition other : Identity := {| principal := "bob"; principal_type := Human; role := "pact-platform-admin" |}.
Definition emergency : Emergency.EmergencyManager := (Emergency.start 5 admin "fabric" (Emergency.emergency_new 14400)).1.
End WindowSample.
Import WindowSample.

Lemma emergency_suspends_expiry_witness :
  Window.expired (foldl (λ w c, Window.step c w) (Window.enter_emergency 1 opened)
    [Window.CCheck (seconds 99999); Window.CExtend 5; Window.CCheck (seconds 999999)]) = false.
Proof.
  apply (emergency_suspends_expiry [Window.CCheck (seconds 99999); Window.CExtend 5; Window.CCheck (seconds 999999)]
    (Window.enter_emergency 1 opened)); [reflexivity|reflexivity|].
  intros Hin. repeat (apply elem_of_cons in Hin as [Hin|Hin]; [discriminate|]). by apply not_elem_of_nil in Hin.
Defined.

Lemma auto_rollback_resolves_witness :
  Window.win_state (auto_rollback_tick "enforce" (Emergency.emergency_new 14400) (seconds 300) opened) = Window.Idle.
Proof.
  apply (auto_rollback_resolves "enforce" (Emergency.emergency_new 14400) (seconds 300) opened 0 (seconds 300));
    try reflexivity; discriminate.
Defined.

Lemma emergency_ends_by_owner_or_force_witness :
  Emergency.em_state (Emergency.end_ other true
    (foldl (λ m c, Emergency.step c m) emergency [Emergency.CEnd other false])).1 = Emergency.Inactive.
Proof.
  apply (emergency_ends_by_owner_or_force [Emergency.CEnd other false] emergency 5 admin "fabric" (5 + seconds 14400)%Z).
  - reflexivity.
  - intros a f Hin. apply list_elem_of_singleton in Hin. injection Hin as -> ->. split; [reflexivity|discriminate].
  - left. reflexivity.
Defined.
