(* ===== verification/Conflict.v ===== *)
(** * Conflicts after a partition

    crates/pact-agent/src/conflict/mod.rs: keys whose local and journal values
    diverged are paused from convergence until an administrator resolves them
    or the grace period ends in favour of the journal. *)

From S2P Require Import Prelude Types.
From stdpp Require Import options.

Record ConflictEntry := {
  ce_key : string;
  ce_local_value : bytes;
  ce_journal_value : bytes;
  ce_detected_at : DateTime;
}.

Inductive Resolution := AcceptLocal | AcceptJournal.
#[export] Instance Resolution_eq_dec : EqDecision Resolution.
Proof. solve_decision. Defined.

Inductive ConflictState := Unresolved | Resolved (r : Resolution) | GraceExpired.
#[export] Instance ConflictState_eq_dec : EqDecision ConflictState.
Proof. solve_decision. Defined.

(** [ConflictState::Pending] is [Unresolved] here; the grace period is in
    nanoseconds, as all times. *)
Record ConflictManager := {
  conflicts : gmap string (ConflictEntry * ConflictState);
  grace_period : Z;
  paused_keys : list string;
}.

Definition conflict_new (grace_period_seconds : N) : ConflictManager :=
  {| conflicts := ∅; grace_period := seconds (Z.of_N grace_period_seconds); paused_keys := [] |}.

Definition register_conflict (m : ConflictManager) (e : ConflictEntry) : ConflictManager :=
  {| conflicts := <[ce_key e := (e, Unresolved)]> (conflicts m);
     grace_period := grace_period m;
     paused_keys := if decide (ce_key e ∈ paused_keys m) then paused_keys m else paused_keys m ++ [ce_key e] |}.

Definition register_conflicts (es : list ConflictEntry) (m : ConflictManager) : ConflictManager :=
  foldl register_conflict m es.

Definition is_paused (key : string) (m : ConflictManager) : bool := bool_decide (key ∈ paused_keys m).

Definition pending_conflicts (m : ConflictManager) : list ConflictEntry :=
  (filter (λ p, p.2 = Unresolved) (hash_values (conflicts m))).*1.

(** [paused_keys.retain(|k| k != key)]. *)
Definition unpause (key : string) (ks : list string) : list string := filter (λ k, k ≠ key) ks.

Definition resolve (key : string) (r : Resolution) (m : ConflictManager) :
    ConflictManager * result ConflictEntry string :=
  match conflicts m !! key with
  | None => (m, Err ("no conflict for key: " +:+ key))
  | Some (e, st) =>
      if decide (st ≠ Unresolved) then (m, Err ("conflict for key " +:+ key +:+ " already resolved"))
      else ({| conflicts := <[key := (e, Resolved r)]> (conflicts m); grace_period := grace_period m;
               paused_keys := unpause key (paused_keys m) |}, Ok e)
  end.

Definition grace_over (now : DateTime) (m : ConflictManager) (p : ConflictEntry * ConflictState) : bool :=
  bool_decide (p.2 = Unresolved ∧ (ce_detected_at p.1 + grace_period m <= now)%Z).

Definition check_grace_periods (now : DateTime) (m : ConflictManager) : ConflictManager * list string :=
  let expired := (filter (λ kv, grace_over now m kv.2 = true) (map_to_list (conflicts m))).*1 in
  ({| conflicts := (λ p, if grace_over now m p then (p.1, GraceExpired) else p) <$> conflicts m;
      grace_period := grace_period m;
      paused_keys := foldl (λ ks k, unpause k ks) (paused_keys m) expired |}, expired).

Definition all_resolved (m : ConflictManager) : bool :=
  forallb (λ p, bool_decide (p.2 ≠ Unresolved)) (hash_values (conflicts m)).

Definition pending_count (m : ConflictManager) : nat :=
  length (filter (λ p, p.2 = Unresolved) (hash_values (conflicts m))).

Definition clear_resolved (m : ConflictManager) : ConflictManager :=
  {| conflicts := filter (λ kv, kv.2.2 = Unresolved) (conflicts m);
     grace_period := grace_period m; paused_keys := paused_keys m |}.

Definition resolution_log (m : ConflictManager) : list (string * ConflictState * bytes * bytes) :=
  (λ kv, (kv.1, kv.2.2, ce_local_value kv.2.1, ce_journal_value kv.2.1)) <$>
    filter (λ kv, kv.2.2 ≠ Unresolved) (map_to_list (conflicts m)).

(** ** Reachable managers *)

Inductive conflict_step : ConflictManager → ConflictManager → Prop :=
| cs_register es m : conflict_step m (register_conflicts es m)
| cs_resolve key r m : conflict_step m (resolve key r m).1
| cs_grace now m : conflict_step m (check_grace_periods now m).1
| cs_clear m : conflict_step m (clear_resolved m).

(** A key has an unresolved conflict. *)
Definition unresolved (m : ConflictManager) (k : string) : Prop :=
  ∃ e, conflicts m !! k = Some (e, Unresolved).

(** Exactly the keys with unresolved conflicts are paused, each once, and
    conflicts are filed under their own key. *)
Record conflict_ok (m : ConflictManager) : Prop := {
  co_paused : ∀ k, k ∈ paused_keys m ↔ unresolved m k;
  co_nodup : NoDup (paused_keys m);
  co_key : ∀ k e st, conflicts m !! k = Some (e, st) → ce_key e = k;
}.

Lemma elem_of_unpause k key ks : k ∈ unpause key ks ↔ k ∈ ks ∧ k ≠ key.
Proof. unfold unpause. rewrite list_elem_of_filter. tauto. Qed.

Lemma unpause_all k keys ks : k ∈ foldl (λ ks k, unpause k ks) ks keys ↔ k ∈ ks ∧ k ∉ keys.
Proof.
  revert ks. induction keys as [|key keys IH]; intros ks; simpl; [set_solver|].
  rewrite IH, elem_of_unpause, not_elem_of_cons. tauto.
Qed.

Lemma unpause_all_nodup keys ks : NoDup ks → NoDup (foldl (λ ks k, unpause k ks) ks keys).
Proof. revert ks. induction keys as [|key keys IH]; intros ks Hn; [done|]. simpl. apply IH. by apply NoDup_filter. Qed.

Lemma register_conflict_ok m e : conflict_ok m → conflict_ok (register_conflict m e).
Proof.
  intros [Hp Hn Hk]. split; simpl.
  - intros k. unfold unresolved. simpl. destruct (decide (k = ce_key e)) as [->|Hne].
    + rewrite lookup_insert_eq. split; [eauto|]. intros _. case_decide; [done|]. apply elem_of_app. right. left.
    + rewrite lookup_insert_ne by done. fold (unresolved m k). rewrite <- Hp.
      case_decide; [done|]. rewrite elem_of_app, list_elem_of_singleton. naive_solver.
  - case_decide as Hin; [done|]. apply NoDup_app. split_and!; [done| |apply NoDup_singleton].
    intros k Hk1 Hk2%list_elem_of_singleton. by subst.
  - intros k e' st. rewrite lookup_insert. case_decide; naive_solver.
Qed.

Lemma resolve_ok key r m : conflict_ok m → conflict_ok (resolve key r m).1.
Proof.
  intros [Hp Hn Hk]. unfold resolve. destruct (conflicts m !! key) as [[e st]|] eqn:He; [|done].
  case_decide as Hst; [done|]. simpl. split; simpl.
  - intros k. rewrite elem_of_unpause, Hp. unfold unresolved. simpl. rewrite lookup_insert.
    case_decide; naive_solver.
  - by apply NoDup_filter.
  - intros k e' st'. rewrite lookup_insert. case_decide; [|apply Hk]. intros [= <- <-]. subst. by eapply Hk.
Qed.

Lemma elem_of_grace_expired now m k :
  k ∈ (check_grace_periods now m).2 ↔ ∃ p, conflicts m !! k = Some p ∧ grace_over now m p = true.
Proof.
  unfold check_grace_periods. simpl. rewrite list_elem_of_fmap. split.
  - intros ([k' p] & -> & [Hg Hin]%list_elem_of_filter). exists p. by apply elem_of_map_to_list in Hin.
  - intros (p & Hp & Hg). exists (k, p). split; [done|]. apply list_elem_of_filter. by rewrite elem_of_map_to_list.
Qed.

Lemma check_grace_ok now m : conflict_ok m → conflict_ok (check_grace_periods now m).1.
Proof.
  intros [Hp Hn Hk]. split.
  - intros k. change (paused_keys _) with
      (foldl (λ ks k, unpause k ks) (paused_keys m) (check_grace_periods now m).2).
    rewrite unpause_all, Hp, elem_of_grace_expired. unfold unresolved. simpl. rewrite lookup_fmap. split.
    + intros [[e He] Hno]. exists e. rewrite He. simpl. destruct (grace_over now m (e, Unresolved)) eqn:Hg; [|done].
      exfalso. apply Hno. eauto.
    + intros [e He]. destruct (conflicts m !! k) as [p|] eqn:Hkp; [|done]. simpl in He.
      destruct (grace_over now m p) eqn:Hg; [done|]. injection He as ->. split; [eauto|].
      intros (p' & Hp' & Hg'). simplify_eq. congruence.
  - by apply unpause_all_nodup.
  - intros k e st. simpl. rewrite lookup_fmap. destruct (conflicts m !! k) as [[e' st']|] eqn:Hkp; [|done].
    simpl. case_match; intros [= <- <-]; by eapply Hk.
Qed.

Lemma clear_resolved_ok m : conflict_ok m → conflict_ok (clear_resolved m).
Proof.
  intros [Hp Hn Hk]. split; simpl; [|done|].
  - intros k. rewrite Hp. unfold unresolved. simpl. split; intros [e He]; exists e.
    + by apply map_lookup_filter_Some.
    + by apply map_lookup_filter_Some in He as [He _].
  - intros k e st [Hl _]%map_lookup_filter_Some. by eapply Hk.
Qed.

#[export] Hint Resolve resolve_ok check_grace_ok clear_resolved_ok : pact.

Lemma conflict_step_ok m m' : conflict_ok m → conflict_step m m' → conflict_ok m'.
Proof.
  intros Hok Hs. destruct Hs as [es m| | |]; eauto with pact.
  unfold register_conflicts. revert m Hok. induction es as [|e es IH]; intros m Hok; [done|].
  simpl. apply IH. by apply register_conflict_ok.
Qed.

(** C25: Convergence is paused for exactly the keys with an unresolved conflict,
    in every state the manager can reach: registering pauses a key once,
    resolving it or letting the grace period end releases it, and clearing
    resolved conflicts changes nothing for the rest. *)
Theorem paused_iff_unresolved grace m :
  rtc conflict_step (conflict_new grace) m → conflict_ok m.
Proof.
  assert (conflict_ok (conflict_new grace)) as Hok.
  { split; simpl; [|constructor|intros k e st; by rewrite lookup_empty].
    intros k. unfold unresolved. simpl. rewrite lookup_empty. split; [by intros ?%not_elem_of_nil|by intros []]. }
  intros Hr. induction Hr; eauto using conflict_step_ok.
Qed.

(** The grace period ends in favour of the journal: a check reports exactly
    the unresolved conflicts whose period is over, marks and releases them,
    and leaves every other conflict as it was. *)
Theorem grace_period_exact now m k :
  let '(m', expired) := check_grace_periods now m in
  (k ∈ expired ↔ ∃ e, conflicts m !! k = Some (e, Unresolved) ∧ (ce_detected_at e + grace_period m <= now)%Z) ∧
  (k ∈ expired → is_paused k m' = false ∧ ∃ e, conflicts m' !! k = Some (e, GraceExpired)) ∧
  (k ∉ expired → conflicts m' !! k = conflicts m !! k ∧ is_paused k m' = is_paused k m).
Proof.
  pose proof (elem_of_grace_expired now m k) as Hin.
  destruct (check_grace_periods now m) as [m' expired] eqn:Hc. simpl in Hin.
  assert (Hm : conflicts m' !! k = (λ p, if grace_over now m p then (p.1, GraceExpired) else p) <$> conflicts m !! k).
  { injection Hc as <- _. simpl. by rewrite lookup_fmap. }
  assert (Hp : k ∈ paused_keys m' ↔ k ∈ paused_keys m ∧ k ∉ expired) by (injection Hc as <- <-; apply unpause_all).
  split_and!.
  - rewrite Hin. split.
    + intros ([e st] & He & [Hst Hg]%bool_decide_eq_true). simpl in *. subst. eauto.
    + intros (e & He & Hg). eexists. split; [done|]. by apply bool_decide_eq_true_2.
  - intros Hk. split; [apply bool_decide_eq_false_2; tauto|]. apply Hin in Hk as ([e st] & He & Hg).
    exists e. by rewrite Hm, He; simpl; rewrite Hg.
  - intros Hk. split; [|apply bool_decide_ext; tauto]. rewrite Hm.
    destruct (conflicts m !! k) as [p|] eqn:He; [|done]. simpl.
    destruct (grace_over now m p) eqn:Hg; [|done]. exfalso. apply Hk, Hin. eauto.
Qed.

(** ** Witnesses *)

Module ConflictSample.
Definition entry (k : string) : ConflictEntry :=
  {| ce_key := k; ce_local_value := [1%N]; ce_journal_value := [2%N]; ce_detected_at := 0 |}.
Definition registered : ConflictManager := register_conflicts [entry "a"; entry "b"; entry "a"] (conflict_new 900).
Definition resolved : ConflictManager := (resolve "a" AcceptLocal registered).1.
End ConflictSample.
Import ConflictSample.

Lemma paused_iff_unresolved_witness : conflict_ok resolved ∧ paused_keys resolved = ["b"].
Proof.
  split; [|vm_compute; reflexivity]. apply (paused_iff_unresolved 900).
  eapply rtc_l; [apply (cs_register [entry "a"; entry "b"; entry "a"])|].
  apply rtc_once. apply (cs_resolve "a" AcceptLocal registered).
Defined.
