(* ===== verification/Drift.v ===== *)
(** * Drift evaluation

    crates/pact-agent/src/drift/mod.rs: observer events that no blacklist
    pattern covers count towards the drift of their category. *)

From Stdlib Require Import Ascii.
From S2P Require Import Prelude Float64 Types.
From stdpp Require Import options.

Record ObserverEvent := {
  oe_category : string;
  oe_path : string;
  oe_detail : string;
  oe_timestamp : DateTime;
}.

Definition default_blacklist_patterns : list string :=
  ["/tmp/**"; "/var/log/**"; "/proc/**"; "/sys/**"; "/dev/**"; "/run/user/**"].

Definition drift_vector_default : DriftVector :=
  {| drift_mounts := F64.zero; drift_files := F64.zero; drift_network := F64.zero; drift_services := F64.zero;
     drift_kernel := F64.zero; drift_packages := F64.zero; drift_gpu := F64.zero |}.

Record DriftEvaluator := {
  de_blacklist : list string;
  de_weights : DriftWeights;
  de_current_drift : DriftVector;
}.

Definition drift_new (blacklist : list string) (weights : DriftWeights) : DriftEvaluator :=
  {| de_blacklist := blacklist; de_weights := weights; de_current_drift := drift_vector_default |}.

(** A byte inside a multi-byte UTF-8 character. *)
Definition continuation_byte (a : ascii) : bool := (bool_decide (128 <= N_of_ascii a)%N && bool_decide (N_of_ascii a < 192)%N)%bool.

(** [&s[1..]]: [None] is the panic when there is no first byte or the cut
    falls inside a character. *)
Definition tail_slice (s : string) : option string :=
  match s with
  | EmptyString => None
  | String _ (String b r) => if continuation_byte b then None else Some (String b r)
  | String _ EmptyString => Some EmptyString
  end.

(** [matches_glob]; [None] is a panic. *)
Definition matches_glob (pattern path : string) : option bool :=
  match Str.strip_suffix "/**" pattern with
  | Some prefix => Some (Str.starts_with path prefix)
  | None =>
      match Str.strip_suffix "/*" pattern with
      | Some prefix =>
          match Str.strip_prefix prefix path with
          | None => Some false
          | Some rest => (λ t, negb (Str.contains_char t "/"%char)) <$> tail_slice rest
          end
      | None => Some (bool_decide (pattern = path))
      end
  end.

Fixpoint blacklisted (patterns : list string) (path : string) : option bool :=
  match patterns with
  | [] => Some false
  | p :: rest => b ← matches_glob p path; if (b : bool) then Some true else blacklisted rest path
  end.

Definition is_blacklisted (d : DriftEvaluator) (path : string) : option bool := blacklisted (de_blacklist d) path.

Definition bump (category : string) (v : DriftVector) : DriftVector :=
  let up x := F64.add x F64.one in
  if decide (category = "mount") then
    {| drift_mounts := up (drift_mounts v); drift_files := drift_files v; drift_network := drift_network v; drift_services := drift_services v;
       drift_kernel := drift_kernel v; drift_packages := drift_packages v; drift_gpu := drift_gpu v |}
  else if decide (category = "file") then
    {| drift_mounts := drift_mounts v; drift_files := up (drift_files v); drift_network := drift_network v; drift_services := drift_services v;
       drift_kernel := drift_kernel v; drift_packages := drift_packages v; drift_gpu := drift_gpu v |}
  else if decide (category = "network") then
    {| drift_mounts := drift_mounts v; drift_files := drift_files v; drift_network := up (drift_network v); drift_services := drift_services v;
       drift_kernel := drift_kernel v; drift_packages := drift_packages v; drift_gpu := drift_gpu v |}
  else if decide (category = "service") then
    {| drift_mounts := drift_mounts v; drift_files := drift_files v; drift_network := drift_network v; drift_services := up (drift_services v);
       drift_kernel := drift_kernel v; drift_packages := drift_packages v; drift_gpu := drift_gpu v |}
  else if decide (category = "kernel") then
    {| drift_mounts := drift_mounts v; drift_files := drift_files v; drift_network := drift_network v; drift_services := drift_services v;
       drift_kernel := up (drift_kernel v); drift_packages := drift_packages v; drift_gpu := drift_gpu v |}
  else if decide (category = "package") then
    {| drift_mounts := drift_mounts v; drift_files := drift_files v; drift_network := drift_network v; drift_services := drift_services v;
       drift_kernel := drift_kernel v; drift_packages := up (drift_packages v); drift_gpu := drift_gpu v |}
  else if decide (category = "gpu") then
    {| drift_mounts := drift_mounts v; drift_files := drift_files v; drift_network := drift_network v; drift_services := drift_services v;
       drift_kernel := drift_kernel v; drift_packages := drift_packages v; drift_gpu := up (drift_gpu v) |}
  else v.

Definition set_drift (d : DriftEvaluator) (v : DriftVector) : DriftEvaluator :=
  {| de_blacklist := de_blacklist d; de_weights := de_weights d; de_current_drift := v |}.

(** [process_event]; [None] when the blacklist check panics. *)
Definition process_event (e : ObserverEvent) (d : DriftEvaluator) : option DriftEvaluator :=
  b ← is_blacklisted d (oe_path e);
  Some (if (b : bool) then d else set_drift d (bump (oe_category e) (de_current_drift d))).

Definition drift_magnitude (d : DriftEvaluator) : f64 := magnitude (de_current_drift d) (de_weights d).
Definition drift_reset (d : DriftEvaluator) : DriftEvaluator := set_drift d drift_vector_default.
Definition set_weights (w : DriftWeights) (d : DriftEvaluator) : DriftEvaluator :=
  {| de_blacklist := de_blacklist d; de_weights := w; de_current_drift := de_current_drift d |}.

(** ** Properties *)

Lemma double_star p path : matches_glob (p +:+ "/**") path = Some (Str.starts_with path p).
Proof. unfold matches_glob. by rewrite strip_suffix_append. Qed.

Lemma append_length2 p x y z : p +:+ String x (String y "") = String z "" → False.
Proof. destruct p as [|a [|b p]]; done. Qed.

Lemma single_star_not_double p : Str.strip_suffix "/**" (p +:+ "/*") = None.
Proof.
  induction p as [|a p IH]; [done|]. rewrite strip_suffix_unfold. case_decide as Hd.
  - exfalso. injection Hd as -> Hd. destruct p as [|b p]; [done|].
    injection Hd as -> Hd. by apply append_length2 in Hd.
  - simpl. by rewrite IH.
Qed.

(** What the blacklist patterns mean: a pattern that ends in two stars
    matches every path that starts with its prefix (the slash included or
    not), one that ends in a single star matches direct children of its
    directory, and only those among the paths below it, and any other
    pattern matches itself. *)
Theorem glob_patterns p :
  (∀ path, matches_glob (p +:+ "/**") path = Some (Str.starts_with path p)) ∧
  (∀ c seg, continuation_byte c = false →
     matches_glob (p +:+ "/*") (p +:+ String "/" (String c seg)) = Some (negb (Str.contains_char (String c seg) "/"))) ∧
  (∀ path, Str.strip_suffix "/*" p = None → Str.strip_suffix "/**" p = None →
     matches_glob p path = Some (bool_decide (p = path))).
Proof.
  split_and!.
  - apply double_star.
  - intros c seg Hc. unfold matches_glob. rewrite single_star_not_double, strip_suffix_append.
    assert (Str.strip_prefix p (p +:+ String "/" (String c seg)) = Some (String "/" (String c seg))) as ->
      by by apply strip_prefix_Some.
    simpl tail_slice. by rewrite Hc.
  - intros path H1 H2. unfold matches_glob. by rewrite H2, H1.
Qed.

(** A single-star pattern panics on the directory it names: a change event
    for the path of the directory itself makes the evaluator panic. *)
Theorem single_star_panics p e d rest :
  de_blacklist d = (p +:+ "/*") :: rest → oe_path e = p → process_event e d = None.
Proof.
  intros Hb Hp. unfold process_event, is_blacklisted. rewrite Hb, Hp. cbn [blacklisted].
  unfold matches_glob. rewrite single_star_not_double, strip_suffix_append.
  assert (Str.strip_prefix p p = Some "") as -> by (apply strip_prefix_Some; by rewrite append_nil_r). done.
Qed.

(** With the default blacklist every event is processed: it leaves the drift
    alone when its path lies under a listed prefix, and otherwise counts one
    unit in the dimension of its category. *)
Theorem default_blacklist_filters e d :
  de_blacklist d = default_blacklist_patterns →
  process_event e d =
    Some (if existsb (Str.starts_with (oe_path e)) ["/tmp"; "/var/log"; "/proc"; "/sys"; "/dev"; "/run/user"]
          then d else set_drift d (bump (oe_category e) (de_current_drift d))).
Proof.
  intros Hb. unfold process_event, is_blacklisted. rewrite Hb.
  assert (Hbl : blacklisted default_blacklist_patterns (oe_path e)
    = Some (existsb (Str.starts_with (oe_path e)) ["/tmp"; "/var/log"; "/proc"; "/sys"; "/dev"; "/run/user"])).
  { unfold default_blacklist_patterns. cbn [blacklisted existsb].
    rewrite (double_star "/tmp"), (double_star "/var/log"), (double_star "/proc"), (double_star "/sys"),
      (double_star "/dev"), (double_star "/run/user"). simpl mbind.
    by repeat (case_match; simpl; try done). }
  by rewrite Hbl.
Qed.

(** ** Witnesses *)

Module DriftSample.
Definition event (c p : string) : ObserverEvent :=
  {| oe_category := c; oe_path := p; oe_detail := ""; oe_timestamp := 0 |}.
Definition evaluator (bl : list string) : DriftEvaluator := drift_new bl drift_weights_default.
End DriftSample.
Import DriftSample.

Lemma glob_patterns_witness : matches_glob "/srv/*" "/srv/data" = Some true.
Proof. apply (glob_patterns "/srv"). reflexivity. Defined.

Lemma single_star_panics_witness : process_event (event "file" "/tmp") (evaluator ["/tmp/*"; "/run/**"]) = None.
Proof. apply (single_star_panics "/tmp" _ _ ["/run/**"]); reflexivity. Defined.

Lemma default_blacklist_filters_witness :
  process_event (event "kernel" "/etc/sysctl.conf") (evaluator default_blacklist_patterns) =
    Some (set_drift (evaluator default_blacklist_patterns) (bump "kernel" drift_vector_default)).
Proof. apply (default_blacklist_filters (event "kernel" "/etc/sysctl.conf") (evaluator default_blacklist_patterns)). reflexivity. Defined.
