(* ===== verification/UidMap.v ===== *)
(** * Identity mapping from OIDC subjects to POSIX users

    [UidMap] of crates/pact-common/src/types.rs: every federated organisation
    owns a range of user and group ids of [stride] numbers; subjects get the
    next free number of their organisation's range. The ids are [u32]; sums
    and products wrap as they do in a release build. *)

From S2P Require Import Prelude.
From stdpp Require Import options.

Record UidEntry := {
  ue_subject : string;
  ue_uid : N;
  ue_gid : N;
  ue_username : string;
  ue_home : string;
  ue_shell : string;
  ue_org : string;
}.
Record GroupEntry := { ge_name : string; ge_gid : N; ge_members : list string }.
Record OrgIndex := { oi_org : string; oi_index : N }.

Record UidMap := {
  um_users : gmap string UidEntry;
  um_groups : gmap string GroupEntry;
  um_org_indices : list OrgIndex;
  um_base_uid : N;
  um_base_gid : N;
  um_stride : N;
  um_next_uid_offset : gmap string N;
}.

(** The errors of crates/pact-common/src/error.rs that the map raises. *)
Inductive UidError :=
| OrgNotRegistered (org : string)
| UidRangeExhausted (org : string) (stride assigned : N).

Definition uid_map_new : UidMap :=
  {| um_users := ∅; um_groups := ∅; um_org_indices := []; um_base_uid := 10000; um_base_gid := 10000;
     um_stride := 10000; um_next_uid_offset := ∅ |}.

Definition uid_precursor (m : UidMap) (org_index : N) : N :=
  wrap_u32 (um_base_uid m + wrap_u32 (org_index * um_stride m)).
Definition gid_precursor (m : UidMap) (org_index : N) : N :=
  wrap_u32 (um_base_gid m + wrap_u32 (org_index * um_stride m)).

Definition org_index (m : UidMap) (org : string) : option N :=
  (λ p, oi_index p.2) <$> list_find (λ o, oi_org o = org) (um_org_indices m).

Definition assign_uid (subject username org home shell : string) (m : UidMap) : UidMap * result UidEntry UidError :=
  match um_users m !! subject with
  | Some existing => (m, Ok existing)
  | None =>
      match org_index m org with
      | None => (m, Err (OrgNotRegistered org))
      | Some idx =>
          let offset := default 0%N (um_next_uid_offset m !! org) in
          if (um_stride m <=? offset)%N then (m, Err (UidRangeExhausted org (um_stride m) offset))
          else
            let entry := {| ue_subject := subject; ue_uid := wrap_u32 (uid_precursor m idx + offset);
                            ue_gid := wrap_u32 (gid_precursor m idx + offset); ue_username := username;
                            ue_home := home; ue_shell := shell; ue_org := org |} in
            ({| um_users := <[subject := entry]> (um_users m); um_groups := um_groups m;
                um_org_indices := um_org_indices m; um_base_uid := um_base_uid m; um_base_gid := um_base_gid m;
                um_stride := um_stride m;
                um_next_uid_offset := <[org := wrap_u32 (offset + 1)]> (um_next_uid_offset m) |}, Ok entry)
      end
  end.

(** [gc_org], in the order of the source: the users first, then the members
    of the groups against the users that are left. *)
Definition gc_org (org : string) (m : UidMap) : UidMap :=
  let users := filter (λ kv, ue_org kv.2 ≠ org) (um_users m) in
  let leaves mem := existsb (λ u, bool_decide (ue_username u = mem ∧ ue_org u = org)) (hash_values users) in
  {| um_users := users;
     um_groups := (λ g, {| ge_name := ge_name g; ge_gid := ge_gid g;
                           ge_members := filter (λ mem, leaves mem = false) (ge_members g) |}) <$> um_groups m;
     um_org_indices := filter (λ o, oi_org o ≠ org) (um_org_indices m);
     um_base_uid := um_base_uid m; um_base_gid := um_base_gid m; um_stride := um_stride m;
     um_next_uid_offset := delete org (um_next_uid_offset m) |}.

Definition get_by_uid (m : UidMap) (uid : N) : option UidEntry :=
  snd <$> list_find (λ e, ue_uid e = uid) (hash_values (um_users m)).

Definition get_by_username (m : UidMap) (username : string) : option UidEntry :=
  snd <$> list_find (λ e, ue_username e = username) (hash_values (um_users m)).

(** ** The invariant *)

(** Organisations have distinct names and indices, and their ranges fit. *)
Record orgs_ok (m : UidMap) : Prop := {
  oo_names : NoDup (oi_org <$> um_org_indices m);
  oo_indices : NoDup (oi_index <$> um_org_indices m);
  oo_fits : ∀ o, o ∈ um_org_indices m →
    (um_base_uid m + (oi_index o + 1) * um_stride m <= 2 ^ 32)%N ∧
    (um_base_gid m + (oi_index o + 1) * um_stride m <= 2 ^ 32)%N;
  oo_stride : (um_stride m < 2 ^ 32)%N;
}.

(** An assigned entry: its number is an offset below the organisation's
    counter, in the organisation's range. *)
Definition assigned (m : UidMap) (k : string) (e : UidEntry) (idx off : N) : Prop :=
  ue_subject e = k ∧ org_index m (ue_org e) = Some idx ∧
  (off < default 0 (um_next_uid_offset m !! ue_org e))%N ∧ (off < um_stride m)%N ∧
  ue_uid e = (um_base_uid m + idx * um_stride m + off)%N ∧
  ue_gid e = (um_base_gid m + idx * um_stride m + off)%N.

Record uid_map_ok (m : UidMap) : Prop := {
  uo_orgs : orgs_ok m;
  uo_users : ∀ k e, um_users m !! k = Some e → ∃ idx off, assigned m k e idx off;
  uo_distinct : ∀ k1 k2 e1 e2, um_users m !! k1 = Some e1 → um_users m !! k2 = Some e2 →
    ue_uid e1 = ue_uid e2 → k1 = k2;
  uo_counter : ∀ org n, um_next_uid_offset m !! org = Some n → (n <= um_stride m)%N;
}.

Lemma org_index_Some m org idx :
  org_index m org = Some idx → ∃ o, o ∈ um_org_indices m ∧ oi_org o = org ∧ oi_index o = idx.
Proof.
  unfold org_index. destruct (list_find _ _) as [[i o]|] eqn:E; [|done]. simpl. intros [= <-].
  apply list_find_Some in E as (Hl & Ho & _). exists o. split; [by eapply list_elem_of_lookup_2|done].
Qed.

Lemma NoDup_fmap_inj {A B} (f : A → B) l x y : NoDup (f <$> l) → x ∈ l → y ∈ l → f x = f y → x = y.
Proof.
  intros Hn Hx Hy Hf. apply list_elem_of_lookup in Hx as [i Hi]. apply list_elem_of_lookup in Hy as [j Hj].
  assert (i = j) as ->; [|congruence].
  eapply NoDup_lookup; [exact Hn|by rewrite list_lookup_fmap, Hi|by rewrite list_lookup_fmap, Hj, Hf].
Qed.

(** Two organisations with the same index are the same. *)
Lemma org_index_inj m org1 org2 idx :
  orgs_ok m → org_index m org1 = Some idx → org_index m org2 = Some idx → org1 = org2.
Proof.
  intros [_ Hn _ _] (o1 & H1 & <- & Hi1)%org_index_Some (o2 & H2 & <- & Hi2)%org_index_Some. f_equal.
  eapply NoDup_fmap_inj; [exact Hn|done|done|congruence].
Qed.

(** The ids of a range do not wrap. *)
Lemma precursor_exact m idx org off :
  orgs_ok m → org_index m org = Some idx → (off < um_stride m)%N →
  wrap_u32 (uid_precursor m idx + off) = (um_base_uid m + idx * um_stride m + off)%N ∧
  wrap_u32 (gid_precursor m idx + off) = (um_base_gid m + idx * um_stride m + off)%N.
Proof.
  intros [_ _ Hf _] (o & Ho & _ & <-)%org_index_Some Hoff. destruct (Hf o Ho) as [Hu Hg].
  unfold uid_precursor, gid_precursor, wrap_u32. change 4294967296%N with (2 ^ 32)%N.
  rewrite !(N.mod_small (oi_index o * um_stride m)) by nia. rewrite !(N.mod_small (_ + oi_index o * _)) by nia.
  split; apply N.mod_small; nia.
Qed.

(** A number of a range determines the organisation and the offset. *)
Lemma range_inj base stride i1 i2 o1 o2 :
  (o1 < stride)%N → (o2 < stride)%N → (base + i1 * stride + o1 = base + i2 * stride + o2)%N → i1 = i2 ∧ o1 = o2.
Proof. intros H1 H2 Heq. assert (i1 = i2) by nia. subst. lia. Qed.

Lemma assign_uid_cases subject username org home shell m :
  (∃ e, um_users m !! subject = Some e ∧ assign_uid subject username org home shell m = (m, Ok e)) ∨
  (∃ err, um_users m !! subject = None ∧ assign_uid subject username org home shell m = (m, Err err)) ∨
  (∃ idx, let offset := default 0%N (um_next_uid_offset m !! org) in
   um_users m !! subject = None ∧ org_index m org = Some idx ∧ (offset < um_stride m)%N ∧
   let entry := {| ue_subject := subject; ue_uid := wrap_u32 (uid_precursor m idx + offset);
                   ue_gid := wrap_u32 (gid_precursor m idx + offset); ue_username := username;
                   ue_home := home; ue_shell := shell; ue_org := org |} in
   assign_uid subject username org home shell m =
     ({| um_users := <[subject := entry]> (um_users m); um_groups := um_groups m;
         um_org_indices := um_org_indices m; um_base_uid := um_base_uid m; um_base_gid := um_base_gid m;
         um_stride := um_stride m;
         um_next_uid_offset := <[org := wrap_u32 (offset + 1)]> (um_next_uid_offset m) |}, Ok entry)).
Proof.
  unfold assign_uid. destruct (um_users m !! subject) as [e|]; [left; eauto|].
  destruct (org_index m org) as [idx|]; [|right; left; eauto].
  destruct (N.leb_spec (um_stride m) (default 0%N (um_next_uid_offset m !! org))); [right; left; eauto|].
  right. right. exists idx. by split_and!.
Qed.

Lemma assign_uid_ok subject username org home shell m :
  uid_map_ok m → uid_map_ok (assign_uid subject username org home shell m).1.
Proof.
  intros [Ho Hu Hd Hc].
  destruct (assign_uid_cases subject username org home shell m)
    as [(e & _ & ->)|[(err & _ & ->)|(idx & Hnew & Hidx & Hoff & ->)]]; [done|done|]. simpl.
  set (offset := default 0%N (um_next_uid_offset m !! org)) in *.
  destruct (precursor_exact m idx org offset Ho Hidx Hoff) as [Huid Hgid]. rewrite Huid, Hgid.
  assert (Hwrap : wrap_u32 (offset + 1) = (offset + 1)%N).
  { apply N.mod_small. change 4294967296%N with (2 ^ 32)%N. pose proof (oo_stride _ Ho). lia. }
  rewrite Hwrap. set (m' := {| um_users := _ |}).
  assert (Hmono : ∀ k e i o, assigned m k e i o → assigned m' k e i o).
  { intros k e i o (H1 & H2 & H3 & H4). split_and!; [done|done| |tauto..]. simpl. rewrite lookup_insert.
    case_decide as Heq; [|done]. simpl. rewrite <- Heq in H3. fold offset in H3. lia. }
  assert (Hfresh : ∀ k e, um_users m !! k = Some e → ue_uid e ≠ (um_base_uid m + idx * um_stride m + offset)%N).
  { intros k e He Heq. destruct (Hu k e He) as (i & o & _ & Hi & Ho1 & Ho2 & Hval & _). rewrite Hval in Heq.
    apply range_inj in Heq as [-> ->]; [|done|done].
    assert (ue_org e = org) as Horg by (eapply org_index_inj; eauto). rewrite Horg in Ho1. fold offset in Ho1. lia. }
  split.
  - destruct Ho. by split.
  - intros k e. simpl. rewrite lookup_insert. case_decide as Heq.
    + intros [= <-]. exists idx, offset. subst k. split_and!; simpl; try done. rewrite lookup_insert_eq. simpl. lia.
    + intros He. destruct (Hu k e He) as (i & o & Ha). eauto.
  - intros k1 k2 e1 e2. simpl. rewrite !lookup_insert. repeat case_decide; subst; intros H1 H2 Heq; simplify_eq/=; try done.
    + by destruct (Hfresh _ _ H2).
    + by destruct (Hfresh _ _ H1).
    + by eapply Hd.
  - intros org' n. simpl. rewrite lookup_insert. case_decide; [|apply Hc]. intros [= <-]. lia.
Qed.

(** Removing an organisation keeps the index of every other one. *)
Lemma org_index_gc org org' m : org' ≠ org → org_index (gc_org org m) org' = org_index m org'.
Proof.
  intros Hne. unfold org_index. simpl. induction (um_org_indices m) as [|o l IH]; [done|].
  rewrite filter_cons. case_decide as Ho; simpl.
  - case_decide; [done|]. destruct (list_find _ (filter _ l)) as [[]|], (list_find _ l) as [[]|]; simpl in *; congruence.
  - rewrite decide_False by congruence. rewrite IH.
    by destruct (list_find _ l) as [[]|].
Qed.

Lemma gc_org_ok org m : uid_map_ok m → uid_map_ok (gc_org org m).
Proof.
  intros [[Hn Hi Hf Hs] Hu Hd Hc].
  assert (Hsub : um_org_indices (gc_org org m) `sublist_of` um_org_indices m) by apply sublist_filter.
  split; [split|..]; simpl.
  - eapply sublist_NoDup; [done|by apply fmap_sublist].
  - eapply sublist_NoDup; [done|by apply fmap_sublist].
  - intros o [_ Ho]%list_elem_of_filter. by apply Hf.
  - done.
  - intros k e [He Horg]%map_lookup_filter_Some. simpl in Horg. destruct (Hu k e He) as (i & o & H1 & H2 & H3 & H4).
    exists i, o. split_and!; [done|by rewrite org_index_gc| |tauto..]. simpl. by rewrite lookup_delete_ne.
  - intros k1 k2 e1 e2 [H1 _]%map_lookup_filter_Some [H2 _]%map_lookup_filter_Some. by eapply Hd.
  - intros org' n [_ Hl]%lookup_delete_Some. by eapply Hc.
Qed.

(** A sequence of assignments and departures. *)
Inductive uid_step : UidMap → UidMap → Prop :=
| us_assign subject username org home shell m : uid_step m (assign_uid subject username org home shell m).1
| us_gc org m : uid_step m (gc_org org m).

Lemma uid_reachable_ok m0 m : um_users m0 = ∅ → um_next_uid_offset m0 = ∅ → orgs_ok m0 → rtc uid_step m0 m → uid_map_ok m.
Proof.
  intros Hu Hc Ho Hr. assert (uid_map_ok m0) as Hok.
  { split; [done|..].
    - intros k e. by rewrite Hu.
    - intros k1 k2 e1 e2. by rewrite Hu.
    - intros org n. by rewrite Hc. }
  clear Hu Hc Ho. induction Hr as [|x y z Hs _ IH]; [done|]. apply IH.
  destruct Hs; [by apply assign_uid_ok|by apply gc_org_ok].
Qed.

(** C24: POSIX ids are unique and stay in their organisation's range: starting
    from a map whose organisations have distinct indices and ranges within 32
    bits, after any assignments and departures no two subjects share a user
    id, and each user's id is an offset below [stride] from the precursor of
    its own organisation. *)
Theorem uids_unique_in_range m0 m k e :
  um_users m0 = ∅ → um_next_uid_offset m0 = ∅ → orgs_ok m0 → rtc uid_step m0 m → um_users m !! k = Some e →
  (∀ k' e', um_users m !! k' = Some e' → ue_uid e' = ue_uid e → k' = k) ∧
  ∃ idx off, org_index m (ue_org e) = Some idx ∧ (off < um_stride m)%N ∧
    ue_uid e = (um_base_uid m + idx * um_stride m + off)%N ∧ ue_gid e = (um_base_gid m + idx * um_stride m + off)%N.
Proof.
  intros Hu Hc Ho Hr He. destruct (uid_reachable_ok m0 m Hu Hc Ho Hr) as [_ Hus Hd _]. split.
  - intros k' e' He' Heq. by eapply Hd.
  - destruct (Hus k e He) as (i & o & H1 & H2 & H3 & H4 & H5 & H6). eauto 10.
Qed.

(** Assignment: a subject that has an id keeps it, whatever it asks for; a
    new subject gets the next offset of its organisation, or is refused
    exactly when the organisation is unknown or its range is used up, and a
    refusal changes nothing. *)
Theorem assign_uid_spec subject username org home shell m :
  let '(m', r) := assign_uid subject username org home shell m in
  (∀ e, um_users m !! subject = Some e → m' = m ∧ r = Ok e) ∧
  (∀ err, r = Err err ↔ um_users m !! subject = None ∧
     ((org_index m org = None ∧ err = OrgNotRegistered org) ∨
      (is_Some (org_index m org) ∧ (um_stride m <= default 0 (um_next_uid_offset m !! org))%N ∧
       err = UidRangeExhausted org (um_stride m) (default 0%N (um_next_uid_offset m !! org))))) ∧
  (∀ err, r = Err err → m' = m) ∧
  (∀ e, r = Ok e → um_users m' !! subject = Some e ∧ um_users m ⊆ um_users m').
Proof.
  unfold assign_uid. destruct (um_users m !! subject) as [e0|] eqn:Hs.
  { split_and!; try naive_solver. }
  destruct (org_index m org) as [idx|] eqn:Hidx; last first.
  { split_and!; naive_solver. }
  destruct (N.leb_spec (um_stride m) (default 0%N (um_next_uid_offset m !! org))) as [Hle|Hlt].
  - split_and!; naive_solver.
  - split_and!; try naive_solver.
    + intros err. split; [done|]. intros [_ [[? _]|(_ & ? & _)]]; [done|lia].
    + intros e [= <-]. simpl. split; [apply lookup_insert_eq|by apply insert_subseteq].
Qed.

(** When an organisation departs its users disappear, but their names stay
    in every group: the clean-up looks for the members among the users that
    remain, and finds none of the departed ones. *)
Theorem departed_members_stay org m :
  (∀ k e, um_users (gc_org org m) !! k = Some e ↔ um_users m !! k = Some e ∧ ue_org e ≠ org) ∧
  um_groups (gc_org org m) = um_groups m.
Proof.
  split; [intros k e; apply map_lookup_filter_Some|]. unfold gc_org. cbn [um_groups].
  apply map_eq. intros k. rewrite lookup_fmap. destruct (um_groups m !! k) as [[nm gid mems]|]; [|done]. simpl.
  do 2 f_equal. apply filter_all, Forall_forall. intros mem _. apply not_true_is_false.
  intros (u & Hu & [_ Horg]%bool_decide_eq_true)%existsb_exists. apply list_elem_of_In, elem_of_hash_values in Hu as [k' Hk'].
  by apply map_lookup_filter_Some in Hk' as [_ Hne].
Qed.

(** ** Witnesses *)

Module UidSample.
Definition start : UidMap :=
  {| um_users := ∅; um_groups := ∅;
     um_org_indices := [{| oi_org := "local"; oi_index := 0 |}; {| oi_org := "cscs"; oi_index := 1 |}];
     um_base_uid := 10000; um_base_gid := 10000; um_stride := 10000; um_next_uid_offset := ∅ |}.
Definition one : UidMap := (assign_uid "a@cscs" "a" "cscs" "/home/a" "/bin/sh" start).1.
Definition two : UidMap := (assign_uid "b@local" "b" "local" "/home/b" "/bin/sh" one).1.
Definition a : UidEntry :=
  {| ue_subject := "a@cscs"; ue_uid := 20000; ue_gid := 20000; ue_username := "a"; ue_home := "/home/a";
     ue_shell := "/bin/sh"; ue_org := "cscs" |}.
Lemma start_ok : orgs_ok start.
Proof.
  split; [|..|done].
  - repeat constructor; set_solver.
  - repeat constructor; set_solver.
  - intros o Ho. repeat (apply elem_of_cons in Ho as [->|Ho]; [split; vm_compute; discriminate|]).
    by apply not_elem_of_nil in Ho.
Qed.
End UidSample.
Import UidSample.

Lemma uids_unique_in_range_witness :
  um_users two !! "a@cscs" = Some a ∧
  (∀ k' e', um_users two !! k' = Some e' → ue_uid e' = 20000%N → k' = "a@cscs").
Proof.
  split; [vm_compute; reflexivity|].
  apply (uids_unique_in_range start two "a@cscs" a); [reflexivity|reflexivity|apply start_ok| |vm_compute; reflexivity].
  eapply rtc_l; [apply (us_assign "a@cscs" "a" "cscs" "/home/a" "/bin/sh")|].
  apply rtc_once. apply (us_assign "b@local" "b" "local" "/home/b" "/bin/sh" one).
Defined.
