(* ===== verification/Supervisor.v ===== *)
(** * Process supervisor

    [PactSupervisor] of crates/pact-agent/src/supervisor/pact_supervisor.rs:
    start, stop, restart, status and health of declared services, ordered
    start and stop of all of them, and one iteration of the supervision loop.
    Processes (tokio) and cgroup scopes (hpc-node) are outside the program:
    they are the operations of the class [ProcessApi] on an outside world
    [W], and what the theorems need to know about them is the class
    [ProcessLaws]. Each definition that holds the lock of the process table
    throughout is one step; [do_restart] and [restart] release it in between
    and are compositions of such steps. *)

From S2P Require Import Prelude Text Types.
From stdpp Require Import options.

(** [io_max] is always [None]. *)
Record ResourceLimits := { memory_max : option N; cpu_weight : option N }.

(** Result of waiting for a child within the grace period. *)
Inductive WaitOutcome := Exited (code : option Z) | WaitFailed | GraceExpired.

(** A child process is named by a number of its own, a scope by its path. *)
Class ProcessApi (W : Type) := {
  spawn : string → list string → W → W * result N string;
  (* [Child::id] of a child that was just spawned *)
  child_id : N → N;
  sigterm : N → W → W;
  (* [try_wait().ok().flatten()], with the exit status as its code *)
  try_wait : N → W → W * option (option Z);
  (* [timeout(grace, child.wait())] *)
  wait_within : N → N → W → W * WaitOutcome;
  (* [child.kill()], which waits for the child to be gone *)
  kill : N → W → W * result unit string;
  create_scope : string → string → ResourceLimits → W → W * result string string;
  destroy_scope : string → W → W * result unit string;
  slice_pact_infra : string;
  (* [reqwest::get]: whether the status is a success, and its text *)
  http_get : string → W → W * result (bool * string) string;
  tcp_connect : string → W → W * result unit string;
}.

Record ProcessState := {
  ps_state : ServiceState;
  ps_pid : option N;
  ps_restarts : N;
  ps_last_exit_code : option Z;
  ps_child : option N;
  ps_cgroup_handle : option string;
}.

Record PactSupervisor := {
  processes : gmap string ProcessState;
  service_decls : list ServiceDecl;
  shutdown_grace_seconds : N;
  (* whether a cgroup manager is configured *)
  cgroup_manager : bool;
}.

Definition supervisor_new : PactSupervisor :=
  {| processes := ∅; service_decls := []; shutdown_grace_seconds := 10; cgroup_manager := false |}.
Definition with_processes (s : PactSupervisor) (p : gmap string ProcessState) : PactSupervisor :=
  {| processes := p; service_decls := service_decls s; shutdown_grace_seconds := shutdown_grace_seconds s;
     cgroup_manager := cgroup_manager s |}.
Definition with_decls (s : PactSupervisor) (d : list ServiceDecl) : PactSupervisor :=
  {| processes := processes s; service_decls := d; shutdown_grace_seconds := shutdown_grace_seconds s;
     cgroup_manager := cgroup_manager s |}.

(** "512M", "1G", "1048576" in bytes; the product wraps. *)
Definition parse_memory_value (text : string) : option N :=
  let s := Str.trim text in
  if Str.is_empty s then None
  else
    let suffix u l := match Str.strip_suffix u s with Some n => Some n | None => Str.strip_suffix l s end in
    let '(num, multiplier) :=
      match suffix "G" "g" with
      | Some n => (n, 1073741824%N)
      | None => match suffix "M" "m" with
                | Some n => (n, 1048576%N)
                | None => match suffix "K" "k" with Some n => (n, 1024%N) | None => (s, 1%N) end
                end
      end in
    (λ v, wrap_u64 (v * multiplier)) <$> Str.parse_unsigned u64_max (Str.trim num).

Definition resource_limits (service : ServiceDecl) : ResourceLimits :=
  {| memory_max := svc_cgroup_memory_max service ≫= parse_memory_value;
     cpu_weight := svc_cgroup_cpu_weight service |}.

(** [sort_by_key] is a stable sort. *)
Definition order_le (a b : ServiceDecl) : Prop := (svc_order a <= svc_order b)%N.
#[export] Instance order_le_dec : RelDecision order_le.
Proof. intros a b. unfold order_le. apply _. Defined.

Definition sorted_services (services : list ServiceDecl) : list ServiceDecl :=
  sort_by order_le services.

(** What [RestartPolicy] demands after an exit. *)
Definition should_restart (p : RestartPolicy) (exit_code : option Z) : bool :=
  match p with
  | Always => true
  | OnFailure => match exit_code with None => true | Some c => bool_decide (c ≠ 0%Z) end
  | Never => false
  end.

(** The varying content of the audit event of a crash. *)
Record CrashEvent := { ce_service : string; ce_exit_code : option Z; ce_will_restart : bool }.

Record ServiceStatus := {
  st_name : string;
  st_state : ServiceState;
  st_pid : option N;
  st_restarts : N;
  st_last_exit_code : option Z;
}.
Record HealthCheckResult := { healthy : bool; hc_detail : string }.

Record SupervisionConfig := { idle_interval_ms : N; active_interval_ms : N }.
Definition supervision_config_default : SupervisionConfig := {| idle_interval_ms := 500; active_interval_ms := 2000 |}.

Section operations.
Context {W : Type} `{!ProcessApi W}.

Definition cgroup_slice (service : ServiceDecl) : string := default slice_pact_infra (svc_cgroup_slice service).

Definition spawn_process (service : ServiceDecl) (w : W) : W * result N string :=
  spawn (svc_binary service) (svc_args service) w.

(** Creation of the scope of a service: a failure is logged and the service
    runs without isolation. *)
Definition new_scope (s : PactSupervisor) (service : ServiceDecl) (w : W) : W * option string :=
  if cgroup_manager s
  then match create_scope (cgroup_slice service) (svc_name service) (resource_limits service) w with
       | (w', Ok handle) => (w', Some handle)
       | (w', Err _) => (w', None)
       end
  else (w, None).

(** Destruction of a scope, if there is one; a failure is logged. *)
Definition drop_scope (s : PactSupervisor) (handle : option string) (w : W) : W :=
  match handle with
  | Some h => if cgroup_manager s then (destroy_scope h w).1 else w
  | None => w
  end.

Definition start (service : ServiceDecl) (s : PactSupervisor) (w : W) : PactSupervisor * W * result unit string :=
  let running := match processes s !! svc_name service with
                 | Some ps => bool_decide (ps_state ps = Running)
                 | None => false
                 end in
  if running then (s, w, Ok tt)
  else
    let prev_restarts := match processes s !! svc_name service with Some p => ps_restarts p | None => 0%N end in
    let '(w1, handle) := new_scope s service w in
    match spawn_process service w1 with
    | (w2, Ok child) =>
        (with_processes s (<[svc_name service :=
            {| ps_state := Running; ps_pid := Some (child_id child); ps_restarts := prev_restarts; ps_last_exit_code := None;
               ps_child := Some child; ps_cgroup_handle := handle |}]> (processes s)), w2, Ok tt)
    | (w2, Err e) => (s, drop_scope s handle w2, Err e)
    end.

(** SIGTERM, the grace period, SIGKILL; the exit code, if one was collected. *)
Definition stop_child (grace : N) (child : N) (w : W) : W * option (option Z) :=
  match wait_within grace child (sigterm child w) with
  | (w', Exited code) => (w', Some code)
  | (w', WaitFailed) => (w', None)
  | (w', GraceExpired) => ((kill child w').1, None)
  end.

Definition stop (service : ServiceDecl) (s : PactSupervisor) (w : W) : PactSupervisor * W * result unit string :=
  match processes s !! svc_name service with
  | Some ps =>
      if bool_decide (ps_state ps = Running) then
        let '(w1, code) := match ps_child ps with
                           | Some child => stop_child (shutdown_grace_seconds s) child w
                           | None => (w, None)
                           end in
        let w2 := drop_scope s (ps_cgroup_handle ps) w1 in
        (with_processes s (<[svc_name service :=
            {| ps_state := Stopped; ps_pid := None; ps_restarts := ps_restarts ps;
               ps_last_exit_code := default (ps_last_exit_code ps) code; ps_child := None;
               ps_cgroup_handle := None |}]> (processes s)), w2, Ok tt)
      else (s, w, Ok tt)
  | None => (s, w, Ok tt)
  end.

(** The counter and state change between the two halves of [restart]. *)
Definition mark_restarting (service : ServiceDecl) (s : PactSupervisor) : PactSupervisor :=
  match processes s !! svc_name service with
  | Some ps =>
      with_processes s (<[svc_name service :=
        {| ps_state := Restarting; ps_pid := ps_pid ps; ps_restarts := wrap_u32 (ps_restarts ps + 1);
           ps_last_exit_code := ps_last_exit_code ps; ps_child := ps_child ps;
           ps_cgroup_handle := ps_cgroup_handle ps |}]> (processes s))
  | None => s
  end.

Definition restart (service : ServiceDecl) (s : PactSupervisor) (w : W) : PactSupervisor * W * result unit string :=
  match stop service s w with
  | (s1, w1, Ok _) => start service (mark_restarting service s1) w1
  | (s1, w1, Err e) => (s1, w1, Err e)
  end.

(** A process found dead: the child is forgotten and the entry fails. *)
Definition failed_entry (ps : ProcessState) (code : option Z) (restarts : N) : ProcessState :=
  {| ps_state := Failed; ps_pid := None; ps_restarts := restarts; ps_last_exit_code := code;
     ps_child := None; ps_cgroup_handle := ps_cgroup_handle ps |}.

Definition status (service : ServiceDecl) (s : PactSupervisor) (w : W) : PactSupervisor * W * ServiceStatus :=
  let report ps := {| st_name := svc_name service; st_state := ps_state ps; st_pid := ps_pid ps;
                      st_restarts := ps_restarts ps; st_last_exit_code := ps_last_exit_code ps |} in
  match processes s !! svc_name service with
  | Some ps =>
      if bool_decide (ps_state ps = Running) then
        let '(w1, exited) := match ps_child ps with Some child => try_wait child w | None => (w, None) end in
        match exited with
        | Some code =>
            let ps' := failed_entry ps code (ps_restarts ps) in
            (with_processes s (<[svc_name service := ps']> (processes s)), w1, report ps')
        | None => (s, w1, report ps)
        end
      else (s, w, report ps)
  | None => (s, w, {| st_name := svc_name service; st_state := Stopped; st_pid := None; st_restarts := 0;
                      st_last_exit_code := None |})
  end.

Definition health (service : ServiceDecl) (s : PactSupervisor) (w : W) : PactSupervisor * W * HealthCheckResult :=
  let '(s1, w1, st) := status service s w in
  if bool_decide (st_state st ≠ Running)
  then (s1, w1, {| healthy := false; hc_detail := "service is " +:+ debug_service_state (st_state st) |})
  else match check_type <$> svc_health_check service with
       | Some Process | None => (s1, w1, {| healthy := true; hc_detail := "process alive" |})
       | Some (Http url) =>
           match http_get url w1 with
           | (w2, Ok (true, text)) => (s1, w2, {| healthy := true; hc_detail := "HTTP " +:+ text |})
           | (w2, Ok (false, text)) => (s1, w2, {| healthy := false; hc_detail := "HTTP " +:+ text |})
           | (w2, Err e) => (s1, w2, {| healthy := false; hc_detail := "HTTP check failed: " +:+ e |})
           end
       | Some (Tcp port) =>
           match tcp_connect ("127.0.0.1:" +:+ pretty port) w1 with
           | (w2, Ok _) => (s1, w2, {| healthy := true; hc_detail := "TCP port " +:+ pretty port +:+ " open" |})
           | (w2, Err e) =>
               (s1, w2, {| healthy := false; hc_detail := "TCP port " +:+ pretty port +:+ " closed: " +:+ e |})
           end
       end.

(** The first failure ends the start-up. *)
Fixpoint start_each (l : list ServiceDecl) (s : PactSupervisor) (w : W) : PactSupervisor * W * result unit string :=
  match l with
  | [] => (s, w, Ok tt)
  | d :: l' => match start d s w with
               | (s1, w1, Ok _) => start_each l' s1 w1
               | (s1, w1, Err e) => (s1, w1, Err e)
               end
  end.
Definition start_all (services : list ServiceDecl) (s : PactSupervisor) (w : W)
    : PactSupervisor * W * result unit string :=
  start_each (sorted_services services) (with_decls s services) w.

(** Failures are logged and the other services are stopped. *)
Fixpoint stop_each (l : list ServiceDecl) (s : PactSupervisor) (w : W) : PactSupervisor * W :=
  match l with
  | [] => (s, w)
  | d :: l' => let '(s1, w1, _) := stop d s w in stop_each l' s1 w1
  end.
Definition stop_all (services : list ServiceDecl) (s : PactSupervisor) (w : W) : PactSupervisor * W :=
  stop_each (reverse (sorted_services services)) s w.

(** The body of the loop of [detect_crashed_services] for one entry. *)
Definition detect_one (name : string) (acc : PactSupervisor * W * list (string * option Z))
    : PactSupervisor * W * list (string * option Z) :=
  let '(s, w, crashed) := acc in
  match processes s !! name with
  | Some ps =>
      if bool_decide (ps_state ps = Running) then
        match ps_child ps with
        | Some child =>
            match try_wait child w with
            | (w1, Some code) =>
                (with_processes s (<[name := failed_entry ps code (wrap_u32 (ps_restarts ps + 1))]> (processes s)),
                 w1, crashed ++ [(name, code)])
            | (w1, None) => (s, w1, crashed)
            end
        | None => acc
        end
      else acc
  | None => acc
  end.
Definition detect_crashed_services (s : PactSupervisor) (w : W) : PactSupervisor * W * list (string * option Z) :=
  foldl (λ acc name, detect_one name acc) (s, w, []) (map_to_list (processes s)).*1.

(** The four steps of [do_restart]. *)
Definition restart_drop_scope (service : ServiceDecl) (s : PactSupervisor) (w : W) : PactSupervisor * W :=
  match processes s !! svc_name service with
  | Some ps =>
      (with_processes s (<[svc_name service :=
         {| ps_state := ps_state ps; ps_pid := ps_pid ps; ps_restarts := ps_restarts ps;
            ps_last_exit_code := ps_last_exit_code ps; ps_child := ps_child ps; ps_cgroup_handle := None |}]>
         (processes s)), drop_scope s (ps_cgroup_handle ps) w)
  | None => (s, w)
  end.
Definition restart_install (service : ServiceDecl) (child : N) (handle : option string) (s : PactSupervisor)
    : PactSupervisor :=
  with_processes s (<[svc_name service :=
    match processes s !! svc_name service with
    | Some ps => {| ps_state := Running; ps_pid := Some (child_id child); ps_restarts := ps_restarts ps;
                    ps_last_exit_code := ps_last_exit_code ps; ps_child := Some child; ps_cgroup_handle := handle |}
    | None => {| ps_state := Running; ps_pid := Some (child_id child); ps_restarts := 1; ps_last_exit_code := None;
                 ps_child := Some child; ps_cgroup_handle := handle |}
    end]> (processes s)).
Definition do_restart (service : ServiceDecl) (s : PactSupervisor) (w : W)
    : PactSupervisor * W * result unit string :=
  let '(s1, w1) := restart_drop_scope service s w in
  let '(w2, handle) := new_scope s1 service w1 in
  match spawn_process service w2 with
  | (w3, Ok child) => (restart_install service child handle s1, w3, Ok tt)
  | (w3, Err e) => (s1, w3, Err e)
  end.

Definition mark_stopped (name : string) (s : PactSupervisor) : PactSupervisor :=
  match processes s !! name with
  | Some ps =>
      with_processes s (<[name :=
        {| ps_state := Stopped; ps_pid := ps_pid ps; ps_restarts := ps_restarts ps;
           ps_last_exit_code := ps_last_exit_code ps; ps_child := ps_child ps;
           ps_cgroup_handle := ps_cgroup_handle ps |}]> (processes s))
  | None => s
  end.

(** The loop's treatment of one crashed service. *)
Definition handle_crash (acc : PactSupervisor * W * list CrashEvent) (c : string * option Z)
    : PactSupervisor * W * list CrashEvent :=
  let '(s, w, events) := acc in
  let '(name, code) := c in
  match list_find (λ d, svc_name d = name) (service_decls s) with
  | Some (_, decl) =>
      let again := should_restart (svc_restart decl) code in
      let events' := events ++ [{| ce_service := name; ce_exit_code := code; ce_will_restart := again |}] in
      if again then let '(s1, w1, _) := do_restart decl s w in (s1, w1, events')
      else (if bool_decide (svc_restart decl = Never) then mark_stopped name s else s, w, events')
  | None => (s, w, events)
  end.

(** One iteration of the supervision loop up to its sleep; [pet] is the
    watchdog callback. Returns the emitted events and the sleep. *)
Definition supervision_tick (config : SupervisionConfig) (pet : option (W → W)) (workload_active : bool)
    (s : PactSupervisor) (w : W) : PactSupervisor * W * (list CrashEvent * N) :=
  let interval := if workload_active then active_interval_ms config else idle_interval_ms config in
  let w0 := match pet with Some f => f w | None => w end in
  let '(s1, w1, crashed) := detect_crashed_services s w0 in
  let '(s2, w2, events) := foldl handle_crash (s1, w1, []) crashed in
  (s2, w2, (events, interval)).

End operations.

(** ** What is known of processes

    The calls the supervisor has made so far, by their results: the children
    it spawned, those whose termination a call of it reported, and those for
    which a blocking wait or a kill reported an error. *)
Record ChildCalls := { spawned : gset N; collected : gset N; troubled : gset N }.

Definition add_spawned (c : N) (k : ChildCalls) : ChildCalls :=
  {| spawned := {[c]} ∪ spawned k; collected := collected k; troubled := troubled k |}.
Definition add_collected (c : N) (k : ChildCalls) : ChildCalls :=
  {| spawned := spawned k; collected := {[c]} ∪ collected k; troubled := troubled k |}.
Definition add_troubled (c : N) (k : ChildCalls) : ChildCalls :=
  {| spawned := spawned k; collected := collected k; troubled := {[c]} ∪ troubled k |}.

(** The children of all these calls. *)
Definition named (k : ChildCalls) : gset N := spawned k ∪ collected k ∪ troubled k.

(** [ended] are the exit codes a poll collects now: what polls of other
    children do not change. Waits and kills may fail, and polls may report
    nothing for a child that is gone. *)
Class ProcessLaws (W : Type) `{!ProcessApi W} := {
  calls : W → ChildCalls;
  ended : W → gmap N (option Z);
  spawn_Ok b a w w' c : spawn b a w = (w', Ok c) → (c ∉ named (calls w)) ∧ calls w' = add_spawned c (calls w);
  spawn_Err b a w w' e : spawn b a w = (w', Err e) → calls w' = calls w;
  sigterm_keeps c w : calls (sigterm c w) = calls w;
  try_wait_Some c w w' code : try_wait c w = (w', Some code) → calls w' = add_collected c (calls w);
  try_wait_None c w w' : try_wait c w = (w', None) → calls w' = calls w;
  try_wait_result c w : (try_wait c w).2 = ended w !! c;
  try_wait_others c c' w code : c' ≠ c → ended w !! c' = Some code → ended (try_wait c w).1 !! c' = Some code;
  wait_calls g c w : calls (wait_within g c w).1 =
    match (wait_within g c w).2 with
    | Exited _ => add_collected c (calls w)
    | WaitFailed => add_troubled c (calls w)
    | GraceExpired => calls w
    end;
  kill_calls c w : calls (kill c w).1 =
    match (kill c w).2 with Ok _ => add_collected c (calls w) | Err _ => add_troubled c (calls w) end;
  create_scope_keeps sl n l w : calls (create_scope sl n l w).1 = calls w;
  destroy_scope_keeps h w : calls (destroy_scope h w).1 = calls w;
  http_get_keeps u w : calls (http_get u w).1 = calls w;
  tcp_connect_keeps a w : calls (tcp_connect a w).1 = calls w;
}.

Section invariant.
Context {W : Type} `{!ProcessApi W, !ProcessLaws W}.
Implicit Types (s : PactSupervisor) (w : W) (d : ServiceDecl) (B : gset N).

Definition tracked s c : Prop := ∃ n ps, processes s !! n = Some ps ∧ ps_child ps = Some c.

(** A child the supervisor still answers for. *)
Definition pending B w c : Prop :=
  (c ∈ spawned (calls w)) ∧ (c ∉ B) ∧ (c ∉ collected (calls w)) ∧ (c ∉ troubled (calls w)).

(** The table agrees with the processes: a service is running exactly when
    it has a child, children belong to one service each, and of the children
    spawned beyond the base set, those that were neither collected nor given
    up after an error are the tracked ones. *)
Record sup_ok B s w : Prop := {
  ok_state n ps : processes s !! n = Some ps →
    (ps_state ps = Running ↔ is_Some (ps_child ps)) ∧ ps_pid ps = child_id <$> ps_child ps;
  ok_base : B ⊆ spawned (calls w);
  ok_pending c : pending B w c ↔ tracked s c;
  ok_unique n m ps ps' c : processes s !! n = Some ps → processes s !! m = Some ps' →
    ps_child ps = Some c → ps_child ps' = Some c → n = m;
}.

Lemma sup_ok_world B s w w' : calls w' = calls w → sup_ok B s w → sup_ok B s w'.
Proof. intros Hw [H1 HB H2 H3]. split; try done; [by rewrite Hw|]. intros c. unfold pending. rewrite Hw. apply H2. Qed.

Lemma sup_ok_decls B s w l : sup_ok B s w → sup_ok B (with_decls s l) w.
Proof. intros [H1 HB H2 H3]. split; done. Qed.

(** An entry that keeps its child. *)
Lemma sup_ok_relabel B s w n ps ps' :
  processes s !! n = Some ps → ps_child ps' = ps_child ps → ps_pid ps' = ps_pid ps →
  (ps_state ps' = Running ↔ ps_state ps = Running) → sup_ok B s w →
  sup_ok B (with_processes s (<[n := ps']> (processes s))) w.
Proof.
  intros Hn Hc Hp Hst [H1 HB H2 H4].
  assert (Ht : ∀ c, tracked (with_processes s (<[n := ps']> (processes s))) c ↔ tracked s c).
  { intros c. split; intros (m & q & Hm & Hq); simpl in *.
    - rewrite lookup_insert in Hm. case_decide; simplify_eq; eexists _, _; split; eauto; congruence.
    - destruct (decide (n = m)) as [<-|Hnm]; [exists n, ps'|exists m, q]; simpl.
      + rewrite lookup_insert_eq, Hc. by simplify_eq.
      + by rewrite lookup_insert_ne. }
  split; simpl.
  - intros m q Hm. rewrite lookup_insert in Hm. case_decide; simplify_eq; [|by eapply H1].
    rewrite Hc, Hp, Hst. by eapply H1.
  - done.
  - intros c. by rewrite Ht.
  - intros m1 m2 q1 q2 c. rewrite !lookup_insert. repeat case_decide; intros; simplify_eq; try done;
      eapply H4; eauto; by rewrite <-Hc.
Qed.

(** An entry whose child was collected, or given up after an error. *)
Lemma sup_ok_clear B s w w' n ps c ps' :
  processes s !! n = Some ps → ps_child ps = Some c → ps_child ps' = None → ps_pid ps' = None →
  ps_state ps' ≠ Running → calls w' = add_collected c (calls w) ∨ calls w' = add_troubled c (calls w) → sup_ok B s w →
  sup_ok B (with_processes s (<[n := ps']> (processes s))) w'.
Proof.
  intros Hn Hc Hc' Hp Hst Hw [H1 HB H2 H4].
  assert (Ht : ∀ x, tracked (with_processes s (<[n := ps']> (processes s))) x ↔ tracked s x ∧ x ≠ c).
  { intros x. split.
    - intros (m & q & Hm & Hq); simpl in *. rewrite lookup_insert in Hm. case_decide; simplify_eq.
      split; [by exists m, q|]. intros ->. eauto.
    - intros [(m & q & Hm & Hq) Hx]. exists m, q. simpl. rewrite lookup_insert_ne; [done|]. intros ->. congruence. }
  split; simpl.
  - intros m q Hm. rewrite lookup_insert in Hm. case_decide; simplify_eq; [|by eapply H1].
    rewrite Hc', Hp. split; [|done]. split; [done|]. intros [? ?]; done.
  - by destruct Hw as [-> | ->].
  - intros x. rewrite Ht, <- H2. unfold pending. destruct Hw as [-> | ->]; simpl; set_solver.
  - intros m1 m2 q1 q2 x. rewrite !lookup_insert. repeat case_decide; intros; simplify_eq; eauto.
Qed.

(** A new child of a service that has none. *)
Lemma sup_ok_spawned B s w w' n c ps' :
  (∀ ps, processes s !! n = Some ps → ps_child ps = None) →
  ps_child ps' = Some c → ps_pid ps' = Some (child_id c) → ps_state ps' = Running →
  c ∉ named (calls w) → calls w' = add_spawned c (calls w) → sup_ok B s w →
  sup_ok B (with_processes s (<[n := ps']> (processes s))) w'.
Proof.
  intros Hn Hc' Hp Hst Hnew Hw [H1 HB H2 H4].
  assert (Ht : ∀ x, tracked (with_processes s (<[n := ps']> (processes s))) x ↔ tracked s x ∨ x = c).
  { intros x. split.
    - intros (m & q & Hm & Hq); simpl in *. rewrite lookup_insert in Hm. case_decide; simplify_eq; [by right|].
      left. by exists m, q.
    - intros [(m & q & Hm & Hq)| ->].
      + exists m, q. simpl. rewrite lookup_insert_ne; [done|]. intros ->. apply Hn in Hm. congruence.
      + exists n, ps'. simpl. by rewrite lookup_insert_eq. }
  assert (Hc : ¬ tracked s c) by (intros Hc; apply H2 in Hc as [Hc _]; unfold named in Hnew; set_solver).
  split; simpl.
  - intros m q Hm. rewrite lookup_insert in Hm. case_decide; simplify_eq; [|by eapply H1].
    rewrite Hc', Hst, Hp. split; [|done]. split; [by eexists|done].
  - rewrite Hw. simpl. set_solver.
  - intros x. rewrite Ht, <- H2. unfold pending, named in *. rewrite Hw. simpl. set_solver.
  - intros m1 m2 q1 q2 x. rewrite !lookup_insert. repeat case_decide; intros; simplify_eq; eauto;
      exfalso; apply Hc; eexists _, _; eauto.
Qed.

Lemma not_running_no_child B s w n ps :
  sup_ok B s w → processes s !! n = Some ps → ps_state ps ≠ Running → ps_child ps = None.
Proof.
  intros Hok Hn Hst. destruct (ok_state _ _ _ Hok n ps Hn) as [H _]. destruct (ps_child ps); [|done].
  exfalso. apply Hst, H. by eexists.
Qed.

Lemma new_scope_keeps s d w w' h : new_scope s d w = (w', h) → calls w' = calls w.
Proof.
  unfold new_scope. intros H. case_match; [|by simplify_eq].
  pose proof (create_scope_keeps (cgroup_slice d) (svc_name d) (resource_limits d) w) as Hk.
  case_all; done.
Qed.
Lemma drop_scope_keeps s h w : calls (drop_scope s h w) = calls w.
Proof. unfold drop_scope. case_all; try done. apply destroy_scope_keeps. Qed.

Lemma start_keeps_ok B d s w s' w' r : start d s w = (s', w', r) → sup_ok B s w → sup_ok B s' w'.
Proof.
  unfold start, spawn_process. intros H Hok. case_match eqn:Hrun; [by simplify_eq|].
  destruct (new_scope s d w) as [w1 h] eqn:Hs. apply new_scope_keeps in Hs.
  destruct (spawn _ _ w1) as [w2 [c|e]] eqn:Hsp; simplify_eq.
  - apply spawn_Ok in Hsp as [Hc Hw]. rewrite Hs in Hc. rewrite Hs in Hw.
    apply (sup_ok_spawned B s w w' (svc_name d) c); try done.
    intros ps Hps. rewrite Hps in Hrun. apply bool_decide_eq_false in Hrun.
    by eapply not_running_no_child.
  - apply spawn_Err in Hsp. apply (sup_ok_world B s' w); [|done].
    rewrite drop_scope_keeps. congruence.
Qed.

Lemma try_wait_failed B s w w' n ps c code k :
  processes s !! n = Some ps → ps_child ps = Some c → try_wait c w = (w', Some code) → sup_ok B s w →
  sup_ok B (with_processes s (<[n := failed_entry ps code k]> (processes s))) w'.
Proof. intros. eapply sup_ok_clear; eauto. left. by eapply try_wait_Some. Qed.

Lemma status_ok B d s w s' w' r : status d s w = (s', w', r) → sup_ok B s w → sup_ok B s' w'.
Proof.
  unfold status. intros H Hok. destruct (processes s !! svc_name d) as [ps|] eqn:Hps; [|by simplify_eq].
  case_bool_decide; [|by simplify_eq].
  destruct (ps_child ps) as [c|] eqn:Hc; [|by simplify_eq].
  destruct (try_wait c w) as [w1 [code|]] eqn:Hw; simplify_eq.
  - by eapply try_wait_failed.
  - apply try_wait_None in Hw. by eapply sup_ok_world.
Qed.

Lemma health_ok B d s w s' w' r : health d s w = (s', w', r) → sup_ok B s w → sup_ok B s' w'.
Proof.
  unfold health. intros H Hok. destruct (status d s w) as [[s1 w1] st] eqn:Hs.
  assert (Hok1 : sup_ok B s1 w1) by by eapply status_ok.
  pose proof (http_get_keeps (W := W)) as Hh. pose proof (tcp_connect_keeps (W := W)) as Ht.
  case_match; [by simplify_eq|].
  destruct (check_type <$> svc_health_check d) as [[|u|p]|]; [by simplify_eq| | |by simplify_eq].
  - specialize (Hh u w1). destruct (http_get u w1) as [w2 [[[] ?]|]]; simplify_eq; by eapply sup_ok_world.
  - specialize (Ht ("127.0.0.1:" +:+ pretty p) w1). destruct (tcp_connect _ w1) as [w2 []]; simplify_eq; by eapply sup_ok_world.
Qed.

Lemma detect_one_ok B n s w cs s' w' cs' :
  detect_one n (s, w, cs) = (s', w', cs') → sup_ok B s w → sup_ok B s' w'.
Proof.
  unfold detect_one. intros H Hok. destruct (processes s !! n) as [ps|] eqn:Hps; [|by simplify_eq].
  case_bool_decide; [|by simplify_eq]. destruct (ps_child ps) as [c|] eqn:Hc; [|by simplify_eq].
  destruct (try_wait c w) as [w1 [code|]] eqn:Hw; simplify_eq.
  - by eapply try_wait_failed.
  - apply try_wait_None in Hw. by eapply sup_ok_world.
Qed.


(** *** Detection of crashes *)

Definition crash_entry (ps : ProcessState) (code : option Z) : ProcessState :=
  failed_entry ps code (wrap_u32 (ps_restarts ps + 1)).

(** What the detection loop did between two states, with [new] the crashes. *)
Record detected s s' (new : list (string * option Z)) : Prop := {
  dt_nodup : NoDup new.*1;
  dt_crashed n code : (n, code) ∈ new →
    ∃ ps, processes s !! n = Some ps ∧ ps_state ps = Running ∧ processes s' !! n = Some (crash_entry ps code);
  dt_others n : n ∉ new.*1 → processes s' !! n = processes s !! n;
  dt_decls : service_decls s' = service_decls s;
}.

Lemma detected_refl s : detected s s [].
Proof. split; [constructor|by intros ? ? ?%not_elem_of_nil|done|done]. Qed.

Lemma detected_trans s s1 s2 n1 n2 :
  detected s s1 n1 → detected s1 s2 n2 → detected s s2 (n1 ++ n2).
Proof.
  intros [D1 C1 O1 E1] [D2 C2 O2 E2].
  assert (Hdis : ∀ n, n ∈ n1.*1 → n ∉ n2.*1).
  { intros n ([? code] & -> & H1)%list_elem_of_fmap ([? code'] & Heq & H2)%list_elem_of_fmap. simpl in *. subst.
    destruct (C1 _ _ H1) as (ps & _ & _ & Hl). destruct (C2 _ _ H2) as (ps' & Hl' & Hr & _).
    rewrite Hl in Hl'. injection Hl' as <-. done. }
  split; [by rewrite fmap_app, NoDup_app| |intros n|by rewrite E2].
  - intros n code [Hin|Hin]%elem_of_app.
    + destruct (C1 _ _ Hin) as (ps & ? & ? & ?). exists ps. rewrite O2; [done|].
      apply Hdis. apply list_elem_of_fmap. by exists (n, code).
    + destruct (C2 _ _ Hin) as (ps & Hps & ? & ?). exists ps. rewrite O1 in Hps; [done|].
      intros H1. apply (Hdis n H1). apply list_elem_of_fmap. by exists (n, code).
  - rewrite fmap_app, not_elem_of_app. intros [H1 H2]. by rewrite O2, O1.
Qed.

Lemma detect_one_detected n s w cs s' w' cs' :
  detect_one n (s, w, cs) = (s', w', cs') → ∃ new, cs' = cs ++ new ∧ detected s s' new.
Proof.
  assert (Hid : detected s s [] ∧ cs = cs ++ []) by (rewrite app_nil_r; split; [apply detected_refl|done]).
  unfold detect_one. intros H. destruct (processes s !! n) as [ps|] eqn:Hps; [|simplify_eq; naive_solver].
  case_bool_decide; [|simplify_eq; naive_solver]. destruct (ps_child ps) as [c|]; [|simplify_eq; naive_solver].
  destruct (try_wait c w) as [w1 [code|]]; simplify_eq; [|naive_solver].
  eexists. split; [done|]. split; simpl; [apply NoDup_singleton| | |done].
  - intros m k Hm%list_elem_of_singleton. simplify_eq. exists ps. by rewrite lookup_insert_eq.
  - intros m Hm%not_elem_of_cons. rewrite lookup_insert_ne; [done|]. destruct Hm. congruence.
Qed.

Lemma detect_loop names s w cs s' w' cs' :
  foldl (λ acc n, detect_one n acc) (s, w, cs) names = (s', w', cs') → ∃ new, cs' = cs ++ new ∧ detected s s' new.
Proof.
  revert s w cs. induction names as [|n names IH]; cbn [foldl]; intros s w cs H.
  - simplify_eq. exists []. rewrite app_nil_r. split; [done|apply detected_refl].
  - destruct (detect_one n (s, w, cs)) as [[s1 w1] cs1] eqn:H1.
    apply detect_one_detected in H1 as (new1 & -> & Hd1). apply IH in H as (new2 & -> & Hd2).
    exists (new1 ++ new2). rewrite app_assoc. split; [done|]. by eapply detected_trans.
Qed.

Lemma detect_crashed_detected s w s' w' cs : detect_crashed_services s w = (s', w', cs) → detected s s' cs.
Proof. intros (new & -> & H)%detect_loop. done. Qed.

Lemma detect_loop_ok B names s w cs s' w' cs' :
  foldl (λ acc n, detect_one n acc) (s, w, cs) names = (s', w', cs') → sup_ok B s w → sup_ok B s' w'.
Proof.
  revert s w cs. induction names as [|n names IH]; cbn [foldl]; intros s w cs H Hok; [by simplify_eq|].
  destruct (detect_one n (s, w, cs)) as [[s1 w1] cs1] eqn:H1. eapply IH; [done|]. by eapply detect_one_ok.
Qed.




(** *** Restarts by the loop *)

Lemma do_restart_cases d s w s' w' r ps :
  do_restart d s w = (s', w', r) → processes s !! svc_name d = Some ps →
  service_decls s' = service_decls s ∧
  (∀ m, m ≠ svc_name d → processes s' !! m = processes s !! m) ∧
  ∃ ps', processes s' !! svc_name d = Some ps' ∧ ps_restarts ps' = ps_restarts ps ∧
    ps_last_exit_code ps' = ps_last_exit_code ps ∧
    match r with
    | Ok _ => ps_state ps' = Running
    | Err e => ps_state ps' = ps_state ps ∧ ∃ w1 w2, spawn (svc_binary d) (svc_args d) w1 = (w2, Err e)
    end.
Proof.
  unfold do_restart, restart_drop_scope, restart_install, spawn_process. intros H Hps. rewrite Hps in H.
  destruct (new_scope _ _ _) as [w2 h]. destruct (spawn _ _ w2) as [w3 [c|e]] eqn:Hsp; simplify_eq; simpl.
  - split; [done|]. split; [intros m Hm; by rewrite !lookup_insert_ne|].
    rewrite !lookup_insert_eq. eauto 10.
  - split; [done|]. split; [intros m Hm; by rewrite !lookup_insert_ne|].
    rewrite !lookup_insert_eq. eexists. split_and!; eauto.
Qed.

Lemma do_restart_ok B d s w s' w' r :
  do_restart d s w = (s', w', r) → (∀ ps, processes s !! svc_name d = Some ps → ps_state ps ≠ Running) →
  sup_ok B s w → sup_ok B s' w'.
Proof.
  unfold do_restart, spawn_process. intros H Hn Hok.
  destruct (restart_drop_scope d s w) as [s1 w1] eqn:H1.
  assert (Hok1 : sup_ok B s1 w1 ∧ ∀ ps, processes s1 !! svc_name d = Some ps → ps_child ps = None).
  { revert H1. unfold restart_drop_scope. destruct (processes s !! svc_name d) as [ps|] eqn:Hps; intros; simplify_eq; simpl.
    - split.
      + eapply sup_ok_relabel; eauto. eapply sup_ok_world; [|done]. apply drop_scope_keeps.
      + rewrite lookup_insert_eq. intros ? [= <-]. simpl. eapply not_running_no_child; eauto.
    - split; [done|]. congruence. }
  destruct Hok1 as [Hok1 Hnc]. destruct (new_scope s1 d w1) as [w2 h] eqn:H2. apply new_scope_keeps in H2.
  destruct (spawn _ _ w2) as [w3 [c|e]] eqn:Hsp; simplify_eq.
  - apply spawn_Ok in Hsp as [Hc Hw]. rewrite H2 in Hc. rewrite H2 in Hw.
    unfold restart_install. eapply (sup_ok_spawned B s1 w1); eauto; by case_match.
  - apply spawn_Err in Hsp. eapply sup_ok_world; [|done]. congruence.
Qed.

Lemma mark_stopped_ok B n s w :
  (∀ ps, processes s !! n = Some ps → ps_state ps ≠ Running) → sup_ok B s w → sup_ok B (mark_stopped n s) w.
Proof.
  intros Hn Hok. unfold mark_stopped. case_match eqn:Hps; [|done].
  eapply sup_ok_relabel; eauto. simpl. split; [done|]. intros. by destruct (Hn _ eq_refl).
Qed.

(** What the loop leaves of a crashed service. *)
Definition crash_outcome (decls : list ServiceDecl) (events : list CrashEvent) (n : string) (code : option Z)
    (restarts : N) (ps : ProcessState) : Prop :=
  ps_restarts ps = restarts ∧ ps_last_exit_code ps = code ∧
  match list_find (λ d, svc_name d = n) decls with
  | None => ps_state ps = Failed
  | Some (_, d) =>
      let again := should_restart (svc_restart d) code in
      {| ce_service := n; ce_exit_code := code; ce_will_restart := again |} ∈ events ∧
      if again
      then ps_state ps = Running ∨
           (ps_state ps = Failed ∧ ∃ w1 w2 e, spawn (svc_binary d) (svc_args d) w1 = (w2, Err e))
      else ps_state ps = match svc_restart d with Never => Stopped | _ => Failed end
  end.

Lemma crash_outcome_more decls ev ev' n code k ps :
  crash_outcome decls ev n code k ps → crash_outcome decls (ev ++ ev') n code k ps.
Proof.
  unfold crash_outcome. intros (? & ? & H). split; [done|]. split; [done|].
  destruct (list_find _ _) as [[i d]|]; [|done]. destruct H as [Hin H]. split; [|done]. apply elem_of_app. by left.
Qed.

(** The loop's treatment of a service in a failed state. *)
Lemma handle_crash_spec s w ev n code s' w' ev' ps :
  handle_crash (s, w, ev) (n, code) = (s', w', ev') → processes s !! n = Some ps → ps_state ps = Failed →
  ps_last_exit_code ps = code →
  service_decls s' = service_decls s ∧ (∃ more, ev' = ev ++ more) ∧
  (∀ m, m ≠ n → processes s' !! m = processes s !! m) ∧
  ∃ ps', processes s' !! n = Some ps' ∧ crash_outcome (service_decls s) ev' n code (ps_restarts ps) ps'.
Proof.
  intros H Hps Hst Hcode. unfold crash_outcome. simpl in H.
  destruct (list_find (λ d, svc_name d = n) (service_decls s)) as [[i d]|] eqn:Hf.
  2:{ simplify_eq. split_and!; eauto. exists []. by rewrite app_nil_r. }
  assert (Hd : svc_name d = n) by (by apply list_find_Some in Hf as (_ & ? & _)).
  destruct (should_restart (svc_restart d) code) eqn:Ha.
  - destruct (do_restart d s w) as [[s1 w1] r] eqn:Hr. simplify_eq.
    destruct (do_restart_cases _ _ _ _ _ _ _ Hr Hps) as (Hdec & Ho & ps' & Hps' & Hk & Hl & Hcase).
    split_and!; eauto. exists ps'. split_and!; try done; [set_solver|].
    destruct r; [by left|right]. destruct Hcase as (He & ? & ? & ?). rewrite He. split; [done|eauto].
  - simplify_eq. case_bool_decide as Hp.
    + unfold mark_stopped. rewrite Hps, Hp. simpl. split_and!; eauto; [intros; by rewrite lookup_insert_ne|].
      rewrite lookup_insert_eq. eexists. split_and!; [done..|set_solver|done].
    + split_and!; eauto. exists ps. split_and!; [done..|set_solver|]. by destruct (svc_restart d).
Qed.

Lemma handle_crashes_spec crashed s w ev s' w' ev' :
  foldl handle_crash (s, w, ev) crashed = (s', w', ev') → NoDup crashed.*1 →
  (∀ n code, (n, code) ∈ crashed →
    ∃ ps, processes s !! n = Some ps ∧ ps_state ps = Failed ∧ ps_last_exit_code ps = code) →
  service_decls s' = service_decls s ∧ (∃ more, ev' = ev ++ more) ∧
  (∀ m, m ∉ crashed.*1 → processes s' !! m = processes s !! m) ∧
  (∀ n code ps, (n, code) ∈ crashed → processes s !! n = Some ps →
    ∃ ps', processes s' !! n = Some ps' ∧ crash_outcome (service_decls s) ev' n code (ps_restarts ps) ps').
Proof.
  revert s w ev. induction crashed as [|[n code] l IH]; cbn [foldl fmap list_fmap]; intros s w ev H Hnd Hall.
  { simplify_eq. split_and!; try done; [exists []; by rewrite app_nil_r|set_solver]. }
  apply NoDup_cons in Hnd as [Hn Hnd]. simpl in Hn.
  destruct (handle_crash (s, w, ev) (n, code)) as [[s1 w1] ev1] eqn:H1.
  destruct (Hall n code) as (ps & Hps & Hst & Hcode); [left|].
  destruct (handle_crash_spec _ _ _ _ _ _ _ _ _ H1 Hps Hst Hcode) as (Hd1 & [more1 Hev1] & Ho1 & ps1 & Hps1 & Hout).
  assert (Hin : ∀ m k, (m, k) ∈ l → m ≠ n).
  { intros m k Hm ->. apply Hn. apply list_elem_of_fmap. by exists (n, k). }
  destruct (IH s1 w1 ev1 H Hnd) as (Hd & [more Hev] & Ho & Hc).
  { intros m k Hm. rewrite Ho1 by (by eapply Hin). apply Hall. by right. }
  split_and!; [congruence|rewrite Hev, Hev1, <-(assoc_L (++)); eauto|intros m Hm; rewrite Ho, Ho1; set_solver|].
  intros m k q [[= -> ->]|Hm]%elem_of_cons Hq.
  - simplify_eq. exists ps1. rewrite Ho by done. split; [done|]. by apply crash_outcome_more.
  - rewrite <-Hd1. apply Hc; [done|]. rewrite Ho1; [done|by eapply Hin].
Qed.

Lemma handle_crash_ok B s w ev n code s' w' ev' :
  handle_crash (s, w, ev) (n, code) = (s', w', ev') →
  (∀ ps, processes s !! n = Some ps → ps_state ps ≠ Running) → sup_ok B s w → sup_ok B s' w'.
Proof.
  intros H Hn Hok. simpl in H. destruct (list_find _ _) as [[i d]|] eqn:Hf; [|by simplify_eq].
  assert (Hd : svc_name d = n) by (by apply list_find_Some in Hf as (_ & ? & _)).
  case_match; [|by simplify_eq; case_bool_decide; [apply mark_stopped_ok|]].
  destruct (do_restart d s w) as [[s1 w1] r] eqn:Hr. simplify_eq. by eapply do_restart_ok.
Qed.

Lemma handle_crashes_ok B crashed s w ev s' w' ev' :
  foldl handle_crash (s, w, ev) crashed = (s', w', ev') → NoDup crashed.*1 →
  (∀ n code, (n, code) ∈ crashed →
    ∃ ps, processes s !! n = Some ps ∧ ps_state ps = Failed ∧ ps_last_exit_code ps = code) →
  sup_ok B s w → sup_ok B s' w'.
Proof.
  revert s w ev. induction crashed as [|[n code] l IH]; cbn [foldl fmap list_fmap]; intros s w ev H Hnd Hall Hok.
  { by simplify_eq. }
  apply NoDup_cons in Hnd as [Hn Hnd]. simpl in Hn.
  destruct (handle_crash (s, w, ev) (n, code)) as [[s1 w1] ev1] eqn:H1.
  destruct (Hall n code) as (ps & Hps & Hst & Hcode); [left|].
  destruct (handle_crash_spec _ _ _ _ _ _ _ _ _ H1 Hps Hst Hcode) as (_ & _ & Ho1 & _).
  eapply IH; [done..| |].
  - intros m k Hm. rewrite Ho1; [apply Hall; by right|]. intros ->. apply Hn. apply list_elem_of_fmap. by exists (n, k).
  - eapply handle_crash_ok; [done| |done]. rewrite Hps. intros ? [= <-]. by rewrite Hst.
Qed.

Lemma detected_failed s s' new n code :
  detected s s' new → (n, code) ∈ new →
  ∃ ps, processes s' !! n = Some ps ∧ ps_state ps = Failed ∧ ps_last_exit_code ps = code.
Proof. intros Hd Hin. destruct (dt_crashed _ _ _ Hd _ _ Hin) as (ps & _ & _ & H). by exists (crash_entry ps code). Qed.

Lemma tick_ok B cfg active s w s' w' r :
  supervision_tick cfg None active s w = (s', w', r) → sup_ok B s w → sup_ok B s' w'.
Proof.
  unfold supervision_tick. intros H Hok. destruct (detect_crashed_services s w) as [[s1 w1] cs] eqn:Hd.
  destruct (foldl handle_crash _ cs) as [[s2 w2] ev] eqn:Hf. simplify_eq.
  pose proof (detect_crashed_detected _ _ _ _ _ Hd) as Hdt.
  eapply handle_crashes_ok; [done|apply Hdt|intros; by eapply detected_failed|]. by eapply detect_loop_ok.
Qed.

End invariant.

(** Stopping: the child is collected, or a wait or kill of it failed. *)
Section invariant_stop.
Context {W : Type} `{!ProcessApi W, !ProcessLaws W}.
Implicit Types (s : PactSupervisor) (w : W) (d : ServiceDecl) (B : gset N).

Lemma stop_child_calls g c w :
  calls (stop_child g c w).1 = add_collected c (calls w) ∨ calls (stop_child g c w).1 = add_troubled c (calls w).
Proof.
  unfold stop_child. pose proof (wait_calls g c (sigterm c w)) as Hw. rewrite sigterm_keeps in Hw.
  destruct (wait_within g c (sigterm c w)) as [w' [code| |]]; simpl in *; [by left|by right|].
  rewrite kill_calls, Hw. destruct (kill c w').2; [by left|by right].
Qed.

Lemma stop_ok B d s w s' w' r : stop d s w = (s', w', r) → sup_ok B s w → sup_ok B s' w'.
Proof.
  unfold stop. intros H Hok. destruct (processes s !! svc_name d) as [ps|] eqn:Hps; [|by simplify_eq].
  case_bool_decide as Hrun; [|by simplify_eq].
  destruct (ok_state _ _ _ Hok _ _ Hps) as [Hst _]. destruct (proj1 Hst Hrun) as [c Hc]. rewrite Hc in H.
  destruct (stop_child _ c w) as [w1 code] eqn:Hw1. simplify_eq.
  eapply (sup_ok_clear B s w); eauto. rewrite drop_scope_keeps.
  pose proof (stop_child_calls (shutdown_grace_seconds s) c w) as Hs. by rewrite Hw1 in Hs.
Qed.

Lemma stop_not_running d s w s' w' r ps :
  stop d s w = (s', w', r) → processes s' !! svc_name d = Some ps → ps_state ps ≠ Running.
Proof.
  unfold stop. intros H. case_all; simpl; intros; lookup_cases; simpl; try congruence.
Qed.

Lemma mark_restarting_ok B d s w :
  (∀ ps, processes s !! svc_name d = Some ps → ps_state ps ≠ Running) → sup_ok B s w → sup_ok B (mark_restarting d s) w.
Proof.
  intros Hn Hok. unfold mark_restarting. case_match eqn:Hps; [|done].
  eapply sup_ok_relabel; eauto. simpl. split; [done|]. intros. by destruct (Hn _ eq_refl).
Qed.

Lemma restart_ok B d s w s' w' r : restart d s w = (s', w', r) → sup_ok B s w → sup_ok B s' w'.
Proof.
  unfold restart. destruct (stop d s w) as [[s1 w1] [[]|e]] eqn:Hs; intros H Hok.
  - eapply start_keeps_ok; [done|]. apply mark_restarting_ok; [|by eapply stop_ok].
    intros ps. by eapply stop_not_running.
  - simplify_eq. by eapply stop_ok.
Qed.

Lemma start_each_ok B l s w s' w' r : start_each l s w = (s', w', r) → sup_ok B s w → sup_ok B s' w'.
Proof.
  revert s w. induction l as [|d l IH]; simpl; intros s w H Hok; [by simplify_eq|].
  destruct (start d s w) as [[s1 w1] [[]|e]] eqn:Hs; [eapply IH; [done|]|simplify_eq]; by eapply start_keeps_ok.
Qed.
Lemma stop_each_ok B l s w : sup_ok B s w → sup_ok B (stop_each l s w).1 (stop_each l s w).2.
Proof.
  revert s w. induction l as [|d l IH]; simpl; intros s w Hok; [done|].
  destruct (stop d s w) as [[s1 w1] r] eqn:Hs. apply IH. by eapply stop_ok.
Qed.

End invariant_stop.

(** ** Theorems *)

(** A call of the supervisor by its client, or an iteration of its loop. *)
Inductive SupOp :=
| OpStart (d : ServiceDecl) | OpStop (d : ServiceDecl) | OpRestart (d : ServiceDecl)
| OpStatus (d : ServiceDecl) | OpHealth (d : ServiceDecl)
| OpStartAll (l : list ServiceDecl) | OpStopAll (l : list ServiceDecl)
| OpTick (config : SupervisionConfig) (workload_active : bool).

Section theorems.
Context {W : Type} `{!ProcessApi W, !ProcessLaws W}.
Implicit Types (s : PactSupervisor) (w : W) (d : ServiceDecl) (B : gset N).

Definition run_op (op : SupOp) (sw : PactSupervisor * W) : PactSupervisor * W :=
  match op with
  | OpStart d => (start d sw.1 sw.2).1
  | OpStop d => (stop d sw.1 sw.2).1
  | OpRestart d => (restart d sw.1 sw.2).1
  | OpStatus d => (status d sw.1 sw.2).1
  | OpHealth d => (health d sw.1 sw.2).1
  | OpStartAll l => (start_all l sw.1 sw.2).1
  | OpStopAll l => stop_all l sw.1 sw.2
  | OpTick config active => (supervision_tick config None active sw.1 sw.2).1
  end.


Lemma run_op_ok B op s w :
  sup_ok B s w → sup_ok B (run_op op (s, w)).1 (run_op op (s, w)).2.
Proof.
  intros Hok. destruct op as [d|d|d|d|d|l|l|cfg a]; cbn [run_op fst snd].
  - destruct (start d s w) as [[s' w'] r] eqn:H. by eapply start_keeps_ok.
  - destruct (stop d s w) as [[s' w'] r] eqn:H. by eapply stop_ok.
  - destruct (restart d s w) as [[s' w'] r] eqn:H. by eapply restart_ok.
  - destruct (status d s w) as [[s' w'] r] eqn:H. by eapply status_ok.
  - destruct (health d s w) as [[s' w'] r] eqn:H. by eapply health_ok.
  - destruct (start_all l s w) as [[s' w'] r] eqn:H. eapply start_each_ok; [done..|]. by apply sup_ok_decls.
  - by apply stop_each_ok.
  - destruct (supervision_tick cfg None a s w) as [[s' w'] r] eqn:H. by eapply tick_ok.
Qed.

Lemma sup_ok_new w : sup_ok (spawned (calls w)) supervisor_new w.
Proof.
  assert (Ht : ∀ c, ¬ tracked supervisor_new c) by (intros c (n & ps & H & _); cbn in H; by rewrite lookup_empty in H).
  split; simpl; try (intros *; by rewrite lookup_empty); [done|].
  intros c. split; [by intros (? & ? & _)|]. by intros ?%Ht.
Qed.



Lemma tick_not_running cfg active s w s' w' r n ps :
  supervision_tick cfg None active s w = (s', w', r) →
  processes s !! n = Some ps → ps_state ps ≠ Running → processes s' !! n = Some ps.
Proof.
  unfold supervision_tick. intros H Hn Hst. destruct (detect_crashed_services s w) as [[s1 w1] cs] eqn:Hd.
  destruct (foldl handle_crash _ cs) as [[s2 w2] ev] eqn:Hf. simplify_eq.
  pose proof (detect_crashed_detected _ _ _ _ _ Hd) as Hdt.
  destruct (handle_crashes_spec _ _ _ _ _ _ _ Hf (dt_nodup _ _ _ Hdt)) as (_ & _ & Ho & _).
  { intros. by eapply detected_failed. }
  assert (Hnot : n ∉ cs.*1).
  { intros ([? code] & -> & Hin)%list_elem_of_fmap. destruct (dt_crashed _ _ _ Hdt _ _ Hin) as (q & Hq & Hr & _).
    simpl in *. congruence. }
  by rewrite Ho, (dt_others _ _ _ Hdt).
Qed.

(** An iteration of the loop with some workload state. *)
Definition tick_step (a b : PactSupervisor * W) : Prop :=
  ∃ cfg active r, supervision_tick cfg None active a.1 a.2 = (b.1, b.2, r).


(** A crash that [status] sees first is never repaired by the loop: once
    a status call has reported the service as failed, any number of loop
    iterations leave it failed, whatever its restart policy is. *)
Theorem status_hides_crash d s w s1 w1 st s2 w2 :
  status d s w = (s1, w1, st) → st_state st = Failed → rtc tick_step (s1, w1) (s2, w2) →
  ∃ ps, processes s2 !! svc_name d = Some ps ∧ ps_state ps = Failed.
Proof.
  intros H Hst Hr. assert (Hf : ∃ ps, processes s1 !! svc_name d = Some ps ∧ ps_state ps = Failed).
  { revert H. unfold status. destruct (processes s !! svc_name d) as [ps|] eqn:Hps; [|intros; simplify_eq; done].
    case_bool_decide; [|intros; simplify_eq; eauto]. destruct (match ps_child ps with Some c => try_wait c w | None => (w, None) end) as [w' [code|]];
      intros; simplify_eq; simpl in *; [|congruence]. rewrite lookup_insert_eq. eauto. }
  clear H Hst. remember (s1, w1) as a eqn:Ha. remember (s2, w2) as b eqn:Hb. revert s1 w1 Ha Hf.
  induction Hr as [x|x [s3 w3] z (cfg & active & r & Hs) _ IH]; intros s1 w1 -> (ps & Hps & Hst); simplify_eq; [by exists ps|].
  eapply IH; [done..|]. exists ps. split; [|done]. eapply tick_not_running; [done..|]. by rewrite Hst.
Qed.

(** A restart of a service that another call started in the meantime
    loses that process: [do_restart] does not look at the state again after
    the restart delay, so the process recorded before was neither collected
    nor waited for, and no service records it any more. *)
Theorem racing_restart_orphans B d s w s' w' ps c :
  sup_ok B s w → processes s !! svc_name d = Some ps → ps_child ps = Some c →
  do_restart d s w = (s', w', Ok tt) → pending B w' c ∧ ¬ tracked s' c.
Proof.
  intros Hok Hps Hc. unfold do_restart, restart_drop_scope, spawn_process. rewrite Hps.
  destruct (new_scope _ _ _) as [w2 h] eqn:Hn. apply new_scope_keeps in Hn. rewrite drop_scope_keeps in Hn.
  destruct (spawn _ _ w2) as [w3 [c'|e]] eqn:Hsp; intros; simplify_eq.
  apply spawn_Ok in Hsp as [Hfresh Hw]. rewrite Hn in Hfresh. rewrite Hn in Hw.
  assert (Hcw : pending B w c) by (apply (ok_pending _ _ _ Hok); by exists (svc_name d), ps).
  split; [unfold pending in *; rewrite Hw; simpl; set_solver|]. intros (n & q & Hq & Hqc). unfold restart_install in Hq. simpl in Hq.
  rewrite lookup_insert_eq, insert_insert_eq in Hq. rewrite lookup_insert in Hq. case_decide; simplify_eq; simpl in *.
  - destruct Hcw as [? _]. unfold named in Hfresh. simplify_eq. set_solver.
  - assert (svc_name d = n) by (by eapply (ok_unique _ _ _ Hok)). done.
Qed.

(** *** Ordered start and stop *)

Definition running s n : Prop := ∃ ps, processes s !! n = Some ps ∧ ps_state ps = Running.

Lemma start_cases d s w s' w' r :
  start d s w = (s', w', r) →
  service_decls s' = service_decls s ∧ (∀ m, m ≠ svc_name d → processes s' !! m = processes s !! m) ∧
  match r with
  | Ok _ => running s' (svc_name d)
  | Err e => s' = s ∧ ¬ running s (svc_name d) ∧ ∃ w1 w2, spawn (svc_binary d) (svc_args d) w1 = (w2, Err e)
  end.
Proof.
  unfold start, spawn_process. intros H. case_match eqn:Hrun.
  - simplify_eq. split_and!; try done. destruct (processes s' !! _) as [ps|] eqn:Hps; [|done].
    apply bool_decide_eq_true in Hrun. by exists ps.
  - destruct (new_scope s d w) as [w1 h]. destruct (spawn _ _ w1) as [w2 [c|e]] eqn:Hsp; simplify_eq; simpl.
    + split_and!; try done; [intros; by rewrite lookup_insert_ne|]. eexists. simpl. by rewrite lookup_insert_eq.
    + split_and!; try done; [|eauto]. intros (ps & Hps & Hst). rewrite Hps in Hrun.
      by apply bool_decide_eq_false in Hrun.
Qed.

Lemma start_keeps_running d s w s' w' r n : start d s w = (s', w', r) → running s n → running s' n.
Proof.
  intros (_ & Ho & Hr)%start_cases Hn. destruct (decide (n = svc_name d)) as [->|Hne].
  - destruct r; [done|]. by destruct Hr as [-> _].
  - unfold running. by rewrite Ho.
Qed.

Lemma start_each_cases l s w s' w' r :
  start_each l s w = (s', w', r) →
  service_decls s' = service_decls s ∧ (∀ n, running s n → running s' n) ∧
  (∀ n, n ∉ svc_name <$> l → processes s' !! n = processes s !! n) ∧
  match r with
  | Ok _ => ∀ d, d ∈ l → running s' (svc_name d)
  | Err e => ∃ l1 d l2, l = l1 ++ d :: l2 ∧ (∀ d', d' ∈ l1 → running s' (svc_name d')) ∧
               ¬ running s' (svc_name d) ∧ ∃ w1 w2, spawn (svc_binary d) (svc_args d) w1 = (w2, Err e)
  end.
Proof.
  revert s w. induction l as [|d l IH]; cbn [start_each]; intros s w H.
  { simplify_eq. split_and!; try done. by intros ? ?%not_elem_of_nil. }
  destruct (start d s w) as [[s1 w1] [[]|e]] eqn:Hs.
  - destruct (IH _ _ H) as (Hd & Hk & Ho & Hr). pose proof (start_cases _ _ _ _ _ _ Hs) as (Hd1 & Ho1 & Hr1).
    split_and!; [congruence| | |].
    + intros n Hn. apply Hk. by eapply start_keeps_running.
    + intros n Hn. rewrite fmap_cons, not_elem_of_cons in Hn. by rewrite Ho, Ho1 by tauto.
    + destruct r as [u|e].
      * intros d' [->|Hd']%elem_of_cons; [by apply Hk|by apply Hr].
      * destruct Hr as (l1 & x & l2 & -> & Hl & Hx). exists (d :: l1), x, l2. split_and!; [done| |apply Hx..].
        intros d' [->|Hd']%elem_of_cons; [by apply Hk|by apply Hl].
  - simplify_eq. destruct (start_cases _ _ _ _ _ _ Hs) as (_ & _ & -> & Hn & Hsp). split_and!; try done.
    exists [], d, l. split_and!; try done. by intros ? ?%not_elem_of_nil.
Qed.

Lemma sorted_services_perm l : sorted_services l ≡ₚ l.
Proof. apply sort_by_perm. Qed.
Lemma sorted_services_sorted l : StronglySorted order_le (sorted_services l).
Proof. apply sort_by_sorted; unfold order_le; [intros ???|intros ??]; lia. Qed.

(** [start_all] starts services by ascending order number. If it
    succeeds, every listed service runs; if it fails, it failed to spawn one
    service that was not running, and every service of a smaller order
    number runs. Either way the loop supervises the new list and services
    outside the list are untouched. *)
Theorem start_all_ordered services s w s' w' r :
  start_all services s w = (s', w', r) →
  service_decls s' = services ∧ (∀ n, n ∉ svc_name <$> services → processes s' !! n = processes s !! n) ∧
  match r with
  | Ok _ => ∀ d, d ∈ services → running s' (svc_name d)
  | Err e => ∃ d, d ∈ services ∧ ¬ running s' (svc_name d) ∧
      (∃ w1 w2, spawn (svc_binary d) (svc_args d) w1 = (w2, Err e)) ∧
      ∀ d', d' ∈ services → (svc_order d' < svc_order d)%N → running s' (svc_name d')
  end.
Proof.
  intros (Hd & _ & Ho & Hr)%start_each_cases. split; [done|].
  split; [intros n Hn; apply Ho; by rewrite sorted_services_perm|]. destruct r as [u|e].
  - intros d Hin. apply Hr. by rewrite sorted_services_perm.
  - destruct Hr as (l1 & d & l2 & Hl & Hl1 & Hnr & Hsp). exists d.
    assert (Hin : ∀ x, x ∈ services ↔ x ∈ l1 ++ d :: l2) by (intros x; by rewrite <-Hl, sorted_services_perm).
    split_and!; [apply Hin; set_solver|done|done|]. intros d' [Hd'|Hd']%Hin%elem_of_app Hlt; [by apply Hl1|].
    pose proof (sorted_services_sorted services) as Hs. rewrite Hl in Hs. apply StronglySorted_app_1_r in Hs.
    apply StronglySorted_inv in Hs as [_ Hf]. rewrite Forall_forall in Hf.
    apply elem_of_cons in Hd' as [->|Hd']; [lia|]. specialize (Hf _ Hd'). unfold order_le in Hf. lia.
Qed.

Lemma stop_cases d s w s' w' r :
  stop d s w = (s', w', r) →
  service_decls s' = service_decls s ∧ (∀ m, m ≠ svc_name d → processes s' !! m = processes s !! m) ∧
  ¬ running s' (svc_name d).
Proof.
  intros H. split_and!.
  - revert H. unfold stop. case_all; intros; by simplify_eq.
  - intros m Hm. revert H. unfold stop. case_all; intros; simplify_eq; simpl; by rewrite ?lookup_insert_ne.
  - intros (ps & Hps & Hst). revert H Hps. unfold stop. case_all; intros; simplify_eq; simpl in *; lookup_cases; simpl in *; congruence.
Qed.

(** [stop_all] leaves no listed service running and touches no other;
    the shutdown path of the agent passes the empty list, for which it does
    nothing at all. *)
Theorem stop_all_stops services s w s' w' :
  stop_all services s w = (s', w') →
  (∀ d, d ∈ services → ¬ running s' (svc_name d)) ∧
  (∀ n, n ∉ svc_name <$> services → processes s' !! n = processes s !! n) ∧
  stop_all [] s w = (s, w).
Proof.
  intros H. assert (Hgo : ∀ l s w s' w', stop_each l s w = (s', w') →
    (∀ n, ¬ running s n → ¬ running s' n) ∧ (∀ d, d ∈ l → ¬ running s' (svc_name d)) ∧
    (∀ n, n ∉ svc_name <$> l → processes s' !! n = processes s !! n)).
  { clear. induction l as [|d l IH]; cbn [stop_each]; intros s w s' w' H.
    { simplify_eq. split_and!; try done. by intros ? ?%not_elem_of_nil. }
    destruct (stop d s w) as [[s1 w1] r] eqn:Hs. apply stop_cases in Hs as (_ & Ho & Hn).
    destruct (IH _ _ _ _ H) as (Hk & Hl & Hu). split_and!.
    - intros n Hr. apply Hk. destruct (decide (n = svc_name d)) as [->|Hne]; [done|]. unfold running. by rewrite Ho.
    - intros d' [->|Hd']%elem_of_cons; [by apply Hk|by apply Hl].
    - intros n Hr. rewrite fmap_cons, not_elem_of_cons in Hr. by rewrite Hu, Ho by tauto. }
  apply Hgo in H as (_ & Hl & Hu). split_and!; [| |done].
  - intros d Hd. apply Hl. by rewrite reverse_Permutation, sorted_services_perm.
  - intros n Hn. apply Hu. by rewrite reverse_Permutation, sorted_services_perm.
Qed.

End theorems.

(** *** Memory limits *)

(** The units of a memory limit. *)
Definition memory_units : list (string * N) :=
  [("", 1); ("K", 1024); ("k", 1024); ("M", 1048576); ("m", 1048576); ("G", 1073741824); ("g", 1073741824)]%N.

(** A memory limit written as a number and a unit is that many bytes
    modulo 2^64: it is exact exactly when the product fits into 64 bits, and
    wraps to a smaller limit otherwise. *)
Theorem memory_value_wraps v unit factor :
  (v <= u64_max)%N → (unit, factor) ∈ memory_units →
  parse_memory_value (pretty v +:+ unit) = Some (wrap_u64 (v * factor)) ∧
  (parse_memory_value (pretty v +:+ unit) = Some (v * factor)%N ↔ (v * factor <= u64_max)%N).
Proof.
  intros Hv Hu. assert (Hp : parse_memory_value (pretty v +:+ unit) = Some (wrap_u64 (v * factor))).
  { pose proof (parse_digits_no_space _ _ _ (pretty_digits v)) as Hns.
    unfold parse_memory_value. rewrite no_space_trim.
    2:{ rewrite no_space_append, Hns. unfold memory_units in Hu. set_unfold in Hu. naive_solver. }
    destruct (Str.is_empty (pretty v +:+ unit)) eqn:He.
    { pose proof (parse_unsigned_pretty _ _ Hv) as Hpp. by destruct (pretty v). }
    assert (Hfin : Str.parse_unsigned u64_max (Str.trim (pretty v)) = Some v).
    { rewrite no_space_trim by done. by apply parse_unsigned_pretty. }
    unfold memory_units in Hu. repeat (apply elem_of_cons in Hu as [[= -> ->]|Hu]); [..|by apply not_elem_of_nil in Hu];
      rewrite ?append_nil_r, ?strip_suffix_append, ?strip_other_unit, ?strip_unit_number by done; simpl;
      by rewrite ?append_nil_r, ?strip_suffix_append, ?strip_other_unit, ?strip_unit_number, ?Hfin by done. }
  split; [done|]. rewrite Hp. unfold wrap_u64, u64_max. split.
  - intros [= H]. pose proof (N.mod_lt (v * factor) 18446744073709551616). lia.
  - intros H. rewrite N.mod_small; [done|lia].
Qed.

(** ** A concrete world *)

Module SupervisorSample.

(** The calls so far, the exit codes that wait to be collected, and the
    children that cannot be waited for; the program "missing" does not exist. *)
Record World := { made : ChildCalls; codes : gmap N (option Z); stuck : gset N }.

Definition reap (c : N) (w : World) : World :=
  {| made := add_collected c (made w); codes := delete c (codes w); stuck := stuck w |}.
Definition trouble (c : N) (w : World) : World := {| made := add_troubled c (made w); codes := codes w; stuck := stuck w |}.

#[export] Instance world_api : ProcessApi World := {|
  spawn b _ w := if decide (b = "missing") then (w, Err "No such file or directory")
                 else let c := fresh (named (made w)) in
                      ({| made := add_spawned c (made w); codes := delete c (codes w); stuck := stuck w |}, Ok c);
  child_id c := (1000 + c)%N;
  sigterm _ w := w;
  try_wait c w := match codes w !! c with Some k => (reap c w, Some k) | None => (w, None) end;
  wait_within _ c w := if decide (c ∈ stuck w) then (trouble c w, WaitFailed)
                       else (reap c w, Exited (default (Some 0%Z) (codes w !! c)));
  kill c w := (reap c w, Ok tt);
  create_scope sl n _ w := (w, Ok (sl +:+ "/" +:+ n));
  destroy_scope _ w := (w, Ok tt);
  slice_pact_infra := "pact.slice/infra.slice";
  http_get _ w := (w, Err "connection refused");
  tcp_connect _ w := (w, Ok tt);
|}.

#[export] Program Instance world_laws : ProcessLaws World := {| calls := made; ended := codes |}.
Next Obligation. simpl. intros b a w w' c H. case_decide; [done|]. injection H as <- <-. split; [apply is_fresh|done]. Qed.
Next Obligation. simpl. intros b a w w' e H. case_decide; [by simplify_eq|done]. Qed.
Next Obligation. done. Qed.
Next Obligation. simpl. intros c w w' code H. case_match; by simplify_eq. Qed.
Next Obligation. simpl. intros c w w' H. case_match; by simplify_eq. Qed.
Next Obligation. simpl. intros c w. by case_match. Qed.
Next Obligation. simpl. intros c c' w code Hne H. case_match; [|done]. simpl. by rewrite lookup_delete_ne. Qed.
Next Obligation. simpl. intros g c w. by case_decide. Qed.
Next Obligation. done. Qed.
Next Obligation. done. Qed.
Next Obligation. done. Qed.
Next Obligation. done. Qed.
Next Obligation. done. Qed.

Definition svc (name binary : string) (p : RestartPolicy) (order : N) : ServiceDecl :=
  {| svc_name := name; svc_binary := binary; svc_args := []; svc_restart := p; svc_restart_delay_seconds := 0;
     svc_depends_on := []; svc_order := order; svc_cgroup_memory_max := None; svc_cgroup_slice := None;
     svc_cgroup_cpu_weight := None; svc_health_check := None |}.
Definition ntp : ServiceDecl := svc "ntp" "chronyd" Always 1.
Definition log : ServiceDecl := svc "log" "syslogd" Never 2.
Definition bad : ServiceDecl := svc "bad" "missing" Always 3.
Definition w0 : World := {| made := {| spawned := ∅; collected := ∅; troubled := ∅ |}; codes := ∅; stuck := ∅ |}.

Definition started : PactSupervisor * World := (start_all [log; ntp] supervisor_new w0).1.
(** Both processes have terminated. *)
Definition crashed : World := {| made := made started.2; codes := {[0%N := Some 1%Z; 1%N := Some 0%Z]}; stuck := ∅ |}.


Lemma started_ok : sup_ok ∅ started.1 started.2.
Proof. exact (run_op_ok ∅ (OpStartAll [log; ntp]) supervisor_new w0 (sup_ok_new w0)). Qed.
Lemma crashed_ok : sup_ok ∅ started.1 crashed.
Proof. by apply (sup_ok_world ∅ started.1 started.2 crashed), started_ok. Qed.

End SupervisorSample.
Import SupervisorSample.



Lemma status_hides_crash_witness :
  let a := status ntp started.1 crashed in
  let b := supervision_tick supervision_config_default None false a.1.1 a.1.2 in
  ∃ ps, processes b.1.1 !! "ntp" = Some ps ∧ ps_state ps = Failed.
Proof.
  intros a b. apply (status_hides_crash ntp started.1 crashed a.1.1 a.1.2 a.2 b.1.1 b.1.2);
    [unfold a; by repeat rewrite <-surjective_pairing|by vm_compute|].
  apply rtc_once. exists supervision_config_default, false, b.2. simpl. fold b. by repeat rewrite <-surjective_pairing.
Defined.

Lemma racing_restart_orphans_witness :
  let s1 := (detect_crashed_services started.1 crashed).1 in
  let s2 := (start ntp s1.1 s1.2).1 in
  let r := do_restart ntp s2.1 s2.2 in
  pending ∅ r.1.2 2%N ∧ ¬ tracked r.1.1 2%N.
Proof.
  intros s1 s2 r. refine (racing_restart_orphans ∅ ntp s2.1 s2.2 r.1.1 r.1.2 _ 2%N _ _ _ _);
    [|by vm_compute..].
  eapply start_keeps_ok; [unfold s2; by repeat rewrite <-surjective_pairing|].
  eapply detect_loop_ok; [unfold s1; by repeat rewrite <-surjective_pairing|apply crashed_ok].
Defined.

Lemma start_all_ordered_witness :
  running (start_all [bad; log; ntp] supervisor_new w0).1.1 "ntp".
Proof.
  destruct (start_all_ordered [bad; log; ntp] supervisor_new w0
    (start_all [bad; log; ntp] supervisor_new w0).1.1 (start_all [bad; log; ntp] supervisor_new w0).1.2
    (Err "No such file or directory")) as (_ & _ & d & Hd & _ & Hsp & H); [by vm_compute|].
  apply (H ntp); [right; right; left|].
  destruct Hsp as (w1 & w2 & Hsp). simpl in Hsp. case_decide as Hm; [|done].
  set_unfold in Hd. destruct Hd as [->|[->|[->|[]]]]; [done|by vm_compute in Hm..].
Defined.

Lemma stop_all_stops_witness :
  ¬ running (stop_all [log; ntp] started.1 started.2).1 "log".
Proof.
  destruct (stop_all_stops [log; ntp] started.1 started.2 (stop_all [log; ntp] started.1 started.2).1
    (stop_all [log; ntp] started.1 started.2).2) as (H & _); [apply surjective_pairing|].
  apply (H log). left.
Defined.

Lemma memory_value_wraps_witness : parse_memory_value "17179869185G" = Some 1073741824%N.
Proof.
  destruct (memory_value_wraps 17179869185 "G" 1073741824) as [H _];
    [apply (bool_decide_unpack _); vm_compute; exact I|apply (bool_decide_unpack _); vm_compute; exact I|exact H].
Defined.
