(* ===== verification/Mounts.v ===== *)
(** * Shared image mounts and namespace handoff

    [MountRefManager] of crates/pact-agent/src/handoff/mounts.rs counts the
    allocations that use each image mount and unmounts unused images after a
    hold time; [HandoffServer] of handoff/mod.rs tracks the namespaces of
    allocations. Instants are nanoseconds; a failed [assert!] is [None]. *)

From S2P Require Import Prelude Text Types.
From stdpp Require Import options.
From Stdlib Require Import Ascii.

(** ** Data and operations *)

Record MountRefState := {
  mr_image_path : string;
  mr_mount_point : string;
  mr_refcount : N;
  mr_hold_start : option Z;
}.
Record MountRefManager := {
  mounts : gmap string MountRefState;
  hold_duration : Z;
  mount_base : string;
}.

Definition mount_manager_new (base : string) (hold_duration_secs : N) : MountRefManager :=
  {| mounts := ∅; hold_duration := seconds (Z.of_N hold_duration_secs); mount_base := base |}.
Definition with_mounts (m : MountRefManager) (ms : gmap string MountRefState) : MountRefManager :=
  {| mounts := ms; hold_duration := hold_duration m; mount_base := mount_base m |}.

(** The base directory and the file name of the image without ".sqfs". *)
Definition mount_point_of (base image_path : string) : string :=
  base +:+ "/" +:+ replace ".sqfs" "" (default image_path (last (Str.split "/"%char image_path))).

Definition acquire (image_path : string) (m : MountRefManager) : MountRefManager * string :=
  match mounts m !! image_path with
  | Some st =>
      (with_mounts m (<[image_path := {| mr_image_path := mr_image_path st; mr_mount_point := mr_mount_point st;
                          mr_refcount := wrap_u32 (mr_refcount st + 1); mr_hold_start := None |}]> (mounts m)),
       mr_mount_point st)
  | None =>
      let mount_point := mount_point_of (mount_base m) image_path in
      (with_mounts m (<[image_path := {| mr_image_path := image_path; mr_mount_point := mount_point;
                          mr_refcount := 1; mr_hold_start := None |}]> (mounts m)), mount_point)
  end.

Definition release (now : Z) (image_path : string) (m : MountRefManager) : option MountRefManager :=
  match mounts m !! image_path with
  | Some st =>
      if (0 <? mr_refcount st)%N then
        let refcount := (mr_refcount st - 1)%N in
        Some (with_mounts m (<[image_path :=
          {| mr_image_path := mr_image_path st; mr_mount_point := mr_mount_point st; mr_refcount := refcount;
             mr_hold_start := if (refcount =? 0)%N then Some now else mr_hold_start st |}]> (mounts m)))
      else None
  | None => Some m
  end.

Definition force_unmount (image_path : string) (m : MountRefManager) : MountRefManager :=
  with_mounts m (delete image_path (mounts m)).

(** Whether the hold time of an unused image is over; [elapsed] saturates. *)
Definition hold_expired (m : MountRefManager) (now : Z) (st : MountRefState) : bool :=
  (mr_refcount st =? 0)%N &&
  match mr_hold_start st with
  | Some start => (hold_duration m <=? Z.max 0 (now - start))%Z
  | None => false
  end.

Definition check_expired_holds (now : Z) (m : MountRefManager) : MountRefManager * list string :=
  let expired := (filter (λ p, hold_expired m now p.2) (map_to_list (mounts m))).*1 in
  (with_mounts m (foldr delete (mounts m) expired), expired).

Definition reconstruct_one (base : string) (now : Z) (ms : gmap string MountRefState) (p : string * N)
    : gmap string MountRefState :=
  <[p.1 := {| mr_image_path := p.1; mr_mount_point := mount_point_of base p.1; mr_refcount := p.2;
              mr_hold_start := if (p.2 =? 0)%N then Some now else None |}]> ms.
Definition reconstruct (now : Z) (active_mounts : list (string * N)) (m : MountRefManager) : MountRefManager :=
  with_mounts m (foldl (reconstruct_one (mount_base m) now) (mounts m) active_mounts).

Definition refcount (m : MountRefManager) (image_path : string) : option N := mr_refcount <$> mounts m !! image_path.

(** ** Namespace handoff

    The namespace types and the mount base are those of hpc-node. *)
Section handoff.
Context {NamespaceType : Type} (UENV_MOUNT_BASE : string).

Record NamespaceRequest := {
  nr_allocation_id : string;
  nr_namespaces : list NamespaceType;
  nr_uenv_image : option string;
}.
Record NamespaceResponse := {
  np_allocation_id : string;
  np_fd_types : list NamespaceType;
  np_uenv_mount_path : option string;
}.
Record AllocationNamespaces := {
  an_allocation_id : string;
  an_types : list NamespaceType;
  an_uenv_image : option string;
}.
Record HandoffServer := { allocations : gmap string AllocationNamespaces; ready : bool }.

Definition handoff_new : HandoffServer := {| allocations := ∅; ready := false |}.
Definition set_ready (h : HandoffServer) : HandoffServer := {| allocations := allocations h; ready := true |}.

(** [lock_free]: whether [try_write] gets the lock. *)
Definition create_namespaces (lock_free : bool) (request : NamespaceRequest) (h : HandoffServer)
    : HandoffServer * result NamespaceResponse string :=
  if negb (ready h) then (h, Err "node not ready")
  else
    let alloc := {| an_allocation_id := nr_allocation_id request; an_types := nr_namespaces request;
                    an_uenv_image := nr_uenv_image request |} in
    (if lock_free
     then {| allocations := <[nr_allocation_id request := alloc]> (allocations h); ready := ready h |} else h,
     Ok {| np_allocation_id := nr_allocation_id request; np_fd_types := nr_namespaces request;
           np_uenv_mount_path := (λ img, UENV_MOUNT_BASE +:+ "/" +:+ replace ".sqfs" "" img) <$>
                                 nr_uenv_image request |}).

Definition release_namespaces (lock_free : bool) (allocation_id : string) (h : HandoffServer) : HandoffServer :=
  if lock_free then {| allocations := delete allocation_id (allocations h); ready := ready h |} else h.
Definition on_allocation_ended (allocation_id : string) (h : HandoffServer) : HandoffServer :=
  {| allocations := delete allocation_id (allocations h); ready := ready h |}.

End handoff.

(** ** Counting users

    The specification: how many allocations use each image. A step of the
    manager together with the change of that count. *)

Abbreviation uses := (string → N).
Definition use_set (i : string) (n : N) (u : uses) : uses := λ j, if decide (i = j) then n else u j.
Definition use_add (i : string) (u : uses) : uses := use_set i (u i + 1) u.
Definition use_sub (i : string) (u : uses) : uses := use_set i (u i - 1) u.
(** The users an agent that restarts finds, image by image. *)
Definition use_found (found : list (string * N)) (u : uses) : uses := foldl (λ u p, use_set p.1 p.2 u) u found.

(** All operations. A forced unmount cuts the users of the image off: they
    are users no more, and may still release while it is not mounted; other
    releases are by users. *)
Inductive mount_step : MountRefManager * uses → MountRefManager * uses → Prop :=
| ms_acquire i m m' mp u : (u i < u32_max)%N → acquire i m = (m', mp) → mount_step (m, u) (m', use_add i u)
| ms_release i now m m' u : (0 < u i)%N → release now i m = Some m' → mount_step (m, u) (m', use_sub i u)
| ms_late_release i now m m' u : mounts m !! i = None → release now i m = Some m' → mount_step (m, u) (m', u)
| ms_force i m u : mount_step (m, u) (force_unmount i m, use_set i 0 u)
| ms_check now m m' expired u : check_expired_holds now m = (m', expired) → mount_step (m, u) (m', u)
| ms_reconstruct now found m u :
    Forall (λ p, (p.2 <= u32_max)%N) found → mount_step (m, u) (reconstruct now found m, use_found found u).

(** The manager agrees with the count. *)
Definition mounts_match (m : MountRefManager) (u : uses) : Prop :=
  ∀ i, match mounts m !! i with
       | Some st => mr_refcount st = u i ∧ (is_Some (mr_hold_start st) ↔ u i = 0%N) ∧ (u i <= u32_max)%N
       | None => u i = 0%N
       end.

Lemma foldr_delete_lookup {A} (l : list string) (ms : gmap string A) i :
  foldr delete ms l !! i = if decide (i ∈ l) then None else ms !! i.
Proof.
  induction l as [|x l IH]; [done|]. cbn [foldr].
  rewrite lookup_delete, IH. repeat case_decide; set_solver.
Qed.

Lemma elem_of_expired m now i :
  i ∈ (check_expired_holds now m).2 ↔ ∃ st, mounts m !! i = Some st ∧ hold_expired m now st = true.
Proof.
  simpl. rewrite list_elem_of_fmap. split.
  - intros ([j st] & -> & [H Hin]%list_elem_of_filter). apply elem_of_map_to_list in Hin.
    exists st. split; [done|]. by apply Is_true_true.
  - intros (st & Hst & H). exists (i, st). split; [done|]. apply list_elem_of_filter.
    split; [by apply Is_true_true|by apply elem_of_map_to_list].
Qed.

Lemma check_lookup m now i :
  mounts (check_expired_holds now m).1 !! i =
  match mounts m !! i with Some st => if hold_expired m now st then None else Some st | None => None end.
Proof.
  pose proof (elem_of_expired m now i) as He. simpl in *. rewrite foldr_delete_lookup.
  destruct (mounts m !! i) as [st|] eqn:Hi; case_decide as Hd; try done.
  - apply He in Hd as (? & [= <-] & ->). done.
  - case_match eqn:Hx; [|done]. destruct Hd. apply He. eauto.
Qed.

Lemma acquire_lookup i m j :
  mounts (acquire i m).1 !! j =
  if decide (i = j)
  then Some (match mounts m !! i with
             | Some st => {| mr_image_path := mr_image_path st; mr_mount_point := mr_mount_point st;
                             mr_refcount := wrap_u32 (mr_refcount st + 1); mr_hold_start := None |}
             | None => {| mr_image_path := i; mr_mount_point := mount_point_of (mount_base m) i;
                          mr_refcount := 1; mr_hold_start := None |}
             end)
  else mounts m !! j.
Proof. unfold acquire. destruct (mounts m !! i); simpl; rewrite lookup_insert; by case_decide. Qed.

Lemma acquire_match i m u : (u i < u32_max)%N → mounts_match m u → mounts_match (acquire i m).1 (use_add i u).
Proof.
  unfold u32_max. intros Hu Hm j. rewrite acquire_lookup. unfold use_add, use_set. case_decide as Hij; [|apply Hm]. subst j.
  specialize (Hm i). destruct (mounts m !! i) as [st|]; simpl.
  - destruct Hm as (-> & _ & _). unfold wrap_u32. rewrite N.mod_small by lia. unfold u32_max.
    split_and!; [done| |lia]. split; [by intros [? ?]|lia].
  - rewrite Hm. split_and!; [done| |done]. split; [by intros [? ?]|done].
Qed.

Lemma release_match i now m m' u :
  (0 < u i)%N → release now i m = Some m' → mounts_match m u → mounts_match m' (use_sub i u).
Proof.
  unfold release. intros Hu H Hm. pose proof (Hm i) as Hi. destruct (mounts m !! i) as [st|]; [|lia].
  destruct Hi as (Hr & Hh & Hb). rewrite Hr in H. destruct (0 <? u i)%N; simplify_eq. intros j. simpl.
  rewrite lookup_insert. unfold use_sub, use_set. case_decide as Hij; [subst j|apply Hm]. simpl. split_and!; [done| |lia].
  destruct (u i - 1 =? 0)%N eqn:Hz.
  - apply N.eqb_eq in Hz. split; [done|by eexists].
  - apply N.eqb_neq in Hz. rewrite Hh. lia.
Qed.

Lemma force_match i m u : mounts_match m u → mounts_match (force_unmount i m) (use_set i 0 u).
Proof. intros Hm j. simpl. rewrite lookup_delete. unfold use_set. case_decide; [done|apply Hm]. Qed.

Lemma reconstruct_match now found m u :
  Forall (λ p, (p.2 <= u32_max)%N) found → mounts_match m u → mounts_match (reconstruct now found m) (use_found found u).
Proof.
  unfold reconstruct, use_found. generalize (mount_base m) as base. intros base Hf. revert m u.
  induction Hf as [|[i n] found Hn _ IH]; intros m u Hm; [exact Hm|]. cbn [foldl fst snd].
  apply (IH (with_mounts m (reconstruct_one base now (mounts m) (i, n)))). intros j. unfold use_set, reconstruct_one. simpl. rewrite lookup_insert.
  case_decide; [|apply Hm]. simpl in *. split_and!; [done| |done].
  destruct (N.eqb_spec n 0) as [->|Hz]; [split; [done|by eexists]|split; [by intros [? ?]|done]].
Qed.

Lemma mount_step_match m u m' u' : mount_step (m, u) (m', u') → mounts_match m u → mounts_match m' u'.
Proof.
  inversion 1 as [i ? ? mp ? Hu Ha|i ? ? ? ? Hu Hr|i now ? ? ? Hn Hr| |now ? ? ex ? Hc|]; subst; intros Hm;
    [|by eapply release_match| |by apply force_match| |by apply reconstruct_match].
  { pose proof (acquire_match i m u Hu Hm) as H'. by rewrite Ha in H'. }
  { unfold release in Hr. rewrite Hn in Hr. by simplify_eq. }
  intros i. pose proof (check_lookup m now i) as Hl. rewrite Hc in Hl. cbn [fst] in Hl. rewrite Hl. specialize (Hm i). destruct (mounts m !! i) as [st|]; [|done].
  destruct (hold_expired m now st) eqn:Hx; [|done]. unfold hold_expired in Hx.
  apply andb_true_iff in Hx as [Hz%N.eqb_eq _]. destruct Hm as (<- & _). done.
Qed.

Lemma mounts_match_reachable base hold m u :
  rtc mount_step (mount_manager_new base hold, λ _, 0%N) (m, u) → mounts_match m u.
Proof.
  intros Hr. remember (mount_manager_new base hold, λ _, 0%N) as a eqn:Ha. remember (m, u) as b eqn:Hb.
  assert (H0 : mounts_match a.1 a.2) by (subst a; intros i; cbn; by rewrite lookup_empty). clear Ha.
  revert H0. induction Hr as [x|[m1 u1] [m2 u2] z Hs _ IH]; intros H0; [by subst|].
  apply IH; [done|]. by eapply mount_step_match.
Qed.

(** C21: WI2, reference counts are accurate: after any acquires, releases,
    forced unmounts, hold checks and reconstructions, the count of every
    mounted image is the number of its users, an image with users is mounted
    and has no hold timer, a mounted image without users has one, and a release
    by a user does not hit the assertion. Users are the allocations that
    acquired the image since its last forced unmount, or that a reconstruction
    counted, and did not release it: fewer than 2^32 for each image. Allocations
    that a forced unmount cut off must not release while the image is mounted
    again. *)
Theorem refcounts_accurate base hold m u i :
  rtc mount_step (mount_manager_new base hold, λ _, 0%N) (m, u) →
  default 0%N (refcount m i) = u i ∧
  ((0 < u i)%N → ∃ st, mounts m !! i = Some st ∧ mr_hold_start st = None) ∧
  (∀ st, mounts m !! i = Some st → u i = 0%N → is_Some (mr_hold_start st)) ∧
  ((0 < u i)%N → ∀ now, is_Some (release now i m)).
Proof.
  intros Hm%mounts_match_reachable. specialize (Hm i). unfold refcount, release.
  destruct (mounts m !! i) as [st|]; simpl.
  - destruct Hm as (Hr & Hh & _). rewrite Hr. split_and!; [done| | |].
    + intros Hu. exists st. split; [done|]. destruct (mr_hold_start st); [|done].
      assert (u i = 0%N) by (apply Hh; by eexists). lia.
    + intros ? [= <-] Hz. by apply Hh.
    + intros Hu now. apply N.ltb_lt in Hu as ->. by eexists.
  - split_and!; try done; lia.
Qed.

(** WI3, a hold check at a time unmounts exactly the images that no
    allocation uses and whose last user left at least the hold time ago, and
    reports exactly those; every other mount is kept unchanged. *)
Theorem holds_expire_on_time base hold m u now i st :
  rtc mount_step (mount_manager_new base hold, λ _, 0%N) (m, u) → mounts m !! i = Some st →
  let '(m', expired) := check_expired_holds now m in
  (i ∈ expired ↔ mounts m' !! i = None) ∧
  (mounts m' !! i = None ↔
    u i = 0%N ∧ ∃ t, mr_hold_start st = Some t ∧ (hold_duration m <= Z.max 0 (now - t))%Z) ∧
  (mounts m' !! i = None ∨ mounts m' !! i = Some st).
Proof.
  intros Hm%mounts_match_reachable Hi. specialize (Hm i). rewrite Hi in Hm. destruct Hm as (Hr & _ & _).
  pose proof (elem_of_expired m now i) as He. pose proof (check_lookup m now i) as Hc.
  destruct (check_expired_holds now m) as [m' expired]. cbn [fst snd] in *. rewrite Hc, Hi.
  assert (Hx : hold_expired m now st = true ↔
    u i = 0%N ∧ ∃ t, mr_hold_start st = Some t ∧ (hold_duration m <= Z.max 0 (now - t))%Z).
  { unfold hold_expired. rewrite andb_true_iff, N.eqb_eq, Hr. destruct (mr_hold_start st) as [t|].
    - rewrite Z.leb_le. naive_solver.
    - naive_solver. }
  rewrite <-Hx, He. destruct (hold_expired m now st) eqn:Hb; naive_solver.
Qed.

(** WI6, reconstruction after a restart: the counts are those of the
    correlation of mounts and allocations, and images without users get a
    fresh hold time. *)
Theorem reconstruct_counts base hold now l i k :
  NoDup l.*1 → (i, k) ∈ l →
  ∃ st, mounts (reconstruct now l (mount_manager_new base hold)) !! i = Some st ∧ mr_refcount st = k ∧
    mr_mount_point st = mount_point_of base i ∧ mr_hold_start st = if (k =? 0)%N then Some now else None.
Proof.
  unfold reconstruct. simpl. generalize (∅ : gmap string MountRefState).
  assert (Hkeep : ∀ l ms, i ∉ l.*1 → foldl (reconstruct_one base now) ms l !! i = ms !! i).
  { clear l. induction l as [|[j c] l IH]; simpl; intros ms Hi; [done|]. apply not_elem_of_cons in Hi as [Hij Hi].
    unfold reconstruct_one at 2. by rewrite IH, lookup_insert_ne. }
  induction l as [|[j c] l IH]; simpl; intros ms Hnd Hin; [by apply not_elem_of_nil in Hin|].
  apply NoDup_cons in Hnd as [Hn Hnd]. apply elem_of_cons in Hin as [[= <- <-]|Hin]; [|by apply IH].
  rewrite Hkeep by done. unfold reconstruct_one. rewrite lookup_insert_eq. by eexists.
Qed.

(** A forced unmount forgets the users: if an image with users is
    unmounted by force and then acquired again, the release after the new
    user's own hits the assertion and panics. *)
Theorem release_after_force_panics i m now now' m1 :
  release now i (acquire i (force_unmount i m)).1 = Some m1 → release now' i m1 = None.
Proof.
  unfold release. rewrite acquire_lookup, decide_True by done. unfold force_unmount. simpl.
  rewrite lookup_delete_eq. simpl. intros [= <-]. simpl. by rewrite lookup_insert_eq.
Qed.

(** The handoff answers only when the node is ready, with the requested
    namespaces; it tracks the allocation exactly when it got the lock, and
    reports success either way. *)
Theorem handoff_tracks {NT} base free (r : NamespaceRequest (NamespaceType := NT)) h h' a :
  create_namespaces base free r h = (h', a) →
  (is_ok a = ready h) ∧ (∀ p, a = Ok p → np_allocation_id p = nr_allocation_id r ∧ np_fd_types p = nr_namespaces r) ∧
  (is_ok a = true → allocations h !! nr_allocation_id r = None →
    (is_Some (allocations h' !! nr_allocation_id r) ↔ free = true) ∧
    allocations (on_allocation_ended (nr_allocation_id r) h') = allocations h) ∧
  (is_ok a = false → h' = h).
Proof.
  unfold create_namespaces. intros H. destruct (ready h) eqn:Hr; simpl in H; simplify_eq; [|done].
  split_and!; [done|intros ? [= <-]; done| |done]. intros _ Hn. destruct free; simpl.
  - rewrite lookup_insert_eq. split; [split; [done|by eexists]|].
    by rewrite delete_insert_eq, delete_id.
  - rewrite Hn, delete_id by done. split; [|done]. split; [by intros [? ?]|done].
Qed.

Module MountSample.
Definition img : string := "/images/pytorch-2.5.sqfs".
Definition m0 : MountRefManager := mount_manager_new "/run/pact/uenv" 60.
Definition m1 : MountRefManager := (acquire img m0).1.
Definition m2 : MountRefManager := default m1 (release 5 img m1).
Definition none : uses := λ _, 0%N.
Lemma used_once : rtc mount_step (m0, none) (m1, use_add img none).
Proof. apply rtc_once. by eapply ms_acquire. Qed.
Lemma unused_again : rtc mount_step (m0, none) (m2, use_sub img (use_add img none)).
Proof. eapply rtc_r; [apply used_once|]. by apply (ms_release img 5). Qed.
End MountSample.
Import MountSample.

(** An image is reconstructed with two users, unmounted by force, released by
    one of the two and acquired again. *)
Lemma refcounts_accurate_witness :
  let m := (acquire img (force_unmount img (reconstruct 9 [(img, 2%N)] m0))).1 in
  default 0%N (refcount m img) = 1%N ∧ is_Some (release 7 img m).
Proof.
  intros m.
  destruct (refcounts_accurate "/run/pact/uenv" 60 m (use_add img (use_set img 0 (use_found [(img, 2%N)] none))) img)
    as (H1 & _ & _ & H4).
  { eapply rtc_l; [apply (ms_reconstruct 9 [(img, 2%N)]); by repeat constructor|].
    eapply rtc_l; [apply (ms_force img)|]. eapply rtc_l; [by apply (ms_late_release img 5)|].
    apply rtc_once. by eapply ms_acquire. }
  split; [exact H1|]. by apply H4.
Defined.

Lemma holds_expire_on_time_witness :
  mounts (check_expired_holds (seconds 60 + 5) m2).1 !! img = None ∧
  mounts (check_expired_holds (seconds 60 + 4) m2).1 !! img ≠ None.
Proof.
  split.
  - apply (holds_expire_on_time "/run/pact/uenv" 60 m2 _ (seconds 60 + 5) img
      {| mr_image_path := img; mr_mount_point := mount_point_of "/run/pact/uenv" img; mr_refcount := 0;
         mr_hold_start := Some 5%Z |} unused_again); [by vm_compute|].
    split; [done|]. exists 5%Z. split; [done|]. by vm_compute.
  - intros H. apply (holds_expire_on_time "/run/pact/uenv" 60 m2 _ (seconds 60 + 4) img
      {| mr_image_path := img; mr_mount_point := mount_point_of "/run/pact/uenv" img; mr_refcount := 0;
         mr_hold_start := Some 5%Z |} unused_again) in H; [|by vm_compute].
    destruct H as (_ & t & [= <-] & Ht). vm_compute in Ht. by apply Ht.
Defined.

Lemma reconstruct_counts_witness :
  ∃ st, mounts (reconstruct 9 [(img, 2%N); ("b.sqfs", 0%N)] m0) !! "b.sqfs" = Some st ∧ mr_refcount st = 0%N ∧
    mr_mount_point st = mount_point_of "/run/pact/uenv" "b.sqfs" ∧ mr_hold_start st = Some 9%Z.
Proof.
  apply (reconstruct_counts "/run/pact/uenv" 60 9 [(img, 2%N); ("b.sqfs", 0%N)] "b.sqfs" 0);
    [by apply (bool_decide_unpack _)|by right; left].
Defined.

Lemma release_after_force_panics_witness : release 9 img m2 = None.
Proof. by apply (release_after_force_panics img m1 5 9 m2). Defined.

Lemma handoff_tracks_witness :
  allocations (create_namespaces "/run/pact/uenv" false
    {| nr_allocation_id := "a1"; nr_namespaces := ["pid"]; nr_uenv_image := None |} (set_ready handoff_new)).1 !! "a1" = None.
Proof.
  destruct (handoff_tracks "/run/pact/uenv" false
    {| nr_allocation_id := "a1"; nr_namespaces := ["pid"]; nr_uenv_image := None |} (set_ready handoff_new)
    _ _ eq_refl) as (_ & _ & H & _).
  destruct (H eq_refl eq_refl) as [[H1 _] _]. simpl in *.
  apply eq_None_not_Some. intros Hs. by specialize (H1 Hs).
Defined.
