(* ===== verification/Whitelist.v ===== *)
(** * Tokens, command whitelist and argument check of the remote shell

    crates/pact-agent/src/shell/auth.rs (token validation and roles) and
    shell/whitelist.rs (the commands a node may run remotely, and the check
    of their arguments). JWT decoding and the key server are outside the
    program and are the class [JwtApi]. *)

From S2P Require Import Prelude Text Types.
From stdpp Require Import options.
From Stdlib Require Import Ascii.

(** ** Tokens *)

Inductive StringOrVec := SvNone | SvSingle (s : string) | SvMultiple (v : list string).

Record TokenClaims := {
  tc_sub : string;
  tc_aud : StringOrVec;
  tc_iss : string;
  tc_exp : N;
  tc_iat : N;
  tc_pact_role : option string;
  tc_pact_principal_type : option string;
}.

Record AuthConfig := {
  ac_issuer : string;
  ac_audience : string;
  ac_hmac_secret : option bytes;
  ac_jwks_url : option string;
}.

Record Jwk := {
  jwk_kty : string;
  jwk_kid : option string;
  jwk_alg : option string;
  jwk_n : option string;
  jwk_e : option string;
  jwk_use : option string;
}.

Inductive AuthError :=
| MissingToken | InvalidFormat | TokenExpired
| InvalidAudience (expected : string) | InvalidIssuer (expected : string)
| InvalidToken (detail : string) | NoSigningKey
| JwksFetchError (detail : string) | InsufficientPrivileges (detail : string).

(** The error kinds of jsonwebtoken that the code tells apart. *)
Inductive JwtError := ExpiredSignature | JwtInvalidAudience | JwtInvalidIssuer | JwtOther (text : string).

(** [decode] with expiry checked and the given audience and issuer. *)
Class JwtApi := {
  decode_hs256 : bytes → string → string → string → result TokenClaims JwtError;
  decode_rs256 : string * string → string → string → string → result TokenClaims JwtError;
  rsa_components : string → string → option string;  (* the error, if any *)
  decode_header_kid : string → result (option string) string;
}.

Definition sv_contains (a : StringOrVec) (value : string) : bool :=
  match a with
  | SvNone => false
  | SvSingle s => bool_decide (s = value)
  | SvMultiple v => existsb (λ s, bool_decide (s = value)) v
  end.

Definition extract_bearer_token (metadata_value : string) : option string :=
  match Str.strip_prefix "Bearer " metadata_value with
  | Some t => Some t
  | None => Str.strip_prefix "bearer " metadata_value
  end.

Definition map_jwt_error (e : JwtError) (config : AuthConfig) : AuthError :=
  match e with
  | ExpiredSignature => TokenExpired
  | JwtInvalidAudience => InvalidAudience (ac_audience config)
  | JwtInvalidIssuer => InvalidIssuer (ac_issuer config)
  | JwtOther text => InvalidToken text
  end.

Definition validate_token `{JwtApi} (token : string) (config : AuthConfig) : result TokenClaims AuthError :=
  match ac_hmac_secret config with
  | None => Err NoSigningKey
  | Some secret =>
      match decode_hs256 secret (ac_audience config) (ac_issuer config) token with
      | Ok claims => Ok claims
      | Err e => Err (map_jwt_error e config)
      end
  end.

(** The cache of signing keys. *)
Record JwksCache := { jc_keys : list Jwk; jc_fetched_at : option Z; jc_ttl : Z }.
Definition jwks_cache_new : JwksCache := {| jc_keys := []; jc_fetched_at := None; jc_ttl := seconds 3600 |}.

(** [remote]: what the key server answers, if it is asked. *)
Definition fetch (now : Z) (remote : result (list Jwk) AuthError) (c : JwksCache)
    : JwksCache * result (list Jwk) AuthError :=
  let valid := match jc_fetched_at c with
               | Some t => (Z.max 0 (now - t) <? jc_ttl c)%Z && negb (bool_decide (jc_keys c = []))
               | None => false
               end in
  if valid then (c, Ok (jc_keys c))
  else match remote with
       | Ok keys => ({| jc_keys := keys; jc_fetched_at := Some now; jc_ttl := jc_ttl c |}, Ok keys)
       | Err e => if bool_decide (jc_keys c = []) then (c, Err e) else (c, Ok (jc_keys c))
       end.

Definition set_keys (now : Z) (keys : list Jwk) (c : JwksCache) : JwksCache :=
  {| jc_keys := keys; jc_fetched_at := Some now; jc_ttl := jc_ttl c |}.

(** [trim_end_matches('/')]. *)
Fixpoint trim_end_slashes (s : string) : string :=
  match s with
  | EmptyString => EmptyString
  | String a s' =>
      match trim_end_slashes s' with
      | EmptyString => if decide (a = "/"%char) then EmptyString else String a EmptyString
      | t => String a t
      end
  end.
Definition jwks_url (config : AuthConfig) : string :=
  match ac_jwks_url config with
  | Some u => u
  | None => trim_end_slashes (ac_issuer config) +:+ "/.well-known/jwks.json"
  end.

(** Whether a key can have signed a token with the given key id. *)
Definition jwk_matches (token_kid : option string) (k : Jwk) : bool :=
  bool_decide (jwk_kty k = "RSA") && bool_decide (is_Some (jwk_n k) ∧ is_Some (jwk_e k)) &&
  match token_kid, jwk_kid k with
  | Some tk, Some kk => bool_decide (tk = kk)
  | Some _, None => false
  | None, _ => true
  end.

(** The loop over the matching keys, with the last error. *)
Fixpoint try_keys `{JwtApi} (token : string) (config : AuthConfig) (last_err : AuthError) (keys : list Jwk)
    : result TokenClaims AuthError :=
  match keys with
  | [] => Err last_err
  | k :: keys' =>
      let n := default "" (jwk_n k) in
      let e := default "" (jwk_e k) in
      match rsa_components n e with
      | Some err => try_keys token config (InvalidToken err) keys'
      | None =>
          match decode_rs256 (n, e) (ac_audience config) (ac_issuer config) token with
          | Ok claims => Ok claims
          | Err err => try_keys token config (map_jwt_error err config) keys'
          end
      end
  end.

Definition validate_token_with_jwks `{JwtApi} (now : Z) (remote : string → result (list Jwk) AuthError)
    (token : string) (config : AuthConfig) (c : JwksCache) : JwksCache * result TokenClaims AuthError :=
  let hs := match ac_hmac_secret config with Some _ => validate_token token config | None => Err NoSigningKey end in
  match hs with
  | Ok claims => (c, Ok claims)
  | Err _ =>
      match fetch now (remote (jwks_url config)) c with
      | (c', Err e) => (c', Err e)
      | (c', Ok []) => (c', Err NoSigningKey)
      | (c', Ok keys) =>
          (c', match decode_header_kid token with
               | Err e => Err (InvalidToken e)
               | Ok kid =>
                   match filter (λ k, jwk_matches kid k) keys with
                   | [] => Err (InvalidToken ("no matching JWKS key for kid " +:+ debug_option kid))
                   | ks => try_keys token config NoSigningKey ks
                   end
               end)
      end
  end.

Definition claims_to_identity (claims : TokenClaims) : Identity :=
  {| principal := tc_sub claims;
     principal_type := if decide (tc_pact_principal_type claims = Some "agent") then Agent
                       else if decide (tc_pact_principal_type claims = Some "service") then Service else Human;
     role := default "" (tc_pact_role claims) |}.

Definition is_platform_admin (i : Identity) : bool := bool_decide (role i = "pact-platform-admin").
Definition has_ops_role (i : Identity) (vcluster : string) : bool :=
  bool_decide (role i = "pact-platform-admin") || bool_decide (role i = "pact-ops-" +:+ vcluster).
Definition has_viewer_role (i : Identity) (vcluster : string) : bool :=
  has_ops_role i vcluster || bool_decide (role i = "pact-viewer-" +:+ vcluster).

(** ** The whitelist *)

Record WhitelistEntry := {
  wl_command : string;
  wl_state_changing : bool;
  wl_description : string;
  wl_binary_path : option string;
}.
Record WhitelistManager := {
  exec_whitelist : gmap string WhitelistEntry;
  shell_whitelist : gmap string WhitelistEntry;
  learning_mode : bool;
  denied_commands : list string;
}.

Definition default_commands : list (string * bool * string) :=
  [("nvidia-smi", false, "NVIDIA GPU status and diagnostics");
   ("rocm-smi", false, "AMD GPU status and diagnostics");
   ("echo", false, "Print arguments");
   ("dmesg", false, "Kernel ring buffer");
   ("lspci", false, "PCI device listing");
   ("lsmod", false, "Loaded kernel modules");
   ("lsblk", false, "Block device listing");
   ("lscpu", false, "CPU information");
   ("uname", false, "System information");
   ("hostname", false, "Show hostname");
   ("uptime", false, "System uptime");
   ("free", false, "Memory usage");
   ("df", false, "Disk usage");
   ("mount", true, "Mount operations (can mount filesystems)");
   ("ps", false, "Process listing");
   ("top", false, "Process monitor");
   ("htop", false, "Interactive process monitor");
   ("ip", true, "Network configuration");
   ("ss", false, "Socket statistics");
   ("ping", false, "Network connectivity test");
   ("traceroute", false, "Network path tracing");
   ("ethtool", false, "Network interface details");
   ("cat", false, "Display file contents");
   ("head", false, "Display first lines");
   ("tail", false, "Display last lines");
   ("wc", false, "Word/line count");
   ("ls", false, "List directory contents");
   ("stat", false, "File status");
   ("file", false, "File type identification");
   ("md5sum", false, "Compute MD5 checksum");
   ("sha256sum", false, "Compute SHA-256 checksum");
   ("diff", false, "Compare files");
   ("grep", false, "Search file contents");
   ("journalctl", false, "Systemd journal viewer");
   ("sysctl", true, "Kernel parameter query/set");
   ("systemctl", true, "Service management");
   ("modprobe", true, "Load kernel module");
   ("umount", true, "Unmount filesystem")].

Definition default_entry (d : string * bool * string) : WhitelistEntry :=
  {| wl_command := d.1.1; wl_state_changing := d.1.2; wl_description := d.2; wl_binary_path := None |}.
Definition load_defaults (m : gmap string WhitelistEntry) : gmap string WhitelistEntry :=
  foldl (λ m d, <[d.1.1 := default_entry d]> m) m default_commands.

Definition whitelist_new (learning : bool) : WhitelistManager :=
  {| exec_whitelist := load_defaults ∅; shell_whitelist := load_defaults ∅; learning_mode := learning;
     denied_commands := [] |}.

Definition is_exec_allowed (w : WhitelistManager) (command : string) : bool :=
  bool_decide (is_Some (exec_whitelist w !! command)).
Definition is_shell_allowed (w : WhitelistManager) (command : string) : bool :=
  bool_decide (is_Some (shell_whitelist w !! command)).
Definition is_state_changing (w : WhitelistManager) (command : string) : bool :=
  match exec_whitelist w !! command with Some e => wl_state_changing e | None => false end.

Definition record_denied (command : string) (w : WhitelistManager) : WhitelistManager :=
  if learning_mode w && negb (bool_decide (command ∈ denied_commands w))
  then {| exec_whitelist := exec_whitelist w; shell_whitelist := shell_whitelist w;
          learning_mode := learning_mode w; denied_commands := denied_commands w ++ [command] |}
  else w.
Definition clear_denied (w : WhitelistManager) : WhitelistManager :=
  {| exec_whitelist := exec_whitelist w; shell_whitelist := shell_whitelist w; learning_mode := learning_mode w;
     denied_commands := [] |}.

(** A command named by the vCluster policy, if it is not listed yet. *)
Definition add_from_policy (m : gmap string WhitelistEntry) (cmd : string) : gmap string WhitelistEntry :=
  match m !! cmd with
  | Some _ => m
  | None => <[cmd := {| wl_command := cmd; wl_state_changing := false;
                        wl_description := "Added from vCluster policy"; wl_binary_path := None |}]> m
  end.
Definition update_exec_whitelist (commands : list string) (w : WhitelistManager) : WhitelistManager :=
  {| exec_whitelist := foldl add_from_policy (exec_whitelist w) commands; shell_whitelist := shell_whitelist w;
     learning_mode := learning_mode w; denied_commands := denied_commands w |}.
Definition update_shell_whitelist (commands : list string) (w : WhitelistManager) : WhitelistManager :=
  {| exec_whitelist := exec_whitelist w; shell_whitelist := foldl add_from_policy (shell_whitelist w) commands;
     learning_mode := learning_mode w; denied_commands := denied_commands w |}.

(** [Path::join]. *)
Definition path_join (dir file : string) : string :=
  if Str.starts_with file "/" then file
  else if Str.is_empty dir then file
  else match Str.strip_suffix "/" dir with Some _ => dir +:+ file | None => dir +:+ "/" +:+ file end.

(** [path_exists]: the file system; [path_var] the PATH variable. *)
Definition resolve_entry (path_exists : string → bool) (path_var : string) (e : WhitelistEntry) : WhitelistEntry :=
  match wl_binary_path e with
  | Some _ => e
  | None =>
      let candidates := (λ dir, path_join dir (wl_command e)) <$> Str.split ":"%char path_var in
      {| wl_command := wl_command e; wl_state_changing := wl_state_changing e; wl_description := wl_description e;
         wl_binary_path := snd <$> list_find (λ p, path_exists p = true) candidates |}
  end.
Definition resolve_binary_paths (path_exists : string → bool) (path_var : string) (w : WhitelistManager)
    : WhitelistManager :=
  {| exec_whitelist := resolve_entry path_exists path_var <$> exec_whitelist w;
     shell_whitelist := resolve_entry path_exists path_var <$> shell_whitelist w;
     learning_mode := learning_mode w; denied_commands := denied_commands w |}.

Definition risky : list (string * string) :=
  [("vi", "Can spawn :!bash — use 'view' (read-only) instead");
   ("vim", "Can spawn :!bash — use 'view' (read-only) instead");
   ("less", "Can spawn !cmd — set LESSSECURE=1 or exclude");
   ("more", "Can spawn !cmd — set LESSSECURE=1 or exclude");
   ("man", "Uses less/more pager — same escape risk");
   ("python", "Arbitrary code execution");
   ("python3", "Arbitrary code execution");
   ("perl", "Arbitrary code execution");
   ("ruby", "Arbitrary code execution");
   ("lua", "Arbitrary code execution");
   ("node", "Arbitrary code execution");
   ("bash", "Unrestricted shell");
   ("sh", "Unrestricted shell");
   ("zsh", "Unrestricted shell");
   ("find", "-exec flag enables arbitrary execution");
   ("xargs", "Can execute arbitrary commands");
   ("awk", "system() function enables execution");
   ("nawk", "system() function enables execution");
   ("gawk", "system() function enables execution")].
Definition audit_escape_vectors (commands : list string) : list (string * string) :=
  omap (λ cmd, (λ p, (cmd, p.2.2)) <$> list_find (λ p, p.1 = cmd) risky) commands.

(** ** Arguments *)

Definition BLOCKED_PATHS : list string :=
  ["/etc/shadow"; "/etc/gshadow"; "/etc/master.passwd"; "/root/"; "/.ssh/"; "/etc/ssl/private/"; "/etc/pact/ca/";
   "/run/pact/ca/"].
Definition SENSITIVE_PREFIXES : list string := ["/etc/shadow"; "/etc/gshadow"; "/root"].
Definition file_readers : list string :=
  ["cat"; "head"; "tail"; "grep"; "less"; "diff"; "wc"; "file"; "md5sum"; "sha256sum"; "stat"].

(** One component of the path, with the stack in reverse. *)
Definition push_component (stack : list string) (part : string) : list string :=
  if decide (part = "..") then tail stack
  else if decide (part = "." ∨ part = "") then stack
  else part :: stack.
Definition resolve_components (parts : list string) : list string :=
  reverse (foldl push_component [] parts).
Definition normalize (arg : string) : string :=
  "/" +:+ Str.join "/" (resolve_components (Str.split "/"%char arg)).

Definition skipped (arg : string) : bool := negb (Str.starts_with arg "/") && negb (Str.contains arg "..").

Definition blocked (normalized : string) : bool :=
  existsb (λ b, bool_decide (normalized = b) || Str.starts_with normalized b || Str.contains normalized b) BLOCKED_PATHS.
Definition sensitive (command normalized : string) : bool :=
  bool_decide (command ∈ file_readers) && existsb (Str.starts_with normalized) SENSITIVE_PREFIXES.

Fixpoint validate_args (command : string) (args : list string) : result unit string :=
  match args with
  | [] => Ok tt
  | arg :: args' =>
      if skipped arg then validate_args command args'
      else
        let normalized := normalize arg in
        if blocked normalized
        then Err ("access denied: " +:+ command +:+ " cannot access " +:+ arg +:+ " (sensitive path)")
        else if sensitive command normalized
        then Err ("access denied: " +:+ command +:+ " cannot read " +:+ arg +:+ " (sensitive path)")
        else validate_args command args'
  end.

(** ** Lemmas on paths *)

(** The text of a resolved path, component by component. *)
Fixpoint path_text (cs : list string) : string :=
  match cs with [] => "" | c :: cs' => "/" +:+ c +:+ path_text cs' end.

Lemma path_text_app l1 l2 : path_text (l1 ++ l2) = path_text l1 +:+ path_text l2.
Proof. induction l1 as [|c l1 IH]; simpl; [done|]. rewrite IH. by rewrite !append_assoc. Qed.

Lemma join_path_text cs : cs ≠ [] → "/" +:+ Str.join "/" cs = path_text cs.
Proof.
  induction cs as [|c cs IH]; [done|]. intros _. destruct cs as [|c' cs].
  - cbn. by rewrite append_nil_r.
  - change (path_text (c :: c' :: cs)) with ("/" +:+ c +:+ path_text (c' :: cs)). by rewrite <-IH.
Qed.

Lemma contains_middle l p r : Str.contains (l +:+ p +:+ r) p = true.
Proof. apply contains_true. by exists l, r. Qed.

Lemma blocked_pattern b s : b ∈ BLOCKED_PATHS → Str.contains s b = true → blocked s = true.
Proof.
  intros Hb Hs. unfold blocked. apply existsb_exists. exists b.
  split; [by apply list_elem_of_In|]. by rewrite Hs, orb_true_r.
Qed.

Lemma validate_args_each command args arg :
  validate_args command args = Ok tt → arg ∈ args → skipped arg = false →
  blocked (normalize arg) = false ∧ sensitive command (normalize arg) = false.
Proof.
  induction args as [|a args IH]; cbn [validate_args]; intros H Hin Hs; [by apply not_elem_of_nil in Hin|].
  apply elem_of_cons in Hin as [->|Hin].
  - rewrite Hs in H. destruct (blocked (normalize a)); [done|]. by destruct (sensitive command (normalize a)).
  - apply IH; [|done..]. destruct (skipped a); [done|]. destruct (blocked (normalize a)); [done|].
    by destruct (sensitive command (normalize a)).
Qed.

Lemma validate_args_accepts command args :
  (∀ arg, arg ∈ args → skipped arg = false →
    blocked (normalize arg) = false ∧ sensitive command (normalize arg) = false) →
  validate_args command args = Ok tt.
Proof.
  induction args as [|a args IH]; cbn [validate_args]; intros H; [done|].
  rewrite IH by (intros; apply H; [by right|done]).
  destruct (skipped a) eqn:Hs; [done|]. destruct (H a) as [-> ->]; [left|done|done].
Qed.

Definition resolve_path (arg : string) : list string := resolve_components (Str.split "/"%char arg).

(** *** Where a path leads *)

(** A walk in a tree of directories without links, from one directory, given
    by its names from the root, by the components of a path: a name is
    entered, two dots lead to the directory above, which for the root is the
    root itself, and a dot or nothing leads nowhere else. *)
Inductive walks : list string → list string → list string → Prop :=
| walks_end at_ : walks at_ [] at_
| walks_stay at_ c cs to : c = "." ∨ c = "" → walks at_ cs to → walks at_ (c :: cs) to
| walks_up at_ name cs to : walks at_ cs to → walks (at_ ++ [name]) (".." :: cs) to
| walks_root cs to : walks [] cs to → walks [] (".." :: cs) to
| walks_into at_ c cs to : c ∉ ["."; ".."; ""] → walks (at_ ++ [c]) cs to → walks at_ (c :: cs) to.

(** The file a path names: its components are the texts between its slashes,
    and the walk starts at the root. *)
Definition leads_to (path : string) (to : list string) : Prop :=
  ∃ cs, cs ≠ [] ∧ path = Str.join "/" cs ∧ Forall (λ c, char_free "/"%char c = true) cs ∧ walks [] cs to.

Lemma push_component_walks stack cs to :
  walks (reverse stack) cs to ↔ to = reverse (foldl push_component stack cs).
Proof.
  revert stack. induction cs as [|c cs IH]; intros stack; simpl.
  - split; [by inversion 1|]. intros ->. constructor.
  - rewrite <- IH. unfold push_component. case_decide as Hup; [subst c|case_decide as Hst].
    + split.
      * inversion 1 as [|? ? ? ? [|]|at_ name ? ? Hw Heq|? ? Hw Heq|]; subst; [done|done| | |set_solver].
        -- destruct stack as [|x stack]; [by apply app_nil in Heq as [_ ?]|]. rewrite reverse_cons in Heq.
           apply app_inj_tail in Heq as [E _]. simpl. by rewrite <- E.
        -- destruct stack as [|x stack]; [done|]. rewrite reverse_cons in Heq. by apply app_cons_not_nil in Heq.
      * destruct stack as [|x stack]; simpl; [apply walks_root|]. rewrite reverse_cons. apply walks_up.
    + split; [|by apply walks_stay]. inversion 1; subst; [done|naive_solver|naive_solver|]. set_solver.
    + rewrite reverse_cons. split; [|apply walks_into; set_solver]. inversion 1; subst; [naive_solver|done|done|done].
Qed.

Lemma split_pieces c s : Forall (λ x, char_free c x = true) (Str.split c s).
Proof.
  induction s as [|a s IH]; [by repeat constructor|]. cbn [Str.split]. case_decide as Hd; [by constructor|].
  destruct (Str.split c s) as [|x l]; [|apply Forall_cons in IH as [Hx Hl]]; constructor; try done; simpl; by rewrite bool_decide_eq_false_2.
Qed.

(** The code's resolution finds the file a path names, and every path names
    exactly one. *)
Lemma resolve_path_leads path to : leads_to path to ↔ to = resolve_path path.
Proof.
  unfold resolve_path, resolve_components. rewrite <- (push_component_walks [] _ to). split.
  - intros (cs & Hne & -> & Hf & Hw). by rewrite (split_join "/"%char cs Hne Hf).
  - intros Hw. exists (Str.split "/"%char path). split_and!; [apply split_not_nil|symmetry; apply join_split|apply split_pieces|done].
Qed.

(** The directories below which, and the files at and below which, nothing
    may be accessed. *)
Definition blocked_dirs : list (list string) :=
  [["root"]; [".ssh"]; ["etc"; "ssl"; "private"]; ["etc"; "pact"; "ca"]; ["run"; "pact"; "ca"]].
Definition blocked_files : list (list string) := [["etc"; "shadow"]; ["etc"; "gshadow"]; ["etc"; "master.passwd"]].

Lemma blocked_dir_text d l1 x l2 :
  d ∈ blocked_dirs → blocked (path_text (l1 ++ d ++ x :: l2)) = true.
Proof.
  intros Hd. assert (Hb : path_text d +:+ "/" ∈ BLOCKED_PATHS).
  { unfold blocked_dirs in Hd. repeat (apply elem_of_cons in Hd as [->|Hd]); [..|by apply not_elem_of_nil in Hd];
      apply (bool_decide_unpack _); vm_compute; exact I. }
  apply (blocked_pattern _ _ Hb). rewrite !path_text_app. simpl.
  change (String "/" (x +:+ path_text l2)) with ("/" +:+ (x +:+ path_text l2)).
  rewrite <-(append_assoc (path_text d)). apply contains_middle.
Qed.
Lemma blocked_file_text f l1 l2 : f ∈ blocked_files → blocked (path_text (l1 ++ f ++ l2)) = true.
Proof.
  intros Hf. assert (Hb : path_text f ∈ BLOCKED_PATHS).
  { unfold blocked_files in Hf. repeat (apply elem_of_cons in Hf as [->|Hf]); [..|by apply not_elem_of_nil in Hf];
      apply (bool_decide_unpack _); vm_compute; exact I. }
  apply (blocked_pattern _ _ Hb). rewrite !path_text_app. apply contains_middle.
Qed.

(** ** Theorems *)

(** C17: sensitive paths are out of reach of the arguments that are checked.
    If the arguments of a command are accepted, then every argument that starts
    with a slash or contains two dots names, walked from the root of a tree
    without links, exactly one file, and the way to it passes through none of
    the protected directories (root's home, .ssh directories, the private keys
    and the CA directories) into something below it, and through none of the
    password files; nor is it root's home itself for commands that read files.
    (Other arguments are not checked, and relative ones are judged as if the
    command ran in the root directory.) *)
Theorem accepted_args_avoid_sensitive command args arg :
  validate_args command args = Ok tt → arg ∈ args → Str.starts_with arg "/" = true ∨ Str.contains arg ".." = true →
  ∃ file, leads_to arg file ∧ (∀ other, leads_to arg other → other = file) ∧
  (∀ d l1 x l2, d ∈ blocked_dirs → file ≠ l1 ++ d ++ x :: l2) ∧
  (∀ f l1 l2, f ∈ blocked_files → file ≠ l1 ++ f ++ l2) ∧
  (command ∈ file_readers → ∀ l, file ≠ "root" :: l).
Proof.
  intros Hv Hin Hp. destruct (validate_args_each _ _ _ Hv Hin) as [Hb Hs].
  { unfold skipped. by destruct Hp as [-> | ->]; rewrite ?andb_false_r. }
  unfold normalize in Hb, Hs. fold (resolve_path arg) in Hb, Hs.
  exists (resolve_path arg). split_and!; [by apply resolve_path_leads|by intros other ?%resolve_path_leads|..].
  - intros d l1 x l2 Hd He. rewrite join_path_text in Hb by (rewrite He; by destruct l1, d).
    rewrite He, blocked_dir_text in Hb; done.
  - intros f l1 l2 Hf He.
    assert (Hne : resolve_path arg ≠ []).
    { rewrite He. intros [_ [-> _]%app_nil]%app_nil. unfold blocked_files in Hf.
      rewrite !elem_of_cons, elem_of_nil in Hf. naive_solver. }
    rewrite join_path_text in Hb by done. rewrite He, blocked_file_text in Hb; done.
  - intros Hc l He. unfold sensitive in Hs. rewrite bool_decide_eq_true_2 in Hs by done.
    rewrite join_path_text in Hs by (by rewrite He). rewrite He in Hs. simpl in Hs.
    assert (Hp' : existsb (Str.starts_with (path_text ("root" :: l))) SENSITIVE_PREFIXES = true); [|congruence].
    apply existsb_exists. exists "/root". split; [by right; right; left|].
    change (path_text ("root" :: l)) with ("/root" +:+ path_text l). apply starts_with_append.
Qed.

(** *** Traversal *)

Lemma split_slash p q : Str.split "/"%char (p +:+ "/" +:+ q) = Str.split "/"%char p ++ Str.split "/"%char q.
Proof.
  induction p as [|a p IH]; [done|]. cbn [Str.split]. change (String a p +:+ "/" +:+ q) with (String a (p +:+ "/" +:+ q)).
  cbn [Str.split]. rewrite IH. case_decide; [done|].
  pose proof (split_not_nil "/"%char p). by destruct (Str.split "/"%char p).
Qed.

Lemma split_plain x : Str.contains_char x "/"%char = false → Str.split "/"%char x = [x].
Proof.
  induction x as [|a x IH]; [done|]. unfold Str.contains_char in *. cbn [Str.contains Str.split].
  intros [Ha Hx]%orb_false_iff. case_decide as Hd.
  - subst a. done.
  - by rewrite IH.
Qed.

(** A path component that is a name. *)
Definition plain (x : string) : Prop := Str.contains_char x "/"%char = false ∧ x ≠ "" ∧ x ≠ "." ∧ x ≠ "..".

Lemma push_plain_up st x : plain x → push_component (push_component st x) ".." = st.
Proof.
  intros (_ & H1 & H2 & H3). unfold push_component. rewrite decide_True by done.
  rewrite (decide_False (P := x = "..")), decide_False by naive_solver. done.
Qed.

(** Dot segments hide nothing: entering a directory and leaving it again,
    repeated slashes and single dots in an absolute path do not change the
    path it resolves to, nor whether the argument is accepted. *)
Theorem traversal_hides_nothing command p x q :
  Str.starts_with p "/" = true → plain x →
  let a := p +:+ "/" +:+ q in
  resolve_path (p +:+ "/" +:+ (x +:+ "/" +:+ ("..") +:+ "/" +:+ q)) = resolve_path a ∧
  resolve_path (p +:+ "/" +:+ ("." +:+ "/" +:+ q)) = resolve_path a ∧
  resolve_path (p +:+ "/" +:+ ("/" +:+ q)) = resolve_path a ∧
  (validate_args command [p +:+ "/" +:+ (x +:+ "/" +:+ ("..") +:+ "/" +:+ q)] = Ok tt ↔
   validate_args command [a] = Ok tt).
Proof.
  intros Hp Hx a.
  assert (Hr : resolve_path (p +:+ "/" +:+ (x +:+ "/" +:+ ("..") +:+ "/" +:+ q)) = resolve_path a).
  { unfold resolve_path, a. rewrite !split_slash, (split_plain x), (split_plain "..") by (done || apply Hx). unfold resolve_components. f_equal.
    rewrite !foldl_app. cbn [foldl]. by rewrite push_plain_up. }
  split_and!; [done|..].
  - unfold resolve_path, a. rewrite !split_slash. unfold resolve_components. f_equal. by rewrite !foldl_app.
  - unfold resolve_path, a. rewrite (split_slash p ("/" +:+ q)), (split_slash p q).
    change (Str.split "/"%char ("/" +:+ q)) with ("" :: Str.split "/"%char q).
    unfold resolve_components. f_equal. by rewrite !foldl_app.
  - apply starts_with_true in Hp as [p' ->].
    assert (Hs : ∀ r, skipped (("/" +:+ p') +:+ r) = false).
    { intros r. unfold skipped. by rewrite append_assoc, starts_with_append. }
    cbn [validate_args]. rewrite !Hs. unfold normalize. fold (resolve_path a).
    fold (resolve_path (("/" +:+ p') +:+ "/" +:+ (x +:+ "/" +:+ ("..") +:+ "/" +:+ q))). rewrite Hr.
    destruct (blocked _); [done|]. by destruct (sensitive _ _).
Qed.

(** Only arguments that start with a slash or contain two dots are
    checked: any other argument is accepted for every command, so that a path
    given as part of an option, or relative to the working directory, is not
    seen by the check. *)
Theorem option_paths_unchecked command opt path :
  Str.starts_with (opt +:+ path) "/" = false → Str.contains (opt +:+ path) ".." = false →
  validate_args command [opt +:+ path] = Ok tt.
Proof. intros H1 H2. cbn [validate_args]. unfold skipped. by rewrite H1, H2. Qed.

(** *** The whitelist *)

Lemma add_from_policy_lookup m cmd c :
  add_from_policy m cmd !! c =
  match m !! c with
  | Some e => Some e
  | None => if decide (c = cmd)
            then Some {| wl_command := cmd; wl_state_changing := false;
                         wl_description := "Added from vCluster policy"; wl_binary_path := None |}
            else None
  end.
Proof.
  unfold add_from_policy. destruct (m !! cmd) as [e|] eqn:Hc.
  - destruct (m !! c) eqn:Hm; [done|]. case_decide; [congruence|done].
  - rewrite lookup_insert. repeat case_decide; simplify_eq; try done; [by rewrite Hc|by destruct (m !! c)].
Qed.

Lemma policy_lookup commands m c :
  foldl add_from_policy m commands !! c =
  match m !! c with
  | Some e => Some e
  | None => if decide (c ∈ commands)
            then Some {| wl_command := c; wl_state_changing := false;
                         wl_description := "Added from vCluster policy"; wl_binary_path := None |}
            else None
  end.
Proof.
  revert m. induction commands as [|x l IH]; intros m; cbn [foldl].
  - by destruct (m !! c).
  - rewrite IH, add_from_policy_lookup. destruct (m !! c); [done|].
    destruct (decide (c = x)) as [->|Hne]; [by rewrite decide_True by left|].
    destruct (decide (c ∈ l)); [by rewrite decide_True by (by right)|].
    rewrite decide_False; [done|]. by intros [?|?]%elem_of_cons.
Qed.

(** The effect of a policy update: exactly the commands listed before or
    named by the policy are allowed, what was listed keeps its
    classification, and every new command counts as one that does not
    change state, whatever it does. *)
Theorem policy_commands_not_state_changing commands w c :
  (is_exec_allowed (update_exec_whitelist commands w) c = true ↔ is_exec_allowed w c = true ∨ c ∈ commands) ∧
  (is_exec_allowed w c = true →
    is_state_changing (update_exec_whitelist commands w) c = is_state_changing w c) ∧
  (is_exec_allowed w c = false → is_state_changing (update_exec_whitelist commands w) c = false).
Proof.
  unfold is_exec_allowed, is_state_changing, update_exec_whitelist. cbn [exec_whitelist].
  rewrite policy_lookup, !bool_decide_eq_true, bool_decide_eq_false. destruct (exec_whitelist w !! c) as [e|]; simpl.
  - split_and!; [|done|]; [split; [by left|by eexists]|]. intros H. destruct H. by eexists.
  - split_and!; [|by intros [? ?]|by case_decide]. case_decide.
    + split; [by right|by eexists].
    + split; [by intros [? ?]|intros [[? ?]|?]; done].
Qed.

(** The default whitelist allows exactly its listed commands, and none of
    them is on the list of commands that can start a shell. *)
Theorem default_whitelist_safe learning c :
  (is_exec_allowed (whitelist_new learning) c = true ↔ c ∈ (λ d, d.1.1) <$> default_commands) ∧
  (is_exec_allowed (whitelist_new learning) c = true → audit_escape_vectors [c] = []).
Proof.
  assert (H : is_exec_allowed (whitelist_new learning) c = true ↔ c ∈ (λ d, d.1.1) <$> default_commands).
  { unfold is_exec_allowed, whitelist_new, load_defaults. cbn [exec_whitelist]. rewrite bool_decide_eq_true.
    assert (Hgo : ∀ l (m : gmap string WhitelistEntry), is_Some (foldl (λ m d, <[d.1.1 := default_entry d]> m) m l !! c) ↔
      is_Some (m !! c) ∨ c ∈ (λ d : string * bool * string, d.1.1) <$> l).
    { induction l as [|d l IH]; intros m; cbn [foldl fmap list_fmap].
      - rewrite elem_of_nil. tauto.
      - rewrite IH, elem_of_cons, lookup_insert. case_decide; split.
        + intros [?|?]; [right; left; congruence|tauto].
        + intros _. left. by eexists.
        + tauto.
        + intros [?|[->|?]]; [by left|done|by right]. }
    rewrite Hgo, lookup_empty. split; [intros [[? ?]|?]; done|by right]. }
  split; [done|]. intros Hc%H. simpl in Hc.
  repeat (apply elem_of_cons in Hc as [->|Hc]; [vm_compute; reflexivity|]). by apply not_elem_of_nil in Hc.
Qed.

(** *** Signing keys and tokens *)

(** P7, degraded mode: a cache that holds keys never fails to give some,
    whatever the key server answers; within the lifetime it gives the cached
    keys without asking; a failed refresh keeps the stale ones; a cache
    without keys fails exactly when the server does. *)
Theorem key_cache_degrades now remote c :
  (jc_keys c ≠ [] → is_ok (fetch now remote c).2 = true) ∧
  (∀ t, jc_keys c ≠ [] → jc_fetched_at c = Some t → (Z.max 0 (now - t) < jc_ttl c)%Z →
    fetch now remote c = (c, Ok (jc_keys c))) ∧
  (∀ e, jc_keys c ≠ [] → remote = Err e → fetch now remote c = (c, Ok (jc_keys c))) ∧
  (jc_keys c = [] → (fetch now remote c).2 = remote).
Proof.
  unfold fetch. split_and!.
  - intros Hk. rewrite (bool_decide_eq_false_2 (jc_keys c = [])) by done. by repeat case_match.
  - intros t Hk -> Ht%Z.ltb_lt. rewrite Ht, (bool_decide_eq_false_2 (jc_keys c = [])) by done. done.
  - intros e Hk ->. rewrite (bool_decide_eq_false_2 (jc_keys c = [])) by done. by repeat case_match.
  - intros Hk. rewrite (bool_decide_eq_true_2 (jc_keys c = [])) by done. simpl.
    destruct (jc_fetched_at c); rewrite ?andb_false_r; by destruct remote.
Qed.

Section tokens.
Context `{JwtApi}.

(** A key that verifies the token to some claims. *)
Definition key_accepts (config : AuthConfig) (token : string) (k : Jwk) (claims : TokenClaims) : Prop :=
  ∃ n e, jwk_n k = Some n ∧ jwk_e k = Some e ∧ rsa_components n e = None ∧
    decode_rs256 (n, e) (ac_audience config) (ac_issuer config) token = Ok claims.

Lemma jwk_matches_parts kid k : jwk_matches kid k = true → is_Some (jwk_n k) ∧ is_Some (jwk_e k).
Proof. unfold jwk_matches. intros [[_ H1%bool_decide_eq_true]%andb_true_iff _]%andb_true_iff. done. Qed.

Lemma try_keys_sound token config err ks claims :
  (∀ k, k ∈ ks → is_Some (jwk_n k) ∧ is_Some (jwk_e k)) →
  try_keys token config err ks = Ok claims → ∃ k, k ∈ ks ∧ key_accepts config token k claims.
Proof.
  revert err. induction ks as [|k ks IH]; cbn [try_keys]; intros err Hks H1; [done|].
  assert (Hrest : ∀ e', try_keys token config e' ks = Ok claims → ∃ k', k' ∈ k :: ks ∧ key_accepts config token k' claims).
  { intros e' He. destruct (IH e') as (k' & Hk' & Ha); [intros; apply Hks; by right|done|].
    exists k'. split; [by right|done]. }
  destruct (Hks k) as [[n Hn] [e He]]; [left|]. rewrite Hn, He in H1. simpl in H1.
  destruct (rsa_components n e) eqn:Hr; [by eapply Hrest|].
  destruct (decode_rs256 _ _ _ token) eqn:Hd; [|by eapply Hrest]. simplify_eq.
  exists k. split; [left|]. by exists n, e.
Qed.

Lemma try_keys_complete token config err ks k claims :
  k ∈ ks → key_accepts config token k claims → is_ok (try_keys token config err ks) = true.
Proof.
  intros Hin (n & e & Hn & He & Hr & Hd). revert err. induction ks as [|k' ks IH]; intros err; [by apply not_elem_of_nil in Hin|]. cbn [try_keys].
  apply elem_of_cons in Hin as [<-|Hin].
  - rewrite Hn, He. simpl. by rewrite Hr, Hd.
  - destruct (rsa_components (default "" (jwk_n k')) _); [by apply IH|].
    destruct (decode_rs256 (default "" (jwk_n k'), _) _ _ token); [done|by apply IH].
Qed.

(** Which tokens are valid: with a shared secret that verifies the token
    its claims are taken; otherwise the token is accepted exactly when some
    fetched RSA key that fits its key id verifies it, with the claims of such
    a key. *)
Theorem token_accepted_iff now remote token config c keys c' kid :
  is_ok (validate_token token config) = false → fetch now (remote (jwks_url config)) c = (c', Ok keys) →
  decode_header_kid token = Ok kid →
  (is_ok (validate_token_with_jwks now remote token config c).2 = true ↔
    ∃ k claims, k ∈ keys ∧ jwk_matches kid k = true ∧ key_accepts config token k claims) ∧
  (∀ claims, (validate_token_with_jwks now remote token config c).2 = Ok claims →
    ∃ k, k ∈ keys ∧ jwk_matches kid k = true ∧ key_accepts config token k claims).
Proof.
  intros Hhs Hf Hk. unfold validate_token_with_jwks. rewrite Hf, Hk.
  assert (Hv : ∃ err, match ac_hmac_secret config with Some _ => validate_token token config | None => Err NoSigningKey end = Err err).
  { destruct (ac_hmac_secret config); [|eauto]. destruct (validate_token token config); [done|eauto]. }
  destruct Hv as [err ->].
  assert (Hsound : ∀ claims ks, ks = filter (λ k, jwk_matches kid k) keys → try_keys token config NoSigningKey ks = Ok claims →
    ∃ k, k ∈ keys ∧ jwk_matches kid k = true ∧ key_accepts config token k claims).
  { intros claims ks -> Ht. apply try_keys_sound in Ht as (k & [Hm Hin]%list_elem_of_filter & Ha).
    - exists k. split_and!; [done|by apply Is_true_true|done].
    - intros k [Hm _]%list_elem_of_filter. by eapply jwk_matches_parts, Is_true_true. }
  assert (Hcomplete : ∀ k claims, k ∈ keys → jwk_matches kid k = true → key_accepts config token k claims →
    filter (λ k, jwk_matches kid k) keys ≠ [] ∧ is_ok (try_keys token config NoSigningKey (filter (λ k, jwk_matches kid k) keys)) = true).
  { intros k claims Hin Hm Ha. assert (Hf' : k ∈ filter (λ k, jwk_matches kid k) keys).
    { apply list_elem_of_filter. split; [by apply Is_true_true|done]. }
    split; [by intros E; rewrite E in Hf'; apply not_elem_of_nil in Hf'|by eapply try_keys_complete]. }
  destruct keys as [|k0 keys']; [simpl; split; [split; [done|]|done]; by intros (? & ? & ?%not_elem_of_nil & _)|].
  cbn [snd]. destruct (filter (λ k, jwk_matches kid k) (k0 :: keys')) as [|k1 ks] eqn:Hfl.
  - split; [|done]. split; [done|]. intros (k & claims & H1 & H2 & H3). by destruct (Hcomplete k claims H1 H2 H3).
  - split; [|intros claims Ht; by eapply (Hsound claims (k1 :: ks))]. split.
    + intros Hok. destruct (try_keys token config NoSigningKey (k1 :: ks)) as [claims|] eqn:Ht; [|done].
      destruct (Hsound claims (k1 :: ks) eq_refl Ht) as (k & H1). by exists k, claims.
    + intros (k & claims & H1 & H2 & H3). by destruct (Hcomplete k claims H1 H2 H3).
Qed.

End tokens.

Module WhitelistSample.
(** Tokens are "hs" for the secret and "rs" for the key "n1", of a viewer
    and an operator of the vCluster "ml". *)
Definition claims (sub r : string) : TokenClaims :=
  {| tc_sub := sub; tc_aud := SvSingle "pact-agent"; tc_iss := "https://auth"; tc_exp := 10; tc_iat := 0;
     tc_pact_role := Some r; tc_pact_principal_type := None |}.
#[export] Instance jwt : JwtApi := {|
  decode_hs256 _ _ _ t := if decide (t = "hs") then Ok (claims "v@x" "pact-viewer-ml") else Err (JwtOther "bad");
  decode_rs256 ne _ _ t := if decide (t = "rs" ∧ ne.1 = "n1") then Ok (claims "o@x" "pact-ops-ml") else Err (JwtOther "bad");
  rsa_components n _ := if decide (n = "") then Some "empty modulus" else None;
  decode_header_kid t := Ok (Some "k1");
|}.
Definition config : AuthConfig :=
  {| ac_issuer := "https://auth"; ac_audience := "pact-agent"; ac_hmac_secret := Some [1%N]; ac_jwks_url := None |}.
Definition key (kid n : string) : Jwk :=
  {| jwk_kty := "RSA"; jwk_kid := Some kid; jwk_alg := None; jwk_n := Some n; jwk_e := Some "AQAB"; jwk_use := None |}.
Definition keys : list Jwk := [key "k0" "n1"; key "k1" "n1"].
Definition remote (url : string) : result (list Jwk) AuthError :=
  if decide (url = "https://auth/.well-known/jwks.json") then Ok keys else Err (JwksFetchError "404").
Definition cache : JwksCache := {| jc_keys := keys; jc_fetched_at := Some 0%Z; jc_ttl := seconds 3600 |}.
End WhitelistSample.
Import WhitelistSample.

Lemma accepted_args_avoid_sensitive_witness : leads_to "/var/../etc/hosts" ["etc"; "hosts"] ∧ ¬ leads_to "/var/../etc/hosts" ["root"; "x"].
Proof.
  destruct (accepted_args_avoid_sensitive "cat" ["-n"; "/var/../etc/hosts"] "/var/../etc/hosts")
    as (file & Hf & Huniq & _ & _ & Hroot);
    [vm_compute; reflexivity|right; left|left; vm_compute; reflexivity|]. split.
  - exists [""; "var"; ".."; "etc"; "hosts"]. split; [discriminate|]. split; [reflexivity|]. split; [repeat constructor|].
    apply walks_stay; [by right|]. apply walks_into; [set_solver|]. apply (walks_up [] "var"). apply walks_into; [set_solver|].
    apply walks_into; [set_solver|]. apply walks_end.
  - intros Hr. apply (Hroot ltac:(apply (bool_decide_unpack _); vm_compute; exact I) ["x"]). symmetry. by apply Huniq.
Defined.

Lemma traversal_hides_nothing_witness :
  validate_args "ls" ["/var/x/../../etc/shadow"] = Ok tt ↔ validate_args "ls" ["/var/../etc/shadow"] = Ok tt.
Proof.
  apply (traversal_hides_nothing "ls" "/var" "x" "../etc/shadow"); [reflexivity|].
  split_and!; [reflexivity|discriminate..].
Defined.

Lemma option_paths_unchecked_witness : validate_args "grep" ["--file=/etc/shadow"] = Ok tt.
Proof. apply (option_paths_unchecked "grep" "--file=" "/etc/shadow"); reflexivity. Defined.

Lemma policy_commands_not_state_changing_witness :
  is_exec_allowed (update_exec_whitelist ["reboot"] (whitelist_new false)) "reboot" = true ∧
  is_state_changing (update_exec_whitelist ["reboot"] (whitelist_new false)) "reboot" = false.
Proof.
  destruct (policy_commands_not_state_changing ["reboot"] (whitelist_new false) "reboot") as (H1 & _ & H3).
  split; [apply H1; right; left|apply H3; vm_compute; reflexivity].
Defined.

Lemma default_whitelist_safe_witness : audit_escape_vectors ["cat"] = [].
Proof. apply (default_whitelist_safe false "cat"). vm_compute. reflexivity. Defined.

Lemma key_cache_degrades_witness :
  fetch (seconds 9000) (Err (JwksFetchError "timeout")) cache = (cache, Ok keys).
Proof.
  destruct (key_cache_degrades (seconds 9000) (Err (JwksFetchError "timeout")) cache) as (_ & _ & H & _).
  apply (H (JwksFetchError "timeout")); [discriminate|reflexivity].
Defined.

Lemma token_accepted_iff_witness :
  is_ok (validate_token_with_jwks 0 remote "rs" config jwks_cache_new).2 = true.
Proof.
  apply (token_accepted_iff 0 remote "rs" config jwks_cache_new keys cache (Some "k1"));
    [vm_compute; reflexivity..|].
  exists (key "k1" "n1"), (claims "o@x" "pact-ops-ml"). split_and!; [right; left|vm_compute; reflexivity|].
  exists "n1", "AQAB". split_and!; vm_compute; reflexivity.
Defined.
