(* ===== verification/Shell.v ===== *)
(** * Remote shell of the agent

    crates/pact-agent/src/shell: single commands (exec.rs and mod.rs),
    interactive sessions (session.rs and grpc_service.rs) and diagnostic log
    collection (diag.rs), behind the gRPC service (grpc_service.rs). Child
    processes, pseudo terminals, log files and regular expressions are
    outside the program; what they do is an argument of the definitions. *)

From S2P Require Import Prelude Text Float64 Types JournalState JournalInvariants JournalProperties Raft ConfigService CommitWindow Whitelist.
From stdpp Require Import options.
From Stdlib Require Import Ascii.

(** ** Command execution *)

Record ExecConfig := { timeout_seconds : N; max_output_bytes : N }.
Definition exec_config_default : ExecConfig := {| timeout_seconds := 300; max_output_bytes := 10485760 |}.

Record ExecResult := { ex_stdout : bytes; ex_stderr : bytes; ex_exit_code : Z }.
Inductive ExecError :=
| NotWhitelisted (c : string) | ExecNotFound (c : string) | ExecutionFailed (e : string) | Timeout (secs : N).

(** One read of an output pipe: some bytes, none at the end, or an error. *)
Inductive ReadResult := ReadBytes (data : bytes) | ReadError.

(** What the child does. *)
Inductive ChildWait := WaitStatus (code : option Z) | WaitIoError (e : string) | WaitTimeout.
Inductive Child :=
| SpawnNotFound
| SpawnFailed (e : string)
| Spawned (out err : list ReadResult) (wait : ChildWait).

(** The read loop of an output pipe: stops at the end, at an error, or with
    the output cut at [max]. *)
Fixpoint read_output (max : N) (output : bytes) (reads : list ReadResult) : bytes :=
  match reads with
  | [] | ReadError :: _ | ReadBytes [] :: _ => output
  | ReadBytes data :: reads' =>
      if (max <? N.of_nat (length output) + N.of_nat (length data))%N
      then output ++ take (N.to_nat max - length output) data
      else read_output max (output ++ data) reads'
  end.

Definition execute_command (child : Child) (command : string) (config : ExecConfig) : result ExecResult ExecError :=
  match child with
  | SpawnNotFound => Err (ExecNotFound command)
  | SpawnFailed e => Err (ExecutionFailed e)
  | Spawned out err wait =>
      match wait with
      | WaitStatus code =>
          Ok {| ex_stdout := read_output (max_output_bytes config) [] out;
                ex_stderr := read_output (max_output_bytes config) [] err;
                ex_exit_code := default (-1)%Z code |}
      | WaitIoError e => Err (ExecutionFailed e)
      (* without a limit there is no timer *)
      | WaitTimeout => Err (Timeout (timeout_seconds config))
      end
  end.

(** ** The server *)

Inductive SessionState := SInitializing | SActive | SClosing | SClosed.

#[export] Instance SessionState_eq_dec : EqDecision SessionState.
Proof. solve_decision. Defined.

Record ShellSession := {
  ss_session_id : string;
  ss_user : Identity;
  ss_node_id : string;
  ss_vcluster_id : string;
  ss_started_at : DateTime;
  ss_state : SessionState;
  ss_commands_executed : N;
  ss_rows : N;
  ss_cols : N;
  ss_term : string;
}.

Record SessionManager := { sessions : gmap string ShellSession; max_sessions : N }.

Inductive SessionError := MaxSessionsExceeded (max : N) | SessionNotFound (id : string) | PtyFailed (e : string) | SetupFailed (e : string).
Inductive ShellError := ShAuth (e : AuthError) | ShExec (e : ExecError) | ShSession (e : SessionError).

Record ShellServer := {
  sh_whitelist : WhitelistManager;
  sh_sessions : SessionManager;
  sh_auth_config : AuthConfig;
  sh_exec_config : ExecConfig;
  sh_node_id : string;
  sh_vcluster_id : string;
  sh_journal_client : bool;
  sh_commit_window : option Window.CommitWindowManager;
  sh_supervisor_backend : SupervisorBackend;
  sh_declared_services : list string;
}.

Definition with_whitelist (s : ShellServer) (w : WhitelistManager) : ShellServer :=
  {| sh_whitelist := w; sh_sessions := sh_sessions s; sh_auth_config := sh_auth_config s;
     sh_exec_config := sh_exec_config s; sh_node_id := sh_node_id s; sh_vcluster_id := sh_vcluster_id s;
     sh_journal_client := sh_journal_client s; sh_commit_window := sh_commit_window s;
     sh_supervisor_backend := sh_supervisor_backend s; sh_declared_services := sh_declared_services s |}.
Definition with_commit_window (s : ShellServer) (w : option Window.CommitWindowManager) : ShellServer :=
  {| sh_whitelist := sh_whitelist s; sh_sessions := sh_sessions s; sh_auth_config := sh_auth_config s;
     sh_exec_config := sh_exec_config s; sh_node_id := sh_node_id s; sh_vcluster_id := sh_vcluster_id s;
     sh_journal_client := sh_journal_client s; sh_commit_window := w;
     sh_supervisor_backend := sh_supervisor_backend s; sh_declared_services := sh_declared_services s |}.
Definition with_sessions (s : ShellServer) (m : SessionManager) : ShellServer :=
  {| sh_whitelist := sh_whitelist s; sh_sessions := m; sh_auth_config := sh_auth_config s;
     sh_exec_config := sh_exec_config s; sh_node_id := sh_node_id s; sh_vcluster_id := sh_vcluster_id s;
     sh_journal_client := sh_journal_client s; sh_commit_window := sh_commit_window s;
     sh_supervisor_backend := sh_supervisor_backend s; sh_declared_services := sh_declared_services s |}.

Definition shell_server_new (auth : AuthConfig) (exec : ExecConfig) (node vcluster : string) (learning : bool)
    (max : N) : ShellServer :=
  {| sh_whitelist := whitelist_new learning; sh_sessions := {| sessions := ∅; max_sessions := max |};
     sh_auth_config := auth; sh_exec_config := exec; sh_node_id := node; sh_vcluster_id := vcluster;
     sh_journal_client := false; sh_commit_window := None; sh_supervisor_backend := Pact;
     sh_declared_services := [] |}.

Section server.
Context `{JwtApi}.

Definition authenticate (s : ShellServer) (auth_header : string) : result Identity AuthError :=
  match extract_bearer_token auth_header with
  | None => Err InvalidFormat
  | Some token =>
      match validate_token token (sh_auth_config s) with
      | Ok claims => Ok (claims_to_identity claims)
      | Err e => Err e
      end
  end.

Definition authorize_exec (who : Identity) (command : string) (s : ShellServer)
    : ShellServer * result bool AuthError :=
  if negb (is_exec_allowed (sh_whitelist s) command) then
    if is_platform_admin who then (s, Ok true)
    else (with_whitelist s (record_denied command (sh_whitelist s)),
          Err (InsufficientPrivileges ("command not whitelisted: " +:+ command)))
  else
    let state_changing := is_state_changing (sh_whitelist s) command in
    if negb (has_ops_role who (sh_vcluster_id s)) then
      if has_viewer_role who (sh_vcluster_id s) && negb state_changing then (s, Ok false)
      else (s, Err (InsufficientPrivileges ("requires pact-ops-" +:+ sh_vcluster_id s +:+ " or pact-platform-admin role")))
    else (s, Ok state_changing).

(** The journal entry of an executed command. *)
Definition exec_entry (now : DateTime) (s : ShellServer) (who : Identity) (command : string) : ProtoConfigEntry :=
  {| pe_sequence := 0; pe_timestamp := Some (to_timestamp now); pe_entry_type := 10;
     pe_scope := Some (Some (PNodeId (sh_node_id s)));
     pe_author := Some {| pi_principal := principal who;
                          pi_principal_type := debug_principal_type (principal_type who);
                          pi_role := role who |};
     pe_parent := None;
     pe_state_delta := Some {| ps_mounts := []; ps_files := []; ps_network := []; ps_services := [];
                               ps_kernel := []; ps_packages := []; ps_gpu := [] |};
     pe_policy_ref := "exec:" +:+ command; pe_ttl := None; pe_emergency_reason := None |}.

(** What a call does outside the server. *)
Inductive ShellEffect :=
| RunCommand (command : string) (args : list string)
| AppendToJournal (entry : ProtoConfigEntry).

(** [exec]: [run] is how the child behaves, [now] the clock. A failure to
    append the entry is logged only. *)
Definition exec (now : DateTime) (run : string → list string → Child) (auth_header command : string)
    (args : list string) (s : ShellServer) : ShellServer * list ShellEffect * result (ExecResult * bool) ShellError :=
  match authenticate s auth_header with
  | Err e => (s, [], Err (ShAuth e))
  | Ok who =>
      match authorize_exec who command s with
      | (s1, Err e) => (s1, [], Err (ShAuth e))
      | (s1, Ok state_changing) =>
          match validate_args command args with
          | Err reason => (s1, [], Err (ShAuth (InsufficientPrivileges reason)))
          | Ok _ =>
              match execute_command (run command args) command (sh_exec_config s1) with
              | Err e => (s1, [RunCommand command args], Err (ShExec e))
              | Ok res =>
                  let log := if sh_journal_client s1 then [AppendToJournal (exec_entry now s1 who command)] else [] in
                  let s2 := if state_changing
                            then with_commit_window s1 (Window.open now F64.one <$> sh_commit_window s1) else s1 in
                  (s2, RunCommand command args :: log, Ok (res, state_changing))
              end
          end
      end
  end.

(** ** Sessions *)

Definition with_sessions_map (m : SessionManager) (x : gmap string ShellSession) : SessionManager :=
  {| sessions := x; max_sessions := max_sessions m |}.

Definition set_session_state (st : SessionState) (x : ShellSession) : ShellSession :=
  {| ss_session_id := ss_session_id x; ss_user := ss_user x; ss_node_id := ss_node_id x;
     ss_vcluster_id := ss_vcluster_id x; ss_started_at := ss_started_at x; ss_state := st;
     ss_commands_executed := ss_commands_executed x; ss_rows := ss_rows x; ss_cols := ss_cols x;
     ss_term := ss_term x |}.

(** [uuid] is the fresh session id. *)
Definition create_session (now : DateTime) (uuid : string) (user : Identity) (node vcluster : string) (rows cols : N)
    (term : string) (m : SessionManager) : SessionManager * result ShellSession SessionError :=
  if (max_sessions m <=? N.of_nat (size (sessions m)))%N then (m, Err (MaxSessionsExceeded (max_sessions m)))
  else
    let x := {| ss_session_id := uuid; ss_user := user; ss_node_id := node; ss_vcluster_id := vcluster;
                ss_started_at := now; ss_state := SInitializing; ss_commands_executed := 0; ss_rows := rows;
                ss_cols := cols; ss_term := term |} in
    (with_sessions_map m (<[uuid := x]> (sessions m)), Ok x).

Definition remove_session (id : string) (m : SessionManager) : SessionManager :=
  with_sessions_map m (delete id (sessions m)).
Definition activate (id : string) (m : SessionManager) : SessionManager :=
  with_sessions_map m (alter (set_session_state SActive) id (sessions m)).
Definition active_sessions (m : SessionManager) : list ShellSession :=
  filter (λ x, ss_state x = SActive) (hash_values (sessions m)).

Definition stale (now : DateTime) (max_age_seconds : Z) (x : ShellSession) : bool :=
  match ss_state x with
  | SClosing => (max_age_seconds <? (now - ss_started_at x) `quot` 1000000000)%Z
  | _ => false
  end.
Definition cleanup_stale (now : DateTime) (max_age_seconds : Z) (m : SessionManager) : SessionManager * list string :=
  let ids := (filter (λ p, stale now max_age_seconds p.2) (map_to_list (sessions m))).*1 in
  (with_sessions_map m (foldr delete (sessions m) ids), ids).

(** ** The gRPC service *)

Definition auth_error_text (e : AuthError) : string :=
  match e with
  | MissingToken => "missing authorization metadata"
  | InvalidFormat => "invalid Bearer token format"
  | TokenExpired => "token expired"
  | InvalidAudience a => "invalid audience: expected " +:+ a
  | InvalidIssuer i => "invalid issuer: expected " +:+ i
  | InvalidToken d => "invalid token: " +:+ d
  | NoSigningKey => "no signing key configured"
  | JwksFetchError d => "JWKS fetch error: " +:+ d
  | InsufficientPrivileges d => "insufficient privileges: " +:+ d
  end.
Definition exec_error_text (e : ExecError) : string :=
  match e with
  | NotWhitelisted c => "command not whitelisted: " +:+ c
  | ExecNotFound c => "command not found on PATH: " +:+ c
  | ExecutionFailed d => "execution failed: " +:+ d
  | Timeout n => "command timed out after " +:+ pretty n +:+ " seconds"
  end.
Definition session_error_text (e : SessionError) : string :=
  match e with
  | MaxSessionsExceeded n => "maximum concurrent sessions (" +:+ pretty n +:+ ") exceeded"
  | SessionNotFound id => "session not found: " +:+ id
  | PtyFailed d => "PTY allocation failed: " +:+ d
  | SetupFailed d => "session setup failed: " +:+ d
  end.
Definition shell_error_text (e : ShellError) : string :=
  match e with
  | ShAuth a => "authentication failed: " +:+ auth_error_text a
  | ShExec x => "execution failed: " +:+ exec_error_text x
  | ShSession x => "session error: " +:+ session_error_text x
  end.

(** The authorization header, if the request has one. *)
Definition extract_auth (header : option string) : result string Status :=
  ok_or header (mkStatus Unauthenticated "missing authorization header").

Inductive ExecOutput := Stdout (data : bytes) | Stderr (data : bytes) | ExitCode (code : Z) | ErrorText (e : string).

(** The messages of the answer stream of [exec]. *)
Definition exec_outputs (r : result (ExecResult * bool) ShellError) : list ExecOutput :=
  match r with
  | Ok (res, _) =>
      (if bool_decide (ex_stdout res = []) then [] else [Stdout (ex_stdout res)]) ++
      (if bool_decide (ex_stderr res = []) then [] else [Stderr (ex_stderr res)]) ++ [ExitCode (ex_exit_code res)]
  | Err e => [ErrorText (shell_error_text e)]
  end.
Definition grpc_exec (now : DateTime) (run : string → list string → Child) (header : option string)
    (command : string) (args : list string) (s : ShellServer)
    : ShellServer * list ShellEffect * result (list ExecOutput) Status :=
  match extract_auth header with
  | Err st => (s, [], Err st)
  | Ok auth => let '(s', fx, r) := exec now run auth command args s in (s', fx, Ok (exec_outputs r))
  end.

Inductive ShellInput :=
| InOpen (rows cols : N) (term : string) | InStdin (data : bytes) | InResize (rows cols : N) | InClose | InNone.

(** [shell] up to the start of the streaming task, which gets the session
    id. [first] is the first message of the stream, [pty] the outcome of the
    allocation of the terminal. *)
Definition shell (now : DateTime) (uuid : string) (header : option string)
    (first : option (result ShellInput string)) (pty : result unit SessionError) (s : ShellServer)
    : ShellServer * result string Status :=
  match extract_auth header with
  | Err st => (s, Err st)
  | Ok auth =>
      match authenticate s auth with
      | Err e => (s, Err (mkStatus Unauthenticated (auth_error_text e)))
      | Ok who =>
          if negb (has_ops_role who (sh_vcluster_id s))
          then (s, Err (mkStatus PermissionDenied ("shell requires pact-ops-" +:+ sh_vcluster_id s +:+
                                                   " or pact-platform-admin role")))
          else
            match first with
            | None => (s, Err (mkStatus InvalidArgument "stream closed before ShellOpen"))
            | Some (Err e) => (s, Err (mkStatus Internal ("stream error: " +:+ e)))
            | Some (Ok (InOpen rows cols term)) =>
                let term' := if Str.is_empty term then "xterm-256color" else term in
                match create_session now uuid who (sh_node_id s) (sh_vcluster_id s) (N.min rows 500)
                        (N.min cols 500) term' (sh_sessions s) with
                | (_, Err e) => (s, Err (mkStatus ResourceExhausted (session_error_text e)))
                | (m1, Ok session) =>
                    let id := ss_session_id session in
                    match sessions m1 !! id with
                    | None => (with_sessions s m1, Err (mkStatus Internal "session vanished"))
                    | Some _ =>
                        match pty with
                        | Err e => (with_sessions s (remove_session id m1),
                                    Err (mkStatus Internal ("PTY allocation failed: " +:+ session_error_text e)))
                        | Ok _ => (with_sessions s (activate id m1), Ok id)
                        end
                    end
                end
            | Some (Ok _) =>
                (s, Err (mkStatus InvalidArgument "first message must be ShellOpen with terminal dimensions"))
            end
      end
  end.

(** The writer loop of the streaming task: what it does to the terminal. Each
    message comes with what a write of its bytes to the terminal answers, an
    error or the number of bytes taken, which the loop does not look at. *)
Inductive PtyAction := PtyWrite (data : bytes) | PtyResize (rows cols : N).
Fixpoint shell_input_loop (msgs : list (result ShellInput string * result nat string)) : list PtyAction :=
  match msgs with
  | [] | (Err _, _) :: _ | (Ok InClose, _) :: _ | (Ok (InStdin _), Err _) :: _ => []
  | (Ok (InStdin data), Ok n) :: msgs' => PtyWrite (take n data) :: shell_input_loop msgs'
  | (Ok (InResize rows cols), _) :: msgs' =>
      PtyResize (N.min rows 500) (N.min cols 500) :: shell_input_loop msgs'
  | (Ok (InOpen _ _ _), _) :: msgs' | (Ok InNone, _) :: msgs' => shell_input_loop msgs'
  end.

(** The end of the task: the session is closed, finalised and removed. *)
Definition shell_end (id : string) (s : ShellServer) : ShellServer :=
  let m := sh_sessions s in
  let m1 := with_sessions_map m (alter (λ x, set_session_state SClosed (set_session_state SClosing x)) id (sessions m)) in
  with_sessions s (remove_session id m1).

(** [extend_commit_window] only looks whether a header is there. *)
Record ExtendWindowResponse := { ew_success : bool; ew_new_deadline_seconds : N; ew_error : option string }.
Definition extend_commit_window (now : DateTime) (header : option string) (additional_minutes : N)
    (w : Window.CommitWindowManager) : Window.CommitWindowManager * result ExtendWindowResponse Status :=
  match extract_auth header with
  | Err st => (w, Err st)
  | Ok _ =>
      if (additional_minutes =? 0)%N
      then (w, Ok {| ew_success := false; ew_new_deadline_seconds := 0;
                     ew_error := Some "additional_minutes must be > 0" |})
      else
        let w' := Window.extend (wrap_u32 (additional_minutes * 60)) w in
        (w', Ok {| ew_success := true; ew_new_deadline_seconds := Window.seconds_remaining now w'; ew_error := None |})
  end.

(** ** Diagnostics *)

Definition MAX_GREP_PATTERN_LEN : N := 255.
Definition DEFAULT_LINE_LIMIT : N := 100.
Definition MAX_LINE_LIMIT : N := 10000.

Record DiagChunk := { dc_source : string; dc_lines : list string; dc_truncated : bool }.
Record DiagRequest := { dr_source_filter : string; dr_service_name : string; dr_grep_pattern : string; dr_line_limit : N }.

Definition normalize_line_limit (limit : N) : N :=
  if (limit =? 0)%N then DEFAULT_LINE_LIMIT else N.min limit MAX_LINE_LIMIT.

Definition validate_service_name (name : string) (declared : list string) : result unit Status :=
  if Str.is_empty name then Ok tt
  else if Str.contains_char name "/"%char || Str.contains name ".."
  then Err (mkStatus InvalidArgument ("invalid service name: must not contain path separators: " +:+ name))
  else Ok tt.

Definition read_last_n_lines (content : string) (n : N) : list string :=
  let lines := str_lines content in
  if (N.of_nat (length lines) <=? n)%N then lines else drop (length lines - N.to_nat n) lines.

(** Regular expressions (crate regex), the file system and subprocesses. *)
Section diag.
Context {Regex : Type} (regex_new : string → result Regex string) (is_match : Regex → string → bool).
Context (read_to_string : string → option string) (run_command : string → list string → result string string).

Definition validate_grep_pattern (pattern : string) : result (option Regex) Status :=
  if Str.is_empty pattern then Ok None
  else if (MAX_GREP_PATTERN_LEN <? N.of_nat (String.length pattern))%N
  then Err (mkStatus InvalidArgument ("invalid grep pattern: exceeds maximum length of " +:+
                                      pretty MAX_GREP_PATTERN_LEN +:+ " chars"))
  else match regex_new pattern with
       | Ok re => Ok (Some re)
       | Err e => Err (mkStatus InvalidArgument ("invalid grep pattern: " +:+ e))
       end.

Definition apply_grep (lines : list string) (pattern : option Regex) : list string :=
  match pattern with None => lines | Some re => filter (λ l, is_match re l = true) lines end.

(** The chunk of a log whose whole text was read. *)
Definition text_chunk (source content : string) (limit : N) (grep : option Regex) : DiagChunk :=
  {| dc_source := source; dc_lines := apply_grep (read_last_n_lines content limit) grep;
     dc_truncated := (limit <? N.of_nat (length (str_lines content)))%N |}.
Definition empty_chunk (source : string) (truncated : bool) : DiagChunk :=
  {| dc_source := source; dc_lines := []; dc_truncated := truncated |}.

Definition collect_dmesg (limit : N) (grep : option Regex) : DiagChunk :=
  match read_to_string "/dev/kmsg" with
  | Some content => text_chunk "dmesg" content limit grep
  | None => match run_command "dmesg" [] with
            | Ok content => text_chunk "dmesg" content limit grep
            | Err _ => empty_chunk "dmesg" false
            end
  end.
Definition collect_syslog (limit : N) (grep : option Regex) : DiagChunk :=
  match read_to_string "/var/log/syslog" with
  | Some content => text_chunk "syslog" content limit grep
  | None => match read_to_string "/var/log/messages" with
            | Some content => text_chunk "syslog" content limit grep
            | None => empty_chunk "syslog" false
            end
  end.
Definition collect_service_log (service : string) (limit : N) (grep : option Regex) (backend : SupervisorBackend)
    : DiagChunk :=
  let source := "service:" +:+ service in
  match backend with
  | Pact => match read_to_string ("/run/pact/logs/" +:+ service +:+ ".log") with
            | Some content => text_chunk source content limit grep
            | None => empty_chunk source false
            end
  | Systemd => match run_command "journalctl" ["-u"; service; "--no-pager"; "-n"; pretty limit] with
               | Ok content => {| dc_source := source; dc_lines := apply_grep (str_lines content) grep;
                                  dc_truncated := false |}
               | Err _ => empty_chunk source true
               end
  end.

Definition collect_diag (request : DiagRequest) (backend : SupervisorBackend) (declared : list string)
    : list DiagChunk :=
  let limit := normalize_line_limit (dr_line_limit request) in
  let grep := if Str.is_empty (dr_grep_pattern request) then None
              else match regex_new (dr_grep_pattern request) with Ok re => Some re | Err _ => None end in
  let source := dr_source_filter request in
  let system := bool_decide (source = "system" ∨ source = "all" ∨ source = "") in
  let service := bool_decide (source = "service" ∨ source = "all" ∨ source = "") in
  (if system then [collect_dmesg limit grep; collect_syslog limit grep] else []) ++
  (if service
   then if Str.is_empty (dr_service_name request)
        then (λ svc, collect_service_log svc limit grep backend) <$> declared
        else [collect_service_log (dr_service_name request) limit grep backend]
   else []).

Definition grpc_collect_diag (header : option string) (request : DiagRequest) (s : ShellServer)
    : result (list DiagChunk) Status :=
  let? auth := extract_auth header in
  match authenticate s auth with
  | Err e => Err (mkStatus Unauthenticated (auth_error_text e))
  | Ok who =>
      if negb (has_ops_role who (sh_vcluster_id s))
      then Err (mkStatus PermissionDenied "diag requires pact-ops or pact-platform-admin role")
      else
        let? _ := validate_grep_pattern (dr_grep_pattern request) in
        let? _ := validate_service_name (dr_service_name request) (sh_declared_services s) in
        Ok (collect_diag request (sh_supervisor_backend s) (sh_declared_services s))
  end.
End diag.

End server.

(** ** Theorems *)

Section theorems.
Context `{JwtApi}.

(** Who may run a command. *)
Definition may_exec (s : ShellServer) (who : Identity) (command : string) : Prop :=
  (is_exec_allowed (sh_whitelist s) command = false ∧ role who = "pact-platform-admin") ∨
  (is_exec_allowed (sh_whitelist s) command = true ∧
    (role who = "pact-platform-admin" ∨ role who = "pact-ops-" +:+ sh_vcluster_id s ∨
     (role who = "pact-viewer-" +:+ sh_vcluster_id s ∧ is_state_changing (sh_whitelist s) command = false))).

Lemma has_ops_role_true who v :
  has_ops_role who v = true ↔ role who = "pact-platform-admin" ∨ role who = "pact-ops-" +:+ v.
Proof. unfold has_ops_role. by rewrite orb_true_iff, !bool_decide_eq_true. Qed.

Lemma authorize_exec_ok who command s : is_ok (authorize_exec who command s).2 = true ↔ may_exec s who command.
Proof.
  unfold authorize_exec, may_exec, is_platform_admin, has_viewer_role.
  destruct (is_exec_allowed (sh_whitelist s) command); simpl.
  - pose proof (has_ops_role_true who (sh_vcluster_id s)) as Ho.
    destruct (has_ops_role who (sh_vcluster_id s)); simpl; [naive_solver|].
    case_bool_decide; destruct (is_state_changing (sh_whitelist s) command); simpl; naive_solver.
  - case_bool_decide; simpl; naive_solver.
Qed.

Lemma authorize_exec_state who command s :
  (authorize_exec who command s).1 = s ∨
  (is_ok (authorize_exec who command s).2 = false ∧
   (authorize_exec who command s).1 = with_whitelist s (record_denied command (sh_whitelist s))).
Proof. unfold authorize_exec. repeat case_match; simpl; auto. Qed.

(** The value of an authorisation: whether the command counts as one that
    changes state; commands off the whitelist do. *)
Lemma authorize_exec_value who command s b :
  (authorize_exec who command s).2 = Ok b →
  b = if is_exec_allowed (sh_whitelist s) command then is_state_changing (sh_whitelist s) command else true.
Proof.
  unfold authorize_exec. destruct (is_exec_allowed (sh_whitelist s) command); simpl.
  - destruct (has_ops_role who (sh_vcluster_id s)); simpl; [congruence|].
    destruct (is_state_changing (sh_whitelist s) command); rewrite ?andb_false_r, ?andb_true_r; [done|].
    destruct (has_viewer_role who (sh_vcluster_id s)); simpl; congruence.
  - destruct (is_platform_admin who); simpl; congruence.
Qed.


(** What a successful call leaves behind: the command was run once and,
    with a journal client, one entry naming the caller and the command was
    sent to the journal; the commit window was opened exactly for a command
    that counts as changing state, as commands off the whitelist do, and
    nothing else of the server changed. *)
Theorem exec_effects now run header command args s s' fx res b :
  exec now run header command args s = (s', fx, Ok (res, b)) →
  ∃ who, authenticate s header = Ok who ∧
    b = (if is_exec_allowed (sh_whitelist s) command then is_state_changing (sh_whitelist s) command else true) ∧
    fx = RunCommand command args ::
      (if sh_journal_client s then [AppendToJournal (exec_entry now s who command)] else []) ∧
    s' = (if b then with_commit_window s (Window.open now F64.one <$> sh_commit_window s) else s).
Proof.
  unfold exec. destruct (authenticate s header) as [who|]; [|done].
  pose proof (authorize_exec_state who command s) as Hst. pose proof (authorize_exec_value who command s) as Hval.
  destruct (authorize_exec who command s) as [s1 [sc|e]]; simpl in *; [|done].
  destruct Hst as [->|[? _]]; [|done]. destruct (validate_args command args) as [[]|]; [|done].
  destruct (execute_command _ _ _) as [r|]; [|done]. intros [= <- <- <- <-].
  exists who. by rewrite (Hval sc eq_refl).
Qed.

(** S4, executed commands can be audited: the entry sent for a
    successful call of a caller with a subject is accepted by the journal
    whatever its state, and stored there as an ExecLog entry of the node by
    that caller. *)
Theorem exec_log_accepted `{Chrono} now now' run header command args s s' fx res b who j :
  exec now run header command args s = (s', fx, Ok (res, b)) → authenticate s header = Ok who →
  principal who ≠ "" →
  ∃ e, proto_to_config_entry now' (exec_entry now s who command) = Ok e ∧
    apply now' (AppendEntry e) j =
      (set_entries j (<[next_sequence j := with_sequence e (next_sequence j)]> (entries j))
         (wrap_u64 (next_sequence j + 1)), EntryAppended (next_sequence j)) ∧
    entry_type e = ET_ExecLog ∧ entry_scope e = Node (sh_node_id s) ∧
    entry_author e = who ∧ entry_policy_ref e = Some ("exec:" +:+ command).
Proof.
  intros Hex Hauth Hp. assert (Hr : role who ≠ "").
  { revert Hex. unfold exec. rewrite Hauth. pose proof (authorize_exec_ok who command s) as Ha.
    destruct (authorize_exec who command s) as [s1 [sc|e]]; [|done]. intros _ Hr.
    destruct (proj1 Ha eq_refl) as [[_ Hx]|[_ [Hx|[Hx|[Hx _]]]]]; rewrite Hr in Hx; done. }
  unfold proto_to_config_entry, exec_entry. simpl. eexists. split; [done|].
  assert (Hw : ∀ p, {| principal := principal p; principal_type := principal_type_of_proto (debug_principal_type (principal_type p)); role := role p |} = p).
  { intros [pr pt ro]. simpl. by rewrite principal_type_roundtrip. }
  split_and!; try done; [|by apply Hw].
  unfold apply, apply_append_entry. simpl. rewrite Hw.
  destruct (principal who); [done|]. by destruct (role who).
Qed.

(** The bytes an output pipe delivers before its end or an error. *)
Fixpoint delivered (reads : list ReadResult) : bytes :=
  match reads with
  | [] | ReadError :: _ | ReadBytes [] :: _ => []
  | ReadBytes data :: reads' => data ++ delivered reads'
  end.

Lemma read_output_take max out reads :
  (N.of_nat (length out) <= max)%N →
  read_output max out reads = out ++ take (N.to_nat max - length out) (delivered reads).
Proof.
  revert out. induction reads as [|[[|x data]|] reads IH]; intros out Hlen; cbn [read_output delivered];
    rewrite ?take_nil, ?app_nil_r; try done.
  destruct (N.ltb_spec max (N.of_nat (length out) + N.of_nat (length (x :: data)))) as [Hlt|Hge].
  - f_equal. rewrite take_app_le by lia. done.
  - rewrite IH by (rewrite length_app; lia). rewrite <-(assoc_L (++)). f_equal.
    rewrite take_app_ge by lia. f_equal. f_equal. rewrite length_app. lia.
Qed.

(** The result of a command that ends in time: its exit code (-1 when a
    signal ended it) and the first bytes of what it wrote, cut at the
    configured size and otherwise complete, for both streams. *)
Theorem output_capped out err code command config :
  ∃ r, execute_command (Spawned out err (WaitStatus code)) command config = Ok r ∧
    ex_stdout r = take (N.to_nat (max_output_bytes config)) (delivered out) ∧
    ex_stderr r = take (N.to_nat (max_output_bytes config)) (delivered err) ∧
    ex_exit_code r = default (-1)%Z code.
Proof.
  eexists. split; [done|]. cbn [ex_stdout ex_stderr ex_exit_code]. rewrite !read_output_take by (simpl; lia). simpl.
  by rewrite !Nat.sub_0_r.
Qed.

(** *** Sessions *)

Lemma with_sessions_id s m : sessions m = sessions (sh_sessions s) → max_sessions m = max_sessions (sh_sessions s) →
  with_sessions s m = s.
Proof. destruct s as [? [] ? ? ? ? ? ? ? ?], m. simpl. by intros -> ->. Qed.

(** What an open request does, on all its branches. *)
Lemma shell_cases now uuid header first pty s s' r :
  sessions (sh_sessions s) !! uuid = None → shell now uuid header first pty s = (s', r) →
  match r with
  | Err _ => s' = s
  | Ok id => id = uuid ∧ (N.of_nat (size (sessions (sh_sessions s))) < max_sessions (sh_sessions s))%N ∧
      ∃ h who x, header = Some h ∧ authenticate s h = Ok who ∧ has_ops_role who (sh_vcluster_id s) = true ∧
        ss_user x = who ∧ ss_state x = SActive ∧ (ss_rows x <= 500)%N ∧ (ss_cols x <= 500)%N ∧
        s' = with_sessions s (with_sessions_map (sh_sessions s) (<[uuid := x]> (sessions (sh_sessions s))))
  end.
Proof.
  intros Hf. unfold shell, extract_auth. destruct header as [h|]; simpl; [|intros; by simplify_eq].
  destruct (authenticate s h) as [who|] eqn:Ha; [|intros; by simplify_eq].
  destruct (has_ops_role who (sh_vcluster_id s)) eqn:Ho; simpl; [|intros; by simplify_eq].
  destruct first as [[[rows cols term|?|? ?| |]|?]|]; try (intros; by simplify_eq).
  unfold create_session. destruct (N.leb_spec (max_sessions (sh_sessions s)) (N.of_nat (size (sessions (sh_sessions s))))) as [|Hlt];
    [intros; by simplify_eq|]. simpl. rewrite lookup_insert_eq. destruct pty; intros [= <- <-].
  - split; [done|]. split; [done|]. eexists h, who, _. split_and!; [done..| | | | |]; [| | | |];
      [| | | | unfold activate, with_sessions_map; simpl; rewrite alter_insert_eq; done]; simpl; try done; lia.
  - apply with_sessions_id; [|done]. simpl. by rewrite delete_insert_id.
Qed.

(** Operations on the sessions of a server, with fresh session ids. *)
Inductive session_step : ShellServer → ShellServer → Prop :=
| st_shell now uuid header first pty s s' r :
    sessions (sh_sessions s) !! uuid = None → shell now uuid header first pty s = (s', r) → session_step s s'
| st_end id s : session_step s (shell_end id s)
| st_stale now age s m ids : cleanup_stale now age (sh_sessions s) = (m, ids) → session_step s (with_sessions s m).

Definition sessions_ok (s : ShellServer) : Prop :=
  (N.of_nat (size (sessions (sh_sessions s))) <= max_sessions (sh_sessions s))%N ∧
  ∀ id x, sessions (sh_sessions s) !! id = Some x →
    ss_state x = SActive ∧ has_ops_role (ss_user x) (sh_vcluster_id s) = true.

Lemma sessions_ok_subset s m :
  sessions m ⊆ sessions (sh_sessions s) → max_sessions m = max_sessions (sh_sessions s) →
  sessions_ok s → sessions_ok (with_sessions s m).
Proof.
  intros Hsub Hmax [Hn Hx]. split; simpl.
  - rewrite Hmax. pose proof (map_subseteq_size _ _ Hsub). lia.
  - intros id x Hid. eapply Hx. by eapply lookup_weaken.
Qed.

Lemma foldr_delete_subseteq {A} (ids : list string) (m : gmap string A) : foldr delete m ids ⊆ m.
Proof. induction ids as [|i l IH]; simpl; [done|]. etrans; [apply delete_subseteq|done]. Qed.

Lemma session_step_ok s s' : session_step s s' → sessions_ok s → sessions_ok s'.
Proof.
  intros [now uuid header first pty s0 s1 r Hf Hs|id s0|now age s0 m ids Hc] Hok.
  - apply shell_cases in Hs; [|done]. destruct r as [id|]; [|by subst]. destruct Hok as [Hn Hx].
    destruct Hs as (-> & Hlt & h & who & x & _ & _ & Ho & Hu & Hst & _ & _ & ->). split; simpl.
    + rewrite map_size_insert_None by done. lia.
    + intros i y. rewrite lookup_insert. case_decide; [|apply Hx]. intros [= <-]. by rewrite Hu.
  - unfold shell_end. apply sessions_ok_subset; [|done|done]. simpl.
    apply map_subseteq_spec. intros i x. rewrite lookup_delete. case_decide; [done|]. by rewrite lookup_alter_ne.
  - injection Hc as <- <-. apply sessions_ok_subset; [|done|done]. simpl. apply foldr_delete_subseteq.
Qed.

(** Sessions of a node: however shells are opened and end, there are
    never more than the configured number, and every one is an active
    session of an operator of the vCluster or the platform administrator. *)
Theorem sessions_bounded auth exec node vcluster learning max s :
  rtc session_step (shell_server_new auth exec node vcluster learning max) s →
  (N.of_nat (size (sessions (sh_sessions s))) <= max_sessions (sh_sessions s))%N ∧
  ∀ id x, sessions (sh_sessions s) !! id = Some x →
    ss_state x = SActive ∧
    (role (ss_user x) = "pact-platform-admin" ∨ role (ss_user x) = "pact-ops-" +:+ sh_vcluster_id s).
Proof.
  intros Hr. assert (Hok : sessions_ok s).
  { assert (H0 : sessions_ok (shell_server_new auth exec node vcluster learning max)).
    { split; [simpl; rewrite map_size_empty; lia|]. intros id x. cbn. by rewrite lookup_empty. }
    revert H0. induction Hr as [|x y z Hs _ IH]; [done|]. intros Hx. apply IH. by eapply session_step_ok. }
  destruct Hok as [Hn Hx]. split; [done|]. intros id x Hid. destruct (Hx id x Hid) as [Hst Ho].
  split; [done|]. by apply has_ops_role_true.
Qed.

(** A shell request opens a session exactly for an authenticated operator
    with a free slot: it either fails and leaves the server as it was, or
    adds one active session of the caller with terminal dimensions of at
    most 500, which the end of the stream removes again. *)
Theorem shell_opens_one now uuid header first pty s s' r :
  sessions (sh_sessions s) !! uuid = None → shell now uuid header first pty s = (s', r) →
  match r with
  | Err _ => s' = s
  | Ok id => id = uuid ∧ shell_end id s' = s ∧ ∃ h who x, header = Some h ∧ authenticate s h = Ok who ∧
      has_ops_role who (sh_vcluster_id s) = true ∧ sessions (sh_sessions s') !! uuid = Some x ∧
      ss_user x = who ∧ ss_state x = SActive ∧ (ss_rows x <= 500)%N ∧ (ss_cols x <= 500)%N
  end.
Proof.
  intros Hf Hs. apply shell_cases in Hs; [|done]. destruct r as [id|]; [|done].
  destruct Hs as (-> & _ & h & who & x & Hh & Ha & Ho & Hu & Hst & Hr & Hc & ->). split; [done|]. split.
  - unfold shell_end. simpl. rewrite alter_insert_eq. unfold remove_session, with_sessions_map. simpl.
    rewrite delete_insert_id by done.
    transitivity (with_sessions s (with_sessions_map (sh_sessions s) (sessions (sh_sessions s))));
      [done|by apply with_sessions_id].
  - exists h, who, x. simpl. rewrite lookup_insert_eq. done.
Qed.

(** Anybody can extend the commit window: a call with any authorization
    header, valid or not, is carried out, and the extension in seconds is
    computed modulo 2^32. *)
Theorem extend_window_unauthenticated now h mins w :
  mins ≠ 0%N →
  (extend_commit_window now (Some h) mins w).1 = Window.extend ((mins * 60) `mod` 4294967296)%N w ∧
  ∃ a, (extend_commit_window now (Some h) mins w).2 = Ok a ∧ ew_success a = true.
Proof.
  intros Hm. unfold extend_commit_window. simpl. apply N.eqb_neq in Hm. rewrite Hm. simpl. split; [done|]. by eexists.
Qed.

(** *** Diagnostics *)

Lemma last_lines_spec content n :
  ∃ pre, str_lines content = pre ++ read_last_n_lines content n ∧
    length (read_last_n_lines content n) = Nat.min (N.to_nat n) (length (str_lines content)).
Proof.
  unfold read_last_n_lines. destruct (N.leb_spec (N.of_nat (length (str_lines content))) n) as [Hle|Hlt].
  - exists []. split; [done|]. lia.
  - exists (take (length (str_lines content) - N.to_nat n) (str_lines content)). split; [by rewrite take_drop|].
    rewrite length_drop. lia.
Qed.

Section diag_theorems.
Context {Regex : Type} (regex_new : string → result Regex string) (is_match : Regex → string → bool).
Context (read_to_string : string → option string) (run_command : string → list string → result string string).

Lemma text_chunk_bound source content limit grep :
  length (dc_lines (text_chunk is_match source content limit grep)) ≤ N.to_nat limit.
Proof.
  unfold text_chunk. simpl. destruct (last_lines_spec content limit) as (_ & _ & Hl).
  transitivity (length (read_last_n_lines content limit)); [|lia].
  destruct grep; simpl; [apply length_filter|done].
Qed.

(** LOG1 to LOG5, what diagnostics return: log lines go only to an
    operator of the vCluster or the platform administrator, for a pattern
    that compiles and a service name that names no other directory; with the
    supervisor's own log files no source gives more lines than the
    normalised limit, which is between 1 and 10000. *)
Theorem diag_bounded header request s chunks :
  grpc_collect_diag regex_new is_match read_to_string run_command header request s = Ok chunks →
  (∃ h who, header = Some h ∧ authenticate s h = Ok who ∧ has_ops_role who (sh_vcluster_id s) = true) ∧
  (dr_service_name request ≠ "" → Str.contains_char (dr_service_name request) "/"%char = false ∧
    Str.contains (dr_service_name request) ".." = false) ∧
  (dr_grep_pattern request ≠ "" → is_ok (regex_new (dr_grep_pattern request)) = true ∧
    String.length (dr_grep_pattern request) ≤ 255) ∧
  (sh_supervisor_backend s = Pact → ∀ c, c ∈ chunks →
    length (dc_lines c) ≤ N.to_nat (normalize_line_limit (dr_line_limit request))) ∧
  (1 <= normalize_line_limit (dr_line_limit request) <= 10000)%N.
Proof.
  unfold grpc_collect_diag, extract_auth. intros Hd. destruct header as [h|]; simpl in Hd; [|done].
  destruct (authenticate s h) as [who|] eqn:Ha; [|done].
  destruct (has_ops_role who (sh_vcluster_id s)) eqn:Ho; simpl in Hd; [|done].
  destruct (validate_grep_pattern regex_new (dr_grep_pattern request)) as [g|] eqn:Hg; [|done].
  destruct (validate_service_name (dr_service_name request) (sh_declared_services s)) as [[]|] eqn:Hn; [|done].
  simplify_eq. split_and!.
  - by exists h, who.
  - intros Hne. revert Hn. unfold validate_service_name. destruct (dr_service_name request) as [|a n]; [done|].
    cbn [Str.is_empty]. case_match eqn:Hx; [done|]. intros _. by apply orb_false_iff in Hx.
  - intros Hne. revert Hg. unfold validate_grep_pattern. destruct (dr_grep_pattern request) as [|a n]; [done|].
    cbn [Str.is_empty]. destruct (N.ltb_spec MAX_GREP_PATTERN_LEN (N.of_nat (String.length (String a n)))) as [|Hlen]; [done|].
    unfold MAX_GREP_PATTERN_LEN in Hlen. destruct (regex_new (String a n)); [|done]. intros _. split; [done|]. lia.
  - intros Hb c. rewrite Hb. unfold collect_diag. rewrite elem_of_app.
    assert (Hsvc : ∀ svc limit grep, length (dc_lines (collect_service_log is_match read_to_string run_command svc limit grep Pact)) ≤ N.to_nat limit).
    { intros. unfold collect_service_log. case_match; [apply text_chunk_bound|simpl; lia]. }
    intros [Hc|Hc].
    + case_match; [|by apply not_elem_of_nil in Hc].
      rewrite !elem_of_cons, elem_of_nil in Hc. destruct Hc as [->|[->|[]]].
      * unfold collect_dmesg. repeat case_match; try apply text_chunk_bound; simpl; lia.
      * unfold collect_syslog. repeat case_match; try apply text_chunk_bound; simpl; lia.
    + case_match; [|by apply not_elem_of_nil in Hc]. case_match.
      * apply list_elem_of_fmap in Hc as (svc & -> & _). apply Hsvc.
      * apply list_elem_of_singleton in Hc as ->. apply Hsvc.
  - unfold normalize_line_limit, DEFAULT_LINE_LIMIT, MAX_LINE_LIMIT. case_match eqn:Hz; [lia|]. apply N.eqb_neq in Hz. lia.
  - unfold normalize_line_limit, DEFAULT_LINE_LIMIT, MAX_LINE_LIMIT. case_match; lia.
Qed.

End diag_theorems.

End theorems.

Module ShellSample.
Definition server : ShellServer :=
  with_commit_window (shell_server_new WhitelistSample.config exec_config_default "node-1" "ml" true 1)
    (Some (Window.window_new commit_window_config_default)).
(** A shell server whose shared secret accepts an operator. *)
#[export] Instance ops_jwt : JwtApi := {|
  decode_hs256 _ _ _ t := if decide (t = "ops") then Ok (WhitelistSample.claims "o@x" "pact-ops-ml") else Err ExpiredSignature;
  decode_rs256 _ _ _ _ := Err (JwtOther "unused");
  rsa_components _ _ := None;
  decode_header_kid _ := Err "unused";
|}.
Definition run (c : string) (args : list string) : Child := Spawned [ReadBytes [104; 105]%N] [] (WaitStatus (Some 0%Z)).
Definition done_ : ShellServer * list ShellEffect * result (ExecResult * bool) ShellError :=
  exec 5 run "Bearer ops" "systemctl" ["restart"; "ntp"] server.
Definition ops : Identity := claims_to_identity (WhitelistSample.claims "o@x" "pact-ops-ml").
Definition opened : ShellServer * result string Status :=
  shell 5 "s1" (Some "Bearer ops") (Some (Ok (InOpen 24 80 ""))) (Ok tt) server.
End ShellSample.
Import ShellSample.


Lemma exec_effects_witness :
  done_.1.1 = with_commit_window server (Window.open 5 F64.one <$> sh_commit_window server).
Proof.
  destruct (exec_effects 5 run "Bearer ops" "systemctl" ["restart"; "ntp"] server done_.1.1 done_.1.2
    {| ex_stdout := [104; 105]%N; ex_stderr := []; ex_exit_code := 0 |} true) as (who & _ & _ & _ & H);
    [vm_compute; reflexivity|exact H].
Defined.

Lemma exec_log_accepted_witness :
  ∃ e, proto_to_config_entry 9 (exec_entry 5 server ops "systemctl") = Ok e ∧
    (@apply JournalSample.chrono 9 (AppendEntry e) journal_init).2 = EntryAppended 0.
Proof.
  destruct (exec_log_accepted (H0 := JournalSample.chrono) 5 9 run "Bearer ops" "systemctl" ["restart"; "ntp"] server done_.1.1
    done_.1.2 {| ex_stdout := [104; 105]%N; ex_stderr := []; ex_exit_code := 0 |} true ops journal_init)
    as (e & He & Ha & _); [vm_compute; reflexivity..|discriminate|].
  exists e. split; [exact He|]. by rewrite Ha.
Defined.

Lemma sessions_bounded_witness : (N.of_nat (size (sessions (sh_sessions (shell_end "s1" server)))) <= 1)%N.
Proof.
  destruct (sessions_bounded WhitelistSample.config exec_config_default "node-1" "ml" true 1
    (shell_end "s1" (shell_server_new WhitelistSample.config exec_config_default "node-1" "ml" true 1))) as [H _];
    [apply rtc_once; apply st_end|exact H].
Defined.

Lemma shell_opens_one_witness : shell_end "s1" opened.1 = server.
Proof.
  destruct (shell_opens_one 5 "s1" (Some "Bearer ops") (Some (Ok (InOpen 24 80 ""))) (Ok tt) server opened.1 (Ok "s1"))
    as (_ & H & _); [vm_compute; reflexivity..|exact H].
Defined.

Lemma extend_window_unauthenticated_witness :
  ∃ a, (extend_commit_window 5 (Some "not a token") 71582789 (Window.window_new commit_window_config_default)).2 = Ok a ∧
    ew_success a = true.
Proof.
  apply (extend_window_unauthenticated 5 "not a token" 71582789 (Window.window_new commit_window_config_default)).
  discriminate.
Defined.

Lemma diag_bounded_witness :
  ∃ h who, Some "Bearer ops" = Some h ∧ authenticate server h = Ok who ∧ has_ops_role who "ml" = true.
Proof.
  apply (diag_bounded (λ s, Ok s) (λ _ _, true) (λ _, None) (λ _ _, Err "no") (Some "Bearer ops")
    {| dr_source_filter := "all"; dr_service_name := "ntp"; dr_grep_pattern := "err"; dr_line_limit := 0 |} server
    [empty_chunk "dmesg" false; empty_chunk "syslog" false; empty_chunk "service:ntp" false]).
  vm_compute; reflexivity.
Defined.
