(* ===== verification/RateLimiter.v ===== *)
(** * Rate limiter of the enrollment endpoint

    crates/pact-journal/src/rate_limiter.rs: token buckets on 64-bit floats,
    one for all sources and one per source address. Instants are
    nanoseconds; [duration_since] saturates at zero. *)

From S2P Require Import Prelude Float64 Types.
From stdpp Require Import options.

Record Bucket := { tokens : f64; max_tokens : f64; refill_rate : f64; last_refill : Z }.

Definition bucket_new (now : Z) (max_per_minute : f64) : Bucket :=
  {| tokens := max_per_minute; max_tokens := max_per_minute; refill_rate := F64.div max_per_minute (F64.of_Z 60);
     last_refill := now |}.

Definition duration_since (later earlier : Z) : Z := Z.max 0 (later - earlier).
Definition as_secs_f64 (d : Z) : f64 :=
  F64.add (F64.of_Z (d `div` 1000000000)) (F64.div (F64.of_Z (d `mod` 1000000000)) (F64.of_Z 1000000000)).

Definition bucket_try_acquire (now : Z) (b : Bucket) : Bucket * bool :=
  let elapsed := as_secs_f64 (duration_since now (last_refill b)) in
  let refilled := F64.min (F64.mul_add elapsed (refill_rate b) (tokens b)) (max_tokens b) in
  let take := F64.ge refilled F64.one in
  ({| tokens := if take then F64.sub refilled F64.one else refilled; max_tokens := max_tokens b;
      refill_rate := refill_rate b; last_refill := now |}, take).

(** Addresses are strings. *)
Record RateLimiter := { global : Bucket; per_ip : gmap string Bucket; per_ip_max : f64 }.

Definition limiter_new (now : Z) (global_per_minute : N) : RateLimiter :=
  let global_max := F64.of_N global_per_minute in
  {| global := bucket_new now global_max; per_ip := ∅;
     per_ip_max := F64.max (F64.div global_max (F64.of_Z 10)) (F64.of_Z 5) |}.

Definition try_acquire (now : Z) (l : RateLimiter) : RateLimiter * bool :=
  let '(g, ok) := bucket_try_acquire now (global l) in
  ({| global := g; per_ip := per_ip l; per_ip_max := per_ip_max l |}, ok).

Definition try_acquire_for_ip (now : Z) (ip : string) (l : RateLimiter) : RateLimiter * bool :=
  let '(g, ok) := bucket_try_acquire now (global l) in
  if negb ok then ({| global := g; per_ip := per_ip l; per_ip_max := per_ip_max l |}, false)
  else
    let '(b, ok_ip) := bucket_try_acquire now (default (bucket_new now (per_ip_max l)) (per_ip l !! ip)) in
    ({| global := g; per_ip := <[ip := b]> (per_ip l); per_ip_max := per_ip_max l |}, ok_ip).

Definition limiter_cleanup_stale (now : Z) (l : RateLimiter) : RateLimiter :=
  {| global := global l;
     per_ip := filter (λ kv, (duration_since now (last_refill kv.2) `div` 1000000000 < 300)%Z) (per_ip l);
     per_ip_max := per_ip_max l |}.

(** ** Theorems *)

(** [n] calls at the same instant and their verdicts. *)
Fixpoint burst (now : Z) (n : nat) (l : RateLimiter) : RateLimiter * list bool :=
  match n with
  | O => (l, [])
  | S n' => let '(l1, v) := try_acquire now l in let '(l2, vs) := burst now n' l1 in (l2, v :: vs)
  end.

Definition filled (now : Z) (k : N) : RateLimiter :=
  {| global := {| tokens := F64.of_N k; max_tokens := F64.of_N 100; refill_rate := F64.div (F64.of_N 100) (F64.of_Z 60);
                  last_refill := now |};
     per_ip := ∅; per_ip_max := F64.max (F64.div (F64.of_N 100) (F64.of_Z 10)) (F64.of_Z 5) |}.

Lemma same_instant now : duration_since now now = 0%Z.
Proof. unfold duration_since. lia. Qed.

(** With [k] tokens left, one call at the same instant. *)
Lemma filled_step now k :
  (k <= 100)%N → try_acquire now (filled now k) = if (k =? 0)%N then (filled now 0, false) else (filled now (k - 1), true).
Proof.
  intros Hk. unfold try_acquire, bucket_try_acquire, filled. cbn [global tokens max_tokens refill_rate last_refill per_ip per_ip_max].
  rewrite same_instant. revert k Hk.
  assert (Hall : Forall (λ k : N,
    (let refilled := F64.min (F64.mul_add (as_secs_f64 0) (F64.div (F64.of_N 100) (F64.of_Z 60)) (F64.of_N k)) (F64.of_N 100) in
     (if F64.ge refilled F64.one then F64.sub refilled F64.one else refilled, F64.ge refilled F64.one)) =
    (F64.of_N (k - 1), negb (k =? 0)%N)) (N.of_nat <$> seq 0 101)).
  { apply Forall_fmap. repeat (constructor; [vm_compute; reflexivity|]). constructor. }
  intros k Hk. rewrite Forall_forall in Hall. specialize (Hall k). cbn zeta in Hall.
  assert (Hin : k ∈ N.of_nat <$> seq 0 101).
  { apply list_elem_of_fmap. exists (N.to_nat k). split; [lia|]. apply elem_of_seq. lia. }
  specialize (Hall Hin). apply pair_eq in Hall as [H1 H2]. cbn zeta. rewrite H1, H2.
  destruct (N.eqb_spec k 0) as [->|]; done.
Qed.

(** The journal's limiter of 100 enrollments a minute admits exactly 100
    of any number of calls that arrive at once: the first ones. *)
Theorem burst_admits_hundred now n :
  (burst now n (limiter_new now 100)).2 = replicate (min n 100) true ++ replicate (n - 100) false.
Proof.
  assert (Hgo : ∀ n k, (k <= 100)%N →
    (burst now n (filled now k)).2 = replicate (min n (N.to_nat k)) true ++ replicate (n - N.to_nat k) false).
  { clear n. induction n as [|n IH]; intros k Hk; [done|]. cbn [burst]. rewrite filled_step by done.
    destruct (N.eqb_spec k 0) as [->|Hne].
    - specialize (IH 0%N ltac:(lia)). destruct (burst now n (filled now 0)) as [l vs]. simpl in *. rewrite IH.
      by rewrite Nat.min_0_r, Nat.sub_0_r.
    - specialize (IH (k - 1)%N ltac:(lia)). destruct (burst now n (filled now (k - 1))) as [l vs]. simpl in *. rewrite IH.
      replace (N.to_nat k) with (S (N.to_nat (k - 1))) by lia. done. }
  apply (Hgo n 100%N). lia.
Qed.

(** A source over its own limit uses up the global budget: a call that
    the per-address bucket refuses takes the same token from the global
    bucket as one that is admitted. *)
Theorem refused_ip_drains_global now ip l l' ok :
  try_acquire_for_ip now ip l = (l', ok) → global l' = (bucket_try_acquire now (global l)).1.
Proof.
  unfold try_acquire_for_ip. destruct (bucket_try_acquire now (global l)) as [g []]; simpl.
  - intros [= <- _]. done.
  - by intros [= <- _].
Qed.

(** Cleaning up forgets exactly the addresses that were not seen for
    five minutes, and keeps the buckets of the others. *)
Theorem cleanup_forgets_stale now l ip b :
  per_ip (limiter_cleanup_stale now l) !! ip = Some b ↔
  per_ip l !! ip = Some b ∧ (now - last_refill b < 300 * 1000000000)%Z.
Proof.
  unfold limiter_cleanup_stale, duration_since. cbn [per_ip]. rewrite map_lookup_filter_Some. simpl.
  split; intros [H1 H2]; (split; [done|]).
  - pose proof (Z.div_mod (0 `max` (now - last_refill b)) 1000000000).
    pose proof (Z.mod_pos_bound (0 `max` (now - last_refill b)) 1000000000). lia.
  - apply Z.div_lt_upper_bound; lia.
Qed.

Module LimiterSample.
(** An address that used up its ten calls. *)
Definition exhausted : RateLimiter :=
  Nat.iter 10 (λ l, (try_acquire_for_ip 0 "10.0.0.1" l).1) (limiter_new 0 100).
End LimiterSample.
Import LimiterSample.

Lemma refused_ip_drains_global_witness :
  (try_acquire_for_ip 0 "10.0.0.1" exhausted).2 = false ∧
  tokens (global (try_acquire_for_ip 0 "10.0.0.1" exhausted).1) = F64.of_N 89.
Proof.
  split; [vm_compute; reflexivity|].
  rewrite (refused_ip_drains_global 0 "10.0.0.1" exhausted (try_acquire_for_ip 0 "10.0.0.1" exhausted).1
    (try_acquire_for_ip 0 "10.0.0.1" exhausted).2); [vm_compute; reflexivity|apply surjective_pairing].
Defined.
