(* ===== verification/CertRotation.v ===== *)
(** * Certificate rotation of the agent

    [DualChannelManager] of crates/pact-agent/src/cert_rotation.rs: the agent
    renews its certificate before it expires by a RenewCert call of the
    journal, and takes the new key and certificate only after a channel with
    them could be opened. Key generation, network connections and what becomes
    of the call are arguments; the call itself is the journal's handler. *)

From S2P Require Import Prelude Types JournalState JournalInvariants JournalProperties Raft EnrollmentService.
From stdpp Require Import options.

Record DualChannelManager := {
  current_cert_serial : string;
  cert_expires_at : string;
  renewal_before_expiry_seconds : N;
  journal_endpoints : list string;
  ca_cert_pem : string;
  current_key_pem : string;
  current_cert_pem : string;
}.

(** The four updates of the swap. *)
Definition swap_credentials (serial expires key cert : string) (m : DualChannelManager) : DualChannelManager :=
  {| current_cert_serial := serial; cert_expires_at := expires;
     renewal_before_expiry_seconds := renewal_before_expiry_seconds m; journal_endpoints := journal_endpoints m;
     ca_cert_pem := ca_cert_pem m; current_key_pem := key; current_cert_pem := cert |}.

Definition should_renew `{Chrono} (now : DateTime) (m : DualChannelManager) : bool :=
  if Str.is_empty (cert_expires_at m) then false
  else match parse_from_rfc3339 (cert_expires_at m) with
       | Some expires => ((expires - now) `quot` 1000000000 <? Z.of_N (renewal_before_expiry_seconds m))%Z
       | None => false
       end.

(** What an attempt to connect to an address gives. *)
Inductive ConnectOutcome := InvalidUri (e : string) | TlsConfigError (e : string) | Unreachable | Connected.

Fixpoint connect_first (net : string → ConnectOutcome) (endpoints : list string) : result string string :=
  match endpoints with
  | [] => Err "no reachable endpoint"
  | endpoint :: rest =>
      let uri := if Str.starts_with endpoint "http" then endpoint else "https://" +:+ endpoint in
      match net uri with
      | InvalidUri e => Err ("invalid endpoint: " +:+ e)
      | TlsConfigError e => Err ("TLS config error: " +:+ e)
      | Unreachable => connect_first net rest
      | Connected => Ok uri
      end
  end.

(** [String::from_utf8] succeeds: well-formed UTF-8. *)
Definition in_range (lo hi : N) (c : Ascii.ascii) : bool := ((lo <=? Ascii.N_of_ascii c) && (Ascii.N_of_ascii c <=? hi))%N.
Definition utf8_tail : Ascii.ascii → bool := in_range 128 191.
Definition utf8_second3 (a : Ascii.ascii) : Ascii.ascii → bool :=
  if (Ascii.N_of_ascii a =? 224)%N then in_range 160 191 else if (Ascii.N_of_ascii a =? 237)%N then in_range 128 159 else utf8_tail.
Definition utf8_second4 (a : Ascii.ascii) : Ascii.ascii → bool :=
  if (Ascii.N_of_ascii a =? 240)%N then in_range 144 191 else if (Ascii.N_of_ascii a =? 244)%N then in_range 128 143 else utf8_tail.
Fixpoint valid_utf8 (s : string) : bool :=
  match s with
  | EmptyString => true
  | String a s1 =>
      if in_range 0 127 a then valid_utf8 s1
      else match s1 with
      | EmptyString => false
      | String b s2 =>
          if in_range 194 223 a then utf8_tail b && valid_utf8 s2
          else match s2 with
          | EmptyString => false
          | String c s3 =>
              if in_range 224 239 a then utf8_second3 a b && utf8_tail c && valid_utf8 s3
              else match s3 with
              | EmptyString => false
              | String d s4 => in_range 240 244 a && utf8_second4 a b && utf8_tail c && utf8_tail d && valid_utf8 s4
              end
          end
      end
  end.

Section renewal.
Context `{Chrono} (validator : TokenValidator) (sign_csr : SignCsr) (domain_id : string).

(** [renew]: [keygen] gives the new key and its request, [active] and
    [passive] are the network with the old and with the new credentials,
    [fault] is what becomes of the call; of a refusal only the message is
    kept as the error. *)
Definition renew (keygen : result (string * bytes) string) (active passive : string → ConnectOutcome)
    (fault : CallFault) (m : DualChannelManager) : prog (DualChannelManager * result unit string) :=
  match keygen with
  | Err e => mret (m, Err e)
  | Ok (new_key_pem, csr) =>
      match connect_first active (journal_endpoints m) with
      | Err e => mret (m, Err e)
      | Ok _ =>
          answer ← over_network fault (renew_cert validator sign_csr domain_id (Header "Bearer renewal-token")
                                         (current_cert_serial m) csr);
          mret match answer with
          | Err st => (m, Err (status_message st))
          | Ok response =>
              if negb (valid_utf8 (rc_signed_cert response)) then (m, Err "invalid cert PEM")
              else match connect_first passive (journal_endpoints m) with
              | Err e => (m, Err e)
              | Ok _ =>
                  (swap_credentials (rc_cert_serial response) (rc_cert_expires_at response) new_key_pem
                     (rc_signed_cert response) m, Ok tt)
              end
          end
      end
  end.

(** An iteration of the renewal loop. *)
Definition renewal_tick (now : DateTime) (keygen : result (string * bytes) string)
    (active passive : string → ConnectOutcome) (fault : CallFault) (m : DualChannelManager) : prog DualChannelManager :=
  if should_renew now m then r ← renew keygen active passive fault m; mret r.1 else mret m.

(** ** Theorems *)

(** The fixed token of the renewal call: with a validator that does not
    accept the text "renewal-token" no renewal ever succeeds, and neither the
    agent's credentials nor the journal change. *)
Theorem renewal_needs_fixed_token why keygen active passive fault m h s s' m' r tr :
  validator "renewal-token" = Err why →
  runs_in h s (renew keygen active passive fault m) s' (m', r) tr →
  m' = m ∧ is_ok r = false ∧ tr = [] ∧ ∃ log, h = others log.
Proof.
  intros Hv. unfold renew. destruct keygen as [[key csr]|e]; [|by intros ([= -> ->] & -> & Hl)%runs_in_ret_inv].
  destruct (connect_first active _); [|by intros ([= -> ->] & -> & Hl)%runs_in_ret_inv].
  unfold renew_cert, authenticated, validate_token_str. simpl. rewrite Hv. simpl.
  destruct fault; simpl; by intros ([= -> ->] & -> & Hl)%runs_in_ret_inv.
Qed.

(** The serials of the journal's enrollments are distinct. *)
Definition serials_unique (s : JournalState) : Prop :=
  ∀ n1 n2 e1 e2 sr, enrollments s !! n1 = Some e1 → enrollments s !! n2 = Some e2 →
    enr_cert_serial e1 = Some sr → enr_cert_serial e2 = Some sr → n1 = n2.

(** How the journal's handler comes to a certificate. *)
Lemma renew_cert_runs_in header sr csr h s s' a tr :
  hw_wf s → runs_in h s (renew_cert validator sign_csr domain_id header sr csr) s' (Ok a) tr →
  ∃ token id log log1 log2 n e signed t log3, let s1 := apply_log (log ++ log1 ++ log2) s in
    let upd := UpdateNodeCert n (sc_cert_serial signed) (sc_cert_expires_at signed) in
    header = Header ("Bearer " +:+ token) ∧ validator token = Ok id ∧
    h = others (log ++ log1) ++ Asked (SignRequest csr n) :: others log2 ++ Applied t upd :: others log3 ∧
    enrollments (apply_log log s) !! n = Some e ∧ enr_cert_serial e = Some sr ∧
    sign_csr csr n domain_id = Ok signed ∧
    a = {| rc_signed_cert := sc_cert_pem signed; rc_ca_chain := sc_ca_chain_pem signed;
           rc_cert_serial := sc_cert_serial signed; rc_cert_expires_at := sc_cert_expires_at signed |} ∧
    tr = [{| ev_before := s1; ev_cmd := upd; ev_answer := Ok (apply t upd s1).2 |}] ∧
    ∃ e1, enrollments s1 !! n = Some e1 ∧
      apply t upd s1 = (put_enrollment n (set_enr_cert e1 (Some (sc_cert_serial signed))
                          (parse_from_rfc3339 (sc_cert_expires_at signed)) (Some t)) s1, RespOk).
Proof.
  intros Hwf. unfold renew_cert. destruct (authenticated validator header) as [id|] eqn:Ha; [|by intros (? & _)%runs_in_ret_inv].
  apply authenticated_Ok in Ha as (token & -> & Hv).
  intros (log & h' & -> & Hr)%runs_in_read_inv. simpl in Hr.
  destruct (list_find _ (hash_values (enrollments (apply_log log s)))) as [[i e]|] eqn:Hf; simpl in Hr; [|by apply runs_in_ret_inv in Hr as (? & _)].
  apply list_find_Some in Hf as (Hl & He & _). apply list_elem_of_lookup_2, elem_of_hash_values in Hl as [n Hn].
  destruct (apply_log_hw_wf log s Hwf) as [Hid _]. destruct (Hid n e Hn) as [<- _].
  apply runs_in_ask_inv in Hr as (log1 & h2 & -> & Hr). simpl in Hr.
  destruct (sign_csr csr (enr_node_id e) domain_id) as [signed|why] eqn:Hs; simpl in Hr; [|by apply runs_in_ret_inv in Hr as (? & _)].
  apply runs_in_write_inv in Hr as (log2 & h3 & [(t & tr' & -> & -> & Hr)|[(err & -> & Hr)|(t & err & tr' & -> & -> & Hr)]]);
    [|by apply runs_in_ret_inv in Hr as (? & _)..].
  apply runs_in_ret_inv in Hr as ([= ->] & -> & log3 & ->).
  exists token, id, log, log1, log2, (enr_node_id e), e, signed, t, log3. rewrite !apply_log_app. cbv zeta.
  split; [done|]. split; [done|]. split; [unfold others; by rewrite fmap_app, <- app_assoc|].
  do 5 (split; [done|]).
  destruct (apply_log_hardware log1 _ _ _ Hn) as (e1 & H1 & _). destruct (apply_log_hardware log2 _ _ _ H1) as (e2 & H2 & _).
  exists e2. split; [done|]. simpl. unfold apply_update_cert, update_enrollment. by rewrite H2.
Qed.

Lemma renew_cert_run now id sr csr s s' answer :
  hw_wf s → validator "renewal-token" = Ok id →
  run now (renew_cert validator sign_csr domain_id (Header "Bearer renewal-token") sr csr) s = (s', answer) →
  match answer with
  | Ok a => ∃ n e signed, enrollments s !! n = Some e ∧ enr_cert_serial e = Some sr ∧
      sign_csr csr n domain_id = Ok signed ∧ rc_cert_serial a = sc_cert_serial signed ∧
      s' = put_enrollment n (set_enr_cert e (Some (sc_cert_serial signed))
             (parse_from_rfc3339 (sc_cert_expires_at signed)) (Some now)) s
  | Err _ => s' = s
  end.
Proof.
  intros [Hwf _] Hv. unfold renew_cert, authenticated, validate_token_str. simpl. rewrite Hv. simpl.
  destruct (list_find _ (hash_values (enrollments s))) as [[i e]|] eqn:Hf; simpl; [|by intros [= <- <-]].
  destruct (sign_csr csr (enr_node_id e) domain_id) as [signed|why] eqn:Hs; simpl; [|by intros [= <- <-]].
  apply list_find_Some in Hf as (Hl & He & _). apply list_elem_of_lookup_2, elem_of_hash_values in Hl as [n Hn].
  destruct (Hwf n e Hn) as [<- _]. unfold apply_update_cert, update_enrollment. rewrite Hn. intros [= <- <-].
  exists (enr_node_id e), e, signed. done.
Qed.

Lemma renew_cert_unknown now sr csr s :
  (∀ n e, enrollments s !! n = Some e → enr_cert_serial e ≠ Some sr) →
  ∃ st, run now (renew_cert validator sign_csr domain_id (Header "Bearer renewal-token") sr csr) s = (s, Err st).
Proof.
  intros Hno. unfold renew_cert, authenticated, validate_token_str. simpl.
  destruct (validator "renewal-token"); simpl; [|eauto].
  destruct (list_find _ (hash_values (enrollments s))) as [[i e]|] eqn:Hf; simpl; [|eauto].
  apply list_find_Some in Hf as (Hl & He & _). apply list_elem_of_lookup_2, elem_of_hash_values in Hl as [n Hn].
  by destruct (Hno n e Hn).
Qed.

(** C30: Renewal is all or nothing on the agent and, when it succeeds, agrees
    with the journal, whatever other commands are applied meanwhile and
    whatever is lost on the network: a failure keeps serial, expiry, key and
    certificate. A success means that the token renewal-token was accepted,
    that the node with the old serial was looked up, and that the new key was
    certified for it; the agent then has that key and the certificate, serial
    and expiry of the authority, and the one write of the journal stored this
    serial with that node. *)
Theorem renewal_consistent keygen active passive fault m h s s' m' r tr :
  hw_wf s → runs_in h s (renew keygen active passive fault m) s' (m', r) tr →
  match r with
  | Err _ => m' = m
  | Ok _ => ∃ key csr id log n e signed h' t log' s1 e1, keygen = Ok (key, csr) ∧ validator "renewal-token" = Ok id ∧
      enrollments (apply_log log s) !! n = Some e ∧ enr_cert_serial e = Some (current_cert_serial m) ∧
      sign_csr csr n domain_id = Ok signed ∧
      current_key_pem m' = key ∧ current_cert_pem m' = sc_cert_pem signed ∧
      current_cert_serial m' = sc_cert_serial signed ∧ cert_expires_at m' = sc_cert_expires_at signed ∧
      journal_endpoints m' = journal_endpoints m ∧ ca_cert_pem m' = ca_cert_pem m ∧
      renewal_before_expiry_seconds m' = renewal_before_expiry_seconds m ∧
      h = others log ++ h' ∧
      tr = [{| ev_before := s1; ev_cmd := UpdateNodeCert n (sc_cert_serial signed) (sc_cert_expires_at signed); ev_answer := Ok RespOk |}] ∧
      enrollments s1 !! n = Some e1 ∧
      s' = apply_log log' (put_enrollment n (set_enr_cert e1 (Some (current_cert_serial m'))
             (parse_from_rfc3339 (cert_expires_at m')) (Some t)) s1) ∧
      ∃ h'', h' = h'' ++ Applied t (UpdateNodeCert n (sc_cert_serial signed) (sc_cert_expires_at signed)) :: others log'
  end.
Proof.
  intros Hwf. unfold renew. destruct keygen as [[key csr]|e]; [|by intros ([= -> ->] & _)%runs_in_ret_inv].
  destruct (connect_first active _) as [u1|]; [|by intros ([= -> ->] & _)%runs_in_ret_inv].
  intros (h1 & h2 & s1 & answer & tr1 & tr2 & H1 & H2 & -> & ->)%runs_in_bind_inv.
  pose proof (runs_in_state _ _ _ _ _ _ H1) as Hs1. pose proof (runs_in_state _ _ _ _ _ _ H2) as Hs2.
  apply runs_in_ret_inv in H2 as (Hans & -> & log4 & ->). rewrite commands_others in Hs2.
  destruct answer as [a|st]; [|by injection Hans as -> ->].
  destruct (valid_utf8 (rc_signed_cert a)); [|by injection Hans as -> ->].
  destruct (connect_first passive _) as [u2|]; [|by injection Hans as -> ->]. injection Hans as -> ->.
  assert (runs_in h1 s (renew_cert validator sign_csr domain_id (Header "Bearer renewal-token") (current_cert_serial m) csr) s1 (Ok a) tr1) as H1'.
  { destruct fault; [done|by apply runs_in_ret_inv in H1 as (? & _)|].
    apply runs_in_bind_inv in H1 as (? & ? & ? & ? & ? & ? & _ & H1 & _). by apply runs_in_ret_inv in H1 as (? & _). }
  apply renew_cert_runs_in in H1' as (token & id & log & log1 & log2 & n & e & signed & t & log3 & Htok & Hv & -> & Hn & He & Hs & -> & -> & e1 & Hn1 & Happ);
    [|done].
  assert ("Bearer " +:+ "renewal-token" = "Bearer " +:+ token) as <-%(inj (String.append "Bearer ")) by exact (f_equal (λ h, match h with Header v => v | _ => "" end) Htok).
  eexists key, csr, id, log, n, e, signed, _, t, (log3 ++ log4), (apply_log (log ++ log1 ++ log2) s), e1. simpl.
  do 12 (split; [done|]). split; [unfold others; rewrite fmap_app, <- !app_assoc; reflexivity|]. simpl in Happ |- *. rewrite Happ.
  split; [done|]. split; [done|]. split.
  - rewrite Hs2, Hs1. rewrite !commands_app. simpl. rewrite !commands_app. simpl. rewrite !commands_others.
    rewrite (apply_log_app log3 log4). f_equal. rewrite app_assoc, apply_log_app, <- app_assoc. simpl. by rewrite Happ.
  - exists (others log1 ++ Asked (SignRequest csr n) :: others log2). unfold others. by rewrite !fmap_app, <- !app_assoc.
Qed.

(** A renewal that fails at the check of the new channel strands the
    agent: the journal has already replaced the serial, the agent keeps the
    old one, and as long as the journal stays as it is every further renewal
    is refused for an unknown serial. *)
Theorem failed_check_strands_agent now id key csr active passive m s m' s' err now2 keygen2 active2 passive2 fault2 :
  hw_wf s → serials_unique s → validator "renewal-token" = Ok id →
  (∀ n signed, sign_csr csr n domain_id = Ok signed → sc_cert_serial signed ≠ current_cert_serial m) →
  is_ok (run now (renew_cert validator sign_csr domain_id (Header "Bearer renewal-token")
                    (current_cert_serial m) csr) s).2 = true →
  is_ok (connect_first passive (journal_endpoints m)) = false →
  run now (renew (Ok (key, csr)) active passive Delivered m) s = (s', (m', err)) →
  is_ok (connect_first active (journal_endpoints m)) = true →
  m' = m ∧ ∃ e, run now2 (renew keygen2 active2 passive2 fault2 m') s' = (s', (m', Err e)).
Proof.
  intros Hwf Hu Hv Hfresh Hok Hpas Hr Hact. unfold renew in Hr.
  destruct (connect_first active _) as [u1|]; [|done]. rewrite run_bind in Hr.
  change (over_network Delivered ?p) with p in Hr. destruct (run now _ s) as [s1 [a|st]] eqn:Hrun; [|done].
  pose proof (renew_cert_run _ _ _ _ _ _ _ Hwf Hv Hrun) as (n & e & signed & Hn & He & Hs & _ & Hs1).
  destruct (connect_first passive _) as [|e1]; [done|]. simpl in Hr.
  assert (s' = s1 ∧ m' = m) as [-> ->] by (by destruct (valid_utf8 _); simplify_eq/=). clear Hr. split; [done|].
  assert (Hno : ∀ n' e', enrollments s1 !! n' = Some e' → enr_cert_serial e' ≠ Some (current_cert_serial m)).
  { rewrite Hs1. simpl. intros n' e'. rewrite lookup_insert. case_decide as Hnn; [intros [= <-]; simpl; intros [= Hx]|].
    - by eapply Hfresh.
    - intros He' Hx. apply Hnn. by eapply Hu. }
  unfold renew. destruct keygen2 as [[key2 csr2]|e2]; [|by eexists]. destruct (connect_first active2 _); [|by eexists].
  rewrite run_bind. destruct (renew_cert_unknown now2 (current_cert_serial m) csr2 s1 Hno) as [st Hst].
  destruct fault2; simpl; rewrite ?run_bind; simpl; rewrite ?Hst; by eexists.
Qed.

End renewal.

Module RotationSample.
Import EnrollSample.
(** A validator that accepts the renewal token, and an enrolled node. *)
Definition lenient : TokenValidator := λ t, if decide (t = "renewal-token") then Ok JournalSample.admin else validator t.
Definition manager : DualChannelManager :=
  {| current_cert_serial := "42"; cert_expires_at := "99"; renewal_before_expiry_seconds := 60;
     journal_endpoints := ["journal:9443"]; ca_cert_pem := "ca"; current_key_pem := "k0"; current_cert_pem := "c0" |}.
Definition resign : SignCsr := λ _ n d,
  Ok {| sc_cert_pem := n +:+ "@" +:+ d; sc_ca_chain_pem := "ca"; sc_cert_serial := "43"; sc_cert_expires_at := "199" |}.
Definition up (_ : string) : ConnectOutcome := Connected.
Definition down (_ : string) : ConnectOutcome := Unreachable.
Definition renewed := run 5 (renew lenient resign "site" (Ok ("k1", [])) up up Delivered manager) enrolled.1.
Definition stranded := run 5 (renew lenient resign "site" (Ok ("k1", [])) up down Delivered manager) enrolled.1.

Lemma enrolled_hw : hw_wf enrolled.1.
Proof.
  destruct (run_runs 1 (enroll sign "site" ctx true enroll_request) registered.1) as [tr Htr].
  destruct (runs_log _ _ _ _ _ Htr) as [log Hlog]. unfold enrolled. rewrite Hlog.
  apply apply_log_hw_wf, registered_hw.
Qed.
End RotationSample.
Import EnrollSample RotationSample.

Lemma renewal_needs_fixed_token_witness :
  (run 5 (renew validator resign "site" (Ok ("k1", [])) up up Delivered manager) enrolled.1).2.1 = manager.
Proof.
  destruct (run_runs 5 (renew validator resign "site" (Ok ("k1", [])) up up Delivered manager) enrolled.1) as [tr [h Hr]].
  rewrite (surjective_pairing (run _ _ _).2) in Hr.
  apply (renewal_needs_fixed_token validator resign "site" "bad signature" (Ok ("k1", [])) up up Delivered manager _ _ _ _ _ _
    ltac:(vm_compute; reflexivity) Hr).
Defined.

Lemma renewal_consistent_witness :
  current_cert_serial renewed.2.1 = "43" ∧ current_key_pem renewed.2.1 = "k1" ∧
  ∃ n signed, resign [] n "site" = Ok signed ∧ current_cert_pem renewed.2.1 = sc_cert_pem signed.
Proof.
  split; [vm_compute; reflexivity|]. split; [vm_compute; reflexivity|].
  destruct (run_runs 5 (renew lenient resign "site" (Ok ("k1", [])) up up Delivered manager) enrolled.1) as [tr [h Hr]].
  fold renewed in Hr. rewrite (surjective_pairing renewed.2) in Hr.
  assert (renewed.2.2 = Ok tt) as Hok by (vm_compute; reflexivity). rewrite Hok in Hr.
  destruct (renewal_consistent lenient resign "site" (Ok ("k1", [])) up up Delivered manager h enrolled.1 renewed.1 renewed.2.1
    (Ok tt) tr enrolled_hw Hr) as (key & csr & id & log & n & e & signed & h' & t & log' & s1 & e1 & Hk & _ & _ & _ & Hs & _ & Hc & _).
  injection Hk as <- <-. exists n, signed. split; [exact Hs|exact Hc].
Defined.

Lemma failed_check_strands_agent_witness :
  stranded.2.1 = manager ∧
  ∃ e, run 9 (renew lenient resign "site" (Ok ("k2", [])) up up Delivered stranded.2.1) stranded.1 = (stranded.1, (stranded.2.1, Err e)).
Proof.
  apply (failed_check_strands_agent lenient resign "site" 5 JournalSample.admin "k1" [] up down manager enrolled.1
    stranded.2.1 stranded.1 stranded.2.2 9 (Ok ("k2", [])) up up Delivered).
  - apply enrolled_hw.
  - intros n1 n2 e1 e2 sr H1 H2 _ _.
    assert (Hone : ∀ n e, enrollments enrolled.1 !! n = Some e → n = "n1").
    { intros n e Hn. apply elem_of_map_to_list in Hn. vm_compute in Hn. set_unfold in Hn. naive_solver. }
    by rewrite (Hone _ _ H1), (Hone _ _ H2).
  - reflexivity.
  - intros n signed [= <-]. discriminate.
  - vm_compute. reflexivity.
  - reflexivity.
  - vm_compute. reflexivity.
  - reflexivity.
Defined.
