(* ===== verification/Agent.v ===== *)
(** * Applying configuration on a node

    The parts of crates/pact-agent/src/boot/mod.rs that act on what the
    journal sends: the dispatch of live updates to the agent's subsystems and
    the application of a state delta (kernel parameters and mounts). The
    writes and mounts themselves are system calls; the model gives the list of
    the calls made. *)

From Stdlib Require Import Ascii.
From S2P Require Import Prelude Text Float64 Types ConfigService Drift CommitWindow Subscription.
From stdpp Require Import options.

(** ** Live updates *)

Record AgentHandles := {
  ah_drift_evaluator : DriftEvaluator;
  ah_commit_window : Window.CommitWindowManager;
  ah_cached_policy : option VClusterPolicy;
  ah_blacklist : list string;
}.

Definition handle_config_action (a : ConfigUpdateAction) (h : AgentHandles) : AgentHandles :=
  match a with
  | OverlayChanged _ => h
  | NodeDeltaChanged _ => h
  | PolicyChanged p =>
      {| ah_drift_evaluator := ah_drift_evaluator h;
         ah_commit_window := Window.update_config (pol_base_commit_window_seconds p) (pol_drift_sensitivity p)
                               (pol_emergency_window_seconds p) (ah_commit_window h);
         ah_cached_policy := Some p; ah_blacklist := ah_blacklist h |}
  | BlacklistChanged patterns =>
      {| ah_drift_evaluator := drift_new patterns drift_weights_default;
         ah_commit_window := ah_commit_window h; ah_cached_policy := ah_cached_policy h;
         ah_blacklist := ah_blacklist h |}
  end.

(** ** State deltas *)

Inductive SysCall :=
| WriteFile (path value : string)
| Umount (path : string)
| Mount (source path fs_type options : string).

(** [s.replace('.', "/")]. *)
Fixpoint dots_to_slashes (s : string) : string :=
  match s with
  | EmptyString => EmptyString
  | String a s' => String (if decide (a = "."%char) then "/"%char else a) (dots_to_slashes s')
  end.

Definition sysctl_call (i : DeltaItem) : option SysCall :=
  match item_action i, item_value i with
  | Remove, _ => None
  | _, None => None
  | _, Some value => Some (WriteFile ("/proc/sys/" +:+ dots_to_slashes (item_key i)) value)
  end.

Definition apply_sysctl (items : list DeltaItem) : list SysCall := omap sysctl_call items.

(** The parts of a string around the first occurrence of a character,
    [find] with the two slices. *)
Fixpoint split_at_char (c : ascii) (s : string) : option (string * string) :=
  match s with
  | EmptyString => None
  | String a s' =>
      if decide (a = c) then Some (EmptyString, s')
      else (λ p, (String a p.1, p.2)) <$> split_at_char c s'
  end.

(** [trim_end_matches(c)]. *)
Fixpoint trim_end_matches (c : ascii) (s : string) : string :=
  match s with
  | EmptyString => EmptyString
  | String a s' =>
      match trim_end_matches c s' with
      | EmptyString => if decide (a = c) then EmptyString else String a EmptyString
      | t => String a t
      end
  end.

Definition parse_mount_value (value : string) : string * string * string :=
  let '(main, options) := match split_at_char "("%char value with
    | Some (before, after) => (Str.trim before, Str.trim (trim_end_matches ")"%char after))
    | None => (Str.trim value, "")
    end in
  match split_at_char ":"%char main with
  | Some (fs, src) => (Str.trim fs, Str.trim src, options)
  | None => (main, "", options)
  end.

Definition mount_call (i : DeltaItem) : option SysCall :=
  match item_action i with
  | Remove => Some (Umount (item_key i))
  | Add | Modify =>
      (λ v, let '(fs, src, opts) := parse_mount_value v in Mount src (item_key i) fs opts) <$> item_value i
  end.

Definition apply_mounts (items : list DeltaItem) : list SysCall := omap mount_call items.

(** [apply_state_delta] on Linux: kernel parameters, then mounts; the other
    categories are only logged. *)
Definition apply_state_delta (d : StateDelta) : list SysCall :=
  apply_sysctl (delta_kernel d) ++ apply_mounts (delta_mounts d).

(** ** Properties *)

(** The last policy among the updates. *)
Definition last_policy (as_ : list ConfigUpdateAction) : option VClusterPolicy :=
  last (omap (λ a, match a with PolicyChanged p => Some p | _ => None end) as_).

(** Live reconfiguration: after any sequence of updates, the cached policy is
    the last one received (or the one before), the commit window runs with
    its base window, sensitivity and emergency window in the state it was in,
    and no update opens, closes or extends a window. *)
Theorem live_updates_apply_last_policy acts h :
  let h' := foldl (λ h a, handle_config_action a h) h acts in
  Window.win_state (ah_commit_window h') = Window.win_state (ah_commit_window h) ∧
  match last_policy acts with
  | Some p =>
      ah_cached_policy h' = Some p ∧
      Window.win_config (ah_commit_window h') =
        {| cw_base_window_seconds := pol_base_commit_window_seconds p; cw_drift_sensitivity := pol_drift_sensitivity p;
           cw_emergency_window_seconds := pol_emergency_window_seconds p |}
  | None => ah_cached_policy h' = ah_cached_policy h ∧
            Window.win_config (ah_commit_window h') = Window.win_config (ah_commit_window h)
  end.
Proof.
  simpl. induction acts as [|a acts IH] using rev_ind; [done|]. rewrite foldl_app. simpl.
  set (h1 := foldl _ h acts) in *. unfold last_policy in *. rewrite omap_app.
  destruct IH as [Hw IH]. destruct a; simpl; rewrite ?app_nil_r, ?last_snoc; split_and!; done.
Qed.

(** Strings without a character, and strings [trim] leaves alone. *)
Fixpoint lacks (c : ascii) (s : string) : Prop :=
  match s with EmptyString => True | String a s' => a ≠ c ∧ lacks c s' end.

Lemma split_at_char_append c s r : lacks c s → split_at_char c (s +:+ String c r) = Some (s, r).
Proof.
  induction s as [|a s IH]; simpl; intros Hl; [by rewrite decide_True|]. destruct Hl as [Ha Hl].
  rewrite decide_False by done. by rewrite IH.
Qed.

Lemma trim_end_snoc_space s : Str.trim_end (s +:+ " ") = Str.trim_end s.
Proof. induction s as [|a s IH]; [done|]. simpl. by rewrite IH. Qed.

Lemma trim_end_matches_append c s : trim_end_matches c s = s → trim_end_matches c (s +:+ String c "") = s.
Proof.
  revert s. assert (Hg : ∀ s, trim_end_matches c (s +:+ String c "") = trim_end_matches c s).
  { induction s as [|a s IH]; simpl; [by rewrite decide_True|]. by rewrite IH. }
  intros s Hs. by rewrite Hg.
Qed.

Lemma trim_idem s : Str.trim_start s = s → Str.trim_end s = s → Str.trim s = s.
Proof. unfold Str.trim. by intros -> ->. Qed.

Lemma lacks_append c s r : lacks c s → lacks c r → lacks c (s +:+ r).
Proof. induction s as [|a s IH]; simpl; naive_solver. Qed.

(** The mount descriptions the text form keeps apart. *)
Record mount_plain (m : ProtoMountSpec) : Prop := {
  mp_fs : lacks "(" (ms_fs_type m) ∧ lacks ":" (ms_fs_type m) ∧ ms_fs_type m ≠ "";
  mp_fs_trim : Str.trim_start (ms_fs_type m) = ms_fs_type m ∧ Str.trim_end (ms_fs_type m) = ms_fs_type m;
  mp_source : lacks "(" (ms_source m);
  mp_source_trim : Str.trim_start (ms_source m) = ms_source m ∧ Str.trim_end (ms_source m) = ms_source m;
  mp_options : trim_end_matches ")" (ms_options m) = ms_options m;
  mp_options_trim : Str.trim_start (ms_options m) = ms_options m ∧ Str.trim_end (ms_options m) = ms_options m;
}.

(** The mount descriptions the journal stores as text are read back on the
    node: parsing the text of a mount gives its file system type, source and
    options again, when the type has no colon, neither type nor source has an
    opening parenthesis, the options do not end in a closing one, and no part
    starts or ends with white space. *)
Theorem mount_value_roundtrip m :
  mount_plain m →
  parse_mount_value (mount_text m) = (ms_fs_type m, ms_source m, ms_options m).
Proof.
  intros [(Hfp & Hfc & Hne) [Hfs Hfe] Hsp [Hss Hse] Hop [Hos Hoe]].
  destruct m as [fs src opts ro]. simpl in *. unfold mount_text, parse_mount_value. simpl.
  assert (Hsplit : split_at_char "(" (fs +:+ ":" +:+ src +:+ " (" +:+ opts +:+ ")")
    = Some (fs +:+ ":" +:+ src +:+ " ", opts +:+ ")")).
  { replace (fs +:+ ":" +:+ src +:+ " (" +:+ opts +:+ ")") with ((fs +:+ ":" +:+ src +:+ " ") +:+ String "(" (opts +:+ ")")).
    - apply split_at_char_append. apply lacks_append; [done|]. split; [done|]. apply (lacks_append "("%char src " "); [done|]. by split.
    - by rewrite !append_assoc. }
  rewrite Hsplit.
  assert (Hmain : Str.trim (fs +:+ ":" +:+ src +:+ " ") = fs +:+ ":" +:+ src).
  { unfold Str.trim. rewrite trim_start_append by done.
    replace (fs +:+ ":" +:+ src +:+ " ") with ((fs +:+ ":" +:+ src) +:+ " ") by by rewrite !append_assoc.
    rewrite trim_end_snoc_space. destruct (decide (src = "")) as [->|Hsrc].
    - by rewrite trim_end_append.
    - rewrite <- append_assoc. rewrite trim_end_append, Hse; [done|congruence]. }
  rewrite Hmain, trim_end_matches_append by done.
  change (fs +:+ ":" +:+ src) with (fs +:+ String ":" src).
  rewrite (split_at_char_append ":" fs src) by done. by rewrite !trim_idem.
Qed.

(** ** Witnesses *)

Lemma mount_value_roundtrip_witness :
  parse_mount_value (mount_text {| ms_fs_type := "nfs"; ms_source := "srv:/data"; ms_options := "rw,hard"; ms_read_only := false |})
  = ("nfs", "srv:/data", "rw,hard").
Proof.
  apply (mount_value_roundtrip {| ms_fs_type := "nfs"; ms_source := "srv:/data"; ms_options := "rw,hard"; ms_read_only := false |}).
  split; vm_compute; repeat split; discriminate.
Defined.
