(* ===== verification/Capability.v ===== *)
(** * Hardware capabilities

    crates/pact-agent/src/capability/: the detection of processors, memory,
    network interfaces, disks and graphics cards from the text files of the
    kernel and the output of vendor tools, and the report assembled from them
    (types of crates/pact-common/src/types.rs). What the operating system
    answers is the class [Host]; a query that fails is [None]. *)

From S2P Require Import Prelude Text Float64 Types.
From stdpp Require Import options.
From Stdlib Require Import Ascii.

#[local] Open Scope N_scope.

(** ** Data *)

Inductive CpuArchitecture := X86_64 | Aarch64 | UnknownArchitecture.
Record CpuCapability := {
  cpu_architecture : CpuArchitecture;
  cpu_model : string;
  cpu_physical_cores : N;
  cpu_logical_cores : N;
  cpu_base_frequency_mhz : N;
  cpu_max_frequency_mhz : N;
  cpu_features : list string;
  cpu_numa_nodes : N;
  cpu_cache_l3_bytes : N;
}.
Definition cpu_capability_default : CpuCapability :=
  {| cpu_architecture := UnknownArchitecture; cpu_model := ""; cpu_physical_cores := 0; cpu_logical_cores := 0;
     cpu_base_frequency_mhz := 0; cpu_max_frequency_mhz := 0; cpu_features := []; cpu_numa_nodes := 1;
     cpu_cache_l3_bytes := 0 |}.

Inductive MemoryType := Ddr4 | Ddr5 | Hbm2e | Hbm3 | Hbm3e | UnknownMemory.
Record NumaNode := { numa_id : N; numa_total_bytes : N; numa_cpus : list N }.
Record HugePageInfo := {
  size_2mb_total : N; size_2mb_free : N; size_1gb_total : N; size_1gb_free : N }.
Definition huge_page_info_default : HugePageInfo :=
  {| size_2mb_total := 0; size_2mb_free := 0; size_1gb_total := 0; size_1gb_free := 0 |}.
Record MemoryCapability := {
  mem_total_bytes : N;
  mem_available_bytes : N;
  mem_type : MemoryType;
  mem_numa_nodes : N;
  mem_numa_topology : list NumaNode;
  mem_hugepages : HugePageInfo;
}.
Definition memory_capability_default : MemoryCapability :=
  {| mem_total_bytes := 0; mem_available_bytes := 0; mem_type := UnknownMemory; mem_numa_nodes := 1;
     mem_numa_topology := []; mem_hugepages := huge_page_info_default |}.

Inductive NetworkFabric := Slingshot | Ethernet | UnknownFabric.
Inductive InterfaceOperState := IfUp | IfDown.
Record NetworkInterface := {
  if_name : string;
  if_fabric : NetworkFabric;
  if_speed_mbps : N;
  if_state : InterfaceOperState;
  if_mac : string;
  if_ipv4 : option string;
}.

Inductive StorageNodeType := Diskless | LocalStorage.
Inductive DiskType := Nvme | Ssd | Hdd | UnknownDisk.
Inductive FsType := Nfs | Lustre | Ext4 | Xfs | Tmpfs | OtherFs (name : string).
Record LocalDisk := { disk_device : string; disk_model : string; disk_capacity_bytes : N; disk_type : DiskType }.
Record MountInfo := {
  mi_path : string; mi_fs_type : FsType; mi_source : string; mi_total_bytes : N; mi_available_bytes : N }.
Record StorageCapability := {
  st_node_type : StorageNodeType; st_local_disks : list LocalDisk; st_mounts : list MountInfo }.

Record ServiceStatusInfo := {
  si_name : string; si_state : ServiceState; si_pid : N; si_uptime_seconds : N; si_restart_count : N }.
Record SoftwareCapability := {
  sw_loaded_modules : list string; sw_uenv_image : option string; sw_services : list ServiceStatusInfo }.
Record EmergencyInfo := {
  ei_reason : string; ei_admin_identity : Identity; ei_started_at : DateTime; ei_expires_at : DateTime }.

Inductive GpuVendor := Nvidia | Amd.
Inductive GpuHealth := Healthy | Degraded | FailedGpu.
Record GpuCapability := {
  gpu_index : N;
  gpu_vendor : GpuVendor;
  gpu_model : string;
  gpu_memory_bytes : N;
  gpu_health : GpuHealth;
  gpu_pci_bus_id : string;
}.
Record SupervisorStatus := {
  ss_backend : SupervisorBackend; ss_services_declared : N; ss_services_running : N; ss_services_failed : N }.

Record CapabilityReport := {
  cr_node_id : NodeId;
  cr_timestamp : DateTime;
  cr_report_id : string;
  cr_cpu : CpuCapability;
  cr_gpus : list GpuCapability;
  cr_memory : MemoryCapability;
  cr_network : list NetworkInterface;
  cr_storage : StorageCapability;
  cr_software : SoftwareCapability;
  cr_config_state : ConfigState;
  cr_drift_summary : option DriftVector;
  cr_emergency : option EmergencyInfo;
  cr_supervisor_status : SupervisorStatus;
}.

(** What the host answers. A directory lists its entries in order, [None]
    for an entry that cannot be read; [file_system_stat] gives the blocks,
    the available blocks and the fragment size unless it fails or takes more
    than two seconds; a tool gives its exit code (none when killed) and both
    outputs, or the error of starting it. *)
Inductive ToolError := ToolNotFound | ToolIoError (text : string).
Record ToolOutput := { to_success : bool; to_status : string; to_stdout : string; to_stderr : string }.
Class Host := {
  host_arch : string;
  read_to_string : string → option string;
  read_dir : string → option (list (option string));
  path_exists : string → bool;
  read_link : string → option string;
  file_system_stat : string → option (N * N * N);
  run_tool : string → list string → result ToolOutput ToolError;
  run_tool_2s : string → list string → option (result ToolOutput ToolError);
}.

(** The entries before the first unreadable one ([while let Ok(Some(..))])
    and the readable entries ([flatten]). *)
Fixpoint entries_until_error (l : list (option string)) : list string :=
  match l with Some n :: l' => n :: entries_until_error l' | _ => [] end.
Definition entries_flatten (l : list (option string)) : list string := omap id l.

(** ** Processors (cpu.rs) *)

Module Cpu.

Definition detect_architecture `{Host} : CpuArchitecture :=
  if decide (host_arch = "x86_64") then X86_64
  else if decide (host_arch = "aarch64") then Aarch64 else UnknownArchitecture.

(** The variables of the loop over /proc/cpuinfo. *)
Record CpuInfo := {
  ci_model : string;
  ci_features : list string;
  ci_logical : N;
  ci_physical_ids : gset N;
  ci_cores_per_socket : N;
}.
Definition cpuinfo_start : CpuInfo :=
  {| ci_model := ""; ci_features := []; ci_logical := 0; ci_physical_ids := ∅; ci_cores_per_socket := 0 |}.

(** One arm of the match on the key per case, in the order of the source. *)
Definition cpuinfo_key (key value : string) (c : CpuInfo) : CpuInfo :=
  let model m := {| ci_model := m; ci_features := ci_features c; ci_logical := ci_logical c;
                    ci_physical_ids := ci_physical_ids c; ci_cores_per_socket := ci_cores_per_socket c |} in
  if bool_decide (key = "model name") && Str.is_empty (ci_model c) then model value
  else if bool_decide (key = "CPU implementer") && Str.is_empty (ci_model c) then model ("ARM implementer " +:+ value)
  else if bool_decide (key = "CPU part") && Str.starts_with (ci_model c) "ARM implementer" then
    model (ci_model c +:+ " part " +:+ value)
  else if (bool_decide (key = "flags") || bool_decide (key = "Features")) && bool_decide (ci_features c = []) then
    {| ci_model := ci_model c; ci_features := split_whitespace value; ci_logical := ci_logical c;
       ci_physical_ids := ci_physical_ids c; ci_cores_per_socket := ci_cores_per_socket c |}
  else if bool_decide (key = "processor") then
    match Str.parse_unsigned u32_max value with
    | Some _ => {| ci_model := ci_model c; ci_features := ci_features c; ci_logical := wrap_u32 (ci_logical c + 1);
                   ci_physical_ids := ci_physical_ids c; ci_cores_per_socket := ci_cores_per_socket c |}
    | None => c
    end
  else if bool_decide (key = "physical id") then
    match Str.parse_unsigned u32_max value with
    | Some i => {| ci_model := ci_model c; ci_features := ci_features c; ci_logical := ci_logical c;
                   ci_physical_ids := {[ i ]} ∪ ci_physical_ids c; ci_cores_per_socket := ci_cores_per_socket c |}
    | None => c
    end
  else if bool_decide (key = "cpu cores") && (ci_cores_per_socket c =? 0) then
    match Str.parse_unsigned u32_max value with
    | Some n => {| ci_model := ci_model c; ci_features := ci_features c; ci_logical := ci_logical c;
                   ci_physical_ids := ci_physical_ids c; ci_cores_per_socket := n |}
    | None => c
    end
  else c.

Definition cpuinfo_line (c : CpuInfo) (line : string) : CpuInfo :=
  match split_once ":"%char (Str.trim line) with
  | Some (key, value) => cpuinfo_key (Str.trim key) (Str.trim value) c
  | None => c
  end.

Definition physical_cores (c : CpuInfo) : N :=
  if negb (bool_decide (ci_physical_ids c = ∅)) && (0 <? ci_cores_per_socket c) then
    wrap_u32 (wrap_u32 (N.of_nat (size (ci_physical_ids c))) * ci_cores_per_socket c)
  else if 0 <? ci_logical c then ci_logical c else 0.

Definition parse_cpuinfo (content : string) : string * list string * N * N :=
  let c := foldl cpuinfo_line cpuinfo_start (str_lines content) in
  (ci_model c, ci_features c, physical_cores c, ci_logical c).

Definition read_sysfs_khz `{Host} (path : string) : option N :=
  content ← read_to_string path; Str.parse_unsigned u64_max (Str.trim content).

Fixpoint first_mhz (lines : list string) : option N :=
  match lines with
  | [] => None
  | line :: lines' =>
      let v := if Str.starts_with line "cpu MHz" then
                 '(_, value) ← split_once ":"%char line; F64.to_u32 <$> F64.parse (Str.trim value)
               else None in
      match v with Some mhz => Some mhz | None => first_mhz lines' end
  end.
Definition read_cpuinfo_mhz `{Host} : option N :=
  content ← read_to_string "/proc/cpuinfo"; first_mhz (str_lines content).

Definition cpufreq : string := "/sys/devices/system/cpu/cpu0/cpufreq/".
Definition detect_frequency `{Host} : N * N :=
  let base := match read_sysfs_khz (cpufreq +:+ "base_frequency") with
              | Some k => Some k
              | None => read_sysfs_khz (cpufreq +:+ "cpuinfo_min_freq")
              end in
  let max := read_sysfs_khz (cpufreq +:+ "cpuinfo_max_freq") in
  let fallback := match base, max with Some _, Some _ => None | _, _ => read_cpuinfo_mhz end in
  let mhz khz := match khz with Some k => Some (wrap_u32 (k `div` 1000)) | None => fallback end in
  (default 0 (mhz base), default 0 (mhz max)).

Definition node_dir : string := "/sys/devices/system/node".
Definition is_node_name (name : string) : bool :=
  match Str.strip_prefix "node" name with
  | Some r => bool_decide (is_Some (Str.parse_unsigned u32_max r))
  | None => false
  end.
Definition detect_numa_nodes `{Host} : N :=
  if path_exists node_dir then
    let count := foldl (λ n name, if is_node_name name then wrap_u32 (n + 1) else n) 0
                   (entries_until_error (default [] (read_dir node_dir))) in
    if count =? 0 then 1 else count
  else 1.

Definition parse_cache_size (s : string) : N :=
  let s := Str.trim s in
  if Str.is_empty s then 0
  else match Str.strip_suffix "K" s with
       | Some kb => wrap_u64 (default 0 (Str.parse_unsigned u64_max kb) * 1024)
       | None =>
           match Str.strip_suffix "M" s with
           | Some mb => wrap_u64 (wrap_u64 (default 0 (Str.parse_unsigned u64_max mb) * 1024) * 1024)
           | None => default 0 (Str.parse_unsigned u64_max s)
           end
       end.
Definition detect_l3_cache `{Host} : N :=
  match read_to_string "/sys/devices/system/cpu/cpu0/cache/index3/size" with
  | Some content => parse_cache_size (Str.trim content)
  | None => 0
  end.

(** [LinuxCpuBackend::detect]. *)
Definition detect_cpu `{Host} : CpuCapability :=
  let '(model, features, physical, logical) := parse_cpuinfo (default "" (read_to_string "/proc/cpuinfo")) in
  let '(base, max) := detect_frequency in
  {| cpu_architecture := detect_architecture; cpu_model := model; cpu_physical_cores := physical;
     cpu_logical_cores := logical; cpu_base_frequency_mhz := base; cpu_max_frequency_mhz := max;
     cpu_features := features; cpu_numa_nodes := detect_numa_nodes; cpu_cache_l3_bytes := detect_l3_cache |}.

End Cpu.

(** ** Memory (memory.rs) *)

Module Memory.

Definition parse_meminfo_kb (line : string) : option N :=
  field ← split_whitespace line !! 1%nat; Str.parse_unsigned u64_max field.

(** The variables of the loop over /proc/meminfo. *)
Record MemInfo := { mi_total : N; mi_available : N; mi_hp_total : N; mi_hp_free : N; mi_hp_size_kb : N }.
Definition meminfo_start : MemInfo :=
  {| mi_total := 0; mi_available := 0; mi_hp_total := 0; mi_hp_free := 0; mi_hp_size_kb := 0 |}.
Definition meminfo_line (c : MemInfo) (line : string) : MemInfo :=
  match parse_meminfo_kb line with
  | None => c
  | Some kb =>
      if Str.starts_with line "MemTotal:" then
        {| mi_total := wrap_u64 (kb * 1024); mi_available := mi_available c; mi_hp_total := mi_hp_total c;
           mi_hp_free := mi_hp_free c; mi_hp_size_kb := mi_hp_size_kb c |}
      else if Str.starts_with line "MemAvailable:" then
        {| mi_total := mi_total c; mi_available := wrap_u64 (kb * 1024); mi_hp_total := mi_hp_total c;
           mi_hp_free := mi_hp_free c; mi_hp_size_kb := mi_hp_size_kb c |}
      else if Str.starts_with line "HugePages_Total:" then
        {| mi_total := mi_total c; mi_available := mi_available c; mi_hp_total := kb;
           mi_hp_free := mi_hp_free c; mi_hp_size_kb := mi_hp_size_kb c |}
      else if Str.starts_with line "HugePages_Free:" then
        {| mi_total := mi_total c; mi_available := mi_available c; mi_hp_total := mi_hp_total c;
           mi_hp_free := kb; mi_hp_size_kb := mi_hp_size_kb c |}
      else if Str.starts_with line "Hugepagesize:" then
        {| mi_total := mi_total c; mi_available := mi_available c; mi_hp_total := mi_hp_total c;
           mi_hp_free := mi_hp_free c; mi_hp_size_kb := kb |}
      else c
  end.
Definition parse_meminfo (content : string) : N * N * (N * N) :=
  let c := foldl meminfo_line meminfo_start (str_lines content) in
  (mi_total c, mi_available c, if mi_hp_size_kb c =? 2048 then (mi_hp_total c, mi_hp_free c) else (0, 0)).

Definition read_sysfs_u64 `{Host} (path : string) : option N :=
  content ← read_to_string path; Str.parse_unsigned u64_max (Str.trim content).
Definition detect_1gb_hugepages `{Host} : N * N :=
  let base := "/sys/kernel/mm/hugepages/hugepages-1048576kB" in
  (default 0 (read_sysfs_u64 (base +:+ "/nr_hugepages")), default 0 (read_sysfs_u64 (base +:+ "/free_hugepages"))).

(** The first number that stands right before a field "kB". *)
Fixpoint kb_value (prev : string) (fields : list string) : option N :=
  match fields with
  | [] => None
  | f :: fields' =>
      match (if decide (f = "kB") then Str.parse_unsigned u64_max prev else None) with
      | Some kb => Some (wrap_u64 (kb * 1024))
      | None => kb_value f fields'
      end
  end.
Definition line_kb_value (line : string) : option N :=
  match split_whitespace line with f :: fields => kb_value f fields | [] => None end.
Fixpoint node_memtotal (lines : list string) : option N :=
  match lines with
  | [] => None
  | line :: lines' =>
      match (if Str.contains line "MemTotal:" then line_kb_value line else None) with
      | Some n => Some n
      | None => node_memtotal lines'
      end
  end.
Definition read_node_memtotal `{Host} (path : string) : option N :=
  content ← read_to_string path; node_memtotal (str_lines content).

(** [s..=e]. *)
Definition range_inclusive (s e : N) : list N := (λ i, s + N.of_nat i) <$> seq 0 (N.to_nat (e + 1 - s)).

Definition cpulist_part (part : string) : list N :=
  let part := Str.trim part in
  if Str.is_empty part then []
  else match split_once "-"%char part with
       | Some (start, end_) =>
           match Str.parse_unsigned u32_max (Str.trim start), Str.parse_unsigned u32_max (Str.trim end_) with
           | Some s, Some e => range_inclusive s e
           | _, _ => []
           end
       | None => match Str.parse_unsigned u32_max part with Some v => [v] | None => [] end
       end.
Definition parse_cpulist (content : string) : list N :=
  let content := Str.trim content in
  if Str.is_empty content then [] else mjoin (cpulist_part <$> Str.split ","%char content).

(** The loop over the entries of the node directory. *)
Definition numa_node `{Host} (name : string) : option NumaNode :=
  id_str ← Str.strip_prefix "node" name;
  id ← Str.parse_unsigned u32_max id_str;
  let dir := Cpu.node_dir +:+ "/" +:+ name in
  Some {| numa_id := id; numa_total_bytes := default 0 (read_node_memtotal (dir +:+ "/meminfo"));
          numa_cpus := match read_to_string (dir +:+ "/cpulist") with
                       | Some cpulist => parse_cpulist (Str.trim cpulist)
                       | None => []
                       end |}.
Definition numa_le (a b : NumaNode) : Prop := numa_id a <= numa_id b.
#[export] Instance numa_le_dec : RelDecision numa_le.
Proof. intros a b. unfold numa_le. apply _. Defined.
Definition detect_numa_topology `{Host} : N * list NumaNode :=
  if path_exists Cpu.node_dir then
    let nodes := sort_by numa_le (omap numa_node (entries_until_error (default [] (read_dir Cpu.node_dir)))) in
    (if bool_decide (nodes = []) then 1 else wrap_u32 (N.of_nat (length nodes)), nodes)
  else (1, []).

Definition memory_type_of (v : string) : MemoryType :=
  if decide (v = "DDR4") then Ddr4
  else if decide (v = "DDR5") then Ddr5
  else if eq_ignore_ascii_case v "HBM2E" || eq_ignore_ascii_case v "HBM2e" then Hbm2e
  else if eq_ignore_ascii_case v "HBM3" then Hbm3
  else if eq_ignore_ascii_case v "HBM3E" || eq_ignore_ascii_case v "HBM3e" then Hbm3e
  else UnknownMemory.
Fixpoint first_memory_type (lines : list string) : MemoryType :=
  match lines with
  | [] => UnknownMemory
  | line :: lines' =>
      match Str.strip_prefix "Type:" (Str.trim line) with
      | Some v => memory_type_of (Str.trim v)
      | None => first_memory_type lines'
      end
  end.
Definition parse_dmidecode_memory_type (output : string) : MemoryType := first_memory_type (str_lines output).
Definition detect_memory_type `{Host} : MemoryType :=
  match run_tool_2s "dmidecode" ["--type"; "17"] with
  | Some (Ok out) => if to_success out then parse_dmidecode_memory_type (to_stdout out) else UnknownMemory
  | _ => UnknownMemory
  end.

(** [LinuxMemoryBackend::detect]. *)
Definition detect_memory `{Host} : MemoryCapability :=
  let '(total, available, small_hp) := parse_meminfo (default "" (read_to_string "/proc/meminfo")) in
  let giant_hp := detect_1gb_hugepages in
  let '(numa_count, topology) := detect_numa_topology in
  {| mem_total_bytes := total; mem_available_bytes := available; mem_type := detect_memory_type;
     mem_numa_nodes := numa_count; mem_numa_topology := topology;
     mem_hugepages := {| size_2mb_total := small_hp.1; size_2mb_free := small_hp.2;
                         size_1gb_total := giant_hp.1; size_1gb_free := giant_hp.2 |} |}.

End Memory.

(** ** Network interfaces (network.rs) *)

Module Network.

Definition net_dir : string := "/sys/class/net".
Definition parse_speed (content : string) : N :=
  match parse_signed 63 (Str.trim content) with
  | Some v => if (0 <? v)%Z then Z.to_N v else 0
  | None => 0
  end.
Definition parse_operstate (content : string) : InterfaceOperState :=
  if decide (Str.trim content = "up") then IfUp else IfDown.
Definition parse_fabric (driver_name : string) : NetworkFabric :=
  if Str.contains driver_name "cxi" then Slingshot else Ethernet.

(** [net_dir.join(iface).join(attr)]; interface names hold no slash. *)
Definition attr_path (iface attr : string) : string := net_dir +:+ "/" +:+ iface +:+ "/" +:+ attr.
Definition read_sysfs_file `{Host} (iface attr : string) : string :=
  default "" (Str.trim <$> read_to_string (attr_path iface attr)).
Definition read_sysfs_speed `{Host} (iface : string) : N :=
  match read_to_string (attr_path iface "speed") with Some c => parse_speed c | None => 0 end.
Definition read_sysfs_operstate `{Host} (iface : string) : InterfaceOperState :=
  parse_operstate (read_sysfs_file iface "operstate").

(** [Path::file_name]: the last component unless it is "..". *)
Definition file_name (path : string) : option string :=
  match last (filter (λ c, negb (Str.is_empty c) && negb (bool_decide (c = ".")) = true) (Str.split "/"%char path)) with
  | Some c => if decide (c = "..") then None else Some c
  | None => None
  end.
Definition detect_fabric `{Host} (iface : string) : NetworkFabric :=
  match read_link (attr_path iface "device/driver") with
  | Some target => parse_fabric (default "" (file_name target))
  | None => UnknownFabric
  end.

(** The body of the loop over the interfaces: the loopback and devices
    without hardware are skipped. *)
Definition interface `{Host} (name : string) : option NetworkInterface :=
  if decide (name = "lo") then None
  else if path_exists (attr_path name "device") then
    Some {| if_name := name; if_fabric := detect_fabric name; if_speed_mbps := read_sysfs_speed name;
            if_state := read_sysfs_operstate name; if_mac := read_sysfs_file name "address"; if_ipv4 := None |}
  else None.
(** [LinuxNetworkBackend::detect]. *)
Definition detect_network `{Host} : list NetworkInterface :=
  match read_dir net_dir with
  | Some entries => omap interface (entries_flatten entries)
  | None => []
  end.

End Network.

(** ** Storage (storage.rs) *)

Module Storage.

Definition read_block_sysfs `{Host} (device attr : string) : string :=
  default "" (Str.trim <$> read_to_string ("/sys/block/" +:+ device +:+ "/" +:+ attr)).
(** Sectors of 512 bytes; the product saturates. *)
Definition parse_block_size (content : string) : N :=
  N.min (default 0 (Str.parse_unsigned u64_max (Str.trim content)) * 512) u64_max.
Definition read_block_size `{Host} (device : string) : N := parse_block_size (read_block_sysfs device "size").
Definition detect_disk_type `{Host} (name : string) : DiskType :=
  if Str.starts_with name "nvme" then Nvme
  else let rotational := Str.trim (read_block_sysfs name "queue/rotational") in
       if decide (rotational = "0") then Ssd else if decide (rotational = "1") then Hdd else UnknownDisk.

Definition is_disk_name (name : string) : bool := Str.starts_with name "nvme" || Str.starts_with name "sd".
Definition local_disk `{Host} (name : string) : LocalDisk :=
  {| disk_device := "/dev/" +:+ name; disk_model := read_block_sysfs name "device/model";
     disk_capacity_bytes := read_block_size name; disk_type := detect_disk_type name |}.
Definition detect_local_disks `{Host} : list LocalDisk :=
  match read_dir "/sys/block" with
  | Some entries => local_disk <$> filter (λ n, is_disk_name n = true) (entries_flatten entries)
  | None => []
  end.

Definition mount_fields (line : string) : option (string * string * string) :=
  match split_whitespace line with a :: b :: c :: _ => Some (a, b, c) | _ => None end.
Definition parse_proc_mounts (content : string) : list (string * string * string) :=
  omap mount_fields (str_lines content).
Definition parse_fs_type (s : string) : FsType :=
  if decide (s = "nfs" ∨ s = "nfs4") then Nfs
  else if decide (s = "lustre") then Lustre
  else if decide (s = "ext4") then Ext4
  else if decide (s = "xfs") then Xfs
  else if decide (s = "tmpfs") then Tmpfs
  else OtherFs s.

(** [statvfs_sync] within [statvfs_with_timeout]; a path with a NUL byte
    cannot be passed on. *)
Definition statvfs_with_timeout `{Host} (path : string) : N * N :=
  if Str.contains_char path "000" then (0, 0)
  else match file_system_stat path with
       | Some (blocks, bavail, frsize) => (wrap_u64 (blocks * frsize), wrap_u64 (bavail * frsize))
       | None => (0, 0)
       end.

Definition is_pseudo (path : string) : bool :=
  Str.starts_with path "/proc" || Str.starts_with path "/sys" ||
  Str.starts_with path "/dev" || Str.starts_with path "/run/lock".
Definition mount_info `{Host} (m : string * string * string) : option MountInfo :=
  let '(source, path, fs) := m in
  if is_pseudo path then None
  else let '(total, available) := statvfs_with_timeout path in
       Some {| mi_path := path; mi_fs_type := parse_fs_type fs; mi_source := source; mi_total_bytes := total;
               mi_available_bytes := available |}.
(** [LinuxStorageBackend::detect]. *)
Definition detect_storage `{Host} : StorageCapability :=
  let local_disks := detect_local_disks in
  {| st_node_type := if bool_decide (local_disks = []) then Diskless else LocalStorage;
     st_local_disks := local_disks;
     st_mounts := match read_to_string "/proc/mounts" with
                  | Some c => omap mount_info (parse_proc_mounts c)
                  | None => []
                  end |}.

End Storage.

(** ** Graphics cards and the report (mod.rs) *)

Module Gpu.

Definition nvidia_line (line : string) : option GpuCapability :=
  match Str.trim <$> splitn 4 ","%char (Str.trim line) with
  | [index; model; memory; pci] =>
      index ← Str.parse_unsigned u32_max index;
      memory_mib ← Str.parse_unsigned u64_max memory;
      Some {| gpu_index := index; gpu_vendor := Nvidia; gpu_model := model;
              gpu_memory_bytes := wrap_u64 (wrap_u64 (memory_mib * 1024) * 1024); gpu_health := Healthy;
              gpu_pci_bus_id := pci |}
  | _ => None
  end.
Definition parse_nvidia_csv (output : string) : list GpuCapability := omap nvidia_line (str_lines output).

(** [position]: the first column whose title contains one of the names. *)
Definition column (headers names : list string) : option nat :=
  fst <$> list_find (λ h, existsb (Str.contains h) names = true) headers.
Record RocmColumns := { col_device : option nat; col_model : option nat; col_vram : option nat; col_id : option nat }.
Definition rocm_columns (header : string) : RocmColumns :=
  let headers := Str.trim <$> Str.split ","%char header in
  {| col_device := column headers ["device"];
     col_model := column headers ["Card series"; "Card Series"; "product"];
     col_vram := column headers ["VRAM Total"; "vram"];
     col_id := column headers ["GPU ID"; "Bus"] |}.
Definition rocm_gpu (cols : RocmColumns) (position : N) (line : string) : GpuCapability :=
  let parts := Str.trim <$> Str.split ","%char line in
  let field c := c ≫= λ i, parts !! i in
  {| gpu_index := default (wrap_u32 position) (field (col_device cols) ≫= Str.parse_unsigned u32_max);
     gpu_vendor := Amd;
     gpu_model := default "Unknown AMD GPU" (field (col_model cols));
     gpu_memory_bytes := default 0 (field (col_vram cols) ≫= Str.parse_unsigned u64_max);
     gpu_health := Healthy;
     gpu_pci_bus_id := default "" (field (col_id cols)) |}.
Fixpoint rocm_lines (cols : RocmColumns) (gpus : list GpuCapability) (lines : list string) : list GpuCapability :=
  match lines with
  | [] => gpus
  | line :: lines' =>
      let line := Str.trim line in
      if Str.is_empty line then rocm_lines cols gpus lines'
      else rocm_lines cols (gpus ++ [rocm_gpu cols (N.of_nat (length gpus)) line]) lines'
  end.
Definition parse_rocm_csv (output : string) : list GpuCapability :=
  match str_lines output with
  | [] => []
  | header :: lines => rocm_lines (rocm_columns header) [] lines
  end.

(** The part both backends share: a tool that is not installed means that
    there are no cards, a tool that fails is an error. *)
Definition detect_with `{Host} (tool : string) (args : list string) (parse : string → list GpuCapability)
    : result (list GpuCapability) string :=
  match run_tool tool args with
  | Ok out => if to_success out then Ok (parse (to_stdout out))
              else Err (tool +:+ " failed (exit " +:+ to_status out +:+ "): " +:+ Str.trim (to_stderr out))
  | Err ToolNotFound => Ok []
  | Err (ToolIoError e) => Err e
  end.
Definition detect_nvidia `{Host} : result (list GpuCapability) string :=
  detect_with "nvidia-smi" ["--query-gpu=index,name,memory.total,pci.bus_id"; "--format=csv,noheader,nounits"]
    parse_nvidia_csv.
Definition detect_amd `{Host} : result (list GpuCapability) string :=
  detect_with "rocm-smi" ["--showid"; "--showproductname"; "--showmeminfo"; "vram"; "--csv"] parse_rocm_csv.

End Gpu.

(** The five backends of [CapabilityReporter], as what [detect] returns. *)
Record CapabilityReporter := {
  rep_node_id : string;
  rep_cpu : result CpuCapability string;
  rep_gpu : result (list GpuCapability) string;
  rep_memory : result MemoryCapability string;
  rep_network : result (list NetworkInterface) string;
  rep_storage : result StorageCapability string;
}.

Definition unwrap_or {A} (d : A) (r : result A string) : A := match r with Ok x => x | Err _ => d end.
Definition storage_fallback : StorageCapability :=
  {| st_node_type := Diskless; st_local_disks := []; st_mounts := [] |}.

(** [with_gpu_only]: the mocks of the other backends answer with defaults. *)
Definition with_gpu_only (node_id : string) (gpu : result (list GpuCapability) string) : CapabilityReporter :=
  {| rep_node_id := node_id; rep_cpu := Ok cpu_capability_default; rep_gpu := gpu;
     rep_memory := Ok memory_capability_default; rep_network := Ok []; rep_storage := Ok storage_fallback |}.

(** The reporter over the Linux backends. *)
Definition linux_reporter `{Host} (node_id : string) (gpu : result (list GpuCapability) string) : CapabilityReporter :=
  {| rep_node_id := node_id; rep_cpu := Ok Cpu.detect_cpu; rep_gpu := gpu; rep_memory := Ok Memory.detect_memory;
     rep_network := Ok Network.detect_network; rep_storage := Ok Storage.detect_storage |}.

Definition parse_proc_modules `{Host} : list string :=
  match read_to_string "/proc/modules" with
  | Some content => omap (λ line, head (split_whitespace line)) (str_lines content)
  | None => []
  end.
Definition detect_software `{Host} : SoftwareCapability :=
  {| sw_loaded_modules := parse_proc_modules; sw_uenv_image := None; sw_services := [] |}.

Definition report `{Host} (now : DateTime) (uuid : string) (r : CapabilityReporter) : result CapabilityReport string :=
  let? gpus := rep_gpu r in
  Ok {| cr_node_id := rep_node_id r;
        cr_timestamp := now;
        cr_report_id := uuid;
        cr_cpu := unwrap_or cpu_capability_default (rep_cpu r);
        cr_gpus := gpus;
        cr_memory := unwrap_or memory_capability_default (rep_memory r);
        cr_network := unwrap_or [] (rep_network r);
        cr_storage := unwrap_or storage_fallback (rep_storage r);
        cr_software := detect_software;
        cr_config_state := ObserveOnly;
        cr_drift_summary := None;
        cr_emergency := None;
        cr_supervisor_status := {| ss_backend := Pact; ss_services_declared := 0; ss_services_running := 0;
                                   ss_services_failed := 0 |} |}.

(** ** Theorems *)

Lemma elem_of_range_inclusive s e i : i ∈ Memory.range_inclusive s e ↔ s <= i <= e.
Proof.
  unfold Memory.range_inclusive. rewrite list_elem_of_fmap. setoid_rewrite elem_of_seq. split.
  - intros (k & -> & Hk). lia.
  - intros Hi. exists (N.to_nat (i - s)). lia.
Qed.

(** The kernel's format of a set of processors: ranges joined by commas. *)
Definition range_text (r : N * N) : string :=
  if decide (r.1 = r.2) then pretty r.1 else pretty r.1 +:+ "-" +:+ pretty r.2.
Definition cpulist_text (rs : list (N * N)) : string := Str.join "," (range_text <$> rs).
Definition cpu_range (r : N * N) : Prop := r.1 <= r.2 <= u32_max.
#[export] Instance cpu_range_dec r : Decision (cpu_range r).
Proof. unfold cpu_range. apply _. Defined.

Lemma range_text_facts r :
  no_space (range_text r) = true ∧ range_text r ≠ "" ∧ char_free "," (range_text r) = true.
Proof.
  pose proof (pretty_nonempty r.1) as Hne. unfold range_text. case_decide.
  - split_and!; auto with pact. by apply pretty_char_free.
  - rewrite !no_space_append, !char_free_append, !pretty_no_space, !pretty_char_free by done.
    split_and!; [done| |done]. destruct (pretty r.1); done.
Qed.
Lemma cpulist_part_text r : cpu_range r → Memory.cpulist_part (range_text r) = Memory.range_inclusive r.1 r.2.
Proof.
  intros Hr. destruct (range_text_facts r) as (Hs & Hne & _). unfold Memory.cpulist_part, cpu_range in *.
  rewrite no_space_trim by done. destruct (Str.is_empty (range_text r)) eqn:He; [by destruct (range_text r)|].
  clear He Hne Hs. unfold range_text. case_decide as Heq.
  - rewrite split_once_absent by by apply pretty_char_free.
    rewrite parse_unsigned_pretty by lia. rewrite <-Heq. unfold Memory.range_inclusive.
    replace (N.to_nat (r.1 + 1 - r.1)) with 1%nat by lia. simpl. by rewrite N.add_0_r.
  - change (pretty r.1 +:+ "-" +:+ pretty r.2) with (pretty r.1 +:+ String "-" (pretty r.2)).
    rewrite split_once_found by by apply pretty_char_free.
    rewrite !no_space_trim by auto with pact. by rewrite !parse_unsigned_pretty by lia.
Qed.
Lemma no_space_join l : Forall (λ s, no_space s = true) l → no_space (Str.join "," l) = true.
Proof.
  induction 1 as [|s l Hs Hl IH]; [done|]. destruct l as [|s' l]; [done|].
  change (Str.join "," (s :: s' :: l)) with (s +:+ "," +:+ Str.join "," (s' :: l)).
  by rewrite !no_space_append, Hs, IH.
Qed.

(** A list of processors in the kernel's format is read back: the
    parser returns the processors of the ranges, in order, and nothing
    else. *)
Theorem cpulist_roundtrip rs :
  Forall cpu_range rs →
  Memory.parse_cpulist (cpulist_text rs) = mjoin ((λ r, Memory.range_inclusive r.1 r.2) <$> rs) ∧
  ∀ i, i ∈ Memory.parse_cpulist (cpulist_text rs) ↔ ∃ r, r ∈ rs ∧ r.1 <= i <= r.2.
Proof.
  intros Hrs.
  assert (Hp : Memory.parse_cpulist (cpulist_text rs) = mjoin ((λ r, Memory.range_inclusive r.1 r.2) <$> rs)).
  { unfold Memory.parse_cpulist, cpulist_text. destruct rs as [|r rs]; [done|].
    rewrite no_space_trim.
    2:{ apply no_space_join, Forall_fmap, Forall_true. intros x. apply range_text_facts. }
    rewrite fmap_cons, join_is_empty by apply range_text_facts. rewrite <-fmap_cons.
    rewrite (split_join ","%char); [|done|].
    2:{ apply Forall_fmap, Forall_true. intros x. apply range_text_facts. }
    f_equal. induction Hrs as [|x xs Hx Hxs IH]; [done|]. rewrite !fmap_cons, cpulist_part_text by done. by f_equal. }
  split; [done|]. rewrite Hp. intros i. rewrite list_elem_of_join. setoid_rewrite list_elem_of_fmap. split.
  - intros (l & Hi & (r & -> & Hr)). exists r. by rewrite elem_of_range_inclusive in Hi.
  - intros (r & Hr & Hi). exists (Memory.range_inclusive r.1 r.2). split; [by apply elem_of_range_inclusive|by exists r].
Qed.

Lemma cpulist_roundtrip_witness :
  Forall cpu_range [(0, 27); (112, 112); (140, 143)] ∧
  Memory.parse_cpulist (cpulist_text [(0, 27); (112, 112); (140, 143)]) =
    Memory.range_inclusive 0 27 ++ [112; 140; 141; 142; 143].
Proof.
  assert (H : Forall cpu_range [(0, 27); (112, 112); (140, 143)]).
  { apply (bool_decide_unpack _). vm_compute. exact I. }
  split; [done|]. destruct (cpulist_roundtrip _ H) as [-> _]. vm_compute. reflexivity.
Defined.

(** *** /proc/meminfo *)

(** A line of the kernel: a key, blanks, a number and an optional unit. *)
Record MemRow := { row_key : string; row_pad : nat; row_value : N; row_unit : bool }.
Definition row_text (r : MemRow) : string :=
  row_key r +:+ ":" +:+ blanks (S (row_pad r)) +:+ pretty (row_value r) +:+ (if row_unit r then " kB" else "").
Definition row_ok (r : MemRow) : Prop :=
  no_space (row_key r) = true ∧ char_free ":" (row_key r) = true ∧ row_value r <= u64_max.
#[export] Instance row_ok_dec r : Decision (row_ok r).
Proof. apply _. Defined.
(** The value of the row with the given key, zero if there is none. *)
Definition row_lookup (key : string) (rows : list MemRow) : N :=
  match list_find (λ r, row_key r = key) rows with Some (_, r) => row_value r | None => 0 end.

Lemma plain_blanks k : plain_line (blanks k).
Proof. induction k as [|k [IH1 IH2]]; [done|]. split; simpl; by rewrite ?IH1, ?IH2. Qed.
Lemma row_text_plain r : row_ok r → plain_line (row_text r).
Proof.
  intros (Hk & _ & _). unfold row_text.
  repeat apply plain_line_append; [by apply no_space_plain|done|apply plain_blanks|auto using no_space_plain with pact|].
  by destruct (row_unit r).
Qed.

Lemma row_value_parsed r : row_ok r → Memory.parse_meminfo_kb (row_text r) = Some (row_value r).
Proof.
  intros (Hk & Hc & Hv). unfold Memory.parse_meminfo_kb, row_text. cbn [blanks].
  change (":" +:+ String " " (blanks (row_pad r)) +:+ ?x) with (":" +:+ String " " (blanks (row_pad r) +:+ x)).
  rewrite <-append_assoc. rewrite split_whitespace_word; [|by destruct (row_key r)|by rewrite no_space_append, Hk|done].
  rewrite split_whitespace_blanks. destruct (row_unit r).
  - change (pretty (row_value r) +:+ " kB") with (pretty (row_value r) +:+ String " " "kB").
    rewrite split_whitespace_word by auto with pact. simpl. by apply parse_unsigned_pretty.
  - rewrite append_nil_r, split_whitespace_last by auto with pact. simpl. by apply parse_unsigned_pretty.
Qed.
Lemma key_colon_prefix k key s :
  char_free ":" k = true → char_free ":" key = true →
  Str.starts_with (k +:+ String ":" s) (key +:+ ":") = bool_decide (k = key).
Proof.
  intros Hk Hkey. apply Bool.eq_iff_eq_true. rewrite starts_with_true, bool_decide_eq_true. split.
  - intros [r Hr]. rewrite append_assoc in Hr. change (":" +:+ r) with (String ":" r) in Hr.
    pose proof (split_once_found ":" k s Hk) as H1. rewrite Hr, split_once_found in H1 by done. congruence.
  - intros ->. exists s. by rewrite append_assoc.
Qed.
Lemma row_has_key r key :
  row_ok r → char_free ":" key = true → Str.starts_with (row_text r) (key +:+ ":") = bool_decide (row_key r = key).
Proof. intros (_ & Hc & _) Hkey. unfold row_text. by apply (key_colon_prefix (row_key r) key). Qed.

(** What a row does to the variables of the loop. *)
Lemma meminfo_line_row c r :
  row_ok r →
  Memory.meminfo_line c (row_text r) =
    {| Memory.mi_total := if decide (row_key r = "MemTotal") then wrap_u64 (row_value r * 1024) else Memory.mi_total c;
       Memory.mi_available := if decide (row_key r = "MemAvailable") then wrap_u64 (row_value r * 1024)
                              else Memory.mi_available c;
       Memory.mi_hp_total := if decide (row_key r = "HugePages_Total") then row_value r else Memory.mi_hp_total c;
       Memory.mi_hp_free := if decide (row_key r = "HugePages_Free") then row_value r else Memory.mi_hp_free c;
       Memory.mi_hp_size_kb := if decide (row_key r = "Hugepagesize") then row_value r else Memory.mi_hp_size_kb c |}.
Proof.
  intros Hr. unfold Memory.meminfo_line. rewrite row_value_parsed by done.
  change "MemTotal:" with ("MemTotal" +:+ ":"). change "MemAvailable:" with ("MemAvailable" +:+ ":").
  change "HugePages_Total:" with ("HugePages_Total" +:+ ":").
  change "HugePages_Free:" with ("HugePages_Free" +:+ ":"). change "Hugepagesize:" with ("Hugepagesize" +:+ ":").
  rewrite !row_has_key by done.
  rewrite !bool_decide_decide. repeat case_decide; first [congruence|by destruct c].
Qed.

(** Folding a field over rows whose keys differ gives the looked-up value. *)
Lemma fold_row_field {C} (f : C → N) (step : C → MemRow → C) key (g : N → N) rows c :
  NoDup (row_key <$> rows) → Forall row_ok rows →
  (∀ c r, row_ok r → f (step c r) = if decide (row_key r = key) then g (row_value r) else f c) →
  f (foldl step c rows) =
    match list_find (λ r, row_key r = key) rows with Some (_, r) => g (row_value r) | None => f c end.
Proof.
  intros Hnd Hok Hs. revert c. induction rows as [|r rows IH]; intros c; [done|].
  apply Forall_cons in Hok as [Hr Hok]. rewrite fmap_cons in Hnd. apply NoDup_cons in Hnd as [Hnin Hnd]. simpl.
  rewrite IH by done. rewrite Hs by done. case_decide as Hk.
  - destruct (list_find _ rows) as [[i x]|] eqn:E; [|done]. exfalso.
    apply list_find_Some in E as (Hi & Hx & _). apply Hnin. rewrite list_elem_of_fmap. exists x.
    split; [congruence|by eapply list_elem_of_lookup_2].
  - destruct (list_find _ rows) as [[i x]|] eqn:E; simpl; done.
Qed.

(** A memory file of the kernel is read as it is meant, in whatever order
    its lines come: the totals are the values of their rows in kilobytes,
    and the counts of huge pages are reported exactly when the default size
    is two megabytes. *)
Theorem meminfo_read rows :
  NoDup (row_key <$> rows) → Forall row_ok rows →
  Memory.parse_meminfo (unlines (row_text <$> rows)) =
    (wrap_u64 (row_lookup "MemTotal" rows * 1024), wrap_u64 (row_lookup "MemAvailable" rows * 1024),
     if row_lookup "Hugepagesize" rows =? 2048
     then (row_lookup "HugePages_Total" rows, row_lookup "HugePages_Free" rows) else (0, 0)).
Proof.
  intros Hnd Hok. unfold Memory.parse_meminfo. rewrite str_lines_unlines.
  2:{ apply Forall_fmap. eapply Forall_impl; [done|]. apply row_text_plain. }
  rewrite foldl_fmap. set (c := foldl _ _ rows).
  assert (Hf : ∀ (f : Memory.MemInfo → N) key (g : N → N),
    (∀ c r, row_ok r → f (Memory.meminfo_line c (row_text r)) =
              if decide (row_key r = key) then g (row_value r) else f c) →
    f Memory.meminfo_start = g 0 → f c = g (row_lookup key rows)).
  { intros f key g Hs H0. unfold c, row_lookup.
    rewrite (fold_row_field f (λ c r, Memory.meminfo_line c (row_text r)) key g) by done. by repeat case_match. }
  rewrite (Hf Memory.mi_total "MemTotal" (λ v, wrap_u64 (v * 1024))),
    (Hf Memory.mi_available "MemAvailable" (λ v, wrap_u64 (v * 1024))),
    (Hf Memory.mi_hp_total "HugePages_Total" id), (Hf Memory.mi_hp_free "HugePages_Free" id),
    (Hf Memory.mi_hp_size_kb "Hugepagesize" id);
    try done; intros; by rewrite meminfo_line_row.
Qed.

Lemma meminfo_read_witness :
  let rows := [ {| row_key := "MemTotal"; row_pad := 7; row_value := 528280912; row_unit := true |};
                {| row_key := "HugePages_Free"; row_pad := 3; row_value := 16; row_unit := false |};
                {| row_key := "HugePages_Total"; row_pad := 3; row_value := 64; row_unit := false |};
                {| row_key := "Hugepagesize"; row_pad := 7; row_value := 2048; row_unit := true |} ] in
  NoDup (row_key <$> rows) ∧ Forall row_ok rows ∧
  Memory.parse_meminfo (unlines (row_text <$> rows)) = (528280912 * 1024, 0, (64, 16)).
Proof.
  intros rows. assert (H1 : NoDup (row_key <$> rows)) by (apply (bool_decide_unpack _); vm_compute; exact I).
  assert (H2 : Forall row_ok rows) by (apply (bool_decide_unpack _); vm_compute; exact I).
  split_and!; [done|done|]. rewrite (meminfo_read rows H1 H2). vm_compute. reflexivity.
Defined.

(** *** NUMA nodes *)

Lemma is_node_name_numa_node `{Host} name : Cpu.is_node_name name = true ↔ is_Some (Memory.numa_node name).
Proof.
  unfold Cpu.is_node_name, Memory.numa_node. destruct (Str.strip_prefix "node" name) as [r|]; simpl.
  - rewrite bool_decide_eq_true. destruct (Str.parse_unsigned u32_max r); simpl; [split; eauto|split; by intros [? ?]].
  - split; [done|by intros [? ?]].
Qed.
Lemma omap_length {A B} (f : A → option B) l : (length (omap f l) <= length l)%nat.
Proof. induction l as [|x l IH]; csimpl; [done|]. destruct (f x); csimpl; lia. Qed.
Lemma count_nodes `{Host} l n :
  n + N.of_nat (length l) <= u32_max →
  foldl (λ n name, if Cpu.is_node_name name then wrap_u32 (n + 1) else n) n l =
    n + N.of_nat (length (omap Memory.numa_node l)).
Proof.
  revert n. induction l as [|x l IH]; intros n Hn; csimpl in *; [lia|].
  destruct (Memory.numa_node x) as [nd|] eqn:E; csimpl.
  - rewrite (proj2 (is_node_name_numa_node x)) by by eexists. rewrite IH; unfold wrap_u32, u32_max in *; rewrite N.mod_small; lia.
  - destruct (Cpu.is_node_name x) eqn:En; [apply is_node_name_numa_node in En as [? ?]; congruence|].
    rewrite IH; unfold u32_max in *; lia.
Qed.

(** The processor and the memory report count the same NUMA nodes: the
    number is that of the topology, or one for a host without node
    directory, and the topology lists each node once by ascending id. *)
Theorem numa_counts_agree `{Host} :
  N.of_nat (length (entries_until_error (default [] (read_dir Cpu.node_dir)))) <= u32_max →
  cpu_numa_nodes Cpu.detect_cpu = mem_numa_nodes Memory.detect_memory ∧
  StronglySorted Memory.numa_le (mem_numa_topology Memory.detect_memory) ∧
  mem_numa_nodes Memory.detect_memory = N.max 1 (N.of_nat (length (mem_numa_topology Memory.detect_memory))) ∧
  (path_exists Cpu.node_dir = true →
   mem_numa_topology Memory.detect_memory ≡ₚ
     omap Memory.numa_node (entries_until_error (default [] (read_dir Cpu.node_dir)))).
Proof.
  intros Hl. set (l := entries_until_error _) in *.
  assert (Hc : cpu_numa_nodes Cpu.detect_cpu = Cpu.detect_numa_nodes).
  { unfold Cpu.detect_cpu. by repeat case_match. }
  assert (Hm : (mem_numa_nodes Memory.detect_memory, mem_numa_topology Memory.detect_memory) = Memory.detect_numa_topology).
  { unfold Memory.detect_memory. destruct (Memory.parse_meminfo _) as [[??]?]. by destruct Memory.detect_numa_topology. }
  rewrite Hc. revert Hm. unfold Cpu.detect_numa_nodes, Memory.detect_numa_topology. fold l.
  destruct (path_exists Cpu.node_dir).
  2:{ intros [= -> ->]. split_and!; [done|constructor|done|done]. }
  set (nodes := sort_by _ _).
  assert (Hp : nodes ≡ₚ omap Memory.numa_node l) by apply sort_by_perm.
  assert (Hs : StronglySorted Memory.numa_le nodes).
  { apply sort_by_sorted; unfold Memory.numa_le; [intros ???|intros ??]; lia. }
  intros [= -> ->]. rewrite count_nodes by lia.
  pose proof (omap_length Memory.numa_node l) as Hle. pose proof (Permutation_length Hp) as Hpl. rewrite <-Hpl in *.
  assert (Hw : wrap_u32 (N.of_nat (length nodes)) = N.of_nat (length nodes)).
  { unfold wrap_u32, u32_max in *. rewrite N.mod_small; lia. }
  rewrite Hw, N.add_0_l. clearbody nodes. clear -Hs Hp.
  split_and!; [|done| |done]; destruct nodes as [|nd nodes]; simpl; lia.
Qed.

(** A host with two NUMA nodes, a fabric interface and one disk. *)
Definition demo_files : list (string * string) :=
  [("/sys/devices/system/node/node0/meminfo", "Node 0 MemTotal:  1024 kB");
   ("/sys/devices/system/node/node0/cpulist", "0-1");
   ("/sys/devices/system/node/node1/cpulist", "2-3");
   ("/sys/class/net/hsn0/speed", "200000");
   ("/sys/class/net/hsn0/operstate", "up");
   ("/sys/block/nvme0n1/size", "2048");
   ("/proc/modules", "lustre 1 0 - Live 0x0")].
Definition demo_host : Host :=
  {| host_arch := "x86_64";
     read_to_string p := snd <$> (snd <$> list_find (λ f, f.1 = p) demo_files);
     read_dir p := if decide (p = Cpu.node_dir) then Some [Some "node1"; Some "has_cpu"; Some "node0"]
                   else if decide (p = Network.net_dir) then Some [Some "lo"; Some "hsn0"; None]
                   else if decide (p = "/sys/block") then Some [Some "loop0"; Some "nvme0n1"] else None;
     path_exists p := bool_decide (p = Cpu.node_dir ∨ p = "/sys/class/net/hsn0/device");
     read_link p := if decide (p = "/sys/class/net/hsn0/device/driver") then Some "../../bus/pci/drivers/cxi_core"
                    else None;
     file_system_stat p := None;
     run_tool t args := Err ToolNotFound;
     run_tool_2s t args := None |}.

Lemma numa_counts_agree_witness :
  cpu_numa_nodes (@Cpu.detect_cpu demo_host) = 2 ∧
  numa_id <$> mem_numa_topology (@Memory.detect_memory demo_host) = [0; 1].
Proof.
  destruct (@numa_counts_agree demo_host) as (H & _).
  - vm_compute. discriminate.
  - split; [rewrite H|]; vm_compute; reflexivity.
Defined.

Example demo_network :
  @Network.detect_network demo_host =
    [{| if_name := "hsn0"; if_fabric := Slingshot; if_speed_mbps := 200000; if_state := IfUp; if_mac := "";
        if_ipv4 := None |}].
Proof. vm_compute. reflexivity. Qed.

(** *** The report *)

(** A capability report fails exactly when the graphics card backend
    fails, with its error; every other backend that fails is replaced by its
    default. A vendor tool that is missing is no failure, one that exits with
    an error is. *)
Theorem report_errors `{Host} now uuid r :
  (∀ e, report now uuid r = Err e ↔ rep_gpu r = Err e) ∧
  (∀ rep, report now uuid r = Ok rep →
     cr_node_id rep = rep_node_id r ∧ rep_gpu r = Ok (cr_gpus rep) ∧
     (∀ c, rep_cpu r = Ok c → cr_cpu rep = c) ∧ (∀ e, rep_cpu r = Err e → cr_cpu rep = cpu_capability_default) ∧
     (∀ m, rep_memory r = Ok m → cr_memory rep = m) ∧
     (∀ e, rep_memory r = Err e → cr_memory rep = memory_capability_default) ∧
     (∀ e, rep_network r = Err e → cr_network rep = []) ∧
     (∀ e, rep_storage r = Err e → st_node_type (cr_storage rep) = Diskless)) ∧
  (∀ tool args parse, is_ok (Gpu.detect_with tool args parse) =
     match run_tool tool args with Ok out => to_success out | Err ToolNotFound => true | Err _ => false end).
Proof.
  unfold report. split_and!.
  - intros e. destruct (rep_gpu r); simpl; split; congruence.
  - intros rep. destruct (rep_gpu r) as [gpus|e]; simpl; [|done]. intros [= <-]. simpl.
    split_and!; try done; intros ? ->; done.
  - intros tool args parse. unfold Gpu.detect_with. destruct (run_tool tool args) as [out|[]]; try done.
    by destruct (to_success out).
Qed.

(** *** Graphics cards *)

(** A card as nvidia-smi prints it. *)
Definition nvidia_text (index : N) (model : string) (mib : N) (pci : string) : string :=
  pretty index +:+ ", " +:+ model +:+ ", " +:+ pretty mib +:+ ", " +:+ pci.

(** Fields of a line: no commas or line ends, and no blanks at the ends. *)
Definition csv_field (s : string) : Prop :=
  char_free "," s = true ∧ plain_line s ∧ Str.trim s = s ∧ s ≠ "".
#[export] Instance csv_field_dec s : Decision (csv_field s).
Proof. unfold csv_field. apply _. Defined.

Lemma trim_csv s : Str.trim s = s → s ≠ "" → Str.trim_start s = s ∧ Str.trim_end s = s.
Proof.
  unfold Str.trim. intros H Hs. assert (Hst : Str.trim_start s = s).
  { destruct s as [|a s]; [done|]. simpl in *. destruct (Str.is_whitespace a); [|done].
    exfalso. pose proof (trim_start_length s) as H1. 
    assert (∀ s, (String.length (Str.trim_end s) <= String.length s)%nat) as H2.
    { clear. induction s as [|a s IH]; simpl; [done|]. destruct (Str.trim_end s); [case_match; simpl; lia|simpl in *; lia]. }
    specialize (H2 (Str.trim_start s)). rewrite H in H2. simpl in H2. lia. }
  rewrite Hst in H. done.
Qed.
Lemma trim_blank_csv s : csv_field s → Str.trim (" " +:+ s) = s.
Proof. intros (_ & _ & H & _). exact H. Qed.

(** The parser reads back what nvidia-smi prints for any list of cards:
    same cards, same order, with the memory in bytes. *)
Theorem nvidia_roundtrip (cards : list (N * string * N * string)) :
  Forall (λ c, let '(index, model, mib, pci) := c in
               index <= u32_max ∧ csv_field model ∧ mib * 1048576 <= u64_max ∧ csv_field pci) cards →
  Gpu.parse_nvidia_csv (unlines ((λ c, let '(index, model, mib, pci) := c in nvidia_text index model mib pci) <$> cards)) =
  (λ c, let '(index, model, mib, pci) := c in
        {| gpu_index := index; gpu_vendor := Nvidia; gpu_model := model; gpu_memory_bytes := mib * 1048576;
           gpu_health := Healthy; gpu_pci_bus_id := pci |}) <$> cards.
Proof.
  intros Hok. unfold Gpu.parse_nvidia_csv. rewrite str_lines_unlines.
  2:{ apply Forall_fmap. eapply Forall_impl; [done|]. intros [[[i m] b] p] (_ & (_ & Hm & _) & _ & (_ & Hp & _)).
      simpl. unfold nvidia_text. repeat apply plain_line_append; auto using no_space_plain with pact; done. }
  induction Hok as [|[[[i m] b] p] cards (Hi & Hm & Hb & Hp) Hok IH]; [done|]. csimpl.
  assert (Hl : Gpu.nvidia_line (nvidia_text i m b p) =
    Some {| gpu_index := i; gpu_vendor := Nvidia; gpu_model := m; gpu_memory_bytes := b * 1048576;
            gpu_health := Healthy; gpu_pci_bus_id := p |}).
  { unfold Gpu.nvidia_line. assert (Ht : Str.trim (nvidia_text i m b p) = nvidia_text i m b p).
    { unfold Str.trim, nvidia_text. rewrite trim_start_no_space by auto with pact.
      destruct Hp as (_ & _ & Ht & Hne). destruct (trim_csv p Ht Hne) as [_ He].
      rewrite <-!append_assoc. by rewrite trim_end_append, He by by rewrite He. }
    rewrite Ht. clear Ht.
    assert (nvidia_text i m b p = pretty i +:+ String "," ((" " +:+ m) +:+
              String "," ((" " +:+ pretty b) +:+ String "," (" " +:+ p)))) as -> by by rewrite !append_assoc.
    pose proof (proj1 Hm) as Hmf. rewrite !splitn_cons
      by (rewrite ?char_free_append, ?Hmf, ?pretty_char_free; done).
    cbn [splitn].
    cbn [fmap list_fmap]. rewrite (trim_blank_csv m), (trim_blank_csv p) by done.
    rewrite (no_space_trim (pretty i)) by auto with pact.
    assert (Str.trim (" " +:+ pretty b) = pretty b) as -> by (apply (no_space_trim (pretty b)); auto with pact).
    rewrite !parse_unsigned_pretty by (unfold u64_max in *; lia). simpl. do 2 f_equal.
    unfold wrap_u64, u64_max in *. rewrite (N.mod_small (b * 1024)) by lia. rewrite N.mod_small; lia. }
  rewrite Hl. f_equal. exact IH.
Qed.

Lemma nvidia_roundtrip_witness :
  csv_field "NVIDIA A100-SXM4-80GB" ∧
  Gpu.parse_nvidia_csv (unlines [nvidia_text 0 "NVIDIA A100-SXM4-80GB" 81920 "00000000:3B:00.0"]) =
    [{| gpu_index := 0; gpu_vendor := Nvidia; gpu_model := "NVIDIA A100-SXM4-80GB"; gpu_memory_bytes := 85899345920;
        gpu_health := Healthy; gpu_pci_bus_id := "00000000:3B:00.0" |}].
Proof.
  assert (H : csv_field "NVIDIA A100-SXM4-80GB" ∧ csv_field "00000000:3B:00.0").
  { apply (bool_decide_unpack _). vm_compute. exact I. }
  destruct H as [H1 H2]. split; [done|].
  pose proof (nvidia_roundtrip [(0, "NVIDIA A100-SXM4-80GB", 81920, "00000000:3B:00.0")]) as H.
  unfold fmap, list_fmap in H. rewrite H; [vm_compute; reflexivity|].
  repeat constructor; first [exact H1|exact H2|vm_compute; discriminate|apply H1|apply H2].
Defined.

(** *** /proc/cpuinfo *)

Definition tab : ascii := ascii_of_N 9.
Definition cpuinfo_text (key value : string) : string := key +:+ String tab (": " +:+ value).
Definition cpuinfo_field (s : string) : Prop := Str.trim s = s ∧ s ≠ "" ∧ plain_line s.
#[export] Instance cpuinfo_field_dec s : Decision (cpuinfo_field s).
Proof. unfold cpuinfo_field. apply _. Defined.

Lemma trim_end_tab s : Str.trim_end (s +:+ String tab "") = Str.trim_end s.
Proof. induction s as [|a s IH]; [done|]. rewrite append_cons. simpl. by rewrite IH. Qed.
Lemma cpuinfo_line_text c key value :
  cpuinfo_field key → char_free ":" key = true → cpuinfo_field value →
  Cpu.cpuinfo_line c (cpuinfo_text key value) = Cpu.cpuinfo_key key value c.
Proof.
  intros (Hk & Hkn & _) Hkc (Hv & Hvn & _). destruct (trim_csv _ Hk Hkn) as [Hks Hke].
  destruct (trim_csv _ Hv Hvn) as [Hvs Hve]. unfold Cpu.cpuinfo_line.
  assert (cpuinfo_text key value = (key +:+ String tab "") +:+ String ":" (" " +:+ value)) as ->
    by by rewrite append_assoc.
  assert (Str.trim ((key +:+ String tab "") +:+ String ":" (" " +:+ value)) =
          (key +:+ String tab "") +:+ String ":" (" " +:+ value)) as ->.
  { unfold Str.trim. rewrite append_assoc, trim_start_append by done. rewrite <-append_assoc.
    change (String ":" (" " +:+ value)) with (": " +:+ value). rewrite <-append_assoc.
    by rewrite trim_end_append, Hve by by rewrite Hve. }
  rewrite split_once_found by by rewrite char_free_append, Hkc.
  change (Str.trim (" " +:+ value)) with (Str.trim value). rewrite Hv.
  unfold Str.trim. rewrite trim_start_append by done. by rewrite trim_end_tab, Hke.
Qed.

(** The lines of one logical processor on x86. *)
Record X86Cpu := { xc_processor : N; xc_model : string; xc_physical_id : N; xc_cores : N; xc_flags : string }.
Definition x86_lines (b : X86Cpu) : list string :=
  [cpuinfo_text "processor" (pretty (xc_processor b)); cpuinfo_text "model name" (xc_model b);
   cpuinfo_text "physical id" (pretty (xc_physical_id b)); cpuinfo_text "cpu cores" (pretty (xc_cores b));
   cpuinfo_text "flags" (xc_flags b); ""].
Definition x86_ok (b : X86Cpu) : Prop :=
  xc_processor b <= u32_max ∧ cpuinfo_field (xc_model b) ∧ xc_physical_id b <= u32_max ∧
  0 < xc_cores b <= u32_max ∧ cpuinfo_field (xc_flags b).
#[export] Instance x86_ok_dec b : Decision (x86_ok b).
Proof. unfold x86_ok. apply _. Defined.

Lemma pretty_cpuinfo_field (n : N) : cpuinfo_field (pretty n).
Proof. split_and!; auto using no_space_trim, no_space_plain with pact. Qed.
Lemma cpuinfo_text_plain key value : cpuinfo_field key → cpuinfo_field value → plain_line (cpuinfo_text key value).
Proof.
  intros (_ & _ & Hk) (_ & _ & Hv). unfold cpuinfo_text. apply plain_line_append; [done|].
  change (String tab (": " +:+ value)) with (String tab ": " +:+ value). by apply plain_line_append.
Qed.

Lemma x86_block b c :
  x86_ok b →
  foldl Cpu.cpuinfo_line c (x86_lines b) =
    {| Cpu.ci_model := if Str.is_empty (Cpu.ci_model c) then xc_model b else Cpu.ci_model c;
       Cpu.ci_features := if bool_decide (Cpu.ci_features c = []) then split_whitespace (xc_flags b) else Cpu.ci_features c;
       Cpu.ci_logical := wrap_u32 (Cpu.ci_logical c + 1);
       Cpu.ci_physical_ids := {[ xc_physical_id b ]} ∪ Cpu.ci_physical_ids c;
       Cpu.ci_cores_per_socket := if Cpu.ci_cores_per_socket c =? 0 then xc_cores b else Cpu.ci_cores_per_socket c |}.
Proof.
  intros (Hp & Hm & Hi & Hc & Hf). unfold x86_lines. cbn [foldl].
  assert (Hlast : ∀ c, Cpu.cpuinfo_line c "" = c) by done. rewrite Hlast.
  rewrite !cpuinfo_line_text by
    first [done|apply pretty_cpuinfo_field|by apply (bool_decide_unpack _); vm_compute].
  assert (Hproc : ∀ c, Cpu.cpuinfo_key "processor" (pretty (xc_processor b)) c =
    {| Cpu.ci_model := Cpu.ci_model c; Cpu.ci_features := Cpu.ci_features c;
       Cpu.ci_logical := wrap_u32 (Cpu.ci_logical c + 1);
       Cpu.ci_physical_ids := Cpu.ci_physical_ids c; Cpu.ci_cores_per_socket := Cpu.ci_cores_per_socket c |}).
  { intros d. unfold Cpu.cpuinfo_key. by rewrite parse_unsigned_pretty. }
  assert (Hphys : ∀ c, Cpu.cpuinfo_key "physical id" (pretty (xc_physical_id b)) c =
    {| Cpu.ci_model := Cpu.ci_model c; Cpu.ci_features := Cpu.ci_features c; Cpu.ci_logical := Cpu.ci_logical c;
       Cpu.ci_physical_ids := {[ xc_physical_id b ]} ∪ Cpu.ci_physical_ids c;
       Cpu.ci_cores_per_socket := Cpu.ci_cores_per_socket c |}).
  { intros d. unfold Cpu.cpuinfo_key. by rewrite parse_unsigned_pretty. }
  assert (Hcores : ∀ c, Cpu.cpuinfo_key "cpu cores" (pretty (xc_cores b)) c =
    {| Cpu.ci_model := Cpu.ci_model c; Cpu.ci_features := Cpu.ci_features c; Cpu.ci_logical := Cpu.ci_logical c;
       Cpu.ci_physical_ids := Cpu.ci_physical_ids c;
       Cpu.ci_cores_per_socket := if Cpu.ci_cores_per_socket c =? 0 then xc_cores b else Cpu.ci_cores_per_socket c |}).
  { intros [m f l i k]. unfold Cpu.cpuinfo_key. rewrite parse_unsigned_pretty by lia. simpl. by destruct (k =? 0). }
  rewrite Hproc. unfold Cpu.cpuinfo_key at 4. destruct c as [m f l i k]. simpl.
  destruct (Str.is_empty m); simpl; rewrite Hphys, Hcores; unfold Cpu.cpuinfo_key; simpl; by destruct (bool_decide (f = [])).
Qed.

Lemma split_whitespace_nonempty s : cpuinfo_field s → split_whitespace s ≠ [].
Proof.
  intros (Ht & Hn & _). destruct (trim_csv _ Ht Hn) as [Hs _]. destruct s as [|a s]; [done|].
  intros He. simpl in *. destruct (Str.is_whitespace a) eqn:Ha.
  - pose proof (trim_start_length s) as Hl. rewrite Hs in Hl. simpl in Hl. lia.
  - destruct s as [|b s]; [done|]. destruct (Str.is_whitespace b); [done|]. by destruct (split_whitespace (String b s)).
Qed.

Lemma x86_blocks bs c :
  Forall x86_ok bs → Str.is_empty (Cpu.ci_model c) = false → Cpu.ci_features c ≠ [] → Cpu.ci_cores_per_socket c ≠ 0 →
  Cpu.ci_logical c + N.of_nat (length bs) <= u32_max →
  foldl Cpu.cpuinfo_line c (mjoin (x86_lines <$> bs)) =
    {| Cpu.ci_model := Cpu.ci_model c; Cpu.ci_features := Cpu.ci_features c;
       Cpu.ci_logical := Cpu.ci_logical c + N.of_nat (length bs);
       Cpu.ci_physical_ids := list_to_set (xc_physical_id <$> bs) ∪ Cpu.ci_physical_ids c;
       Cpu.ci_cores_per_socket := Cpu.ci_cores_per_socket c |}.
Proof.
  intros Hbs. revert c. induction Hbs as [|b bs Hb Hbs IH]; intros c Hm Hf Hk Hl.
  { destruct c; simpl. f_equal; [lia|set_solver]. }
  cbn [fmap list_fmap mjoin list_join]. rewrite foldl_app, x86_block by done. rewrite Hm, bool_decide_eq_false_2 by done.
  apply N.eqb_neq in Hk as Hk'. rewrite Hk'. simpl in Hl.
  assert (Hw : wrap_u32 (Cpu.ci_logical c + 1) = Cpu.ci_logical c + 1).
  { unfold wrap_u32, u32_max in *. rewrite N.mod_small; lia. }
  change (mjoin (list_fmap _ _ x86_lines bs)) with (mjoin (x86_lines <$> bs)). rewrite IH; simpl; try done.
  - f_equal; [lia|set_solver].
  - lia.
Qed.

(** The processor file of an x86 host is read as it is meant: the model
    and the flags are those of the first entry, there is one logical core
    per entry, and the physical cores are the cores per socket times the
    number of different sockets. *)
Theorem cpuinfo_x86_read b bs :
  Forall x86_ok (b :: bs) → N.of_nat (length (b :: bs)) <= u32_max →
  let sockets := N.of_nat (size (list_to_set (xc_physical_id <$> b :: bs) : gset N)) in
  sockets * xc_cores b <= u32_max →
  Cpu.parse_cpuinfo (unlines (mjoin (x86_lines <$> b :: bs))) =
    (xc_model b, split_whitespace (xc_flags b), sockets * xc_cores b, N.of_nat (length (b :: bs))).
Proof.
  intros Hok Hlen sockets Hs. unfold Cpu.parse_cpuinfo. rewrite str_lines_unlines.
  2:{ apply Forall_forall. intros l (ls & Hl & Hls)%list_elem_of_join. apply list_elem_of_fmap in Hls as (x & -> & Hx).
      rewrite Forall_forall in Hok. destruct (Hok x Hx) as (_ & Hm & _ & _ & Hf). revert l Hl.
      apply Forall_forall. unfold x86_lines. repeat constructor; try done;
        apply cpuinfo_text_plain; auto using pretty_cpuinfo_field; apply (bool_decide_unpack _); by vm_compute. }
  apply Forall_cons in Hok as [Hb Hbs]. rewrite fmap_cons. cbn [mjoin list_join]. rewrite foldl_app, x86_block by done.
  pose proof Hb as (_ & Hm & _ & Hc & Hf). simpl in Hlen.
  change (list_join (x86_lines <$> bs)) with (mjoin (x86_lines <$> bs)). rewrite x86_blocks; simpl; try done.
  - assert (Hsz : size (list_to_set (xc_physical_id <$> bs) ∪ ({[ xc_physical_id b ]} ∪ ∅) : gset N) =
                 size (list_to_set (xc_physical_id <$> b :: bs) : gset N)).
    { f_equal. rewrite fmap_cons. simpl. set_solver. }
    unfold Cpu.physical_cores. simpl. rewrite bool_decide_eq_false_2 by set_solver. rewrite Hsz. fold sockets.
    destruct (N.ltb_spec 0 (xc_cores b)); [|lia]. simpl.
    assert (Hw : wrap_u32 sockets = sockets) by (unfold wrap_u32, u32_max in *; apply N.mod_small; nia).
    rewrite Hw. unfold wrap_u32, u32_max in *. rewrite !(N.mod_small) by lia. f_equal. lia.
  - destruct Hm as (_ & Hne & _). by destruct (xc_model b).
  - by apply split_whitespace_nonempty.
  - lia.
  - unfold wrap_u32, u32_max in *. rewrite N.mod_small; lia.
Qed.

Lemma cpuinfo_x86_read_witness :
  let cpu p s := {| xc_processor := p; xc_model := "AMD EPYC 7763"; xc_physical_id := s; xc_cores := 64;
                    xc_flags := "fpu avx2" |} in
  Cpu.parse_cpuinfo (unlines (mjoin (x86_lines <$> [cpu 0 0; cpu 1 1; cpu 2 0]))) =
    ("AMD EPYC 7763", ["fpu"; "avx2"], 128, 3).
Proof.
  intros cpu. rewrite (cpuinfo_x86_read (cpu 0 0) [cpu 1 1; cpu 2 0]).
  - vm_compute. reflexivity.
  - apply (bool_decide_unpack _). vm_compute. exact I.
  - vm_compute. discriminate.
  - vm_compute. discriminate.
Defined.

(** *** Storage *)

(** A host is diskless exactly when it lists no nvme or sd device, every
    disk is one of the listed devices, and no reported file system is mounted
    at a path that starts like a pseudo file system; a path such as /sysroot
    starts that way and is left out too. *)
Theorem storage_reported `{Host} :
  (st_node_type Storage.detect_storage = Diskless ↔
     ∀ name, Some name ∈ default [] (read_dir "/sys/block") → Storage.is_disk_name name = false) ∧
  (∀ d, d ∈ st_local_disks Storage.detect_storage →
     ∃ name, Some name ∈ default [] (read_dir "/sys/block") ∧ Storage.is_disk_name name = true ∧
             disk_device d = "/dev/" +:+ name ∧ disk_capacity_bytes d <= u64_max) ∧
  (∀ m, m ∈ st_mounts Storage.detect_storage → Storage.is_pseudo (mi_path m) = false) ∧
  Storage.is_pseudo "/sysroot/data" = true.
Proof.
  assert (Hin : ∀ l n, n ∈ entries_flatten l ↔ Some n ∈ l).
  { intros l n. unfold entries_flatten. rewrite list_elem_of_omap. naive_solver. }
  assert (Hd : ∀ d, d ∈ st_local_disks Storage.detect_storage ↔
     ∃ name, d = Storage.local_disk name ∧ Some name ∈ default [] (read_dir "/sys/block") ∧ Storage.is_disk_name name = true).
  { intros d. simpl. unfold Storage.detect_local_disks. destruct (read_dir "/sys/block") as [l|]; simpl.
    - rewrite list_elem_of_fmap. setoid_rewrite list_elem_of_filter. setoid_rewrite Hin. naive_solver.
    - split; [by intros ?%not_elem_of_nil|intros (? & _ & ?%not_elem_of_nil & _); done]. }
  split_and!; [| | |done].
  - assert (Hdl : st_node_type Storage.detect_storage = Diskless ↔ st_local_disks Storage.detect_storage = []).
    { simpl. case_bool_decide; naive_solver. }
    rewrite Hdl. split.
    + intros He name Hn. destruct (Storage.is_disk_name name) eqn:E; [|done].
      assert (Hx : Storage.local_disk name ∈ st_local_disks Storage.detect_storage) by (apply Hd; eauto).
      rewrite He in Hx. by apply not_elem_of_nil in Hx.
    + intros Hn. apply elem_of_nil_inv. intros d (name & -> & H1 & H2)%Hd. specialize (Hn _ H1). congruence.
  - intros d (name & -> & H1 & H2)%Hd. exists name. split_and!; try done. simpl.
    unfold Storage.read_block_size, Storage.parse_block_size. apply N.le_min_r.
  - simpl. destruct (read_to_string "/proc/mounts") as [c|]; [|by intros ? ?%not_elem_of_nil].
    intros m ([[s p] f] & _ & Hm)%list_elem_of_omap. unfold Storage.mount_info in Hm.
    destruct (Storage.is_pseudo p) eqn:E; [done|]. destruct (Storage.statvfs_with_timeout p). by simplify_eq.
Qed.

(** *** Widths *)

(** The integers of a report as the structs of the source declare them. *)
Definition u32 (n : N) : Prop := n <= u32_max.
Definition u64 (n : N) : Prop := n <= u64_max.

Definition cpu_typed (c : CpuCapability) : Prop :=
  u32 (cpu_physical_cores c) ∧ u32 (cpu_logical_cores c) ∧ u32 (cpu_base_frequency_mhz c) ∧
  u32 (cpu_max_frequency_mhz c) ∧ u32 (cpu_numa_nodes c) ∧ u64 (cpu_cache_l3_bytes c).
Definition numa_typed (n : NumaNode) : Prop :=
  u32 (numa_id n) ∧ u64 (numa_total_bytes n) ∧ Forall u32 (numa_cpus n).
Definition memory_typed (m : MemoryCapability) : Prop :=
  u64 (mem_total_bytes m) ∧ u64 (mem_available_bytes m) ∧ u32 (mem_numa_nodes m) ∧
  Forall numa_typed (mem_numa_topology m) ∧
  u64 (size_2mb_total (mem_hugepages m)) ∧ u64 (size_2mb_free (mem_hugepages m)) ∧
  u64 (size_1gb_total (mem_hugepages m)) ∧ u64 (size_1gb_free (mem_hugepages m)).
Definition storage_typed (s : StorageCapability) : Prop :=
  Forall (λ d, u64 (disk_capacity_bytes d)) (st_local_disks s) ∧
  Forall (λ m, u64 (mi_total_bytes m) ∧ u64 (mi_available_bytes m)) (st_mounts s).
Definition gpu_typed (g : GpuCapability) : Prop := u32 (gpu_index g) ∧ u64 (gpu_memory_bytes g).
Definition report_typed (r : CapabilityReport) : Prop :=
  cpu_typed (cr_cpu r) ∧ Forall gpu_typed (cr_gpus r) ∧ memory_typed (cr_memory r) ∧
  Forall (λ i, u64 (if_speed_mbps i)) (cr_network r) ∧ storage_typed (cr_storage r).

Create HintDb width.

Lemma u32_wrap n : u32 (wrap_u32 n).
Proof. unfold u32, u32_max, wrap_u32. pose proof (N.mod_lt n 4294967296). lia. Qed.
Lemma u64_wrap n : u64 (wrap_u64 n).
Proof. unfold u64, u64_max, wrap_u64. pose proof (N.mod_lt n 18446744073709551616). lia. Qed.
Lemma u32_0 : u32 0.
Proof. by unfold u32. Qed.
Lemma u32_1 : u32 1.
Proof. by unfold u32. Qed.
Lemma u64_0 : u64 0.
Proof. by unfold u64. Qed.
Lemma parse_unsigned_le max s n : Str.parse_unsigned max s = Some n → n <= max.
Proof.
  unfold Str.parse_unsigned. set (body := match s with String "+" s' => s' | _ => s end). clearbody body.
  destruct body; [done|]. destruct (Str.parse_digits 0 _) as [k|]; simpl; [|done]. case_decide; naive_solver.
Qed.
Lemma u32_parse s : u32 (default 0 (Str.parse_unsigned u32_max s)).
Proof. destruct (Str.parse_unsigned u32_max s) eqn:E; [by apply parse_unsigned_le in E|exact u32_0]. Qed.
Lemma u64_parse s : u64 (default 0 (Str.parse_unsigned u64_max s)).
Proof. destruct (Str.parse_unsigned u64_max s) eqn:E; [by apply parse_unsigned_le in E|exact u64_0]. Qed.
Lemma u32_parsed s n : Str.parse_unsigned u32_max s = Some n → u32 n.
Proof. apply parse_unsigned_le. Qed.
Lemma u64_parsed s n : Str.parse_unsigned u64_max s = Some n → u64 n.
Proof. apply parse_unsigned_le. Qed.
Lemma u32_to_u32 x : u32 (F64.to_u32 x).
Proof. unfold u32. destruct x as [|[]| |[]]; simpl; unfold u32_max; lia. Qed.
#[local] Hint Resolve u32_wrap u64_wrap u32_0 u32_1 u64_0 u32_parse u64_parse u32_parsed u64_parsed u32_to_u32 : width.

(** The loop over /proc/cpuinfo keeps its counters in range. *)
Lemma cpuinfo_key_typed key value c :
  u32 (Cpu.ci_logical c) → u32 (Cpu.ci_logical (Cpu.cpuinfo_key key value c)).
Proof.
  intros Hc. unfold Cpu.cpuinfo_key. repeat case_match; simpl; auto with width.
Qed.
Lemma physical_cores_typed c : u32 (Cpu.ci_logical c) → u32 (Cpu.physical_cores c).
Proof. intros Hc. unfold Cpu.physical_cores. repeat case_match; auto with width. Qed.
Lemma parse_cpuinfo_typed content :
  u32 (Cpu.parse_cpuinfo content).1.2 ∧ u32 (Cpu.parse_cpuinfo content).2.
Proof.
  unfold Cpu.parse_cpuinfo. simpl. set (c := foldl _ _ _). cut (u32 (Cpu.ci_logical c)).
  { intros Hc. split; [by apply physical_cores_typed|done]. }
  assert (Hgo : ∀ ls c, u32 (Cpu.ci_logical c) → u32 (Cpu.ci_logical (foldl Cpu.cpuinfo_line c ls))).
  { clear. induction ls as [|l ls IH]; intros c Hc; simpl; [done|]. apply IH. unfold Cpu.cpuinfo_line.
    destruct (split_once _ _) as [[k v]|]; [by apply cpuinfo_key_typed|done]. }
  apply Hgo. exact u32_0.
Qed.
Lemma first_mhz_typed ls n : Cpu.first_mhz ls = Some n → u32 n.
Proof.
  induction ls as [|l ls IH]; simpl; [done|]. case_match eqn:E; [|done]. intros [= <-].
  destruct (Str.starts_with l "cpu MHz"); [|done]. destruct (split_once _ _) as [[? v]|]; simpl in E; [|done].
  destruct (F64.parse _); simplify_eq/=. apply u32_to_u32.
Qed.
Lemma detect_frequency_typed `{Host} : u32 Cpu.detect_frequency.1 ∧ u32 Cpu.detect_frequency.2.
Proof.
  assert (Hf : ∀ n, Cpu.read_cpuinfo_mhz = Some n → u32 n).
  { intros n. unfold Cpu.read_cpuinfo_mhz. destruct (read_to_string _); simpl; [apply first_mhz_typed|done]. }
  unfold Cpu.detect_frequency. simpl.
  split; repeat case_match; simpl; auto with width;
    destruct Cpu.read_cpuinfo_mhz eqn:E; simpl; auto with width.
Qed.
Lemma detect_numa_nodes_typed `{Host} : u32 Cpu.detect_numa_nodes.
Proof.
  unfold Cpu.detect_numa_nodes. destruct (path_exists _); [|exact u32_1]. case_match; [exact u32_1|].
  assert (Hgo : ∀ l n, u32 n → u32 (foldl (λ n name, if Cpu.is_node_name name then wrap_u32 (n + 1) else n) n l)).
  { clear. induction l as [|x l IH]; intros n Hn; simpl; [done|]. apply IH. case_match; auto with width. }
  apply Hgo. exact u32_0.
Qed.
Lemma parse_cache_size_typed s : u64 (Cpu.parse_cache_size s).
Proof. unfold Cpu.parse_cache_size. repeat case_match; auto with width. Qed.
Lemma detect_cpu_typed `{Host} : cpu_typed Cpu.detect_cpu.
Proof.
  unfold Cpu.detect_cpu. destruct (parse_cpuinfo_typed (default "" (read_to_string "/proc/cpuinfo"))) as [Hp Hl].
  destruct detect_frequency_typed as [Hb Hm].
  destruct (Cpu.parse_cpuinfo _) as [[[model features] physical] logical]. destruct Cpu.detect_frequency as [base max].
  split_and!; try done; simpl.
  - apply detect_numa_nodes_typed.
  - unfold Cpu.detect_l3_cache. case_match; [apply parse_cache_size_typed|exact u64_0].
Qed.

Definition meminfo_typed (c : Memory.MemInfo) : Prop :=
  u64 (Memory.mi_total c) ∧ u64 (Memory.mi_available c) ∧ u64 (Memory.mi_hp_total c) ∧ u64 (Memory.mi_hp_free c).
Lemma meminfo_line_typed c line : meminfo_typed c → meminfo_typed (Memory.meminfo_line c line).
Proof.
  intros (H1 & H2 & H3 & H4). unfold Memory.meminfo_line, meminfo_typed.
  destruct (Memory.parse_meminfo_kb line) as [kb|] eqn:E; [|done].
  assert (Hkb : u64 kb).
  { unfold Memory.parse_meminfo_kb in E. destruct (_ !! _); simpl in E; [eauto with width|done]. }
  repeat case_match; simpl; auto with width.
Qed.
Lemma parse_meminfo_typed content :
  u64 (Memory.parse_meminfo content).1.1 ∧ u64 (Memory.parse_meminfo content).1.2 ∧
  u64 (Memory.parse_meminfo content).2.1 ∧ u64 (Memory.parse_meminfo content).2.2.
Proof.
  unfold Memory.parse_meminfo. set (c := foldl _ _ _). cut (meminfo_typed c).
  { intros (H1 & H2 & H3 & H4). simpl. case_match; simpl; auto with width. }
  assert (Hgo : ∀ ls c, meminfo_typed c → meminfo_typed (foldl Memory.meminfo_line c ls)).
  { clear. induction ls as [|l ls IH]; intros c Hc; simpl; [done|]. apply IH. by apply meminfo_line_typed. }
  apply Hgo. split_and!; exact u64_0.
Qed.
Lemma read_sysfs_u64_typed `{Host} path : u64 (default 0 (Memory.read_sysfs_u64 path)).
Proof. unfold Memory.read_sysfs_u64. destruct (read_to_string path); simpl; auto with width. Qed.

Lemma parse_cpulist_typed s : Forall u32 (Memory.parse_cpulist s).
Proof.
  unfold Memory.parse_cpulist. case_match; [constructor|]. apply Forall_join, Forall_fmap, Forall_true. intros part.
  simpl. unfold Memory.cpulist_part. case_match; [constructor|]. destruct (split_once _ _) as [[a b]|].
  - destruct (Str.parse_unsigned _ (Str.trim a)) as [x|]; [|constructor].
    destruct (Str.parse_unsigned _ (Str.trim b)) as [y|] eqn:Hy; [|constructor]. apply u32_parsed in Hy.
    apply Forall_forall. intros i [_ Hi]%elem_of_range_inclusive. unfold u32 in *. lia.
  - destruct (Str.parse_unsigned _ _) as [v|] eqn:Hv; [|constructor]. apply u32_parsed in Hv. by repeat constructor.
Qed.
Lemma node_memtotal_typed ls n : Memory.node_memtotal ls = Some n → u64 n.
Proof.
  assert (Hkb : ∀ fs prev k, Memory.kb_value prev fs = Some k → u64 k).
  { induction fs as [|f fs IH]; intros prev k; simpl; [done|]. case_match; [intros [= <-]; apply u64_wrap|apply IH]. }
  induction ls as [|l ls IH]; simpl; [done|]. case_match eqn:E; [|done]. intros [= <-].
  destruct (Str.contains l _); [|done]. unfold Memory.line_kb_value in E. destruct (split_whitespace l); [done|].
  by apply Hkb in E.
Qed.
Lemma numa_node_typed `{Host} name n : Memory.numa_node name = Some n → numa_typed n.
Proof.
  unfold Memory.numa_node. destruct (Str.strip_prefix "node" name) as [r|]; simpl; [|done].
  destruct (Str.parse_unsigned u32_max r) as [i|] eqn:Hi; simpl; [|done]. intros [= <-]. split_and!; simpl.
  - by apply u32_parsed in Hi.
  - unfold Memory.read_node_memtotal. destruct (read_to_string _) as [c|]; simpl; [|exact u64_0].
    destruct (Memory.node_memtotal _) eqn:E; simpl; [by apply node_memtotal_typed in E|exact u64_0].
  - destruct (read_to_string _); [apply parse_cpulist_typed|constructor].
Qed.
Lemma detect_memory_typed `{Host} : memory_typed Memory.detect_memory.
Proof.
  unfold Memory.detect_memory. destruct (parse_meminfo_typed (default "" (read_to_string "/proc/meminfo"))) as (H1 & H2 & H3 & H4).
  destruct (Memory.parse_meminfo _) as [[total available] hp]. simpl in *.
  assert (Ht : u32 Memory.detect_numa_topology.1 ∧ Forall numa_typed Memory.detect_numa_topology.2).
  { unfold Memory.detect_numa_topology. destruct (path_exists _); simpl; [|by split; [exact u32_1|constructor]].
    split; [case_match; auto with width|]. rewrite sort_by_perm. apply Forall_forall.
    intros n (name & _ & Hn)%list_elem_of_omap. by apply numa_node_typed in Hn. }
  destruct Memory.detect_numa_topology as [count topology]. destruct Ht as [Hc Ht].
  split_and!; simpl; try done; apply read_sysfs_u64_typed.
Qed.

Lemma parse_speed_typed s : u64 (Network.parse_speed s).
Proof.
  unfold Network.parse_speed, parse_signed. set (t := Str.trim s). clearbody t.
  assert (Hu : ∀ r, u64 match Z.of_N <$> Str.parse_unsigned (2 ^ 63 - 1) r with
    | Some v => if (0 <? v)%Z then Z.to_N v else 0 | None => 0 end).
  { intros r. destruct (Str.parse_unsigned _ r) as [v|] eqn:E; simpl; [|exact u64_0]. apply parse_unsigned_le in E.
    case_match; [|exact u64_0]. unfold u64, u64_max. lia. }
  destruct t as [|a r]; [apply Hu|]. destruct (decide (a = "-"%char)) as [->|Ha].
  - destruct r as [|b r]; [exact u64_0|]. destruct (Str.parse_digits _ _) as [n|]; simpl; [|exact u64_0].
    case_decide; simpl; [|exact u64_0]. destruct (Z.ltb_spec 0 (- Z.of_N n)); [lia|exact u64_0].
  - destruct a as [[] [] [] [] [] [] [] []]; try apply Hu; done.
Qed.
Lemma detect_network_typed `{Host} : Forall (λ i, u64 (if_speed_mbps i)) Network.detect_network.
Proof.
  unfold Network.detect_network. destruct (read_dir _) as [l|]; [|constructor]. apply Forall_forall.
  intros i (name & _ & Hi)%list_elem_of_omap. unfold Network.interface in Hi. repeat case_match; simplify_eq/=.
  unfold Network.read_sysfs_speed. case_match; [apply parse_speed_typed|exact u64_0].
Qed.

Lemma detect_storage_typed `{Host} : storage_typed Storage.detect_storage.
Proof.
  split; simpl.
  - unfold Storage.detect_local_disks. destruct (read_dir _); [|constructor]. apply Forall_fmap, Forall_true.
    intros name. apply N.le_min_r.
  - destruct (read_to_string _) as [c|]; [|constructor]. apply Forall_forall.
    intros m ([[s p] f] & _ & Hm)%list_elem_of_omap. unfold Storage.mount_info in Hm.
    destruct (Storage.is_pseudo p); [done|]. destruct (Storage.statvfs_with_timeout p) as [t a] eqn:E. simplify_eq/=.
    unfold Storage.statvfs_with_timeout in E. repeat case_match; simplify_eq/=; auto with width.
Qed.

Lemma nvidia_typed out : Forall gpu_typed (Gpu.parse_nvidia_csv out).
Proof.
  apply Forall_forall. intros g (line & _ & Hg)%list_elem_of_omap. unfold Gpu.nvidia_line in Hg.
  destruct (Str.trim <$> _) as [|i [|m [|mem [|pci [|]]]]]; try done.
  destruct (Str.parse_unsigned u32_max i) as [n|] eqn:Hi; simpl in Hg; [|done].
  destruct (Str.parse_unsigned u64_max mem) as [k|] eqn:Hk; simpl in Hg; [|done]. simplify_eq.
  split; simpl; eauto with width.
Qed.
Lemma rocm_typed out : Forall gpu_typed (Gpu.parse_rocm_csv out).
Proof.
  unfold Gpu.parse_rocm_csv. destruct (str_lines out) as [|h ls]; [constructor|].
  assert (Hg : ∀ cols k line, gpu_typed (Gpu.rocm_gpu cols k line)).
  { intros cols k line. split; simpl.
    - destruct (_ ≫= Str.parse_unsigned u32_max) as [n|] eqn:E; simpl; [|apply u32_wrap].
      apply bind_Some in E as (x & _ & E). eauto with width.
    - destruct (_ ≫= Str.parse_unsigned u64_max) as [n|] eqn:E; simpl; [|exact u64_0].
      apply bind_Some in E as (x & _ & E). eauto with width. }
  assert (Hgo : ∀ cols ls gpus, Forall gpu_typed gpus → Forall gpu_typed (Gpu.rocm_lines cols gpus ls)).
  { clear -Hg. intros cols. induction ls as [|l ls IH]; intros gpus Hgpus; simpl; [done|]. case_match; apply IH; [done|].
    apply Forall_app. split; [done|]. constructor; [apply Hg|constructor]. }
  apply Hgo. constructor.
Qed.

(** Whatever the host answers, a report over the Linux detectors and
    either vendor's graphics detector is well typed: every count and
    frequency fits in 32 bits, every size in 64, including the processor
    numbers of the ranges the kernel writes. *)
Theorem report_well_typed `{Host} now uuid node gpu r :
  gpu = Gpu.detect_nvidia ∨ gpu = Gpu.detect_amd →
  report now uuid (linux_reporter node gpu) = Ok r →
  report_typed r.
Proof.
  intros Hgpu. unfold report. simpl. destruct gpu as [gpus|e]; simpl; [|done]. intros [= <-]. split_and!; simpl.
  - apply detect_cpu_typed.
  - assert (Hw : ∀ tool args parse, (∀ out, Forall gpu_typed (parse out)) →
      Ok gpus = Gpu.detect_with tool args parse → Forall gpu_typed gpus).
    { intros tool args parse Hp. unfold Gpu.detect_with. repeat case_match; intros; simplify_eq; auto. }
    destruct Hgpu as [Hg|Hg]; (eapply Hw; [|exact Hg]); [apply nvidia_typed|apply rocm_typed].
  - apply detect_memory_typed.
  - apply detect_network_typed.
  - apply detect_storage_typed.
Qed.

Lemma report_well_typed_witness :
  let r := @report demo_host 0%Z "id" (@linux_reporter demo_host "n1" (@Gpu.detect_nvidia demo_host)) in
  ∃ rep, r = Ok rep ∧ report_typed rep ∧ mem_numa_nodes (cr_memory rep) = 2.
Proof.
  eexists. split; [reflexivity|]. split; [|vm_compute; reflexivity].
  apply (@report_well_typed demo_host 0%Z "id" "n1" (@Gpu.detect_nvidia demo_host)); [by left|reflexivity].
Defined.
