(* ===== verification/Iam.v ===== *)
(** * Token validation of the journal (IAM)

    crates/pact-policy/src/iam/mod.rs: the validator the journal's enrollment
    endpoint uses. It tries the shared secret first and the keys of the OIDC
    provider second, like the agent's shell (file [Whitelist]); the last
    section shows that the two agree but for tokens whose groups claim the
    journal cannot read. JWT decoding is the class [IamJwt], the key server an
    argument. *)

From S2P Require Import Prelude Text Types Whitelist.
From stdpp Require Import options.

(** ** Data *)

Inductive ClaimAudience := AudNone | AudSingle (s : string) | AudMultiple (v : list string).

Record IamClaims := {
  ic_sub : string;
  ic_aud : ClaimAudience;
  ic_iss : string;
  ic_exp : N;
  ic_iat : N;
  ic_pact_role : option string;
  ic_pact_principal_type : option string;
  ic_groups : list string;
}.

Record OidcConfig := { oidc_issuer : string; oidc_audience : string; oidc_hmac_secret : option bytes }.

Record IamJwk := {
  ik_kty : string;
  ik_kid : option string;
  ik_alg : option string;
  ik_n : option string;
  ik_e : option string;
  ik_use : option string;
}.

Inductive IamError :=
| IamMissingToken | IamInvalidFormat | IamTokenExpired
| IamInvalidAudience (expected : string) | IamInvalidIssuer (expected : string)
| IamInvalidToken (detail : string) | IamNoSigningKey | IamJwksFetchError (detail : string).

(** [decode] of jsonwebtoken with expiry checked and the given audience and
    issuer, for both algorithms; the text of an error. *)
Class IamJwt := {
  iam_decode_hs256 : bytes → string → string → string → result IamClaims JwtError;
  iam_decode_rs256 : string * string → string → string → string → result IamClaims JwtError;
  iam_rsa_components : string → string → option string;
  iam_header_kid : string → result (option string) string;
}.

(** ** Claims and the shared secret *)

Definition iam_map_error (e : JwtError) (config : OidcConfig) : IamError :=
  match e with
  | ExpiredSignature => IamTokenExpired
  | JwtInvalidAudience => IamInvalidAudience (oidc_audience config)
  | JwtInvalidIssuer => IamInvalidIssuer (oidc_issuer config)
  | JwtOther text => IamInvalidToken text
  end.

Definition iam_claims_to_identity (claims : IamClaims) : Identity :=
  {| principal := ic_sub claims;
     principal_type := if decide (ic_pact_principal_type claims = Some "agent") then Agent
                       else if decide (ic_pact_principal_type claims = Some "service") then Service else Human;
     role := default "" (ic_pact_role claims) |}.

(** [HmacTokenValidator::validate_sync]. *)
Definition validate_sync `{IamJwt} (config : OidcConfig) (token : string) : result Identity IamError :=
  match oidc_hmac_secret config with
  | None => Err IamNoSigningKey
  | Some secret =>
      match iam_decode_hs256 secret (oidc_audience config) (oidc_issuer config) token with
      | Ok claims => Ok (iam_claims_to_identity claims)
      | Err e => Err (iam_map_error e config)
      end
  end.

(** ** The key cache *)

(** What the HTTP client reports: an error before a response, a status other
    than success, a body that is not a key set, or the keys. *)
Inductive KeyServer := KsUnreachable (e : string) | KsStatus (status : string) | KsBadBody (e : string) | KsKeys (keys : list IamJwk).

Definition fetch_remote (answer : KeyServer) : result (list IamJwk) IamError :=
  match answer with
  | KsUnreachable e => Err (IamJwksFetchError e)
  | KsStatus st => Err (IamJwksFetchError ("JWKS endpoint returned HTTP " +:+ st))
  | KsBadBody e => Err (IamJwksFetchError e)
  | KsKeys keys => Ok keys
  end.

Record IamCache := { kc_keys : list IamJwk; kc_fetched_at : option Z; kc_ttl : Z }.
Definition iam_cache_with_ttl (ttl : Z) : IamCache := {| kc_keys := []; kc_fetched_at := None; kc_ttl := ttl |}.
Definition iam_cache_new : IamCache := iam_cache_with_ttl (seconds 3600).
Definition iam_set_keys (now : Z) (keys : list IamJwk) (c : IamCache) : IamCache :=
  {| kc_keys := keys; kc_fetched_at := Some now; kc_ttl := kc_ttl c |}.

Definition cache_fresh (now : Z) (c : IamCache) : bool :=
  match kc_fetched_at c with
  | Some t => (Z.max 0 (now - t) <? kc_ttl c)%Z && negb (bool_decide (kc_keys c = []))
  | None => false
  end.
Definition iam_fetch (now : Z) (answer : KeyServer) (c : IamCache) : IamCache * result (list IamJwk) IamError :=
  if cache_fresh now c then (c, Ok (kc_keys c))
  else match fetch_remote answer with
       | Ok keys => (iam_set_keys now keys c, Ok keys)
       | Err e => if bool_decide (kc_keys c = []) then (c, Err e) else (c, Ok (kc_keys c))
       end.
(** The build without the jwks feature. *)
Definition iam_fetch_stub (c : IamCache) : IamCache * result (list IamJwk) IamError :=
  (c, Err (IamJwksFetchError "JWKS feature not enabled")).

(** ** The validator *)

Record JwksTokenValidator := { jv_config : OidcConfig; jv_cache : IamCache; jv_url : string }.
Definition jwks_validator_new (config : OidcConfig) (url : option string) : JwksTokenValidator :=
  {| jv_config := config; jv_cache := iam_cache_new;
     jv_url := match url with
               | Some u => u
               | None => trim_end_slashes (oidc_issuer config) +:+ "/.well-known/jwks.json"
               end |}.

Definition iam_key_matches (token_kid : option string) (k : IamJwk) : bool :=
  bool_decide (ik_kty k = "RSA") && bool_decide (is_Some (ik_n k)) && bool_decide (is_Some (ik_e k)) &&
  match token_kid, ik_kid k with
  | Some tk, Some kk => bool_decide (tk = kk)
  | Some _, None => false
  | None, _ => true
  end.

(** The loop over the matching keys, with the last error. *)
Fixpoint iam_try_keys `{IamJwt} (config : OidcConfig) (token : string) (last_err : IamError) (keys : list IamJwk)
    : result Identity IamError :=
  match keys with
  | [] => Err last_err
  | k :: keys' =>
      let n := default "" (ik_n k) in
      let e := default "" (ik_e k) in
      match iam_rsa_components n e with
      | Some err => iam_try_keys config token (IamInvalidToken err) keys'
      | None =>
          match iam_decode_rs256 (n, e) (oidc_audience config) (oidc_issuer config) token with
          | Ok claims => Ok (iam_claims_to_identity claims)
          | Err err => iam_try_keys config token (iam_map_error err config) keys'
          end
      end
  end.

(** The part after the keys were fetched. *)
Definition validate_with_keys `{IamJwt} (config : OidcConfig) (token : string) (keys : list IamJwk)
    : result Identity IamError :=
  match keys with
  | [] => Err IamNoSigningKey
  | _ =>
      match iam_header_kid token with
      | Err e => Err (IamInvalidToken e)
      | Ok kid =>
          match filter (λ k, iam_key_matches kid k) keys with
          | [] => Err (IamInvalidToken ("no matching JWKS key for kid " +:+ debug_option kid))
          | ks => iam_try_keys config token IamNoSigningKey ks
          end
      end
  end.

(** [JwksTokenValidator::validate_impl]. [server]: what the key server
    answers at an address. *)
Definition validate_impl `{IamJwt} (now : Z) (server : string → KeyServer) (token : string) (v : JwksTokenValidator)
    : JwksTokenValidator * result Identity IamError :=
  let hs := match oidc_hmac_secret (jv_config v) with
            | Some _ => validate_sync (jv_config v) token
            | None => Err IamNoSigningKey
            end in
  match hs with
  | Ok i => (v, Ok i)
  | Err _ =>
      let '(c, r) := iam_fetch now (server (jv_url v)) (jv_cache v) in
      ({| jv_config := jv_config v; jv_cache := c; jv_url := jv_url v |},
       match r with Err e => Err e | Ok keys => validate_with_keys (jv_config v) token keys end)
  end.

(** ** Theorems *)

(** A key of the cache as the agent stores it, and the errors of the agent. *)
Definition agent_jwk (k : IamJwk) : Jwk :=
  {| jwk_kty := ik_kty k; jwk_kid := ik_kid k; jwk_alg := ik_alg k; jwk_n := ik_n k; jwk_e := ik_e k; jwk_use := ik_use k |}.
Definition agent_error (e : IamError) : AuthError :=
  match e with
  | IamMissingToken => MissingToken | IamInvalidFormat => InvalidFormat | IamTokenExpired => TokenExpired
  | IamInvalidAudience x => InvalidAudience x | IamInvalidIssuer x => InvalidIssuer x
  | IamInvalidToken x => InvalidToken x | IamNoSigningKey => NoSigningKey | IamJwksFetchError x => JwksFetchError x
  end.
Definition map_result {A B E F} (f : A → B) (g : E → F) (r : result A E) : result B F :=
  match r with Ok x => Ok (f x) | Err e => Err (g e) end.
Definition agent_aud (a : ClaimAudience) : StringOrVec :=
  match a with AudNone => SvNone | AudSingle s => SvSingle s | AudMultiple v => SvMultiple v end.
(** The claims without the groups, which the agent does not read. *)
Definition agent_claims (c : IamClaims) : TokenClaims :=
  {| tc_sub := ic_sub c; tc_aud := agent_aud (ic_aud c); tc_iss := ic_iss c; tc_exp := ic_exp c; tc_iat := ic_iat c;
     tc_pact_role := ic_pact_role c; tc_pact_principal_type := ic_pact_principal_type c |}.
Definition agent_cache (c : IamCache) : JwksCache :=
  {| jc_keys := agent_jwk <$> kc_keys c; jc_fetched_at := kc_fetched_at c; jc_ttl := kc_ttl c |}.
Definition agent_config (v : JwksTokenValidator) : AuthConfig :=
  {| ac_issuer := oidc_issuer (jv_config v); ac_audience := oidc_audience (jv_config v);
     ac_hmac_secret := oidc_hmac_secret (jv_config v); ac_jwks_url := Some (jv_url v) |}.

Section agreement.
Context `{!IamJwt, !JwtApi}.
(** The groups claim of a token is absent or an array of strings. *)
Context (groups_ok : string → bool).
(** Both sides decode with the same library. The agent's claims are those of
    the journal without the groups, so that the two differ on the tokens whose
    groups are something else: for the journal these do not deserialise. *)
Hypothesis same_hs256 : ∀ secret aud iss t, groups_ok t = true →
  decode_hs256 secret aud iss t = map_result agent_claims id (iam_decode_hs256 secret aud iss t).
Hypothesis same_rs256 : ∀ key aud iss t, groups_ok t = true →
  decode_rs256 key aud iss t = map_result agent_claims id (iam_decode_rs256 key aud iss t).
Hypothesis odd_hs256 : ∀ secret aud iss t, groups_ok t = false → is_ok (iam_decode_hs256 secret aud iss t) = false.
Hypothesis odd_rs256 : ∀ key aud iss t, groups_ok t = false → is_ok (iam_decode_rs256 key aud iss t) = false.
Hypothesis same_rsa : ∀ n e, rsa_components n e = iam_rsa_components n e.
Hypothesis same_kid : ∀ t, decode_header_kid t = iam_header_kid t.
#[local] Set Default Proof Using "Type*".

Lemma agent_error_map v e : map_jwt_error e (agent_config v) = agent_error (iam_map_error e (jv_config v)).
Proof. by destruct e. Qed.

Lemma agent_identity c : claims_to_identity (agent_claims c) = iam_claims_to_identity c.
Proof. done. Qed.

Lemma agent_validate_sync v t :
  groups_ok t = true →
  map_result claims_to_identity id (validate_token t (agent_config v)) =
    map_result id agent_error (validate_sync (jv_config v) t).
Proof.
  intros Hg. unfold validate_token, validate_sync. simpl. destruct (oidc_hmac_secret (jv_config v)) as [s|]; [|done].
  rewrite same_hs256 by done. destruct (iam_decode_hs256 _ _ _ _) as [c|e]; simpl; [done|]. by rewrite agent_error_map.
Qed.

Lemma agent_fetch now answer c :
  Whitelist.fetch now (map_result (fmap agent_jwk) agent_error (fetch_remote answer)) (agent_cache c) =
    (agent_cache (iam_fetch now answer c).1, map_result (fmap agent_jwk) agent_error (iam_fetch now answer c).2).
Proof.
  unfold Whitelist.fetch, iam_fetch, cache_fresh. destruct c as [ks f t]. simpl.
  assert (Hb : bool_decide (agent_jwk <$> ks = []) = bool_decide (ks = [])).
  { apply bool_decide_ext. destruct ks; simpl; split; congruence. }
  rewrite Hb. clear Hb. destruct f as [t0|].
  - destruct ((Z.max 0 (now - t0) <? t)%Z && _); [done|]. destruct (fetch_remote answer); [done|]. by destruct (bool_decide _).
  - destruct (fetch_remote answer); [done|]. by destruct (bool_decide _).
Qed.

Lemma agent_matches kid k : jwk_matches kid (agent_jwk k) = iam_key_matches kid k.
Proof.
  unfold jwk_matches, iam_key_matches. simpl. f_equal. rewrite <-andb_assoc. f_equal.
  by rewrite <-bool_decide_and.
Qed.
Lemma agent_filter kid (ks : list IamJwk) :
  filter (λ k, jwk_matches kid k) (agent_jwk <$> ks) = agent_jwk <$> filter (λ k, iam_key_matches kid k) ks.
Proof.
  induction ks as [|k ks IH]; [done|]. rewrite fmap_cons, !filter_cons, IH, agent_matches. by case_decide.
Qed.

Lemma agent_try_keys v t e (ks : list IamJwk) :
  groups_ok t = true →
  map_result claims_to_identity id (try_keys t (agent_config v) (agent_error e) (agent_jwk <$> ks)) =
    map_result id agent_error (iam_try_keys (jv_config v) t e ks).
Proof.
  intros Hg. revert e. induction ks as [|k ks IH]; intros e; [done|]. rewrite fmap_cons. simpl. rewrite same_rsa.
  destruct (iam_rsa_components _ _) as [err|]; [apply (IH (IamInvalidToken err))|].
  rewrite same_rs256 by done. destruct (iam_decode_rs256 _ _ _ _) as [c|err]; simpl; [done|].
  rewrite agent_error_map. apply IH.
Qed.

Lemma well_formed_agree now server token v :
  groups_ok token = true →
  let remote url := map_result (fmap agent_jwk) agent_error (fetch_remote (server url)) in
  let agent := validate_token_with_jwks now remote token (agent_config v) (agent_cache (jv_cache v)) in
  let journal := validate_impl now server token v in
  map_result claims_to_identity id agent.2 = map_result id agent_error journal.2 ∧
  agent.1 = agent_cache (jv_cache journal.1).
Proof.
  intros Hg. intros remote agent journal. unfold agent, journal, validate_token_with_jwks, validate_impl.
  pose proof (agent_validate_sync v token Hg) as Hs. cbn [ac_hmac_secret agent_config] in *.
  assert (Hhs : ∀ (P : result TokenClaims AuthError → result Identity IamError → Prop),
    (∀ c, P (Ok c) (Ok (claims_to_identity c))) → (∀ e f, P (Err e) (Err f)) →
    P (match oidc_hmac_secret (jv_config v) with Some _ => validate_token token (agent_config v) | None => Err NoSigningKey end)
      (match oidc_hmac_secret (jv_config v) with Some _ => validate_sync (jv_config v) token | None => Err IamNoSigningKey end)).
  { intros P H1 H2. destruct (oidc_hmac_secret (jv_config v)); [|apply H2].
    destruct (validate_token token (agent_config v)), (validate_sync (jv_config v) token); simplify_eq/=; auto. }
  apply Hhs; [done|]. intros _ _. change (jwks_url (agent_config v)) with (jv_url v). unfold remote.
  rewrite agent_fetch. destruct (iam_fetch now (server (jv_url v)) (jv_cache v)) as [c r]. simpl.
  destruct r as [keys|e]; [|done]. simpl. unfold validate_with_keys. destruct keys as [|k ks]; [done|].
  rewrite same_kid. simpl. split; [|done]. destruct (iam_header_kid token) as [kid|e]; [|done].
  match goal with |- context [filter ?P (?x :: ?l)] => change (x :: l) with (agent_jwk <$> k :: ks) end.
  rewrite agent_filter.
  destruct (filter (λ k, iam_key_matches kid k) (k :: ks)) as [|k' ks'] eqn:E; [done|].
  exact (agent_try_keys v token IamNoSigningKey (k' :: ks') Hg).
Qed.

Lemma malformed_refused now server token v :
  groups_ok token = false → is_ok (validate_impl now server token v).2 = false.
Proof.
  intros Hg.
  assert (is_ok (validate_sync (jv_config v) token) = false) as Hs.
  { unfold validate_sync. destruct (oidc_hmac_secret (jv_config v)) as [secret|]; [|done].
    specialize (odd_hs256 secret (oidc_audience (jv_config v)) (oidc_issuer (jv_config v)) token Hg). by destruct (iam_decode_hs256 _ _ _ _). }
  assert (∀ ks e, is_ok (iam_try_keys (jv_config v) token e ks) = false) as Ht.
  { induction ks as [|k ks IH]; intros e; [done|]. simpl. destruct (iam_rsa_components _ _); [apply IH|].
    pose proof (odd_rs256 (default "" (ik_n k), default "" (ik_e k)) (oidc_audience (jv_config v)) (oidc_issuer (jv_config v)) token Hg) as Hk.
    destruct (iam_decode_rs256 _ _ _ _); [done|apply IH]. }
  unfold validate_impl.
  destruct (match oidc_hmac_secret (jv_config v) with Some _ => validate_sync (jv_config v) token | None => Err IamNoSigningKey end) eqn:E.
  - destruct (oidc_hmac_secret (jv_config v)); [|done]. by rewrite E in Hs.
  - destruct (iam_fetch _ _ _) as [c [keys|e']]; [|done]. simpl. unfold validate_with_keys. destruct keys as [|k ks]; [done|].
    destruct (iam_header_kid token) as [kid|]; [|done]. by destruct (filter _ (k :: ks)).
Qed.

(** C15: what the journal accepts the agent's shell accepts, as the same
    identity, given the same configuration, keys and answers of the key
    server; and the two differ in nothing but tokens whose groups claim is
    neither absent nor an array of strings, which the journal always refuses:
    for any other token both report the same identity or the same error and
    leave the same keys in their caches. *)
Theorem validators_agree now server token v :
  let remote url := map_result (fmap agent_jwk) agent_error (fetch_remote (server url)) in
  let agent := validate_token_with_jwks now remote token (agent_config v) (agent_cache (jv_cache v)) in
  let journal := validate_impl now server token v in
  (∀ i, journal.2 = Ok i → map_result claims_to_identity id agent.2 = Ok i) ∧
  (groups_ok token = false → is_ok journal.2 = false) ∧
  (groups_ok token = true →
   map_result claims_to_identity id agent.2 = map_result id agent_error journal.2 ∧
   agent.1 = agent_cache (jv_cache journal.1)).
Proof.
  intros remote agent journal. split_and!.
  - intros i Hi. destruct (groups_ok token) eqn:Hg.
    + destruct (well_formed_agree now server token v Hg) as [E _]. fold remote agent journal in E. by rewrite E, Hi.
    + pose proof (malformed_refused now server token v Hg) as Hm. fold journal in Hm. by rewrite Hi in Hm.
  - apply malformed_refused.
  - apply well_formed_agree.
Qed.
End agreement.

Module IamSample.
(** Decoders that know two tokens signed by the key "n1", the second with a
    groups claim that is a number. *)
Definition claims : IamClaims :=
  {| ic_sub := "alice@x"; ic_aud := AudSingle "pact"; ic_iss := "https://auth/"; ic_exp := 10; ic_iat := 0;
     ic_pact_role := Some "pact-ops-ml"; ic_pact_principal_type := None; ic_groups := ["hpc"] |}.
Definition groups_ok (t : string) : bool := negb (bool_decide (t = "odd")).
(** What both sides do but for the groups. *)
Definition check (key : string * string) (aud t : string) : result IamClaims JwtError :=
  if decide (key.1 = "n1" ∧ (t = "tok" ∨ t = "odd")) then if decide (aud = "pact") then Ok claims else Err JwtInvalidAudience
  else Err (JwtOther "InvalidSignature").
Definition jwt : IamJwt :=
  {| iam_decode_hs256 _ _ _ _ := Err (JwtOther "InvalidSignature");
     iam_decode_rs256 key aud iss t := if groups_ok t then check key aud t else Err (JwtOther "JSON error: invalid type");
     iam_rsa_components _ _ := None;
     iam_header_kid t := Ok (Some "k1") |}.
Definition agent_api : JwtApi :=
  {| decode_hs256 s a i t := Err (JwtOther "InvalidSignature");
     decode_rs256 k a i t := map_result agent_claims id (check k a t);
     rsa_components := @iam_rsa_components jwt;
     decode_header_kid := @iam_header_kid jwt |}.
Definition key (kid n : string) : IamJwk :=
  {| ik_kty := "RSA"; ik_kid := Some kid; ik_alg := None; ik_n := Some n; ik_e := Some "AQAB"; ik_use := None |}.
Definition validator : JwksTokenValidator :=
  jwks_validator_new {| oidc_issuer := "https://auth/"; oidc_audience := "pact"; oidc_hmac_secret := Some [1%N] |} None.
Definition server (url : string) : KeyServer :=
  if decide (url = "https://auth/.well-known/jwks.json") then KsKeys [key "k0" "n0"; key "k1" "n1"] else KsStatus "404 Not Found".
End IamSample.

(** The first token is accepted by both, the second by the agent only. *)
Lemma validators_agree_witness :
  let remote url := map_result (fmap agent_jwk) agent_error (fetch_remote (IamSample.server url)) in
  let agent t := map_result claims_to_identity id (@validate_token_with_jwks IamSample.agent_api 5 remote t
    (agent_config IamSample.validator) (agent_cache (jv_cache IamSample.validator))).2 in
  let alice := {| principal := "alice@x"; principal_type := Human; role := "pact-ops-ml" |} in
  agent "tok" = Ok alice ∧ agent "odd" = Ok alice ∧
  is_ok (@validate_impl IamSample.jwt 5 IamSample.server "odd" IamSample.validator).2 = false.
Proof.
  intros remote agent alice.
  assert (H := λ t, @validators_agree IamSample.jwt IamSample.agent_api IamSample.groups_ok (λ _ _ _ _ _, eq_refl)
    (λ k a i t (Hg : IamSample.groups_ok t = true),
       ltac:(cbn [decode_rs256 IamSample.agent_api iam_decode_rs256 IamSample.jwt]; rewrite Hg; reflexivity))
    (λ _ _ _ _ _, eq_refl)
    (λ k a i t (Hg : IamSample.groups_ok t = false), ltac:(cbn [iam_decode_rs256 IamSample.jwt]; rewrite Hg; reflexivity))
    (λ _ _, eq_refl) (λ _, eq_refl) 5%Z IamSample.server t IamSample.validator).
  split; [|split].
  - apply (proj1 (H "tok")). vm_compute. reflexivity.
  - vm_compute. reflexivity.
  - apply (proj1 (proj2 (H "odd"))). vm_compute. reflexivity.
Defined.

(** ** The cache *)

(** Signing keys outlive the key server: once keys are cached, a
    validation never reports a fetch error, whatever the server answers and
    however old the keys are; and while the cache is fresh the server is not
    asked at all. *)
Theorem cached_keys_survive `{IamJwt} now server token v :
  kc_keys (jv_cache v) ≠ [] →
  (∀ e, (validate_impl now server token v).2 ≠ Err (IamJwksFetchError e)) ∧
  (is_ok (fetch_remote (server (jv_url v))) = false ∨ cache_fresh now (jv_cache v) = true →
   (validate_impl now server token v).1 = v ∧
   (is_ok (validate_sync (jv_config v) token) = false →
    (validate_impl now server token v).2 = validate_with_keys (jv_config v) token (kc_keys (jv_cache v)))).
Proof.
  intros Hk.
  assert (Hf : ∀ c r, iam_fetch now (server (jv_url v)) (jv_cache v) = (c, r) → ∃ keys, r = Ok keys).
  { unfold iam_fetch. intros c r. destruct (cache_fresh _ _); [intros; simplify_eq; eauto|].
    destruct (fetch_remote _); [intros; simplify_eq; eauto|]. rewrite bool_decide_eq_false_2 by done.
    intros; simplify_eq; eauto. }
  assert (Htry : ∀ ks e0 e, (∀ x, e0 ≠ IamJwksFetchError x) →
    iam_try_keys (jv_config v) token e0 ks ≠ Err (IamJwksFetchError e)).
  { induction ks as [|k ks IH]; intros e0 e He0; simpl; [naive_solver|].
    destruct (iam_rsa_components _ _); [by apply IH|]. destruct (iam_decode_rs256 _ _ _ _) as [|[]]; [done|by apply IH..]. }
  split.
  - intros e. unfold validate_impl. case_match; [done|].
    destruct (iam_fetch now (server (jv_url v)) (jv_cache v)) as [c r] eqn:E.
    destruct (Hf c r eq_refl) as [keys ->]. simpl. unfold validate_with_keys. destruct keys; [done|].
    destruct (iam_header_kid token) as [kid|]; [|done].
    destruct (filter (λ k, iam_key_matches kid k) _); [done|]. by apply Htry.
  - intros Hno.
    assert (He : iam_fetch now (server (jv_url v)) (jv_cache v) = (jv_cache v, Ok (kc_keys (jv_cache v)))).
    { unfold iam_fetch. destruct (cache_fresh _ _); [done|]. destruct Hno as [Hno|]; [|done].
      destruct (fetch_remote _); [done|]. by rewrite bool_decide_eq_false_2. }
    unfold validate_impl. rewrite He. split.
    + by destruct (oidc_hmac_secret (jv_config v)), (validate_sync (jv_config v) token), v.
    + intros Hs. destruct (oidc_hmac_secret (jv_config v)); [|done]. by destruct (validate_sync _ _).
Qed.

Lemma cached_keys_survive_witness :
  let v := {| jv_config := jv_config IamSample.validator; jv_cache := iam_set_keys 0 [IamSample.key "k1" "n1"] iam_cache_new;
              jv_url := jv_url IamSample.validator |} in
  (@validate_impl IamSample.jwt (seconds 999999) (λ _, KsUnreachable "timeout") "tok" v).2 =
    Ok {| principal := "alice@x"; principal_type := Human; role := "pact-ops-ml" |}.
Proof.
  intros v. destruct (@cached_keys_survive IamSample.jwt (seconds 999999) (λ _, KsUnreachable "timeout") "tok" v) as [_ H].
  - discriminate.
  - destruct (H (or_introl eq_refl)) as [_ H']. rewrite H'; vm_compute; reflexivity.
Defined.
