(* ===== verification/IdentityFiles.v ===== *)
(** * Identity files and the NSS module

    crates/pact-agent/src/identity.rs writes the users and groups of the
    [UidMap] to two files, crates/pact-nss/src/lib.rs answers the user lookups
    of the C library from them. The file system is a map from paths to
    contents; an update of the files is its list of system calls, so that a
    failure between any two of them can be considered. JSON is the class
    [DbJson]. *)

From S2P Require Import Prelude Text UidMap.
From stdpp Require Import options.
From Stdlib Require Import Ascii.

(** ** Files *)

Record File := { file_data : string; file_mode : option N }.
Inductive FsOp :=
| MkdirAll (dir : string)
| WriteFile (path data : string)
| Chmod (path : string) (mode : N)
| Rename (src dst : string).

Definition apply_op (fs : gmap string File) (op : FsOp) : gmap string File :=
  match op with
  | MkdirAll _ => fs
  | WriteFile p d => <[p := {| file_data := d; file_mode := fs !! p ≫= file_mode |}]> fs
  | Chmod p m => alter (λ f, {| file_data := file_data f; file_mode := Some m |}) p fs
  | Rename s d => match fs !! s with Some f => <[d := f]> (delete s fs) | None => fs end
  end.
(** A call that fails: of a write, some data may have reached the file. *)
Definition failed_op (fs : gmap string File) (partial : string) (op : FsOp) : gmap string File :=
  match op with WriteFile p _ => apply_op fs (WriteFile p partial) | _ => fs end.

(** The calls are made in order up to the first failure, at [fail] calls
    from here if there is one. *)
Fixpoint run_ops (fail : option (nat * string)) (ops : list FsOp) (fs : gmap string File)
    : gmap string File * bool :=
  match ops with
  | [] => (fs, true)
  | op :: ops' =>
      match fail with
      | Some (O, partial) => (failed_op fs partial op, false)
      | Some (S k, partial) => run_ops (Some (k, partial)) ops' (apply_op fs op)
      | None => run_ops None ops' (apply_op fs op)
      end
  end.

(** [Path::with_extension], for paths with a file name. *)
Definition with_extension (path ext : string) : string :=
  let name_with n := match rsplit_once "."%char n with
                     | Some (stem, _) => if Str.is_empty stem then n +:+ "." +:+ ext else stem +:+ "." +:+ ext
                     | None => n +:+ "." +:+ ext
                     end in
  match rsplit_once "/"%char path with
  | Some (dir, name) => dir +:+ "/" +:+ name_with name
  | None => name_with path
  end.

(** ** The identity manager (identity.rs) *)

Definition PASSWD_DB_PATH : string := "/run/pact/passwd.db".
Definition GROUP_DB_PATH : string := "/run/pact/group.db".

Record IdentityManager := { im_base_dir : string; im_uid_map : UidMap; im_active : bool }.
Definition identity_new (base_dir : string) (active : bool) : IdentityManager :=
  {| im_base_dir := base_dir; im_uid_map := uid_map_new; im_active := active |}.

(** Entries as the NSS module reads them. *)
Record PasswdEntry := {
  pe_subject : string; pe_uid : N; pe_gid : N; pe_username : string; pe_home : string; pe_shell : string; pe_org : string }.
Record GroupDbEntry := { gd_name : string; gd_gid : N; gd_members : list string }.

(** JSON of the two entry types, on both sides. *)
Class DbJson := {
  users_json : list UidEntry → string;
  groups_json : list GroupEntry → string;
  passwd_of_json : string → option (list PasswdEntry);
  group_of_json : string → option (list GroupDbEntry);
  users_of_json : string → option (list UidEntry);
  groups_of_json : string → option (list GroupEntry);
}.

Definition passwd_entry (e : UidEntry) : PasswdEntry :=
  {| pe_subject := ue_subject e; pe_uid := ue_uid e; pe_gid := ue_gid e; pe_username := ue_username e;
     pe_home := ue_home e; pe_shell := ue_shell e; pe_org := ue_org e |}.
Definition group_entry (g : GroupEntry) : GroupDbEntry :=
  {| gd_name := ge_name g; gd_gid := ge_gid g; gd_members := ge_members g |}.

(** The field names agree, so what the agent writes the module reads. *)
Class DbJsonLaws `{DbJson} := {
  passwd_json_ok : ∀ l, passwd_of_json (users_json l) = Some (passwd_entry <$> l);
  group_json_ok : ∀ l, group_of_json (groups_json l) = Some (group_entry <$> l);
  users_json_ok : ∀ l, users_of_json (users_json l) = Some l;
  groups_json_ok : ∀ l, groups_of_json (groups_json l) = Some l;
}.

(** Mode 0o644. *)
Definition write_atomic (path data : string) : list FsOp :=
  let tmp_path := with_extension path "tmp" in
  [WriteFile tmp_path data; Chmod tmp_path 420; Rename tmp_path path].

Definition write_db_files `{DbJson} (m : IdentityManager) : list FsOp :=
  if im_active m then
    [MkdirAll (im_base_dir m)] ++
    write_atomic (im_base_dir m +:+ "/passwd.db") (users_json (hash_values (um_users (im_uid_map m)))) ++
    write_atomic (im_base_dir m +:+ "/group.db") (groups_json (hash_values (um_groups (im_uid_map m))))
  else [].

(** A failed write is logged; the new map is kept. *)
Definition update_map `{DbJson} (uid_map : UidMap) (fail : option (nat * string)) (m : IdentityManager)
    (fs : gmap string File) : IdentityManager * gmap string File :=
  let m' := {| im_base_dir := im_base_dir m; im_uid_map := uid_map; im_active := im_active m |} in
  (m', if im_active m then (run_ops fail (write_db_files m') fs).1 else fs).

Definition read_passwd_db `{DbJson} (fs : gmap string File) (path : string) : option (list UidEntry) :=
  fs !! path ≫= λ f, users_of_json (file_data f).
Definition read_group_db `{DbJson} (fs : gmap string File) (path : string) : option (list GroupEntry) :=
  fs !! path ≫= λ f, groups_of_json (file_data f).

(** ** The NSS module (pact-nss) *)

Record Passwd := {
  pw_name : string; pw_passwd : string; pw_uid : N; pw_gid : N; pw_gecos : string; pw_dir : string; pw_shell : string }.
Record Group := { gr_name : string; gr_passwd : string; gr_gid : N; gr_members : list string }.
(** The two global caches of a process. *)
Record NssCache := { PASSWD_CACHE : option (list PasswdEntry); GROUP_CACHE : option (list GroupDbEntry) }.
Definition nss_start : NssCache := {| PASSWD_CACHE := None; GROUP_CACHE := None |}.

Definition load_passwd `{DbJson} (fs : gmap string File) : list PasswdEntry :=
  match fs !! PASSWD_DB_PATH with Some f => default [] (passwd_of_json (file_data f)) | None => [] end.
Definition load_groups `{DbJson} (fs : gmap string File) : list GroupDbEntry :=
  match fs !! GROUP_DB_PATH with Some f => default [] (group_of_json (file_data f)) | None => [] end.

Definition get_passwd_entries `{DbJson} (fs : gmap string File) (c : NssCache) : NssCache * list PasswdEntry :=
  match PASSWD_CACHE c with
  | Some l => (c, l)
  | None => let l := load_passwd fs in ({| PASSWD_CACHE := Some l; GROUP_CACHE := GROUP_CACHE c |}, l)
  end.
Definition get_group_entries `{DbJson} (fs : gmap string File) (c : NssCache) : NssCache * list GroupDbEntry :=
  match GROUP_CACHE c with
  | Some l => (c, l)
  | None => let l := load_groups fs in ({| PASSWD_CACHE := PASSWD_CACHE c; GROUP_CACHE := Some l |}, l)
  end.

Definition to_passwd (e : PasswdEntry) : Passwd :=
  {| pw_name := pe_username e; pw_passwd := "x"; pw_uid := pe_uid e; pw_gid := pe_gid e; pw_gecos := pe_subject e;
     pw_dir := pe_home e; pw_shell := pe_shell e |}.
Definition to_group (g : GroupDbEntry) : Group :=
  {| gr_name := gd_name g; gr_passwd := "x"; gr_gid := gd_gid g; gr_members := gd_members g |}.

(** The hooks glibc calls. *)
Definition passwd_get_all `{DbJson} fs (c : NssCache) : NssCache * list Passwd :=
  let '(c', l) := get_passwd_entries fs c in (c', to_passwd <$> l).
Definition passwd_by_uid `{DbJson} (uid : N) fs (c : NssCache) : NssCache * option Passwd :=
  let '(c', l) := get_passwd_entries fs c in (c', to_passwd <$> (snd <$> list_find (λ e, pe_uid e = uid) l)).
Definition passwd_by_name `{DbJson} (name : string) fs (c : NssCache) : NssCache * option Passwd :=
  let '(c', l) := get_passwd_entries fs c in (c', to_passwd <$> (snd <$> list_find (λ e, pe_username e = name) l)).
Definition group_get_all `{DbJson} fs (c : NssCache) : NssCache * list Group :=
  let '(c', l) := get_group_entries fs c in (c', to_group <$> l).
Definition group_by_gid `{DbJson} (gid : N) fs (c : NssCache) : NssCache * option Group :=
  let '(c', l) := get_group_entries fs c in (c', to_group <$> (snd <$> list_find (λ g, gd_gid g = gid) l)).
Definition group_by_name `{DbJson} (name : string) fs (c : NssCache) : NssCache * option Group :=
  let '(c', l) := get_group_entries fs c in (c', to_group <$> (snd <$> list_find (λ g, gd_name g = name) l)).

(** ** Theorems *)

Definition data_at (fs : gmap string File) (p : string) : option string := file_data <$> fs !! p.

(** Whatever call fails, the target of an atomic write holds its old or its
    new data, and no other file but the temporary one is touched. *)
Lemma write_atomic_spec fail path data fs :
  with_extension path "tmp" ≠ path →
  let '(fs', ok) := run_ops fail (write_atomic path data) fs in
  (ok = true → fs' !! path = Some {| file_data := data; file_mode := Some 420%N |}) ∧
  (ok = false → fs' !! path = fs !! path) ∧
  (∀ p, p ≠ path → p ≠ with_extension path "tmp" → fs' !! p = fs !! p).
Proof.
  intros Hne. unfold write_atomic. set (tmp := with_extension path "tmp") in *.
  destruct fail as [[[|[|[|k]]] partial]|]; simpl.
  1-3: (split_and!; [done|intros _|intros p Hp Ht]; simplify_map_eq; done).
  all: rewrite alter_insert_eq, lookup_insert_eq; split_and!; [by intros _; rewrite lookup_insert_eq|done|];
    intros p Hp Ht; by rewrite lookup_insert_ne, lookup_delete_ne, lookup_insert_ne.
Qed.

Definition shift_fail (n : nat) (fail : option (nat * string)) : option (nat * string) :=
  match fail with Some (k, p) => Some (k - n, p) | None => None end.
Lemma run_ops_app fail o1 o2 fs :
  run_ops fail (o1 ++ o2) fs =
    let '(fs1, ok) := run_ops fail o1 fs in
    if ok then run_ops (shift_fail (length o1) fail) o2 fs1 else (fs1, false).
Proof.
  revert fail fs. induction o1 as [|op o1 IH]; intros fail fs; simpl.
  - destruct fail as [[k p]|]; simpl; [by rewrite Nat.sub_0_r|done].
  - destruct fail as [[[|k] p]|]; simpl; [done|rewrite IH; by destruct (run_ops _ _ _) as [? []]..].
Qed.

Lemma passwd_tmp base : with_extension (base +:+ "/passwd.db") "tmp" = base +:+ "/passwd.tmp".
Proof. unfold with_extension. by rewrite (rsplit_once_found "/"). Qed.
Lemma group_tmp base : with_extension (base +:+ "/group.db") "tmp" = base +:+ "/group.tmp".
Proof. unfold with_extension. by rewrite (rsplit_once_found "/"). Qed.

(** Two atomic writes in a row to different files of a directory. *)
Lemma two_writes fail b u g fs :
  let '(fs', ok) := run_ops fail (write_atomic (b +:+ "/passwd.db") u ++ write_atomic (b +:+ "/group.db") g) fs in
  (data_at fs' (b +:+ "/passwd.db") = data_at fs (b +:+ "/passwd.db") ∧
     data_at fs' (b +:+ "/group.db") = data_at fs (b +:+ "/group.db") ∨
   data_at fs' (b +:+ "/passwd.db") = Some u ∧ data_at fs' (b +:+ "/group.db") = data_at fs (b +:+ "/group.db") ∨
   data_at fs' (b +:+ "/passwd.db") = Some u ∧ data_at fs' (b +:+ "/group.db") = Some g) ∧
  (ok = true → data_at fs' (b +:+ "/passwd.db") = Some u ∧ data_at fs' (b +:+ "/group.db") = Some g ∧
     (fs' !! (b +:+ "/passwd.db") ≫= file_mode) = Some 420%N ∧ (fs' !! (b +:+ "/group.db") ≫= file_mode) = Some 420%N).
Proof.
  assert (Hinj : ∀ x y : string, x ≠ y → b +:+ x ≠ b +:+ y) by (intros x y Hxy He; by apply append_inj_l in He).
  rewrite run_ops_app. pose proof (write_atomic_spec fail (b +:+ "/passwd.db") u fs) as H1.
  destruct (run_ops fail (write_atomic _ u) fs) as [fs1 ok1]. rewrite passwd_tmp in H1.
  destruct (H1 ltac:(by apply Hinj)) as (Hok1 & Hno1 & Hf1). unfold data_at.
  destruct ok1; [|split; [left; by rewrite Hno1, Hf1 by (try done; by apply Hinj)|done]].
  set (f2 := shift_fail _ _). pose proof (write_atomic_spec f2 (b +:+ "/group.db") g fs1) as H2.
  destruct (run_ops f2 (write_atomic _ g) fs1) as [fs2 ok2]. rewrite group_tmp in H2.
  destruct (H2 ltac:(by apply Hinj)) as (Hok2 & Hno2 & Hf2).
  rewrite (Hf2 (b +:+ "/passwd.db")), Hok1 by (try done; by apply Hinj).
  destruct ok2; [rewrite Hok2 by done; split; [right; by right|done]|].
  split; [right; left; by rewrite Hno2, Hf1 by (try done; by apply Hinj)|done].
Qed.

(** C22: Whichever system call of an update fails, the NSS module never sees a
    partial file: each of the two files holds its old or its complete new
    content, the groups are new only if the users are, and an update without
    failure leaves both new and readable by everyone. *)
Theorem identity_files_atomic `{DbJson} m fail fs :
  im_active m = true →
  let '(fs', ok) := run_ops fail (write_db_files m) fs in
  let users := Some (users_json (hash_values (um_users (im_uid_map m)))) in
  let groups := Some (groups_json (hash_values (um_groups (im_uid_map m)))) in
  let passwd_db := im_base_dir m +:+ "/passwd.db" in
  let group_db := im_base_dir m +:+ "/group.db" in
  (data_at fs' passwd_db = data_at fs passwd_db ∧ data_at fs' group_db = data_at fs group_db ∨
   data_at fs' passwd_db = users ∧ data_at fs' group_db = data_at fs group_db ∨
   data_at fs' passwd_db = users ∧ data_at fs' group_db = groups) ∧
  (ok = true → data_at fs' passwd_db = users ∧ data_at fs' group_db = groups ∧
     (fs' !! passwd_db ≫= file_mode) = Some 420%N ∧ (fs' !! group_db ≫= file_mode) = Some 420%N).
Proof.
  intros Ha. unfold write_db_files. rewrite Ha. change ([MkdirAll (im_base_dir m)] ++ ?l) with (MkdirAll (im_base_dir m) :: l).
  destruct fail as [[[|k] p]|]; cbn [run_ops apply_op failed_op]; [split; [by left|done]|apply two_writes..].
Qed.

Section nss.
Context `{DbJsonLaws}.
#[local] Set Default Proof Using "Type*".

Lemma load_passwd_written m fs :
  data_at fs PASSWD_DB_PATH = Some (users_json (hash_values (um_users m))) →
  load_passwd fs = passwd_entry <$> hash_values (um_users m).
Proof.
  unfold data_at, load_passwd. destruct (fs !! PASSWD_DB_PATH) as [f|]; [|done]. simpl. intros [= ->].
  by rewrite passwd_json_ok.
Qed.

(** C23: After an update of the files in /run/pact a process that asks for the
    first time gets exactly the users of the map: a user id is found exactly
    when a user of the map has it, with that user's data, and a name is found
    exactly when some user has it. A user id is never ambiguous. *)
Theorem nss_resolves m fs uid name :
  uid_map_ok m → data_at fs PASSWD_DB_PATH = Some (users_json (hash_values (um_users m))) →
  (∀ p, (passwd_by_uid uid fs nss_start).2 = Some p ↔
     ∃ k e, um_users m !! k = Some e ∧ ue_uid e = uid ∧ p = to_passwd (passwd_entry e)) ∧
  (∀ p, (passwd_by_name name fs nss_start).2 = Some p →
     ∃ k e, um_users m !! k = Some e ∧ ue_username e = name ∧ p = to_passwd (passwd_entry e)) ∧
  ((passwd_by_name name fs nss_start).2 = None ↔ ∀ k e, um_users m !! k = Some e → ue_username e ≠ name).
Proof.
  intros Hok Hfs. unfold passwd_by_uid, passwd_by_name, get_passwd_entries. simpl. rewrite (load_passwd_written m) by done.
  assert (Hfind : ∀ (P : PasswdEntry → Prop) `{∀ x, Decision (P x)} p,
    to_passwd <$> (snd <$> list_find P (passwd_entry <$> hash_values (um_users m))) = Some p →
    ∃ k e, um_users m !! k = Some e ∧ P (passwd_entry e) ∧ p = to_passwd (passwd_entry e)).
  { intros P ? p. destruct (list_find P _) as [[i x]|] eqn:E; [|done]. simpl. intros [= <-].
    apply list_find_Some in E as (Hx & HP & _). apply list_elem_of_lookup_2, list_elem_of_fmap in Hx as (e & -> & He).
    apply elem_of_hash_values in He as [k Hk]. by exists k, e. }
  assert (Hnone : ∀ (P : PasswdEntry → Prop) `{∀ x, Decision (P x)},
    list_find P (passwd_entry <$> hash_values (um_users m)) = None ↔ ∀ k e, um_users m !! k = Some e → ¬ P (passwd_entry e)).
  { intros P ?. rewrite list_find_None, Forall_fmap, Forall_forall. setoid_rewrite elem_of_hash_values. naive_solver. }
  split_and!.
  - intros p. split; [intros Hp; by apply (Hfind (λ e, pe_uid e = uid)) in Hp|].
    intros (k & e & He & Hu & ->). destruct (list_find (λ e, pe_uid e = uid) _) as [[i x]|] eqn:E.
    + simpl. apply list_find_Some in E as (Hx & HP & _).
      apply list_elem_of_lookup_2, list_elem_of_fmap in Hx as (e' & -> & [k' Hk']%elem_of_hash_values).
      assert (k' = k) as -> by by eapply (uo_distinct _ Hok); [done..|simpl in HP; congruence]. congruence.
    + exfalso. rewrite (Hnone (λ e, pe_uid e = uid)) in E. by eapply E.
  - intros p Hp. by apply (Hfind (λ e, pe_username e = name)) in Hp.
  - destruct (list_find (λ e, pe_username e = name) _) as [[i x]|] eqn:E; simpl.
    + split; [done|]. intros Hn. exfalso. assert (Hf : list_find (λ e, pe_username e = name)
        (passwd_entry <$> hash_values (um_users m)) = None) by (by apply Hnone). congruence.
    + split; [intros _|done]. exact (proj1 (Hnone (λ e, pe_username e = name) _) E).
Qed.

(** A process never sees a later version of the files: once it has looked
    up a user, every further lookup is answered from the entries of that
    moment, whatever the agent writes. *)
Lemma nss_never_reloads first uid fs1 fs2 :
  let c := (passwd_by_uid first fs1 nss_start).1 in
  (passwd_by_uid uid fs2 c).2 = (passwd_by_uid uid fs1 nss_start).2 ∧ (passwd_by_uid uid fs2 c).1 = c.
Proof. done. Qed.

End nss.

(** ** Witnesses *)

(** Any countable type has a text form that can be read back. *)
Definition text_of {A} `{Countable A} (x : A) : string := pretty (Npos (encode x)).
Definition of_text {A} `{Countable A} (s : string) : option A :=
  Str.parse_digits 0 s ≫= λ n, match n with Npos p => decode p | N0 => None end.
Lemma of_text_of {A} `{Countable A} (x : A) : of_text (text_of x) = Some x.
Proof. unfold of_text, text_of. rewrite pretty_digits. simpl. apply decode_encode. Qed.

#[export] Instance UidEntry_eq_dec : EqDecision UidEntry.
Proof. solve_decision. Defined.
#[export] Instance UidEntry_countable : Countable UidEntry.
Proof.
  refine (inj_countable' (λ e, (ue_subject e, ue_uid e, ue_gid e, ue_username e, ue_home e, ue_shell e, ue_org e))
    (λ t, let '(s, u, g, n, h, sh, o) := t in
          {| ue_subject := s; ue_uid := u; ue_gid := g; ue_username := n; ue_home := h; ue_shell := sh; ue_org := o |}) _).
  by intros [].
Defined.
#[export] Instance GroupEntry_eq_dec : EqDecision GroupEntry.
Proof. solve_decision. Defined.
#[export] Instance GroupEntry_countable : Countable GroupEntry.
Proof.
  refine (inj_countable' (λ g, (ge_name g, ge_gid g, ge_members g))
    (λ t, let '(n, i, l) := t in {| ge_name := n; ge_gid := i; ge_members := l |}) _). by intros [].
Defined.

Module IdentitySample.
#[export] Instance json : DbJson :=
  {| users_json := text_of; groups_json := text_of;
     passwd_of_json s := match of_text s with Some l => Some (passwd_entry <$> (l : list UidEntry)) | None => None end;
     group_of_json s := match of_text s with Some l => Some (group_entry <$> (l : list GroupEntry)) | None => None end;
     users_of_json := of_text; groups_of_json := of_text |}.
#[export] Instance json_ok : DbJsonLaws.
Proof. split; intros l; simpl; by rewrite of_text_of. Qed.
Definition manager : IdentityManager := {| im_base_dir := "/run/pact"; im_uid_map := UidSample.two; im_active := true |}.
Definition fs : gmap string File :=
  {[ PASSWD_DB_PATH := {| file_data := users_json (hash_values (um_users UidSample.two)); file_mode := Some 420%N |} ]}.
End IdentitySample.
Import IdentitySample.

Lemma identity_files_atomic_witness :
  let '(fs', ok) := run_ops (Some (5, "[{")) (write_db_files manager) fs in
  data_at fs' PASSWD_DB_PATH = Some (users_json (hash_values (um_users UidSample.two))) ∨
  data_at fs' PASSWD_DB_PATH = data_at fs PASSWD_DB_PATH.
Proof.
  pose proof (identity_files_atomic manager (Some (5, "[{")) fs eq_refl) as H.
  destruct (run_ops (Some (5, "[{")) (write_db_files manager) fs) as [fs' ok].
  destruct H as [[[H _]|[[H _]|[H _]]] _]; [right|left|left]; exact H.
Defined.

Lemma nss_resolves_witness :
  (passwd_by_uid 20000 fs nss_start).2 = Some (to_passwd (passwd_entry UidSample.a)).
Proof.
  assert (Hok : uid_map_ok UidSample.two).
  { eapply (uid_reachable_ok UidSample.start); [reflexivity|reflexivity|apply UidSample.start_ok|].
    eapply rtc_l; [apply (us_assign "a@cscs" "a" "cscs" "/home/a" "/bin/sh")|].
    apply rtc_once. apply (us_assign "b@local" "b" "local" "/home/b" "/bin/sh" UidSample.one). }
  assert (Hfs : data_at fs PASSWD_DB_PATH = Some (users_json (hash_values (um_users UidSample.two)))).
  { unfold data_at, fs. by rewrite lookup_singleton_eq. }
  refine (proj2 (proj1 (nss_resolves UidSample.two fs 20000 "a" Hok Hfs) _) _).
  exists "a@cscs", UidSample.a. split_and!; [vm_compute; reflexivity|reflexivity|reflexivity].
Defined.
