(* ===== verification/BootInit.v ===== *)
(** * Early initialisation and the hardware watchdog

    crates/pact-agent/src/boot/init.rs and boot/watchdog.rs: what the agent
    does when it is the first process of a node. The kernel is the class
    [InitOs] with the laws of mounting, [WaitApi] with those of waitpid, and a
    watchdog device that counts down; times are nanoseconds. *)

From S2P Require Import Prelude Text Types.
From stdpp Require Import options.

(** ** Pseudo file systems (init.rs) *)

Record PseudoMount := { pm_source : string; pm_target : string; pm_fstype : string; pm_data : string }.

(** All with the flag MS_NOSUID. *)
Definition PSEUDO_MOUNTS : list PseudoMount :=
  [ {| pm_source := "proc"; pm_target := "/proc"; pm_fstype := "proc"; pm_data := "" |};
    {| pm_source := "sysfs"; pm_target := "/sys"; pm_fstype := "sysfs"; pm_data := "" |};
    {| pm_source := "devtmpfs"; pm_target := "/dev"; pm_fstype := "devtmpfs"; pm_data := "mode=0755" |};
    {| pm_source := "devpts"; pm_target := "/dev/pts"; pm_fstype := "devpts"; pm_data := "mode=0620,gid=5" |};
    {| pm_source := "tmpfs"; pm_target := "/dev/shm"; pm_fstype := "tmpfs"; pm_data := "mode=1777" |};
    {| pm_source := "tmpfs"; pm_target := "/run"; pm_fstype := "tmpfs"; pm_data := "mode=0755" |};
    {| pm_source := "tmpfs"; pm_target := "/tmp"; pm_fstype := "tmpfs"; pm_data := "mode=1777" |} ].

(** The kernel: existence of paths, creation of directories, mounting (the
    error, if any) and the text of /proc/mounts. *)
Class InitOs (S : Type) := {
  os_exists : S → string → bool;
  os_create_dir_all : S → string → S * option string;
  os_mount : S → PseudoMount → S * option string;
  os_proc_mounts : S → option string;
}.

Section init.
Context {S : Type} `{!InitOs S}.

Definition lists_target (mounts target : string) : bool :=
  existsb (λ line, bool_decide (split_whitespace line !! 1 = Some target)) (str_lines mounts).
Definition is_mountpoint (s : S) (target : string) : bool :=
  if decide (target = "/proc") then os_exists s "/proc/self"
  else match os_proc_mounts s with Some mounts => lists_target mounts target | None => false end.

(** One round of the loop; the flag says whether a mount was made. *)
Definition mount_one (s : S) (pm : PseudoMount) : S * result bool string :=
  let '(s1, e1) := if os_exists s (pm_target pm) then (s, None) else os_create_dir_all s (pm_target pm) in
  match e1 with
  | Some e => (s1, Err ("failed to create mount target " +:+ pm_target pm +:+ ": " +:+ e))
  | None =>
      if is_mountpoint s1 (pm_target pm) then (s1, Ok false)
      else match os_mount s1 pm with
           | (s2, None) => (s2, Ok true)
           | (s2, Some e) => (s2, Err ("failed to mount " +:+ pm_fstype pm +:+ " on " +:+ pm_target pm +:+ ": " +:+ e))
           end
  end.
(** The targets mounted, in order, and the outcome. *)
Fixpoint mount_each (pms : list PseudoMount) (s : S) : S * list string * result () string :=
  match pms with
  | [] => (s, [], Ok ())
  | pm :: pms' =>
      match mount_one s pm with
      | (s', Err e) => (s', [], Err e)
      | (s', Ok made) =>
          let '(s'', ts, r) := mount_each pms' s' in
          (s'', if made then pm_target pm :: ts else ts, r)
      end
  end.
Definition mount_pseudofs (s : S) : S * list string * result () string := mount_each PSEUDO_MOUNTS s.
End init.

(** *** The console *)

Inductive FdCall := Dup2 (src dst : Z) | CloseFd (fd : Z).
(** [opened]: the descriptor of /dev/console or the error of opening it. *)
Definition setup_console (exists_ : bool) (opened : result Z string) : list FdCall * result () string :=
  if exists_ then
    match opened with
    | Err e => ([], Err ("failed to open /dev/console: " +:+ e))
    | Ok fd => ([Dup2 fd 0; Dup2 fd 1; Dup2 fd 2] ++ (if (2 <? fd)%Z then [CloseFd fd] else []), Ok ())
    end
  else ([], Ok ()).

(** *** The zombie reaper *)

Inductive WaitResult := StillAlive | ReapedChild (pid : N) | NoChildren | WaitError (e : string).
(** [waitpid] for any child without blocking. The state may also change
    otherwise between two calls. *)
Class WaitApi (S : Type) := waitpid_any : S → S * WaitResult.
(** The inner loop after a SIGCHLD: the children reaped, and whether the loop
    has ended by itself within the given number of calls. *)
Fixpoint reap_loop {S} `{!WaitApi S} (fuel : nat) (s : S) : S * list N * bool :=
  match fuel with
  | O => (s, [], false)
  | Datatypes.S fuel' =>
      match waitpid_any s with
      | (s', ReapedChild pid) => let '(s'', pids, ended) := reap_loop fuel' s' in (s'', pid :: pids, ended)
      | (s', (StillAlive | NoChildren | WaitError _)) => (s', [], true)
      end
  end.

(** ** The watchdog (watchdog.rs) *)

Record WatchdogHandle := { wd_timeout_secs : N }.
Inductive OpenError := OpenBusy | OpenOther (e : string).
(** [opened]: the outcome of opening the device; [timeout]: of the ioctl that
    reads its timeout, a 32-bit signed number. *)
Definition watchdog_open (exists_ : bool) (opened : result () OpenError) (timeout : result Z string)
    : result (option WatchdogHandle) string :=
  if exists_ then
    match opened with
    | Err OpenBusy => Err "watchdog device busy — another process holds /dev/watchdog"
    | Err (OpenOther e) => Err ("failed to open /dev/watchdog: " +:+ e)
    | Ok _ =>
        match timeout with
        | Err e => Err ("WDIOC_GETTIMEOUT ioctl failed: " +:+ e)
        | Ok t => Ok (Some {| wd_timeout_secs := Z.to_N (Z.max t 1) |})
        end
    end
  else Ok None.

(** The device: the seconds it counts down from and the time of the last
    reset; it reboots the node once the time is over. *)
Record WatchdogDevice := { dev_timeout_secs : N; dev_last_reset : Z; dev_armed : bool }.
Definition device_fires (now : Z) (d : WatchdogDevice) : bool :=
  dev_armed d && (seconds (Z.of_N (dev_timeout_secs d)) <=? now - dev_last_reset d)%Z.

(** The ioctls may fail; the handle keeps the timeout it was opened with. *)
Definition set_timeout (seconds : N) (ok : bool) (now : Z) (d : WatchdogDevice) : WatchdogDevice * bool :=
  if ok then ({| dev_timeout_secs := seconds; dev_last_reset := now; dev_armed := dev_armed d |}, true) else (d, false).
Definition pet (ok : bool) (now : Z) (d : WatchdogDevice) : WatchdogDevice :=
  if ok then {| dev_timeout_secs := dev_timeout_secs d; dev_last_reset := now; dev_armed := dev_armed d |} else d.
(** [Drop]: the magic close disarms the device. *)
Definition watchdog_drop (ok : bool) (d : WatchdogDevice) : WatchdogDevice :=
  if ok then {| dev_timeout_secs := dev_timeout_secs d; dev_last_reset := dev_last_reset d; dev_armed := false |} else d.

(** The period of [spawn_boot_petter] in seconds, and a run of its task: the
    ticks happen at the given times. *)
Definition petter_interval (h : WatchdogHandle) : N := N.max (wd_timeout_secs h `div` 2) 1.
Fixpoint petter_run (ticks : list (Z * bool)) (d : WatchdogDevice) : WatchdogDevice :=
  match ticks with [] => d | (now, ok) :: ticks' => petter_run ticks' (pet ok now d) end.

(** ** Theorems *)

(** The kernel's side of mounting: creating a directory mounts nothing, what
    is mounted stays mounted and exists, a mounted proc shows /proc/self, and
    with it /proc/mounts lists every mount. *)
Class InitLaws (S : Type) `{!InitOs S} := {
  mkdir_no_mount : ∀ s p t, is_mountpoint (os_create_dir_all s p).1 t = is_mountpoint s t;
  mount_keeps : ∀ s pm s' t, os_mount s pm = (s', None) → is_mountpoint s t = true → is_mountpoint s' t = true;
  mount_proc_visible : ∀ s pm s', os_mount s pm = (s', None) → pm_target pm = "/proc" → os_exists s' "/proc/self" = true;
  mount_listed : ∀ s pm s', os_mount s pm = (s', None) → os_exists s "/proc/self" = true → pm_target pm ≠ "/proc" →
    ∃ text, os_proc_mounts s' = Some text ∧ lists_target text (pm_target pm) = true;
  mountpoint_exists : ∀ s t, is_mountpoint s t = true → os_exists s t = true;
}.

Section init_theorems.
Context {S : Type} `{InitLaws S}.
#[local] Set Default Proof Using "Type*".

Lemma mount_one_ok s pm s' made :
  mount_one s pm = (s', Ok made) → pm_target pm = "/proc" ∨ is_mountpoint s "/proc" = true →
  is_mountpoint s' (pm_target pm) = true ∧ (∀ t, is_mountpoint s t = true → is_mountpoint s' t = true).
Proof.
  unfold mount_one. intros Hm Hp.
  assert (Hd : ∃ s1 e1, (if os_exists s (pm_target pm) then (s, None) else os_create_dir_all s (pm_target pm)) = (s1, e1) ∧
    ∀ t, is_mountpoint s t = true → is_mountpoint s1 t = true).
  { destruct (os_exists s (pm_target pm)); [by exists s, None|].
    destruct (os_create_dir_all s (pm_target pm)) as [s1 e1] eqn:E. exists s1, e1. split; [done|].
    intros t Ht. pose proof (mkdir_no_mount s (pm_target pm) t) as Hk. rewrite E in Hk. simpl in Hk. by rewrite Hk. }
  destruct Hd as (s1 & e1 & Hd & Hk1). rewrite Hd in Hm. destruct e1; [done|].
  destruct (is_mountpoint s1 (pm_target pm)) eqn:Hmp; [by simplify_eq|].
  destruct (os_mount s1 pm) as [s2 [e|]] eqn:Hos; [done|]. simplify_eq. split.
  - destruct (decide (pm_target pm = "/proc")) as [Ht|Ht].
    + unfold is_mountpoint. rewrite decide_True by done. by eapply mount_proc_visible.
    + destruct Hp as [?|Hp]; [done|]. apply Hk1 in Hp. unfold is_mountpoint in *.
      rewrite decide_True in Hp by done. rewrite decide_False by done.
      destruct (mount_listed _ _ _ Hos Hp Ht) as (text & -> & Hl). done.
  - intros t Ht. eapply mount_keeps; [done|by apply Hk1].
Qed.

Lemma mount_each_ok pms s s' ts :
  mount_each pms s = (s', ts, Ok ()) → is_mountpoint s "/proc" = true →
  (∀ pm, pm ∈ pms → is_mountpoint s' (pm_target pm) = true) ∧ (∀ t, is_mountpoint s t = true → is_mountpoint s' t = true).
Proof.
  revert s ts. induction pms as [|pm pms IH]; simpl; intros s ts Hm Hp.
  { simplify_eq. split; [by intros ? ?%not_elem_of_nil|done]. }
  destruct (mount_one s pm) as [s1 [made|e]] eqn:E; [|done].
  destruct (mount_one_ok _ _ _ _ E (or_intror Hp)) as [H1 H2].
  destruct (mount_each pms s1) as [[s2 ts'] r] eqn:E2. simplify_eq.
  destruct (IH s1 ts' E2 (H2 _ Hp)) as [H3 H4]. split.
  - intros pm' [->|Hin]%elem_of_cons; [by apply H4|by apply H3].
  - intros t Ht. by apply H4, H2.
Qed.

Lemma mount_each_order pms s : (mount_each pms s).1.2 `sublist_of` (pm_target <$> pms).
Proof.
  revert s. induction pms as [|pm pms IH]; intros s; simpl; [constructor|].
  destruct (mount_one s pm) as [s1 [made|e]]; simpl; [|apply sublist_nil_l].
  specialize (IH s1). destruct (mount_each pms s1) as [[s2 ts] r]. simpl in *. destruct made; by constructor.
Qed.

(** Nothing is done for targets that are mounted already. *)
Lemma mount_each_idle pms s :
  (∀ pm, pm ∈ pms → is_mountpoint s (pm_target pm) = true) → mount_each pms s = (s, [], Ok ()).
Proof.
  induction pms as [|pm pms IH]; intros Hall; simpl; [done|].
  assert (Hpm : is_mountpoint s (pm_target pm) = true) by (apply Hall; left).
  unfold mount_one. rewrite (mountpoint_exists _ _ Hpm), Hpm. rewrite IH; [done|]. intros x Hx. apply Hall. by right.
Qed.

(** When early initialisation succeeds, all seven pseudo file systems are
    mounted, whatever was mounted before, and running it again does nothing.
    Mounts are made in the fixed order without repetition, so that /proc
    comes before everything that reads it. *)
Theorem pseudofs_mounted s :
  let '(s', ts, r) := mount_pseudofs s in
  (r = Ok () → (∀ pm, pm ∈ PSEUDO_MOUNTS → is_mountpoint s' (pm_target pm) = true) ∧
               mount_pseudofs s' = (s', [], Ok ())) ∧
  ts `sublist_of` (pm_target <$> PSEUDO_MOUNTS) ∧
  (r = Ok () → is_mountpoint s "/proc" = false → head ts = Some "/proc").
Proof.
  unfold mount_pseudofs. pose proof (mount_each_order PSEUDO_MOUNTS s) as Hord.
  destruct (mount_each PSEUDO_MOUNTS s) as [[s' ts] r] eqn:E. simpl in Hord.
  change PSEUDO_MOUNTS with ({| pm_source := "proc"; pm_target := "/proc"; pm_fstype := "proc"; pm_data := "" |}
    :: tail PSEUDO_MOUNTS) in E.
  set (proc := {| pm_source := "proc"; pm_target := "/proc"; pm_fstype := "proc"; pm_data := "" |}) in *.
  set (rest := tail PSEUDO_MOUNTS) in *. cbn [mount_each] in E.
  destruct (mount_one s proc) as [s1 [made|e]] eqn:E1; [|split_and!; [by simplify_eq|done|by simplify_eq]].
  destruct (mount_each rest s1) as [[s2 ts2] r2] eqn:E2.
  destruct (mount_one_ok _ _ _ _ E1 (or_introl eq_refl)) as [Hp Hk]. split_and!; [|done|].
  - intros ->. simplify_eq. destruct (mount_each_ok _ _ _ _ E2 Hp) as [H1 H2].
    assert (Hall : ∀ pm, pm ∈ PSEUDO_MOUNTS → is_mountpoint s' (pm_target pm) = true).
    { intros pm [->|Hin]%elem_of_cons; [by apply H2|by apply H1]. }
    split; [done|]. by apply mount_each_idle.
  - intros -> Hno. simplify_eq. destruct made; [done|]. exfalso. revert E1. unfold mount_one. simpl.
    destruct (os_exists s "/proc"); simpl.
    + rewrite Hno. by destruct (os_mount s proc) as [? []].
    + pose proof (mkdir_no_mount s "/proc" "/proc") as Hmk. destruct (os_create_dir_all s "/proc") as [sx [e|]]; [done|].
      simpl in Hmk. rewrite Hmk, Hno. by destruct (os_mount sx proc) as [? []].
Qed.
End init_theorems.

(** *** The reaper *)

(** What waitpid promises for non-blocking calls. [died] are the children that
    have died so far, in that order, [taken] those of them that were collected,
    by anybody; from one answer to the next more children may die and others
    may collect some. A reaped child is collected by the call that reports it,
    and when a call reports nothing to reap no dead child is left. *)
Class WaitLaws (S : Type) `{!WaitApi S} := {
  died : S → list N;
  taken : S → list N;
  taken_died s : taken s ⊆+ died s;
  wait_died s : died s `prefix_of` died (waitpid_any s).1;
  wait_taken s : ∃ others, taken (waitpid_any s).1 ≡ₚ
    match (waitpid_any s).2 with ReapedChild pid => [pid] | _ => [] end ++ others ++ taken s;
  wait_idle s : (waitpid_any s).2 = StillAlive ∨ (waitpid_any s).2 = NoChildren →
    taken (waitpid_any s).1 ≡ₚ died (waitpid_any s).1;
}.

(** C28: the reaper's loop ends after at most one call more than there are
    children to collect: those that were dead and uncollected when it started
    and those that die while it runs. However many calls it has made, what it
    reaped was dead and not collected before or by another; when it has ended,
    no dead child is left at that moment, or its last call of waitpid failed;
    and what it did is then final. (It takes every dead child of the process,
    also those the supervisor started and whose exit codes that then cannot
    read.) *)
Theorem reaper_terminates {S} `{WaitLaws S} s fuel :
  let '(s', pids, ended) := reap_loop fuel s in
  (length (died s') < length (taken s) + fuel → ended = true) ∧
  (∃ others, taken s' ≡ₚ pids ++ others ++ taken s) ∧ taken s' ⊆+ died s' ∧
  (ended = true →
   (taken s' ≡ₚ died s' ∨ ∃ t e, waitpid_any t = (s', WaitError e)) ∧
   ∀ more, reap_loop (fuel + more) s = (s', pids, true)).
Proof.
  revert s. induction fuel as [|fuel IH]; intros s.
  { simpl. pose proof (submseteq_length _ _ (taken_died s)). split_and!; [lia|by exists []|apply taken_died|done]. }
  assert (∀ s1 r, waitpid_any s = (s1, r) → (∀ pid, r ≠ ReapedChild pid) → (∃ others, taken s1 ≡ₚ others ++ taken s) ∧
    (taken s1 ≡ₚ died s1 ∨ ∃ t e, waitpid_any t = (s1, WaitError e))) as Hend.
  { intros s1 r E Hr. pose proof (wait_taken s) as Ht. pose proof (wait_idle s) as Hi. rewrite E in Ht, Hi. simpl in Ht, Hi.
    destruct r as [|pid| |e]; [auto|by destruct (Hr pid)|auto|]. split; [done|right]. by exists s, e. }
  simpl. pose proof (wait_taken s) as Ht. destruct (waitpid_any s) as [s1 r] eqn:E. destruct r as [|pid| |e].
  - destruct (Hend s1 StillAlive eq_refl ltac:(done)). split_and!; try done. apply taken_died.
  - clear Hend. specialize (IH s1). destruct (reap_loop fuel s1) as [[s2 pids] ended] eqn:E2.
    destruct IH as (Hl & [o2 Ho2] & Hs & He). destruct Ht as [o1 Ho1]. simpl in Ho1.
    assert (length (taken s1) = length ([pid] ++ o1 ++ taken s)) as Hlen by (by rewrite Ho1). rewrite !length_app in Hlen. simpl in Hlen.
    split_and!; [intros; apply Hl; lia| |done|].
    + exists (o2 ++ o1). rewrite Ho2, Ho1, <- !app_assoc. simpl. rewrite <- !Permutation_middle. done.
    + intros Hx. destruct (He Hx) as [Hz Hf]. split; [done|]. intros more. by rewrite Hf.
  - destruct (Hend s1 NoChildren eq_refl ltac:(done)). split_and!; try done. apply taken_died.
  - destruct (Hend s1 (WaitError e) eq_refl ltac:(done)). split_and!; try done. apply taken_died.
Qed.

(** *** The watchdog *)

(** Between two ticks the device never runs out. *)
Fixpoint never_fires (ticks : list (Z * bool)) (d : WatchdogDevice) : Prop :=
  match ticks with
  | [] => True
  | (now, ok) :: ticks' =>
      (∀ t, (dev_last_reset d <= t <= now)%Z → device_fires t d = false) ∧ never_fires ticks' (pet ok now d)
  end.
(** Ticks at most [gap] apart, the first at most [gap] after [from]. *)
Fixpoint ticks_within (gap from : Z) (ticks : list (Z * bool)) : Prop :=
  match ticks with
  | [] => True
  | (now, ok) :: ticks' => (from <= now <= from + gap)%Z ∧ ticks_within gap now ticks'
  end.

Lemma seconds_pos n : (0 < n)%N → (0 < seconds (Z.of_N n))%Z.
Proof. unfold seconds. lia. Qed.

(** A node is not rebooted during a long boot: for a device of at least two
    seconds the boot task resets it in time as long as each tick comes less
    than half the timeout late. At a timeout of one second the period is as
    long as the timeout, and a tick that is exactly on time comes too late. *)
Theorem boot_petter_in_time h d late ticks :
  dev_timeout_secs d = wd_timeout_secs h → Forall (λ t, t.2 = true) ticks →
  ticks_within (seconds (Z.of_N (petter_interval h)) + late) (dev_last_reset d) ticks →
  (0 <= late)%Z →
  ((2 <= wd_timeout_secs h)%N → (late < seconds (Z.of_N (wd_timeout_secs h - wd_timeout_secs h `div` 2)))%Z →
   never_fires ticks d) ∧
  (wd_timeout_secs h = 1%N → dev_armed d = true →
   device_fires (dev_last_reset d + seconds (Z.of_N (petter_interval h))) d = true).
Proof.
  intros Hd Hok Hw Hl. split.
  - intros H2 Hlate. assert (Hgap : (seconds (Z.of_N (petter_interval h)) + late < seconds (Z.of_N (wd_timeout_secs h)))%Z).
    { unfold petter_interval, seconds in *. pose proof (N.Div0.div_le_upper_bound (wd_timeout_secs h) 2 (wd_timeout_secs h)).
      pose proof (N.Div0.div_le_mono 2 (wd_timeout_secs h) 2 H2). rewrite N.div_same in * by done. lia. }
    clear Hlate H2. revert d Hd Hw. induction Hok as [|[now ok] ticks Ht Hok IH]; intros d Hd Hw; simpl in *; [done|].
    destruct Hw as [Hn Hw]. subst ok. split.
    + intros t Hb. unfold device_fires. rewrite Hd. apply andb_false_intro2, Z.leb_gt. lia.
    + apply IH; simpl; done.
  - intros H1 Ha. unfold device_fires, petter_interval. rewrite Ha, Hd, H1. apply Z.leb_le. unfold seconds. vm_compute (N.max _ _). lia.
Qed.

(** Setting a shorter timeout on the device does not reach the handle: the
    task still ticks at half the old timeout, and the node is rebooted when
    that is longer than the new one. *)
Lemma set_timeout_not_recorded h d now s :
  dev_armed d = true → (0 < s <= petter_interval h)%N →
  let d' := (set_timeout s true now d).1 in
  device_fires (now + seconds (Z.of_N (petter_interval h))) d' = true.
Proof. intros Ha Hs d'. unfold d', device_fires. simpl. rewrite Ha. apply Z.leb_le. unfold seconds. lia. Qed.

(** ** Witnesses *)

(** A kernel that remembers directories and mounts; a target has to be one
    word. *)
Record DemoKernel := { dk_dirs : list string; dk_mounts : list string }.
Definition demo_word (t : string) : bool := no_space t && negb (Str.is_empty t).
Definition demo_line (t : string) : string := "none " +:+ t.
#[export] Instance demo_os : InitOs DemoKernel :=
  {| os_exists s p := if decide (p = "/proc/self") then bool_decide ("/proc" ∈ dk_mounts s)
                      else bool_decide (p ∈ dk_dirs s ∨ p ∈ dk_mounts s);
     os_create_dir_all s p := ({| dk_dirs := p :: dk_dirs s; dk_mounts := dk_mounts s |}, None);
     os_mount s pm := if demo_word (pm_target pm) && negb (bool_decide (pm_target pm = "/proc/self"))
                      then ({| dk_dirs := dk_dirs s; dk_mounts := dk_mounts s ++ [pm_target pm] |}, None)
                      else (s, Some "EINVAL");
     os_proc_mounts s := if bool_decide ("/proc" ∈ dk_mounts s)
                         then Some (unlines (demo_line <$> filter (λ t, demo_word t = true ∧ t ≠ "/proc/self") (dk_mounts s)))
                         else None |}.

Lemma demo_lists l t :
  lists_target (unlines (demo_line <$> filter (λ t, demo_word t = true ∧ t ≠ "/proc/self") l)) t = true ↔
  t ∈ l ∧ demo_word t = true ∧ t ≠ "/proc/self".
Proof.
  assert (Hw : ∀ x, demo_word x = true → no_space x = true ∧ x ≠ "").
  { intros x [H1 H2]%andb_true_iff. split; [done|]. by intros ->. }
  unfold lists_target. rewrite str_lines_unlines.
  2:{ apply Forall_fmap, Forall_forall. intros x [[[Hx _]%Hw _] _]%list_elem_of_filter.
      apply (plain_line_append "none " x); [done|by apply no_space_plain]. }
  rewrite existsb_exists. setoid_rewrite <-list_elem_of_In. setoid_rewrite list_elem_of_fmap. split.
  - intros (line & (x & -> & [[Hx Hne] Hin]%list_elem_of_filter) & Hb). pose proof (Hw _ Hx) as [H1 H2].
    apply bool_decide_eq_true in Hb. unfold demo_line in Hb.
    change ("none " +:+ x) with ("none" +:+ String (Ascii.ascii_of_N 32) x) in Hb. rewrite split_whitespace_word, split_whitespace_last in Hb by done.
    by simplify_eq/=.
  - intros (Hin & Ht & Hne). pose proof (Hw _ Ht) as [H1 H2]. exists (demo_line t). split.
    + exists t. split; [done|]. by apply list_elem_of_filter.
    + apply bool_decide_eq_true. unfold demo_line. change ("none " +:+ t) with ("none" +:+ String (Ascii.ascii_of_N 32) t).
      by rewrite split_whitespace_word, split_whitespace_last.
Qed.
Lemma demo_mountpoint (s : DemoKernel) t :
  is_mountpoint s t = true ↔ "/proc" ∈ dk_mounts s ∧ t ∈ dk_mounts s ∧ demo_word t = true ∧ t ≠ "/proc/self".
Proof.
  unfold is_mountpoint. case_decide as Ht; simpl.
  - subst. rewrite bool_decide_eq_true. naive_solver.
  - case_bool_decide; simpl; [rewrite demo_lists; naive_solver|naive_solver].
Qed.
#[export] Instance demo_laws : InitLaws DemoKernel.
Proof.
  split.
  - intros s p t. apply Bool.eq_iff_eq_true. by rewrite !demo_mountpoint.
  - intros s pm s' t. simpl. destruct (demo_word (pm_target pm) && _); [|done]. intros [= <-].
    rewrite !demo_mountpoint. simpl. set_solver.
  - intros s pm s'. simpl. destruct (demo_word (pm_target pm) && _); [|done]. intros [= <-] Ht. simpl.
    rewrite bool_decide_eq_true, Ht. set_solver.
  - intros s pm s'. simpl. destruct (demo_word (pm_target pm)) eqn:Hw; simpl; [|done].
    case_bool_decide as Hne; simpl; [done|]. intros [= <-] Hp Ht. simpl. apply bool_decide_eq_true in Hp.
    rewrite bool_decide_eq_true_2 by set_solver. eexists. split; [done|]. apply demo_lists. split; [set_solver|done].
  - intros s t (_ & Ht & _ & Hne)%demo_mountpoint. simpl. rewrite decide_False by done.
    apply bool_decide_eq_true. by right.
Qed.

Lemma pseudofs_mounted_witness :
  let '(s', ts, r) := mount_pseudofs {| dk_dirs := ["/dev"]; dk_mounts := ["/dev"] |} in
  r = Ok () ∧ ts = ["/proc"; "/sys"; "/dev/pts"; "/dev/shm"; "/run"; "/tmp"] ∧ mount_pseudofs s' = (s', [], Ok ()).
Proof.
  pose proof (pseudofs_mounted {| dk_dirs := ["/dev"]; dk_mounts := ["/dev"] |}) as H.
  destruct (mount_pseudofs _) as [[s' ts] r] eqn:E.
  assert (Hr : r = Ok () ∧ ts = ["/proc"; "/sys"; "/dev/pts"; "/dev/shm"; "/run"; "/tmp"]).
  { vm_compute in E. injection E as _ <- <-. split; reflexivity. }
  destruct Hr as [-> ->]. split; [reflexivity|]. split; [reflexivity|]. apply H. reflexivity.
Defined.

(** The dead children collected, those that wait, and those that will have
    died before each of the next calls. *)
Record Nursery := { nu_taken : list N; nu_waiting : list N; nu_next : list (list N) }.
#[export] Instance demo_wait : WaitApi Nursery := λ n,
  match nu_waiting n ++ default [] (head (nu_next n)) with
  | [] => ({| nu_taken := nu_taken n; nu_waiting := []; nu_next := tail (nu_next n) |}, StillAlive)
  | p :: l => ({| nu_taken := nu_taken n ++ [p]; nu_waiting := l; nu_next := tail (nu_next n) |}, ReapedChild p)
  end.
#[export] Program Instance demo_wait_laws : WaitLaws Nursery :=
  {| died n := nu_taken n ++ nu_waiting n; taken := nu_taken |}.
Next Obligation. intros n. simpl. by apply submseteq_inserts_r. Qed.
Next Obligation.
  intros [t w nx]. unfold waitpid_any, demo_wait. simpl. exists (default [] (head nx)).
  destruct (w ++ default [] (head nx)) as [|p l] eqn:E; simpl.
  - apply app_nil in E as [-> ->]. by rewrite !app_nil_r.
  - rewrite <- !app_assoc. simpl. by rewrite E.
Qed.
Next Obligation.
  intros [t w nx]. unfold waitpid_any, demo_wait. simpl. exists []. destruct (w ++ _) as [|p l]; simpl; [done|]. by rewrite Permutation_app_comm.
Qed.
Next Obligation.
  intros [t w nx]. unfold waitpid_any, demo_wait. simpl. destruct (w ++ _) as [|p l]; simpl; [|naive_solver]. by rewrite app_nil_r.
Qed.

(** Two children wait, a third dies before the second call. *)
Lemma reaper_terminates_witness :
  (reap_loop 4 {| nu_taken := []; nu_waiting := [7; 9]%N; nu_next := [[]; [4%N]] |}).2 = true.
Proof.
  set (s := {| nu_taken := []; nu_waiting := [7; 9]%N; nu_next := [[]; [4%N]] |}).
  pose proof (reaper_terminates s 4) as H. destruct (reap_loop 4 s) as [[s' pids] ended] eqn:E.
  apply H. vm_compute in E. injection E as <- <- <-. vm_compute. lia.
Defined.

Lemma boot_petter_in_time_witness :
  let d := {| dev_timeout_secs := 60; dev_last_reset := 0; dev_armed := true |} in
  never_fires [(seconds 30, true); (seconds 65, true)] d.
Proof.
  intros d. apply (boot_petter_in_time {| wd_timeout_secs := 60 |} d (seconds 10)).
  - reflexivity.
  - repeat constructor.
  - simpl. unfold petter_interval, seconds. simpl. lia.
  - unfold seconds. lia.
  - simpl. lia.
  - vm_compute. reflexivity.
Defined.
