(* ===== verification/AgentStart.v ===== *)
(** * Start of the agent

    How an agent comes up: enrollment (crates/pact-agent/src/enrollment.rs)
    against the journal's handler, the sources of its workload identity
    (identity_cascade/), the connection to the journal (journal_client.rs) and
    the boot sequence that wires the subsystems (boot() of boot/mod.rs).
    Network connections, key generation, the clock and the SPIRE client are
    arguments. *)

From S2P Require Import Prelude Text Float64 Types JournalState JournalInvariants JournalProperties Raft.
From S2P Require Import ConfigService EnrollmentService.
From S2P Require Import BootStream Subscription CommitWindow Conflict Drift Supervisor CertRotation Agent Capability BootInit.
From stdpp Require Import options.

(** ** Configuration (pact-common/src/config.rs) *)

Record EnrollmentConfig := {
  ec_journal_endpoints : list string;
  ec_ca_cert : string;
  ec_cert_dir : string;
  ec_renewal_before_expiry_seconds : N;
}.
Record JournalConnectionConfig := {
  jn_endpoints : list string;
  jn_tls_enabled : bool;
  jn_tls_cert : option string;
  jn_tls_key : option string;
  jn_tls_ca : option string;
}.
(** The fields of [AgentConfig] the boot sequence reads. *)
Record AgentConfig := {
  ag_node_id : string;
  ag_vcluster : option string;
  ag_enforcement_mode : string;
  ag_backend : SupervisorBackend;
  ag_journal : JournalConnectionConfig;
  ag_commit_window : CommitWindowConfig;
  ag_blacklist : list string;
  ag_enrollment : option EnrollmentConfig;
}.

(** ** Enrollment (enrollment.rs) *)

Record EnrollmentOutcome := {
  eo_node_id : string;
  eo_domain_id : string;
  eo_vcluster_id : option string;
  eo_cert_pem : string;
  eo_ca_chain_pem : string;
  eo_cert_serial : string;
  eo_cert_expires_at : string;
  eo_key_pair_pem : string;
}.

Definition null_mac : string := "00:00:00:00:00:00".

(** The loop of [read_primary_mac]: an unreadable entry ends it with an
    error. *)
Fixpoint primary_mac `{Host} (entries : list (option string)) : option string :=
  match entries with
  | [] => None
  | None :: _ => None
  | Some name :: entries' =>
      if decide (name = "lo") then primary_mac entries'
      else match read_to_string ("/sys/class/net/" +:+ name +:+ "/address") with
           | Some text => let mac := Str.trim text in
                          if decide (mac = null_mac) then primary_mac entries' else Some mac
           | None => primary_mac entries'
           end
  end.
Definition read_primary_mac `{Host} : option string := read_dir "/sys/class/net" ≫= primary_mac.

Definition read_hardware_identity `{Host} : ProtoHardware :=
  {| ph_mac_address := default null_mac read_primary_mac;
     ph_bmc_serial := Str.trim (default "" (read_to_string "/sys/class/dmi/id/board_serial"));
     ph_extra := ∅ |}.

(** [connect_enrollment]: [ca_pem] is the trust anchor or the error of reading
    it, [net] the outcome of connecting to an address. *)
Fixpoint connect_enrollment_loop (net : string → ConnectOutcome) (endpoints : list string) : result string string :=
  match endpoints with
  | [] => Err "no reachable enrollment endpoint"
  | endpoint :: rest =>
      let uri := if Str.starts_with endpoint "http" then endpoint else "https://" +:+ endpoint in
      match net uri with
      | InvalidUri e => Err ("invalid endpoint: " +:+ e)
      | TlsConfigError e => Err ("TLS config error: " +:+ e)
      | Unreachable => connect_enrollment_loop net rest
      | Connected => Ok uri
      end
  end.
Definition connect_enrollment (config : EnrollmentConfig) (ca_pem : result string string) (net : string → ConnectOutcome)
    : result string string :=
  match ca_pem with
  | Err e => Err ("cannot read CA cert " +:+ ec_ca_cert config +:+ ": " +:+ e)
  | Ok _ => connect_enrollment_loop net (ec_journal_endpoints config)
  end.

Section enroll.
Context `{Chrono} `{Host} (sign_csr : SignCsr) (domain_id : string).

(** [EnrollmentManager::enroll]; [fault] is what becomes of the call to the
    journal's handler, and of a refusal the message is the error. *)
Definition agent_enroll (ctx : RequestCtx) (admitted : bool) (keygen : result (string * bytes) string)
    (ca_pem : result string string) (net : string → ConnectOutcome) (fault : CallFault) (config : EnrollmentConfig)
    : prog (result EnrollmentOutcome string) :=
  let hw_identity := read_hardware_identity in
  match keygen with
  | Err e => mret (Err e)
  | Ok (key_pem, csr) =>
      match connect_enrollment config ca_pem net with
      | Err e => mret (Err e)
      | Ok _ =>
          answer ← over_network fault (enroll sign_csr domain_id ctx admitted
                                         {| eq_hardware_identity := Some hw_identity; eq_csr := csr |});
          mret match answer with
               | Err st => Err (status_message st)
               | Ok r => Ok {| eo_node_id := es_node_id r; eo_domain_id := es_domain_id r;
                               eo_vcluster_id := if Str.is_empty (es_vcluster_id r) then None else Some (es_vcluster_id r);
                               eo_cert_pem := es_signed_cert r; eo_ca_chain_pem := es_ca_chain r;
                               eo_cert_serial := es_cert_serial r; eo_cert_expires_at := es_cert_expires_at r;
                               eo_key_pair_pem := key_pem |}
               end
      end
  end.
End enroll.

(** ** Identity sources (identity_cascade/) *)

Inductive IdentitySource := FromSpire | FromSelfSigned | FromBootstrap.
Record WorkloadIdentity := {
  wi_cert_chain_pem : string;
  wi_private_key_pem : string;
  wi_trust_bundle_pem : string;
  wi_expires_at : DateTime;
  wi_source : IdentitySource;
}.
Inductive IdentityError :=
| SpireUnavailable (reason : string) | CsrSigningFailed (reason : string) | BootstrapNotFound (path : string).

Inductive Provider :=
| SpireProvider (agent_socket : string)
| SelfSignedProvider (journal_endpoint : string) (cached_result : option EnrollmentOutcome)
| BootstrapProvider (cert_path key_path ca_path : string).

(** A source of X.509 identities of the SPIRE workload API: the default
    identity and the certificates of the authorities of a trust domain. *)
Record Svid := { sv_cert_chain : list bytes; sv_private_key : bytes; sv_trust_domain : string }.
Record X509Source := {
  xs_svid : result Svid string;
  xs_bundle_for_trust_domain : string → result (option (list bytes)) string;
}.

(** What the providers ask of the machine: files, with the text of the
    error, whether a path exists, the SPIRE workload API and base64. *)
Class IdentityEnv := {
  ie_read : string → result string string;
  ie_exists : string → bool;
  ie_spire : string → result X509Source string;
  ie_base64 : bytes → string;
}.

Definition hours (h : Z) : Z := seconds (3600 * h).

(** PEM text of DER bytes; [b64] is the standard base64 encoding, which
    is ASCII, so that the chunks are valid UTF-8. *)
Fixpoint chunks64 (fuel : nat) (s : string) : list string :=
  match fuel, s with
  | O, _ | _, EmptyString => []
  | S fuel', _ => String.substring 0 64 s :: chunks64 fuel' (String.substring 64 (String.length s - 64) s)
  end.
Definition der_to_pem (b64 : bytes → string) (der : bytes) (label : string) : string :=
  "-----BEGIN " +:+ label +:+ "-----" +:+ String newline EmptyString +:+
  unlines (chunks64 (String.length (b64 der)) (b64 der)) +:+
  "-----END " +:+ label +:+ "-----".

Definition certs_to_pem `{IdentityEnv} (certs : list bytes) : string :=
  Str.join (String newline EmptyString) (map (λ c, der_to_pem ie_base64 c "CERTIFICATE") certs).

(** Without the feature spire the provider is a stub. *)
Definition spire_get_identity `{IdentityEnv} (spire_feature : bool) (now : DateTime) (agent_socket : string)
    : result WorkloadIdentity IdentityError :=
  if spire_feature then
    let unavailable {A} (what : string) (r : result A string) : result A IdentityError :=
      match r with Ok x => Ok x | Err e => Err (SpireUnavailable (what +:+ e)) end in
    let? source := unavailable "failed to connect to SPIRE agent: " (ie_spire ("unix://" +:+ agent_socket)) in
    let? svid := unavailable "failed to get SVID: " (xs_svid source) in
    let td := sv_trust_domain svid in
    let? found := unavailable "failed to get trust bundle: " (xs_bundle_for_trust_domain source td) in
    let? bundle := ok_or found (SpireUnavailable ("no trust bundle for trust domain " +:+ td)) in
    Ok {| wi_cert_chain_pem := certs_to_pem (sv_cert_chain svid);
          wi_private_key_pem := der_to_pem ie_base64 (sv_private_key svid) "PRIVATE KEY";
          wi_trust_bundle_pem := certs_to_pem bundle;
          wi_expires_at := (now + hours 1)%Z; wi_source := FromSpire |}
  else Err (SpireUnavailable "SPIRE support not compiled in (enable 'spire' feature)").
Definition spire_is_available `{IdentityEnv} (spire_feature : bool) (agent_socket : string) : bool :=
  spire_feature && ie_exists agent_socket.

Definition self_signed_get_identity `{Chrono} (now : DateTime) (cached : option EnrollmentOutcome)
    : result WorkloadIdentity IdentityError :=
  match cached with
  | Some r =>
      Ok {| wi_cert_chain_pem := eo_cert_pem r; wi_private_key_pem := eo_key_pair_pem r;
            wi_trust_bundle_pem := eo_ca_chain_pem r;
            wi_expires_at := default (now + hours 72)%Z (parse_from_rfc3339 (eo_cert_expires_at r));
            wi_source := FromSelfSigned |}
  | None => Err (CsrSigningFailed "no cached enrollment result and live enrollment not yet implemented in cascade")
  end.
Definition self_signed_is_available (endpoint : string) (cached : option EnrollmentOutcome) : bool :=
  bool_decide (is_Some cached) || negb (Str.is_empty endpoint).

Definition bootstrap_get_identity `{IdentityEnv} (now : DateTime) (cert_path key_path ca_path : string)
    : result WorkloadIdentity IdentityError :=
  let read path := match ie_read path with Ok d => Ok d | Err e => Err (BootstrapNotFound (path +:+ ": " +:+ e)) end in
  let? cert := read cert_path in
  let? key := read key_path in
  let? ca := read ca_path in
  Ok {| wi_cert_chain_pem := cert; wi_private_key_pem := key; wi_trust_bundle_pem := ca;
        wi_expires_at := (now + hours 1)%Z; wi_source := FromBootstrap |}.
Definition bootstrap_is_available `{IdentityEnv} (cert_path key_path ca_path : string) : bool :=
  ie_exists cert_path && ie_exists key_path && ie_exists ca_path.

(** The trait [IdentityProvider] at each of its implementations. *)
Definition get_identity_of `{Chrono} `{IdentityEnv} (spire_feature : bool) (now : DateTime) (p : Provider)
    : result WorkloadIdentity IdentityError :=
  match p with
  | SpireProvider socket => spire_get_identity spire_feature now socket
  | SelfSignedProvider _ cached => self_signed_get_identity now cached
  | BootstrapProvider cert_path key_path ca_path => bootstrap_get_identity now cert_path key_path ca_path
  end.
Definition is_available_of `{IdentityEnv} (spire_feature : bool) (p : Provider) : bool :=
  match p with
  | SpireProvider socket => spire_is_available spire_feature socket
  | SelfSignedProvider endpoint cached => self_signed_is_available endpoint cached
  | BootstrapProvider cert_path key_path ca_path => bootstrap_is_available cert_path key_path ca_path
  end.

Definition build_cascade (spire_socket journal_endpoint bootstrap_cert bootstrap_key bootstrap_ca : option string)
    : list Provider :=
  match spire_socket with Some s => [SpireProvider s] | None => [] end ++
  match journal_endpoint with Some e => [SelfSignedProvider e None] | None => [] end ++
  match bootstrap_cert, bootstrap_key, bootstrap_ca with
  | Some c, Some k, Some a => [BootstrapProvider c k a]
  | _, _, _ => []
  end.

(** The providers the boot sequence configures. *)
Definition boot_cascade `{IdentityEnv} (config : AgentConfig) : list Provider :=
  let socket := "/run/spire/agent.sock" in
  let spire := if ie_exists socket then Some socket else None in
  match ag_enrollment config with
  | Some e => build_cascade spire (head (ec_journal_endpoints e)) (Some (ec_cert_dir e +:+ "/cert.pem"))
                (Some (ec_cert_dir e +:+ "/key.pem")) (Some (ec_ca_cert e))
  | None => build_cascade spire None None None None
  end.

(** ** The journal client (journal_client.rs) *)

Definition load_tls_config (read : string → result string string) (config : JournalConnectionConfig)
    : result (string * string * string) string :=
  let? ca_path := ok_or (jn_tls_ca config) "tls_enabled=true but tls_ca path is not set" in
  let? cert_path := ok_or (jn_tls_cert config) "tls_enabled=true but tls_cert path is not set" in
  let? key_path := ok_or (jn_tls_key config) "tls_enabled=true but tls_key path is not set" in
  let named what path := match read path with
                         | Ok d => Ok d
                         | Err e => Err ("cannot read " +:+ what +:+ " " +:+ path +:+ ": " +:+ e)
                         end in
  let? ca := named "CA cert" ca_path in
  let? cert := named "client cert" cert_path in
  let? key := named "client key" key_path in
  Ok (ca, cert, key).

Fixpoint connect_channel_loop (tls : bool) (net : string → ConnectOutcome) (all endpoints : list string)
    : result string string :=
  match endpoints with
  | [] => Err ("no reachable journal endpoint (tried " +:+ Str.join ", " all +:+ ")")
  | endpoint :: rest =>
      let uri := if Str.starts_with endpoint "http" then endpoint
                 else if tls then "https://" +:+ endpoint else "http://" +:+ endpoint in
      match net uri with
      | InvalidUri e => Err ("invalid endpoint " +:+ uri +:+ ": " +:+ e)
      | TlsConfigError e => if tls then Err ("TLS config error for " +:+ uri +:+ ": " +:+ e)
                            else connect_channel_loop tls net all rest
      | Unreachable => connect_channel_loop tls net all rest
      | Connected => Ok uri
      end
  end.
Definition connect_channel (tls : bool) (net : string → ConnectOutcome) (endpoints : list string) : result string string :=
  connect_channel_loop tls net endpoints endpoints.
(** [JournalClient::connect]: the address of the channel. *)
Definition journal_connect (read : string → result string string) (net : string → ConnectOutcome)
    (config : JournalConnectionConfig) : result string string :=
  if jn_tls_enabled config then
    let? _ := load_tls_config read config in connect_channel true net (jn_endpoints config)
  else connect_channel false net (jn_endpoints config).
Definition try_connect (read : string → result string string) (net : string → ConnectOutcome)
    (config : JournalConnectionConfig) : option string :=
  match journal_connect read net config with Ok u => Some u | Err _ => None end.

(** ** The boot sequence (boot() of boot/mod.rs) *)

(** What boot() does to the machine, in order. *)
Inductive BootEffect :=
| MountedPseudofs (targets : list string)
| ConsoleCalls (calls : list FdCall)
| SpawnedReaper
| WroteOomScore
| CreatedCgroupHierarchy
| OpenedWatchdog (timeout_secs : N)
| SpawnedBootPetter (interval_secs : N)
| WroteManifest (report : CapabilityReport)
| AppliedDelta (calls : list SysCall)
| SpawnedRollbackTimer
| WroteReadiness (content : string).

(** What the machine answers, in the order of the questions. *)
Record BootEnv (K : Type) := {
  be_is_pid1 : bool;
  be_kernel : K;
  be_console_exists : bool;
  be_console_open : result Z string;
  be_reaper : bool;
  be_watchdog_exists : bool;
  be_watchdog_open : result () OpenError;
  be_watchdog_timeout : result Z string;
  be_clock : DateTime;
  be_uuid : string;
  be_boot_config : option (result (list (result ConfigChunk string)) string);
}.
Arguments be_is_pid1 {_} _.
Arguments be_kernel {_} _.
Arguments be_console_exists {_} _.
Arguments be_console_open {_} _.
Arguments be_reaper {_} _.
Arguments be_watchdog_exists {_} _.
Arguments be_watchdog_open {_} _.
Arguments be_watchdog_timeout {_} _.
Arguments be_clock {_} _.
Arguments be_uuid {_} _.
Arguments be_boot_config {_} _.

Record BootResult := {
  bt_supervisor : SupervisorBackend * option PactSupervisor;
  bt_drift_evaluator : DriftEvaluator;
  bt_commit_window : Window.CommitWindowManager;
  bt_emergency : Emergency.EmergencyManager;
  bt_conflict_manager : ConflictManager;
  bt_config_state : ConfigState;
  bt_enforcement_mode : string;
  bt_cached_policy : option VClusterPolicy;
  bt_watchdog : option WatchdogHandle;
  bt_boot_petter : bool;
  bt_zombie_reaper : bool;
}.

Section boot.
Context {K : Type} `{!InitOs K} `{!Host} `{!Zstd} (delta_of_json : bytes → option StateDelta).

(** Early initialisation, only as the first process. *)
Definition boot_early (env : BootEnv K) : list BootEffect * result bool string :=
  if be_is_pid1 env then
    let '(_, targets, r) := mount_pseudofs (be_kernel env) in
    match r with
    | Err e => ([MountedPseudofs targets], Err ("PID 1 early init failed: mount_pseudofs: " +:+ e))
    | Ok _ =>
        let '(calls, _) := setup_console (be_console_exists env) (be_console_open env) in
        ([MountedPseudofs targets; ConsoleCalls calls] ++ (if be_reaper env then [SpawnedReaper] else []), Ok (be_reaper env))
    end
  else ([], Ok false).

(** Phase 0: only with the pact supervisor. *)
Definition boot_hardware (config : AgentConfig) (env : BootEnv K) : list BootEffect * option WatchdogHandle :=
  match ag_backend config with
  | Systemd => ([], None)
  | Pact =>
      let wd := if be_is_pid1 env then
                  match watchdog_open (be_watchdog_exists env) (be_watchdog_open env) (be_watchdog_timeout env) with
                  | Ok o => o
                  | Err _ => None
                  end
                else None in
      ([WroteOomScore; CreatedCgroupHierarchy] ++
       match wd with Some h => [OpenedWatchdog (wd_timeout_secs h); SpawnedBootPetter (petter_interval h)] | None => [] end, wd)
  end.

(** Phase 7: a configuration that cannot be fetched or read is skipped. *)
Definition boot_config_calls (env : BootEnv K) : list BootEffect :=
  match be_boot_config env with
  | None => []
  | Some answer =>
      match agent_stream_boot_config answer with
      | Err _ => []
      | Ok d => if bool_decide (bd_overlay_data d = []) then []
                else match delta_of_json (bd_overlay_data d) with
                     | Some delta => [AppliedDelta (apply_state_delta delta)]
                     | None => []
                     end
      end
  end.

(** [PactSupervisor::new().with_cgroup_manager(..)]. *)
Definition with_cgroups : PactSupervisor :=
  {| processes := processes supervisor_new; service_decls := service_decls supervisor_new;
     shutdown_grace_seconds := shutdown_grace_seconds supervisor_new; cgroup_manager := true |}.

(** The identity obtained from the cascade is only logged, and failures of
    the writes to /run are ignored. *)
Definition boot (config : AgentConfig) (env : BootEnv K) : list BootEffect * result BootResult string :=
  let '(early, r) := boot_early env in
  match r with
  | Err e => (early, Err e)
  | Ok reaper =>
      let '(hardware, watchdog) := boot_hardware config env in
      match report (be_clock env) (be_uuid env) (with_gpu_only (ag_node_id config) (Ok [])) with
      | Err e => (early ++ hardware, Err e)
      | Ok rep =>
          (early ++ hardware ++ [WroteManifest rep] ++ boot_config_calls env ++
             [SpawnedRollbackTimer; WroteReadiness (ag_node_id config)],
           Ok {| bt_supervisor := (ag_backend config, match ag_backend config with
                                                      | Pact => Some with_cgroups
                                                      | Systemd => None
                                                      end);
                 bt_drift_evaluator := drift_new (ag_blacklist config) drift_weights_default;
                 bt_commit_window := Window.window_new (ag_commit_window config);
                 bt_emergency := Emergency.emergency_new (cw_emergency_window_seconds (ag_commit_window config));
                 bt_conflict_manager := conflict_new (cw_base_window_seconds (ag_commit_window config));
                 bt_config_state := ObserveOnly;
                 bt_enforcement_mode := ag_enforcement_mode config;
                 bt_cached_policy := None;
                 bt_watchdog := watchdog;
                 bt_boot_petter := bool_decide (is_Some watchdog);
                 bt_zombie_reaper := reaper |})
      end
  end.
End boot.

(** ** Theorems *)

Section boot_theorems.
Context {K : Type} `{!InitOs K} `{!Host} `{!Zstd} (delta_of_json : bytes → option StateDelta).

Lemma last_two {A} (l1 l2 l3 : list A) (x y z : A) : last (l1 ++ l2 ++ x :: l3 ++ [y; z]) = Some z.
Proof. rewrite (app_assoc l1), last_app, last_cons, last_app. done. Qed.

(** C19: The boot sequence fails exactly on a first process whose pseudo file
    systems cannot be mounted; no missing journal, identity, watchdog or
    console stops it. When it succeeds the node is observe-only with fresh
    subsystems, the last effect is the readiness file, the watchdog is open
    only for a first process under the pact supervisor, and whenever it is
    open the boot task feeds it. *)
Theorem boot_outcome config env :
  let '(effects, r) := boot delta_of_json config env in
  (is_ok r = false ↔ be_is_pid1 env = true ∧ is_ok (mount_pseudofs (be_kernel env)).2 = false) ∧
  (∀ b, r = Ok b →
     last effects = Some (WroteReadiness (ag_node_id config)) ∧
     bt_config_state b = ObserveOnly ∧ bt_cached_policy b = None ∧
     Window.win_state (bt_commit_window b) = Window.Idle ∧ Emergency.is_active (bt_emergency b) = false ∧
     paused_keys (bt_conflict_manager b) = [] ∧
     (∀ h, bt_watchdog b = Some h →
        be_is_pid1 env = true ∧ ag_backend config = Pact ∧ (1 <= wd_timeout_secs h)%N ∧
        SpawnedBootPetter (petter_interval h) ∈ effects)).
Proof.
  unfold boot, boot_early. destruct (be_is_pid1 env) eqn:Hp.
  2:{ simpl. destruct (boot_hardware config env) as [hw wd] eqn:Eh. simpl.
      split; [split; [done|by intros [? _]]|]. intros b [= <-]. simpl.
      split_and!; try done; [exact (last_two [] hw _ _ _ _)|]. intros h ->.
      unfold boot_hardware in Eh. rewrite Hp in Eh. destruct (ag_backend config); by simplify_eq. }
  destruct (mount_pseudofs (be_kernel env)) as [[k targets] r]. destruct r as [u|e]; simpl.
  2:{ split; [split; done|done]. }
  destruct (setup_console _ _) as [calls cr]. simpl. destruct (boot_hardware config env) as [hw wd] eqn:Eh. simpl.
  split; [split; [done|by intros [_ ?]]|]. intros b [= <-]. simpl.
  split_and!; try done; [apply (last_two (MountedPseudofs targets :: ConsoleCalls calls :: (if be_reaper env then [SpawnedReaper] else [])) hw)|]. intros h ->. unfold boot_hardware in Eh. rewrite Hp in Eh.
  destruct (ag_backend config); [|by simplify_eq]. injection Eh as Ehw Ewd.
  destruct (watchdog_open _ _ _) as [o|] eqn:Eo; [|done]. subst o. simpl in Ehw.
  split_and!; [done|done| |].
  - unfold watchdog_open in Eo. repeat case_match; simplify_eq. simpl. lia.
  - rewrite <-Ehw. simpl. set_solver.
Qed.

(** The delta a node has of its own is received but never applied at boot:
    the system calls depend on the overlay only. *)
Lemma node_delta_ignored (env : BootEnv K) answer d :
  be_boot_config env = Some answer → agent_stream_boot_config answer = Ok d →
  boot_config_calls delta_of_json env =
    match bd_overlay_data d, delta_of_json (bd_overlay_data d) with
    | _ :: _, Some delta => [AppliedDelta (apply_state_delta delta)]
    | _, _ => []
    end.
Proof.
  intros He H1. unfold boot_config_calls. rewrite He, H1. case_bool_decide as Hb; [by rewrite Hb|].
  by destruct (bd_overlay_data d).
Qed.
End boot_theorems.

Section enroll_theorems.
Context `{Chrono} `{Host} (sign_csr : SignCsr) (domain_id : string).

(** The record of an enrolled node once its certificate is stored. *)
Definition enrolled_record (e : NodeEnrollment) (cert : SignedCert) (now : DateTime) : NodeEnrollment :=
  enr_with e Active (enr_vcluster_id e) (Some (sc_cert_serial cert)) (parse_from_rfc3339 (sc_cert_expires_at cert)) (Some now).

(** The calls of an agent: nothing, or the journal's handler. *)
Lemma agent_enroll_runs ctx admitted keygen ca_pem net fault config h s s' r tr :
  runs_in h s (agent_enroll sign_csr domain_id ctx admitted keygen ca_pem net fault config) s' r tr →
  (is_ok r = false ∧ tr = []) ∨
  ∃ key csr h1 log s1 a, keygen = Ok (key, csr) ∧ h = h1 ++ others log ∧
    runs_in h1 s (enroll sign_csr domain_id ctx admitted
      {| eq_hardware_identity := Some read_hardware_identity; eq_csr := csr |}) s1 a tr ∧ s' = apply_log log s1 ∧
    match r with
    | Ok o => fault = Delivered ∧ ∃ resp, a = Ok resp ∧ eo_key_pair_pem o = key ∧ eo_node_id o = es_node_id resp ∧
        eo_cert_pem o = es_signed_cert resp ∧ eo_cert_serial o = es_cert_serial resp ∧ eo_cert_expires_at o = es_cert_expires_at resp ∧
        eo_vcluster_id o = (if Str.is_empty (es_vcluster_id resp) then None else Some (es_vcluster_id resp))
    | Err _ => (∃ st, fault = ReplyLost st) ∨ is_ok a = false
    end.
Proof.
  unfold agent_enroll. destruct keygen as [[key csr]|e]; [|intros (-> & -> & _)%runs_in_ret_inv; by left].
  destruct (connect_enrollment config ca_pem net); [|intros (-> & -> & _)%runs_in_ret_inv; by left].
  intros (h1 & h2 & s1 & answer & tr1 & tr2 & H1 & H2 & -> & ->)%runs_in_bind_inv.
  pose proof (runs_in_state _ _ _ _ _ _ H2) as Hs'. apply runs_in_ret_inv in H2 as (-> & -> & log & ->).
  rewrite commands_others in Hs'. rewrite app_nil_r. destruct fault as [|st|st].
  - right. exists key, csr, h1, log, s1, answer. split_and!; try done. destruct answer as [resp|st]; [|by right]. split; [done|].
    by exists resp.
  - apply runs_in_ret_inv in H1 as (-> & -> & _). by left.
  - apply runs_in_bind_inv in H1 as (h3 & h4 & s3 & ans & tr3 & tr4 & H3 & H4 & -> & ->).
    pose proof (runs_in_state _ _ _ _ _ _ H4) as Hs1. apply runs_in_ret_inv in H4 as (-> & -> & log' & ->).
    rewrite commands_others in Hs1. right. exists key, csr, h3, (log' ++ log), s3, ans. rewrite app_nil_r.
    split; [done|]. split; [unfold others; by rewrite fmap_app, app_assoc|]. split; [done|].
    split; [by rewrite Hs', Hs1, apply_log_app|]. left. by eexists.
Qed.

(** C6: An agent that reports a successful enrollment and the journal agree,
    whatever else is applied meanwhile: the node it was told is the one the
    journal had its hardware registered as, the journal had activated exactly
    that node before, with the vCluster it was told, and the certificate,
    serial and expiry are those the authority signed for it. The own writes
    concern that node only, and the last of them stores the agent's serial,
    unless that write failed, which the handler ignores: when nothing
    interferes and no write fails, the journal ends with the node active under
    this serial and every other node as it was. When the enrollment fails, a
    node was activated for it only if the signature was refused, the answer
    was lost, or Raft reported a failure of the activation. *)
Theorem agent_enrollment_consistent ctx admitted keygen ca_pem net fault config h s s' r tr :
  hw_wf s →
  runs_in h s (agent_enroll sign_csr domain_id ctx admitted keygen ca_pem net fault config) s' r tr →
  match r with
  | Ok o => ∃ key csr log log1 t expires e cert h2 ev tr', let node := eo_node_id o in let s1 := apply_log (log ++ log1) s in
      let upd := UpdateNodeCert node (eo_cert_serial o) (eo_cert_expires_at o) in
      keygen = Ok (key, csr) ∧ eo_key_pair_pem o = key ∧
      hw_index (apply_log log s) !! hw_canonical_key (proto_hw_to_domain read_hardware_identity) = Some node ∧
      h = others (log ++ log1) ++ Applied t (ActivateNode node (rq_uuid ctx 0) expires) :: h2 ∧
      enrollments s1 !! node = Some e ∧ (enr_state e = Registered ∨ enr_state e = Inactive) ∧
      eo_vcluster_id o = match enr_vcluster_id e with Some v => if Str.is_empty v then None else Some v | None => None end ∧
      sign_csr csr node domain_id = Ok cert ∧ eo_cert_pem o = sc_cert_pem cert ∧
      eo_cert_serial o = sc_cert_serial cert ∧ eo_cert_expires_at o = sc_cert_expires_at cert ∧
      tr = ev :: tr' ∧ ev_cmd ev = ActivateNode node (rq_uuid ctx 0) expires ∧
      Forall (λ ev, ev_cmd ev = upd ∨ ∃ op, ev_cmd ev = RecordOperation op) tr' ∧
      ((∃ t', Applied t' upd ∈ h2) ∨ Missed upd ∈ h2) ∧
      (undisturbed h → ∃ t', enrollments s' = <[node := enrolled_record e cert t']> (enrollments s))
  | Err _ => Forall harmless tr ∨ (∃ st, fault = ReplyLost st) ∨
      ∃ key csr node why, keygen = Ok (key, csr) ∧ sign_csr csr node domain_id = Err why
  end.
Proof.
  intros Hwf Hr. destruct (agent_enroll_runs _ _ _ _ _ _ _ _ _ _ _ _ Hr) as [[Hf ->]|(key & csr & h1 & log & s1 & a & -> & -> & He & -> & Hres)].
  { destruct r; [done|]. left. constructor. }
  destruct (enroll_shape sign_csr domain_id _ _ _ _ _ _ _ _ Hwf He)
    as [(Hf & _ & Hh)|(hw & node & l0 & l1 & t & expires & e & h2 & tr2 & _ & [= <-] & Hix & -> & -> & Hn & Hst & _ & Happ & Hs)].
  { destruct r as [o|]; [|by left]. destruct Hres as (_ & resp & -> & _). done. }
  destruct (enroll_sign_shape sign_csr domain_id _ _ _ _ _ _ _ _ _ Hs) as (l2 & h3 & -> & _ & Hsign). simpl in Hsign.
  destruct r as [o|err]; last first.
  { right. destruct Hres as [?|Ha]; [by left|]. right. exists key, csr, node.
    destruct (sign_csr csr node domain_id) as [cert|why]; [|by exists why]. by destruct Hsign as (-> & _). }
  destruct Hres as (_ & resp & -> & Hkey & Hnode & Hpem & Hser & Hexp & Hvc).
  destruct (sign_csr csr node domain_id) as [cert|why] eqn:Hcert; [|by destruct Hsign].
  destruct Hsign as ([= ->] & Hall & l3 & o1 & l4 & o2 & l5 & op & -> & Ho1 & Ho2). simpl in *.
  eexists key, csr, l0, l1, t, expires, e, cert, _, _, tr2. rewrite Hnode, Hser, Hexp.
  split_and!; try done.
  - by rewrite <- app_assoc.
  - rewrite Hvc. by destruct (enr_vcluster_id e) as [v|].
  - destruct Ho1 as [[t' ->]| ->]; [left; exists t'|right]; set_solver.
  - intros Hund. repeat (rewrite <- app_assoc in Hund; simpl in Hund).
    apply undisturbed_others in Hund as [[-> ->]%app_eq_nil [_ Hund]%undisturbed_cons].
    apply undisturbed_others in Hund as [-> [_ Hund]%undisturbed_cons].
    apply undisturbed_others in Hund as [-> [Hu1 Hund]%undisturbed_cons].
    apply undisturbed_others in Hund as [-> [Hu2 Hund]%undisturbed_cons].
    apply undisturbed_others in Hund as [-> Hund]. rewrite <- (app_nil_r (others log)) in Hund.
    apply undisturbed_others in Hund as [-> _].
    destruct Ho1 as [[t1 ->]|Hm]; [|by apply Hu1 in Hm]. destruct Ho2 as [[t2 ->]|Hm]; [|by apply Hu2 in Hm]. exists t1.
    rewrite (runs_in_state _ _ _ _ _ _ He). simpl. simpl in Happ. rewrite Happ. simpl.
    unfold apply_update_cert, update_enrollment. simpl. rewrite lookup_insert_eq. simpl.
    unfold apply_record_operation. rewrite insert_insert_eq. by repeat case_match.
Qed.
End enroll_theorems.

(** *** Identity *)

(** The documented strategy of a cascade: the first provider that is
    available and delivers. *)
Fixpoint first_identity `{Chrono} `{IdentityEnv} (spire_feature : bool) (now : DateTime) (ps : list Provider)
    : option WorkloadIdentity :=
  match ps with
  | [] => None
  | p :: ps' =>
      match (if is_available_of spire_feature p then get_identity_of spire_feature now p else Err (SpireUnavailable "")) with
      | Ok i => Some i
      | Err _ => first_identity spire_feature now ps'
      end
  end.

(** An identity read from the bootstrap files of the configuration. *)
Definition from_bootstrap_files `{IdentityEnv} (config : AgentConfig) (i : WorkloadIdentity) : Prop :=
  wi_source i = FromBootstrap ∧ ∃ e, ag_enrollment config = Some e ∧
    ie_read (ec_cert_dir e +:+ "/cert.pem") = Ok (wi_cert_chain_pem i) ∧
    ie_read (ec_cert_dir e +:+ "/key.pem") = Ok (wi_private_key_pem i) ∧
    ie_read (ec_ca_cert e) = Ok (wi_trust_bundle_pem i).

(** At boot no identity ever comes from the journal: the self-signed
    provider of the cascade has no enrollment result and always fails, though
    it reports itself available. An identity comes from SPIRE, when it is
    compiled in and its socket exists, or else from the three bootstrap
    files, and it is good for one hour. *)
Theorem boot_identity_source `{Chrono} `{IdentityEnv} spire_feature now config :
  (∀ i, first_identity spire_feature now (boot_cascade config) = Some i →
     wi_expires_at i = (now + hours 1)%Z ∧
     (wi_source i = FromSpire ∧ spire_feature = true ∧ ie_exists "/run/spire/agent.sock" = true ∨
      from_bootstrap_files config i)) ∧
  (∀ endpoint, endpoint ≠ "" → is_available_of spire_feature (SelfSignedProvider endpoint None) = true ∧
     ∃ why, get_identity_of spire_feature now (SelfSignedProvider endpoint None) = Err why).
Proof.
  split.
  2:{ intros endpoint He. simpl. split; [|eauto]. by destruct endpoint. }
  set (good := λ i, wi_expires_at i = (now + hours 1)%Z ∧
     (wi_source i = FromSpire ∧ spire_feature = true ∧ ie_exists "/run/spire/agent.sock" = true ∨
      from_bootstrap_files config i)).
  assert (Hcons : ∀ p ps, (∀ i, is_available_of spire_feature p = true → get_identity_of spire_feature now p = Ok i → good i) →
    (∀ i, first_identity spire_feature now ps = Some i → good i) →
    ∀ i, first_identity spire_feature now (p :: ps) = Some i → good i).
  { intros p ps Hp Hps i. cbn [first_identity]. destruct (is_available_of spire_feature p); [|apply Hps].
    destruct (get_identity_of spire_feature now p) as [j|]; [|apply Hps]. intros [= <-]. by apply Hp. }
  assert (Hspire : ∀ ps, (∀ i, first_identity spire_feature now ps = Some i → good i) → ∀ i,
    first_identity spire_feature now (match (if ie_exists "/run/spire/agent.sock" then Some "/run/spire/agent.sock" else None) with
       | Some s => [SpireProvider s] | None => [] end ++ ps) = Some i → good i).
  { intros ps Hps. destruct (ie_exists "/run/spire/agent.sock") eqn:Hs; [|done]. apply Hcons; [|done].
    intros i [Hf _]%andb_true_iff. simpl. unfold spire_get_identity. rewrite Hf.
    destruct (ie_spire _) as [src|]; simpl; [|done]. destruct (xs_svid src) as [sv|]; simpl; [|done].
    destruct (xs_bundle_for_trust_domain _ _) as [[b|]|]; simpl; [|done..]. intros [= <-]. split; [done|]. by left. }
  unfold boot_cascade, build_cascade. destruct (ag_enrollment config) as [e|] eqn:He; apply Hspire; [|done].
  assert (Hb : ∀ i, first_identity spire_feature now
      [BootstrapProvider (ec_cert_dir e +:+ "/cert.pem") (ec_cert_dir e +:+ "/key.pem") (ec_ca_cert e)] = Some i → good i).
  { apply Hcons; [|done]. intros i _. simpl. unfold bootstrap_get_identity. destruct (ie_read (_ +:+ "/cert.pem")) eqn:H1; simpl; [|done].
    destruct (ie_read (_ +:+ "/key.pem")) eqn:H2; simpl; [|done]. destruct (ie_read (ec_ca_cert e)) eqn:H3; simpl; [|done].
    intros [= <-]. split; [done|]. right. split; [done|]. by exists e. }
  destruct (head (ec_journal_endpoints e)) as [ep|]; [|exact Hb]. by apply Hcons.
Qed.

(** ** Witnesses *)

Module StartSample.
Export EnrollSample.
(** A host whose second interface has the address of the registered node. *)
Definition host : Host :=
  {| host_arch := "x86_64";
     read_to_string p := if decide (p = "/sys/class/net/eth0/address") then Some null_mac
                         else if decide (p = "/sys/class/net/hsn0/address") then Some "aa " else None;
     read_dir p := if decide (p = "/sys/class/net") then Some [Some "lo"; Some "eth0"; Some "hsn0"] else None;
     path_exists p := false; read_link p := None; file_system_stat p := None;
     run_tool t args := Err ToolNotFound; run_tool_2s t args := None |}.
Definition config : EnrollmentConfig :=
  {| ec_journal_endpoints := ["j1:9443"; "j2:9443"]; ec_ca_cert := "/etc/pact/ca.pem"; ec_cert_dir := "/var/lib/pact/certs";
     ec_renewal_before_expiry_seconds := 43200 |}.
Definition net (uri : string) : ConnectOutcome := if decide (uri = "https://j2:9443") then Connected else Unreachable.
Definition call := @agent_enroll JournalSample.chrono host sign "site" ctx true (Ok ("key", [])) (Ok "ca") net Delivered config.
Definition result_ := run 5 call registered.1.
Definition agent : AgentConfig :=
  {| ag_node_id := "n1"; ag_vcluster := None; ag_enforcement_mode := "observe"; ag_backend := Pact;
     ag_journal := {| jn_endpoints := []; jn_tls_enabled := false; jn_tls_cert := None; jn_tls_key := None; jn_tls_ca := None |};
     ag_commit_window := commit_window_config_default; ag_blacklist := default_blacklist_patterns; ag_enrollment := Some config |}.
Definition env : BootEnv DemoKernel :=
  {| be_is_pid1 := true; be_kernel := {| dk_dirs := []; dk_mounts := [] |}; be_console_exists := true; be_console_open := Ok 7%Z;
     be_reaper := true; be_watchdog_exists := true; be_watchdog_open := Ok tt; be_watchdog_timeout := Ok 60%Z; be_clock := 0;
     be_uuid := "u"; be_boot_config := None |}.
End StartSample.

Lemma agent_enrollment_consistent_witness :
  match StartSample.result_.2 with
  | Ok o => eo_node_id o = "n1" ∧ ∃ s1 e, enrollments s1 !! "n1" = Some e ∧ (enr_state e = Registered ∨ enr_state e = Inactive)
  | Err _ => False
  end.
Proof.
  destruct (@run_runs JournalSample.chrono _ 5 StartSample.call EnrollSample.registered.1) as [tr [h Hr]]. fold StartSample.result_ in Hr.
  pose proof (@agent_enrollment_consistent JournalSample.chrono StartSample.host EnrollSample.sign "site" EnrollSample.ctx true
    (Ok ("key", [])) (Ok "ca") StartSample.net Delivered StartSample.config h EnrollSample.registered.1 StartSample.result_.1
    StartSample.result_.2 tr EnrollSample.registered_hw Hr) as H.
  destruct StartSample.result_.2 as [o|e] eqn:E.
  - assert (Hn : eo_node_id o = "n1") by (vm_compute in E; injection E as <-; reflexivity).
    split; [exact Hn|]. destruct H as (key & csr & log & log1 & t & expires & e & cert & h2 & ev & tr' & _ & _ & _ & _ & He & Hst & _).
    rewrite Hn in He. eexists _, e. split; [exact He|exact Hst].
  - vm_compute in E. discriminate.
Defined.

Example boot_as_init :
  (@boot DemoKernel _ StartSample.host BootSample.zstd (λ _, None) StartSample.agent StartSample.env).1 =
    [MountedPseudofs ["/proc"; "/sys"; "/dev"; "/dev/pts"; "/dev/shm"; "/run"; "/tmp"];
     ConsoleCalls [Dup2 7 0; Dup2 7 1; Dup2 7 2; CloseFd 7]; SpawnedReaper; WroteOomScore; CreatedCgroupHierarchy;
     OpenedWatchdog 60; SpawnedBootPetter 30;
     WroteManifest (default {| cr_node_id := ""; cr_timestamp := 0; cr_report_id := ""; cr_cpu := cpu_capability_default;
       cr_gpus := []; cr_memory := memory_capability_default; cr_network := []; cr_storage := storage_fallback;
       cr_software := @detect_software StartSample.host; cr_config_state := ObserveOnly; cr_drift_summary := None;
       cr_emergency := None; cr_supervisor_status := {| ss_backend := Pact; ss_services_declared := 0;
         ss_services_running := 0; ss_services_failed := 0 |} |}
       (match @report StartSample.host 0 "u" (with_gpu_only "n1" (Ok [])) with Ok r => Some r | Err _ => None end));
     SpawnedRollbackTimer; WroteReadiness "n1"].
Proof. vm_compute. reflexivity. Qed.
