(* ===== verification/NodeSetup.v ===== *)
(** * Services under systemd, control groups and interfaces

    The parts of the agent that set a node up through files and tools:
    supervisor/systemd_backend.rs (services delegated to systemctl),
    isolation/linux.rs with isolation/stub.rs (control groups) and
    network/linux.rs with network/stub.rs (interfaces through the tool ip).
    Tools and file operations are functions from a state to a new state and an
    outcome; the definitions also give the calls they make. *)

From S2P Require Import Prelude Text Types Supervisor Capability.
From stdpp Require Import options.
From Stdlib Require Import Ascii.

(** ** The systemd backend *)

Module Systemd.

Definition line (s : string) : string := s +:+ String newline EmptyString.

Definition restart_text (p : RestartPolicy) : string :=
  match p with Always => "always" | OnFailure => "on-failure" | Never => "no" end.
Definition exec_start (s : ServiceDecl) : string :=
  svc_binary s +:+ (if bool_decide (svc_args s = []) then "" else " " +:+ Str.join " " (svc_args s)).

(** The unit file: [format!] and the optional limits. *)
Definition generate_unit (s : ServiceDecl) : string :=
  unlines ["[Unit]"; "Description=pact-managed: " +:+ svc_name s; "After=network.target"; ""; "[Service]"; "Type=simple";
           "ExecStart=" +:+ exec_start s; "Restart=" +:+ restart_text (svc_restart s);
           "RestartSec=" +:+ pretty (svc_restart_delay_seconds s)] +:+
  match svc_cgroup_memory_max s with Some m => line ("MemoryMax=" +:+ m) | None => "" end +:+
  match svc_cgroup_cpu_weight s with Some w => line ("CPUWeight=" +:+ pretty w) | None => "" end +:+
  unlines [""; "[Install]"; "WantedBy=multi-user.target"].

Section systemctl.
(** [exec]: running systemctl with arguments; its error is that of starting
    the program. *)
Context {W : Type} (exec : list string → W → W * result ToolOutput string).

Definition systemctl (args : list string) (w : W) : W * result string string :=
  match exec args w with
  | (w', Err e) => (w', Err e)
  | (w', Ok out) => (w', if to_success out then Ok (to_stdout out)
                         else Err ("systemctl " +:+ Str.join " " args +:+ " failed: " +:+ Str.trim (to_stderr out)))
  end.

Definition unit_name (s : ServiceDecl) : string := "pact-" +:+ svc_name s +:+ ".service".
Definition unit_call (verb : string) (s : ServiceDecl) (w : W) : W * result () string :=
  match systemctl [verb; unit_name s] w with (w', Ok _) => (w', Ok ()) | (w', Err e) => (w', Err e) end.
Definition systemd_start (s : ServiceDecl) : W → W * result () string := unit_call "start" s.
Definition systemd_stop (s : ServiceDecl) : W → W * result () string := unit_call "stop" s.
Definition systemd_restart (s : ServiceDecl) : W → W * result () string := unit_call "restart" s.

Definition systemd_status (s : ServiceDecl) (w : W) : W * ServiceStatus :=
  let '(w', r) := systemctl ["is-active"; unit_name s] w in
  let output := match r with Ok o => o | Err _ => "" end in
  let st := if decide (Str.trim output = "active") then Running
            else if decide (Str.trim output = "failed") then Failed else Stopped in
  (w', {| st_name := svc_name s; st_state := st; st_pid := None; st_restarts := 0; st_last_exit_code := None |}).
Definition systemd_health (s : ServiceDecl) (w : W) : W * HealthCheckResult :=
  let '(w', st) := systemd_status s w in
  (w', {| healthy := bool_decide (st_state st = Running);
          hc_detail := "systemd state: " +:+ debug_service_state (st_state st) |}).

(** The loop of [start_all] over the sorted services, with the services
    asked to start. *)
Fixpoint systemd_start_each (l : list ServiceDecl) (w : W) : W * list ServiceDecl * result () string :=
  match l with
  | [] => (w, [], Ok ())
  | s :: l' =>
      match systemd_start s w with
      | (w', Err e) => (w', [s], Err e)
      | (w', Ok _) => let '(w'', started, r) := systemd_start_each l' w' in (w'', s :: started, r)
      end
  end.
Definition systemd_start_all (services : list ServiceDecl) (w : W) : W * list ServiceDecl * result () string :=
  systemd_start_each (sorted_services services) w.
Definition systemd_stop_all (services : list ServiceDecl) (w : W) : W :=
  foldl (λ w s, (systemd_stop s w).1) w (reverse (sorted_services services)).

End systemctl.
End Systemd.

(** ** Control groups *)

Module Cgroups.

Inductive SliceOwner := OwnerPact | OwnerOther (name : string).
#[export] Instance SliceOwner_eq_dec : EqDecision SliceOwner.
Proof. solve_decision. Defined.
Inductive CgroupError :=
| CreationFailed (reason : string)
| CgPermissionDenied (path : string) (owner : SliceOwner)
| CgNotFound (path : string)
| KillFailed (path reason : string)
| CgIo (e : string).
Record CgroupLimits := { lim_memory_max : option N; lim_cpu_weight : option N; lim_io_max : option N }.
Record CgroupMetrics := { cm_memory_current : N; cm_memory_max : option N; cm_cpu_usage_usec : N; cm_nr_processes : N }.

(** The slices and their owners are those of the library hpc-node. *)
Class HpcSlices := { pact_slices : list string; workload_root : string; slice_owner : string → option SliceOwner }.

(** File operations below the control group file system. *)
Inductive CgOp := CgMkdir (path : string) | CgWrite (path value : string) | CgRmdir (path : string) | CgSigkill (pid : Z).
Class CgFs (W : Type) := {
  cg_exists : W → string → bool;
  cg_do : W → CgOp → W * option string;
  cg_read : W → string → result string string;
}.

Section cgroups.
Context {W : Type} `{!CgFs W} `{!HpcSlices} (root : string).

(** [root.join(path)] for a relative path. *)
Definition full_path (cgroup_path : string) : string := root +:+ "/" +:+ cgroup_path.

Definition ensure_dir (path : string) (w : W) : W * result () CgroupError :=
  if cg_exists w path then (w, Ok ())
  else match cg_do w (CgMkdir path) with
       | (w', None) => (w', Ok ())
       | (w', Some e) => (w', Err (CreationFailed ("mkdir " +:+ path +:+ ": " +:+ e)))
       end.
Definition write_control (path file value : string) (w : W) : W * result () CgroupError :=
  let file_path := path +:+ "/" +:+ file in
  match cg_do w (CgWrite file_path value) with
  | (w', None) => (w', Ok ())
  | (w', Some e) => (w', Err (CreationFailed ("write " +:+ file_path +:+ ": " +:+ e)))
  end.
Definition enable_controllers (path : string) (w : W) : W * result () CgroupError :=
  let control_file := path +:+ "/cgroup.subtree_control" in
  if cg_exists w control_file then
    match cg_do w (CgWrite control_file "+memory +cpu +io +pids") with
    | (w', None) => (w', Ok ())
    | (w', Some e) => (w', Err (CreationFailed ("enable controllers at " +:+ control_file +:+ ": " +:+ e)))
    end
  else (w, Ok ()).

(** [f().and_then(g)] on the threaded state. *)
Definition andThen {A B} (r : W * result A CgroupError) (k : W → W * result B CgroupError) : W * result B CgroupError :=
  match r with (w, Ok _) => k w | (w, Err e) => (w, Err e) end.

Fixpoint create_slices (slices : list string) (w : W) : W * result () CgroupError :=
  match slices with
  | [] => (w, Ok ())
  | s :: rest => andThen (ensure_dir (full_path s) w) (λ w, andThen (enable_controllers (full_path s) w) (create_slices rest))
  end.
Definition create_hierarchy (w : W) : W * result () CgroupError :=
  andThen (enable_controllers root w) (create_slices (pact_slices ++ [workload_root])).

(** The limits that are set, as control file and value. *)
Definition limit_writes (l : CgroupLimits) : list (string * string) :=
  match lim_memory_max l with Some m => [("memory.max", pretty m)] | None => [] end ++
  match lim_cpu_weight l with Some c => [("cpu.weight", pretty c)] | None => [] end ++
  match lim_io_max l with Some i => [("io.max", "default rbps=" +:+ pretty i)] | None => [] end.
Fixpoint write_limits (path : string) (ws : list (string * string)) (w : W) : W * result () CgroupError :=
  match ws with
  | [] => (w, Ok ())
  | (file, value) :: ws' => andThen (write_control path file value w) (write_limits path ws')
  end.

(** The handle is the path of the scope below the root. *)
Definition create_scope (parent_slice name : string) (limits : CgroupLimits) (w : W) : W * result string CgroupError :=
  match slice_owner parent_slice with
  | Some (OwnerOther _ as owner) => (w, Err (CgPermissionDenied parent_slice owner))
  | _ =>
    let scope_path := parent_slice +:+ "/" +:+ name +:+ ".scope" in
    andThen (ensure_dir (full_path scope_path) w) (λ w,
    andThen (write_limits (full_path scope_path) (limit_writes limits) w) (λ w, (w, Ok scope_path)))
  end.

(** Every process of the group is killed; failures are ignored. *)
Definition kill_pids (content : string) (w : W) : W :=
  foldl (λ w l, match parse_signed 31 (Str.trim l) with Some pid => (cg_do w (CgSigkill pid)).1 | None => w end) w (str_lines content).
Definition kill_processes_fallback (path : string) (w : W) : W * result () CgroupError :=
  match cg_read w (path +:+ "/cgroup.procs") with
  | Err e => (w, Err (CgIo e))
  | Ok content => (kill_pids content w, Ok ())
  end.
Definition destroy_scope (handle : string) (w : W) : W * result () CgroupError :=
  let full := full_path handle in
  if cg_exists w full then
    let kill_file := full +:+ "/cgroup.kill" in
    let killed := if cg_exists w kill_file then
                    match cg_do w (CgWrite kill_file "1") with
                    | (w', None) => (w', Ok ())
                    | (w', Some _) => kill_processes_fallback full w'
                    end
                  else kill_processes_fallback full w in
    andThen killed (λ w,
      match cg_do w (CgRmdir full) with
      | (w', None) => (w', Ok ())
      | (w', Some e) => (w', Err (KillFailed handle ("rmdir failed after kill: " +:+ e)))
      end)
  else (w, Ok ()).

Definition read_number (w : W) (path file : string) : option N :=
  match cg_read w (path +:+ "/" +:+ file) with Ok s => Str.parse_unsigned u64_max (Str.trim s) | Err _ => None end.
Definition cpu_usage (stat : string) : option N :=
  '(_, l) ← list_find (λ l, Str.starts_with l "usage_usec" = true) (str_lines stat);
  v ← split_whitespace l !! 1; Str.parse_unsigned u64_max v.
Definition read_metrics (path : string) (w : W) : result CgroupMetrics CgroupError :=
  let full := full_path path in
  if cg_exists w full then
    Ok {| cm_memory_current := default 0%N (read_number w full "memory.current");
          cm_memory_max := match cg_read w (full +:+ "/memory.max") with
                           | Ok s => if decide (Str.trim s = "max") then None else Str.parse_unsigned u64_max (Str.trim s)
                           | Err _ => None
                           end;
          cm_cpu_usage_usec := match cg_read w (full +:+ "/cpu.stat") with Ok s => default 0%N (cpu_usage s) | Err _ => 0%N end;
          cm_nr_processes := match cg_read w (full +:+ "/cgroup.procs") with
                             | Ok s => N.min (N.of_nat (length (filter (λ l, Str.is_empty l = false) (str_lines s)))) u32_max
                             | Err _ => 0%N
                             end |}
  else Err (CgNotFound path).
Definition is_scope_empty (handle : string) (w : W) : bool :=
  let full := full_path handle in
  if cg_exists w full then
    Str.is_empty (Str.trim (match cg_read w (full +:+ "/cgroup.procs") with Ok s => s | Err _ => "" end))
  else true.
End cgroups.

(** The stub for other platforms keeps the set of its scopes. *)
Definition stub_create_scope (parent_slice name : string) (scopes : gset string) : gset string * string :=
  let path := parent_slice +:+ "/" +:+ name +:+ ".scope" in ({[ path ]} ∪ scopes, path).
Definition stub_destroy_scope (handle : string) (scopes : gset string) : gset string := scopes ∖ {[ handle ]}.
Definition stub_is_scope_empty (handle : string) (scopes : gset string) : bool := negb (bool_decide (handle ∈ scopes)).

End Cgroups.

(** ** Interfaces *)

Module NetSetup.

Record InterfaceConfig := { ic_name : string; ic_address : option string; ic_gateway : option string; ic_mtu : option N }.
Record InterfaceState := { is_name : string; is_up : bool; is_address : option string; is_mtu : option N }.

Section ip.
(** [ip]: running the tool with arguments, and whether it succeeded. *)
Context {W : Type} (ip : list string → W → W * bool).

Definition set_mtu (name : string) (mtu : N) : W → W * bool := ip ["link"; "set"; name; "mtu"; pretty mtu].
Definition link_up (name : string) : W → W * bool := ip ["link"; "set"; name; "up"].
(** Old addresses are flushed first, whatever comes of it. *)
Definition add_address (name address : string) (w : W) : W * bool :=
  ip ["addr"; "add"; address; "dev"; name] (ip ["addr"; "flush"; "dev"; name] w).1.
Definition add_default_route (gateway : string) : W → W * bool := ip ["route"; "replace"; "default"; "via"; gateway].

Definition configure_one (c : InterfaceConfig) (w : W) : W * InterfaceState :=
  let '(w1, mtu_ok) := match ic_mtu c with Some m => set_mtu (ic_name c) m w | None => (w, true) end in
  if mtu_ok then
    let '(w2, addr_ok) := match ic_address c with Some a => add_address (ic_name c) a w1 | None => (w1, true) end in
    if addr_ok then
      let '(w3, up) := link_up (ic_name c) w2 in
      let w4 := match up, ic_gateway c with true, Some gw => (add_default_route gw w3).1 | _, _ => w3 end in
      (w4, {| is_name := ic_name c; is_up := up; is_address := ic_address c; is_mtu := ic_mtu c |})
    else (w2, {| is_name := ic_name c; is_up := false; is_address := None; is_mtu := ic_mtu c |})
  else (w1, {| is_name := ic_name c; is_up := false; is_address := None; is_mtu := None |}).
Fixpoint configure (cs : list InterfaceConfig) (w : W) : W * list InterfaceState :=
  match cs with
  | [] => (w, [])
  | c :: cs' => let '(w1, st) := configure_one c w in let '(w2, sts) := configure cs' w1 in (w2, st :: sts)
  end.
End ip.

(** The manager of systemd mode and of other platforms. *)
Definition stub_configure (cs : list InterfaceConfig) : list InterfaceState :=
  (λ c, {| is_name := ic_name c; is_up := true; is_address := ic_address c; is_mtu := ic_mtu c |}) <$> cs.

End NetSetup.

(** ** Theorems *)

(** *** systemd *)

Section systemd_theorems.
Context {W : Type} (exec : list string → W → W * result ToolOutput string).

(** What systemctl documents for is-active: the exit code is zero exactly for
    an active unit. *)
Hypothesis is_active_exit : ∀ unit w w' out,
  exec ["is-active"; unit] w = (w', Ok out) → (to_success out = true ↔ Str.trim (to_stdout out) = "active").
#[local] Set Default Proof Using "Type*".

(** Under systemd a failed service is reported as stopped, never as
    failed: the exit code of the query turns its answer into an error, and
    the state is Running exactly when the unit is active. *)
Theorem systemd_never_reports_failed s w :
  let st := st_state (Systemd.systemd_status exec s w).2 in
  st ≠ Failed ∧
  (st = Running ↔ ∃ w' out, exec ["is-active"; Systemd.unit_name s] w = (w', Ok out) ∧ Str.trim (to_stdout out) = "active").
Proof.
  unfold Systemd.systemd_status, Systemd.systemctl.
  destruct (exec ["is-active"; Systemd.unit_name s] w) as [w' [out|e]] eqn:E; simpl.
  - pose proof (is_active_exit _ _ _ _ E) as Ha. destruct (to_success out) eqn:Hs; simpl.
    + rewrite decide_True by by apply Ha. simpl. split; [done|]. split; [|done]. intros _. exists w', out. split; [done|]. by apply Ha.
    + split; [done|]. split; [done|]. intros (w2 & out2 & [= -> ->] & Hx). apply Ha in Hx. congruence.
  - split; [done|]. split; [done|]. by intros (? & ? & ? & ?).
Qed.
End systemd_theorems.

(** The value of a key: the rest of the first line that starts with it. *)
Definition unit_value (key unit_text : string) : option string :=
  head (omap (Str.strip_prefix (key +:+ "=")) (str_lines unit_text)).
(** A declaration whose texts are single lines. *)
Definition decl_plain (s : ServiceDecl) : Prop :=
  plain_line (svc_name s) ∧ plain_line (Systemd.exec_start s) ∧
  match svc_cgroup_memory_max s with Some m => plain_line m | None => True end.
#[export] Instance decl_plain_dec s : Decision (decl_plain s).
Proof. unfold decl_plain. destruct (svc_cgroup_memory_max s); apply _. Defined.

Lemma unit_lines s :
  decl_plain s →
  str_lines (Systemd.generate_unit s) =
    ["[Unit]"; "Description=pact-managed: " +:+ svc_name s; "After=network.target"; ""; "[Service]"; "Type=simple";
     "ExecStart=" +:+ Systemd.exec_start s; "Restart=" +:+ Systemd.restart_text (svc_restart s);
     "RestartSec=" +:+ pretty (svc_restart_delay_seconds s)] ++
    match svc_cgroup_memory_max s with Some m => ["MemoryMax=" +:+ m] | None => [] end ++
    match svc_cgroup_cpu_weight s with Some w => ["CPUWeight=" +:+ pretty w] | None => [] end ++
    [""; "[Install]"; "WantedBy=multi-user.target"].
Proof.
  intros (Hn & He & Hm). unfold Systemd.generate_unit.
  assert (match svc_cgroup_memory_max s with Some m => Systemd.line ("MemoryMax=" +:+ m) | None => "" end =
    unlines match svc_cgroup_memory_max s with Some m => ["MemoryMax=" +:+ m] | None => [] end) as ->
    by by destruct (svc_cgroup_memory_max s).
  assert (match svc_cgroup_cpu_weight s with Some w => Systemd.line ("CPUWeight=" +:+ pretty w) | None => "" end =
    unlines match svc_cgroup_cpu_weight s with Some w => ["CPUWeight=" +:+ pretty w] | None => [] end) as ->
    by by destruct (svc_cgroup_cpu_weight s).
  rewrite <-!unlines_app. rewrite str_lines_unlines; [done|].
  rewrite !Forall_app. split_and!.
  - assert (plain_line (Systemd.restart_text (svc_restart s))) by by destruct (svc_restart s).
    repeat (apply Forall_cons; split); [..|by apply Forall_nil]; try done;
      apply plain_line_append; auto using no_space_plain with pact; done.
  - destruct (svc_cgroup_memory_max s); [|done]. apply Forall_singleton. by apply plain_line_append.
  - destruct (svc_cgroup_cpu_weight s); [|done].
    apply Forall_singleton. apply plain_line_append; auto using no_space_plain with pact; done.
  - by repeat constructor.
Qed.

(** The generated unit file says what the declaration says: command line,
    restart policy and delay are read back from it, and the limits are there
    exactly when they were declared. *)
Theorem unit_roundtrip s :
  decl_plain s →
  unit_value "ExecStart" (Systemd.generate_unit s) = Some (Systemd.exec_start s) ∧
  unit_value "Restart" (Systemd.generate_unit s) = Some (Systemd.restart_text (svc_restart s)) ∧
  unit_value "RestartSec" (Systemd.generate_unit s) = Some (pretty (svc_restart_delay_seconds s)) ∧
  unit_value "MemoryMax" (Systemd.generate_unit s) = svc_cgroup_memory_max s ∧
  unit_value "CPUWeight" (Systemd.generate_unit s) = pretty <$> svc_cgroup_cpu_weight s.
Proof.
  intros Hp. unfold unit_value. rewrite unit_lines by done.
  by split_and!; destruct (svc_cgroup_memory_max s), (svc_cgroup_cpu_weight s).
Qed.

Lemma unit_roundtrip_witness :
  let s := {| svc_name := "chronyd"; svc_binary := "/usr/sbin/chronyd"; svc_args := ["-d"; "-F"]; svc_restart := OnFailure;
              svc_restart_delay_seconds := 5; svc_depends_on := []; svc_order := 1; svc_cgroup_memory_max := Some "64M";
              svc_cgroup_slice := None; svc_cgroup_cpu_weight := None; svc_health_check := None |} in
  decl_plain s ∧ unit_value "ExecStart" (Systemd.generate_unit s) = Some "/usr/sbin/chronyd -d -F" ∧
  unit_value "CPUWeight" (Systemd.generate_unit s) = None.
Proof.
  intros s. assert (H : decl_plain s) by (apply (bool_decide_unpack _); vm_compute; exact I).
  destruct (unit_roundtrip s H) as (H1 & _ & _ & _ & H5). split; [exact H|]. split; [exact H1|exact H5].
Defined.

(** A systemctl that knows one active unit. *)
Definition demo_systemctl (args : list string) (w : ()) : () * result ToolOutput string :=
  let active := bool_decide (args = ["is-active"; "pact-ntp.service"]) in
  (w, Ok {| to_success := active; to_status := ""; to_stdout := if active then "active " else "failed "; to_stderr := "" |}).
Lemma systemd_never_reports_failed_witness :
  st_state (Systemd.systemd_status demo_systemctl SupervisorSample.log ()).2 = Stopped.
Proof.
  destruct (systemd_never_reports_failed demo_systemctl) with (s := SupervisorSample.log) (w := tt) as [H1 _].
  - intros unit w w' out [= <- <-]. simpl. case_bool_decide; vm_compute; split; congruence.
  - vm_compute in H1 |- *. reflexivity.
Defined.

(** systemd services are started by ascending order number and the loop
    stops at the first refusal: the services asked form a prefix of the
    sorted list, all of it when the outcome is success, and one past the last
    success otherwise. *)
Theorem systemd_start_all_ordered {W} (exec : list string → W → W * result ToolOutput string) services w :
  let '(w', asked, r) := Systemd.systemd_start_all exec services w in
  StronglySorted order_le asked ∧
  ∃ rest, sorted_services services = asked ++ rest ∧
    (is_ok r = true → rest = [] ∧ asked ≡ₚ services) ∧ (is_ok r = false → asked ≠ []).
Proof.
  assert (Hgo : ∀ l w, let '(w', asked, r) := Systemd.systemd_start_each exec l w in
    ∃ rest, l = asked ++ rest ∧ (is_ok r = true → rest = []) ∧ (is_ok r = false → asked ≠ [])).
  { induction l as [|s l IH]; intros w0; simpl; [by exists []|].
    destruct (Systemd.systemd_start exec s w0) as [w1 [u|e]]; simpl.
    - specialize (IH w1). destruct (Systemd.systemd_start_each exec l w1) as [[w2 asked] r].
      destruct IH as (rest & -> & H1 & H2). exists rest. by split_and!.
    - by exists l. }
  unfold Systemd.systemd_start_all. specialize (Hgo (sorted_services services) w).
  destruct (Systemd.systemd_start_each exec (sorted_services services) w) as [[w' asked] r].
  destruct Hgo as (rest & Hl & H1 & H2). pose proof (sorted_services_sorted services) as Hs. rewrite Hl in Hs. split.
  - clear -Hs. induction asked as [|x asked IH]; [constructor|]. inversion Hs as [|? ? Hs' Hf]; subst. constructor; [by apply IH|].
    by apply Forall_app in Hf as [? _].
  - exists rest. split_and!; [done| |done]. intros Hr. rewrite (H1 Hr) in *. split; [done|].
    rewrite app_nil_r in Hl. rewrite <-Hl. apply sorted_services_perm.
Qed.

(** *** Control groups *)

(** A file system that records the operations; what exists and what fails is
    given. *)
#[local] Instance log_fs (exists_ : string → bool) (fails : Cgroups.CgOp → option string)
    (read : string → result string string) : Cgroups.CgFs (list Cgroups.CgOp) :=
  {| Cgroups.cg_exists _ p := exists_ p; Cgroups.cg_do l op := (l ++ [op], fails op); Cgroups.cg_read _ p := read p |}.

Section cgroup_theorems.
Context `{!Cgroups.HpcSlices} (root : string) (exists_ : string → bool) (fails : Cgroups.CgOp → option string)
  (read : string → result string string).
#[local] Existing Instance log_fs.
#[local] Instance this_fs : Cgroups.CgFs (list Cgroups.CgOp) := log_fs exists_ fails read.

(** The operations that set a scope up. *)
Definition scope_ops (parent name : string) (limits : Cgroups.CgroupLimits) : list Cgroups.CgOp :=
  let full := Cgroups.full_path root (parent +:+ "/" +:+ name +:+ ".scope") in
  (if exists_ full then [] else [Cgroups.CgMkdir full]) ++
  ((λ fv, Cgroups.CgWrite (full +:+ "/" +:+ fv.1) fv.2) <$> Cgroups.limit_writes limits).

(** Operations in order up to the first failure. *)
Fixpoint do_all (ops l : list Cgroups.CgOp) : list Cgroups.CgOp * bool :=
  match ops with
  | [] => (l, true)
  | op :: ops' => match fails op with None => do_all ops' (l ++ [op]) | Some _ => (l ++ [op], false) end
  end.
Lemma do_all_spec ops l :
  let '(l', ok) := do_all ops l in
  (∃ done_, l' = l ++ done_ ∧ done_ `prefix_of` ops ∧ (ok = true → done_ = ops)) ∧
  (ok = true ↔ ∀ op, op ∈ ops → fails op = None).
Proof.
  revert l. induction ops as [|op ops IH]; intros l; simpl.
  { split; [exists []; by rewrite app_nil_r|]. split; [by intros _ ? ?%not_elem_of_nil|done]. }
  destruct (fails op) as [e|] eqn:Hf.
  - split; [exists [op]; split_and!; [done|by apply prefix_cons, prefix_nil|done]|].
    split; [done|]. intros Hall. specialize (Hall op ltac:(left)). congruence.
  - specialize (IH (l ++ [op])). destruct (do_all ops (l ++ [op])) as [l' ok].
    destruct IH as [(d & -> & Hp & Hd) Hok]. split.
    + exists (op :: d). rewrite <-app_assoc. split_and!; [done|by apply prefix_cons|intros Hy; by rewrite Hd].
    + rewrite Hok. split; [intros Hall x [->|Hx]%elem_of_cons; auto|]. intros Hall x Hx. apply Hall. by right.
Qed.
Lemma write_limits_do_all path ws l :
  (Cgroups.write_limits path ws l).1 = (do_all ((λ fv, Cgroups.CgWrite (path +:+ "/" +:+ fv.1) fv.2) <$> ws) l).1 ∧
  is_ok (Cgroups.write_limits path ws l).2 = (do_all ((λ fv, Cgroups.CgWrite (path +:+ "/" +:+ fv.1) fv.2) <$> ws) l).2.
Proof.
  revert l. induction ws as [|[f v] ws IH]; intros l; csimpl; [done|].
  unfold Cgroups.andThen, Cgroups.write_control. simpl. destruct (fails _) as [e|]; simpl; [done|apply IH].
Qed.
Lemma create_scope_do_all parent name limits :
  (∀ o, Cgroups.slice_owner parent ≠ Some (Cgroups.OwnerOther o)) →
  let '(ops, r) := Cgroups.create_scope root parent name limits [] in
  ops = (do_all (scope_ops parent name limits) []).1 ∧ is_ok r = (do_all (scope_ops parent name limits) []).2 ∧
  (is_ok r = true → r = Ok (parent +:+ "/" +:+ name +:+ ".scope")).
Proof.
  intros Hown.
  assert (Hgo : ∀ l, let '(ops, r) := Cgroups.andThen (Cgroups.write_limits
      (Cgroups.full_path root (parent +:+ "/" +:+ name +:+ ".scope")) (Cgroups.limit_writes limits) l)
      (λ w, (w, Ok (parent +:+ "/" +:+ name +:+ ".scope"))) in
    ops = (do_all ((λ fv, Cgroups.CgWrite (Cgroups.full_path root (parent +:+ "/" +:+ name +:+ ".scope") +:+ "/" +:+ fv.1) fv.2)
                     <$> Cgroups.limit_writes limits) l).1 ∧
    is_ok r = (do_all ((λ fv, Cgroups.CgWrite (Cgroups.full_path root (parent +:+ "/" +:+ name +:+ ".scope") +:+ "/" +:+ fv.1) fv.2)
                     <$> Cgroups.limit_writes limits) l).2 ∧
    (is_ok r = true → r = Ok (parent +:+ "/" +:+ name +:+ ".scope"))).
  { intros l. destruct (write_limits_do_all (Cgroups.full_path root (parent +:+ "/" +:+ name +:+ ".scope"))
      (Cgroups.limit_writes limits) l) as [<- <-].
    destruct (Cgroups.write_limits _ _ l) as [l' [u|e]]; done. }
  unfold Cgroups.create_scope, scope_ops. cbv zeta.
  destruct (Cgroups.slice_owner parent) as [[|o]|]; [|by destruct (Hown o)|];
    unfold Cgroups.andThen at 1, Cgroups.ensure_dir; simpl;
    (destruct (exists_ _); [apply Hgo|]; simpl; destruct (fails _); simpl; [done|apply Hgo]).
Qed.

(** A scope is created in slices of other owners never and without
    touching a file; otherwise the operations are exactly the directory and
    the declared limits in order, up to the first failure. A failure leaves
    the directory behind: nothing is removed. *)
Theorem create_scope_ops parent name limits :
  let '(ops, r) := Cgroups.create_scope root parent name limits [] in
  (∀ o, Cgroups.slice_owner parent = Some (Cgroups.OwnerOther o) → ops = [] ∧ is_ok r = false) ∧
  ((∀ o, Cgroups.slice_owner parent ≠ Some (Cgroups.OwnerOther o)) →
     ops `prefix_of` scope_ops parent name limits ∧
     (is_ok r = true ↔ ∀ op, op ∈ scope_ops parent name limits → fails op = None) ∧
     (is_ok r = true → ops = scope_ops parent name limits ∧ r = Ok (parent +:+ "/" +:+ name +:+ ".scope"))).
Proof.
  pose proof (create_scope_do_all parent name limits) as Hc.
  destruct (Cgroups.create_scope root parent name limits []) as [ops r] eqn:E. split.
  - intros o Ho. unfold Cgroups.create_scope in E. rewrite Ho in E. by simplify_eq.
  - intros Hown. destruct (Hc Hown) as (Ho & Hr & Hok).
    pose proof (do_all_spec (scope_ops parent name limits) []) as Hd.
    destruct (do_all (scope_ops parent name limits) []) as [l ok]. simpl in *. subst ops.
    destruct Hd as [(d & -> & Hp & Hd) Hall]. rewrite Hr. split_and!; [done|done|].
    intros ->. split; [by apply Hd|]. by apply Hok.
Qed.
End cgroup_theorems.

(** *** Interfaces *)

(** The commands an interface needs, in order. *)
Definition interface_commands (c : NetSetup.InterfaceConfig) : list (list string) :=
  match NetSetup.ic_mtu c with Some m => [["link"; "set"; NetSetup.ic_name c; "mtu"; pretty m]] | None => [] end ++
  match NetSetup.ic_address c with
  | Some a => [["addr"; "flush"; "dev"; NetSetup.ic_name c]; ["addr"; "add"; a; "dev"; NetSetup.ic_name c]]
  | None => []
  end ++ [["link"; "set"; NetSetup.ic_name c; "up"]] ++
  match NetSetup.ic_gateway c with Some g => [["route"; "replace"; "default"; "via"; g]] | None => [] end.
(** The tool recorded, with the commands it refuses. *)
Definition log_ip (refuses : list string → bool) (cmd : list string) (l : list (list string)) : list (list string) * bool :=
  (l ++ [cmd], negb (refuses cmd)).

(** Every interface of the overlay is reported once and in order. It is
    reported up exactly when its MTU, its address and the link itself were
    accepted; then the commands were the MTU, the address after a flush, the
    link and last the route, and one interface's failure never keeps the
    others from being configured. *)
Theorem interfaces_configured refuses cs l :
  NetSetup.is_name <$> (NetSetup.configure (log_ip refuses) cs l).2 = NetSetup.ic_name <$> cs ∧
  (∀ i c st, cs !! i = Some c → (NetSetup.configure (log_ip refuses) cs l).2 !! i = Some st →
     ∃ l0 l1, NetSetup.configure_one (log_ip refuses) c l0 = (l1, st) ∧ l1 `prefix_of` (NetSetup.configure (log_ip refuses) cs l).1) ∧
  (∀ c l0, let '(l1, st) := NetSetup.configure_one (log_ip refuses) c l0 in
     (∃ done_, l1 = l0 ++ done_ ∧ done_ `prefix_of` interface_commands c ∧ (NetSetup.is_up st = true → done_ = interface_commands c)) ∧
     (NetSetup.is_up st = true ↔
        (∀ m, NetSetup.ic_mtu c = Some m → refuses ["link"; "set"; NetSetup.ic_name c; "mtu"; pretty m] = false) ∧
        (∀ a, NetSetup.ic_address c = Some a → refuses ["addr"; "add"; a; "dev"; NetSetup.ic_name c] = false) ∧
        refuses ["link"; "set"; NetSetup.ic_name c; "up"] = false)).
Proof.
  split_and!.
  - revert l. induction cs as [|c cs IH]; intros l; [done|]. simpl.
    destruct (NetSetup.configure_one _ c l) as [l1 st] eqn:E. specialize (IH l1).
    destruct (NetSetup.configure _ cs l1) as [l2 sts]. cbn [snd] in *. rewrite !fmap_cons, IH. f_equal.
    revert E. unfold NetSetup.configure_one. repeat case_match; intros; by simplify_eq.
  - assert (Hone : ∀ c l, l `prefix_of` (NetSetup.configure_one (log_ip refuses) c l).1).
    { intros c l0. unfold NetSetup.configure_one, NetSetup.set_mtu, NetSetup.add_address, NetSetup.link_up, NetSetup.add_default_route, log_ip.
      destruct (NetSetup.ic_mtu c), (NetSetup.ic_address c), (NetSetup.ic_gateway c); simpl; repeat case_match; simplify_eq; simpl;
        rewrite <-?app_assoc; by eexists. }
    assert (Hmany : ∀ cs l, l `prefix_of` (NetSetup.configure (log_ip refuses) cs l).1).
    { intros cs'. induction cs' as [|c cs' IH]; intros l0; [done|]. simpl. specialize (Hone c l0).
      destruct (NetSetup.configure_one _ c l0) as [l1 st]. specialize (IH l1).
      destruct (NetSetup.configure _ cs' l1) as [l2 sts]. simpl in *. by etrans. }
    revert l. induction cs as [|c cs IH]; intros l i c' st Hc Hs; [done|]. simpl in *.
    destruct (NetSetup.configure_one _ c l) as [l1 st1] eqn:E1. specialize (IH l1). pose proof (Hmany cs l1) as Hp.
    destruct (NetSetup.configure _ cs l1) as [l2 sts]. simpl in *. destruct i as [|i]; simplify_eq/=; [by exists l, l1|by eapply IH].
  - intros c l0. unfold NetSetup.configure_one, NetSetup.set_mtu, NetSetup.add_address, NetSetup.link_up, NetSetup.add_default_route, log_ip, interface_commands.
    destruct (NetSetup.ic_mtu c) as [m|], (NetSetup.ic_address c) as [ad|], (NetSetup.ic_gateway c) as [g|]; simpl;
      repeat match goal with |- context [negb (refuses ?x)] => destruct (refuses x) eqn:?; simpl end;
      (split; [eexists; rewrite <-?app_assoc; split_and!; [reflexivity|simpl; repeat (apply prefix_cons); apply prefix_nil|try done; by intros _]|];
       naive_solver).
Qed.
