(* ===== verification/Federation.v ===== *)
(** * Federation state

    crates/pact-policy/src/federation/mod.rs: what a site remembers of its
    template synchronisation with Sovra. The synchronisation itself is a
    trait whose only implementation in the repository is a mock. *)

From S2P Require Import Prelude Types.
From stdpp Require Import options.

Record SyncResult := { sy_templates_updated : N; sy_templates_total : N; sy_synced_at : DateTime }.
Record FederationConfig := { fc_sovra_endpoint : string; fc_sync_interval_seconds : N; fc_templates_dir : string }.
Definition federation_config_default : FederationConfig :=
  {| fc_sovra_endpoint := ""; fc_sync_interval_seconds := 300; fc_templates_dir := "/etc/pact/policies" |}.
Inductive FederationError := FedUnreachable (e : string) | SyncFailed (e : string) | InvalidTemplate (e : string).

Record FederationState := {
  fs_last_sync : option DateTime;
  fs_connected : bool;
  fs_failure_count : N;
  fs_templates : list string;
}.
Definition federation_state_default : FederationState :=
  {| fs_last_sync := None; fs_connected := false; fs_failure_count := 0; fs_templates := [] |}.

Definition on_sync_success (r : SyncResult) (s : FederationState) : FederationState :=
  {| fs_last_sync := Some (sy_synced_at r); fs_connected := true; fs_failure_count := 0; fs_templates := fs_templates s |}.
Definition on_sync_failure (s : FederationState) : FederationState :=
  {| fs_last_sync := fs_last_sync s; fs_connected := false; fs_failure_count := wrap_u32 (fs_failure_count s + 1);
     fs_templates := fs_templates s |}.
(** [num_seconds] truncates towards zero. *)
Definition is_sync_overdue (now : DateTime) (interval_seconds : N) (s : FederationState) : bool :=
  match fs_last_sync s with
  | None => true
  | Some last => (Z.of_N interval_seconds <? (now - last) `quot` 1000000000)%Z
  end.

(** [MockFederationSync]. *)
Record MockFederationSync := { mf_healthy : bool; mf_templates : list string }.
Definition mock_sync (now : DateTime) (m : MockFederationSync) : result SyncResult FederationError :=
  if mf_healthy m then
    Ok {| sy_templates_updated := wrap_u32 (N.of_nat (length (mf_templates m)));
          sy_templates_total := wrap_u32 (N.of_nat (length (mf_templates m))); sy_synced_at := now |}
  else Err (FedUnreachable "mock: Sovra unavailable").

(** An attempt, with its outcome recorded. *)
Definition record_sync (r : result SyncResult FederationError) (s : FederationState) : FederationState :=
  match r with Ok x => on_sync_success x s | Err _ => on_sync_failure s end.

(** The failures since the last success. *)
Fixpoint trailing_failures (rs : list (result SyncResult FederationError)) (n : nat) : nat :=
  match rs with [] => n | Ok _ :: rs' => trailing_failures rs' 0 | Err _ :: rs' => trailing_failures rs' (S n) end.
Definition last_success (rs : list (result SyncResult FederationError)) : option SyncResult :=
  last (omap (λ r, match r with Ok x => Some x | Err _ => None end) rs).

(** After any attempts the state is what it claims to be: the time of the
    last success, connected exactly when the last attempt succeeded, and the
    number of failures since; an outage never changes the cached templates,
    and neither does a success. *)
Theorem federation_state_accurate rs :
  (N.of_nat (length rs) <= u32_max)%N →
  let s := foldl (λ s r, record_sync r s) federation_state_default rs in
  fs_last_sync s = sy_synced_at <$> last_success rs ∧
  fs_connected s = match last rs with Some (Ok _) => true | _ => false end ∧
  fs_failure_count s = N.of_nat (trailing_failures rs 0) ∧
  fs_templates s = [].
Proof.
  intros Hlen s.
  assert (Hgo : ∀ rs s0 n, fs_failure_count s0 = N.of_nat n → (N.of_nat (n + length rs) <= u32_max)%N →
    let s1 := foldl (λ s r, record_sync r s) s0 rs in
    fs_last_sync s1 = match last_success rs with Some r => Some (sy_synced_at r) | None => fs_last_sync s0 end ∧
    fs_connected s1 = match last rs with Some r => is_ok r | None => fs_connected s0 end ∧
    fs_failure_count s1 = N.of_nat (trailing_failures rs n) ∧ fs_templates s1 = fs_templates s0).
  { clear. induction rs as [|r rs IH]; intros s0 n Hn Hb; [done|]. simpl in Hb.
    destruct r as [x|e]; cbn [foldl record_sync trailing_failures].
    - destruct (IH (on_sync_success x s0) 0 eq_refl) as (H1 & H2 & H3 & H4); [simpl; lia|]. cbv zeta in *.
      rewrite H1, H2, H3, H4. unfold last_success. csimpl. rewrite !last_cons. split_and!; try done.
      + by destruct (last (omap _ rs)).
      + by destruct (last rs).
    - destruct (IH (on_sync_failure s0) (S n)) as (H1 & H2 & H3 & H4).
      + simpl. rewrite Hn. unfold wrap_u32, u32_max in *. rewrite N.mod_small; lia.
      + simpl. lia.
      + cbv zeta in *. rewrite H1, H2, H3, H4. unfold last_success. csimpl. rewrite !last_cons.
        split_and!; try done. by destruct (last rs). }
  destruct (Hgo rs federation_state_default 0 eq_refl ltac:(simpl; lia)) as (H1 & H2 & H3 & H4). unfold s.
  rewrite H1, H2, H3, H4. split_and!; done.
Qed.

Lemma federation_state_accurate_witness :
  let ok := Ok {| sy_templates_updated := 1; sy_templates_total := 4; sy_synced_at := 7%Z |} in
  let s := foldl (λ s r, record_sync r s) federation_state_default [Err (SyncFailed "x"); ok; Err (SyncFailed "y")] in
  fs_last_sync s = Some 7%Z ∧ fs_failure_count s = 1%N.
Proof.
  intros ok. destruct (federation_state_accurate [Err (SyncFailed "x"); ok; Err (SyncFailed "y")]) as (H1 & _ & H3 & _).
  - vm_compute. discriminate.
  - split; [exact H1|exact H3].
Defined.

(** A synchronisation is due again exactly more than the interval, in whole
    seconds, after the last success. *)
Lemma overdue_iff now interval s t :
  fs_last_sync s = Some t → (t <= now)%Z →
  is_sync_overdue now interval s = true ↔ (t + seconds (Z.of_N interval + 1) <= now)%Z.
Proof.
  intros Ht Hle. unfold is_sync_overdue. rewrite Ht, Z.ltb_lt. unfold seconds.
  pose proof (Z.quot_div_nonneg (now - t) 1000000000 ltac:(lia) ltac:(lia)) as ->.
  pose proof (Z.div_mod (now - t) 1000000000 ltac:(lia)). pose proof (Z.mod_pos_bound (now - t) 1000000000 ltac:(lia)). lia.
Qed.
