(* ===== verification/AuditSink.v ===== *)
(** * The audit buffer of the agent

    [AgentAuditSink] of crates/pact-agent/src/audit.rs and the events the
    agent emits. The event type and the action names are those of the library
    hpc-audit; ids and times are arguments. *)

From S2P Require Import Prelude Text Types.
From stdpp Require Import options.

Inductive AuditOutcome := AuditSuccess | AuditFailure.
(** The metadata the agent attaches, as the JSON objects of the source. *)
Inductive AuditMetadata :=
| MetaNull
| MetaPhase (phase reason : string)
| MetaElapsed (elapsed_ms : N)
| MetaService (service : string) (pid : option N).
Record AuditEvent := {
  av_id : string;
  av_timestamp : DateTime;
  av_principal : string;
  av_action : string;
  av_node : string;
  av_outcome : AuditOutcome;
  av_detail : string;
  av_metadata : AuditMetadata;
}.
Class AuditActions := {
  BOOT_PHASE_COMPLETE : string; BOOT_PHASE_FAILED : string; BOOT_READY : string; SERVICE_START : string; SERVICE_STOP : string }.

Record AgentAuditSink := { sink_buffer : list AuditEvent; sink_node_id : string }.
Definition sink_new (node_id : string) : AgentAuditSink := {| sink_buffer := []; sink_node_id := node_id |}.
Definition buffered_count (s : AgentAuditSink) : nat := length (sink_buffer s).
Definition emit (e : AuditEvent) (s : AgentAuditSink) : AgentAuditSink :=
  {| sink_buffer := sink_buffer s ++ [e]; sink_node_id := sink_node_id s |}.
Definition drain (s : AgentAuditSink) : AgentAuditSink * list AuditEvent :=
  ({| sink_buffer := []; sink_node_id := sink_node_id s |}, sink_buffer s).
(** Only the number of events is logged. *)
Definition flush (s : AgentAuditSink) : AgentAuditSink * result () string := (s, Ok ()).

Section events.
Context `{AuditActions} (id : string) (now : DateTime).

Definition system_event_with_metadata (action node_id : string) (outcome : AuditOutcome) (detail : string) (m : AuditMetadata)
    : AuditEvent :=
  {| av_id := id; av_timestamp := now; av_principal := "pact-agent"; av_action := action; av_node := node_id;
     av_outcome := outcome; av_detail := detail; av_metadata := m |}.
Definition system_event (action node_id : string) (outcome : AuditOutcome) (detail : string) : AuditEvent :=
  system_event_with_metadata action node_id outcome detail MetaNull.

Definition emit_boot_phase_complete (node_id phase : string) : AgentAuditSink → AgentAuditSink :=
  emit (system_event BOOT_PHASE_COMPLETE node_id AuditSuccess ("boot phase " +:+ phase +:+ " complete")).
Definition emit_boot_phase_failed (node_id phase reason : string) : AgentAuditSink → AgentAuditSink :=
  emit (system_event_with_metadata BOOT_PHASE_FAILED node_id AuditFailure
          ("boot phase " +:+ phase +:+ " failed: " +:+ reason) (MetaPhase phase reason)).
Definition emit_boot_ready (node_id : string) (elapsed_ms : N) : AgentAuditSink → AgentAuditSink :=
  emit (system_event_with_metadata BOOT_READY node_id AuditSuccess ("node ready in " +:+ pretty elapsed_ms +:+ "ms")
          (MetaElapsed elapsed_ms)).
Definition emit_service_start (node_id service : string) (pid : option N) : AgentAuditSink → AgentAuditSink :=
  emit (system_event_with_metadata SERVICE_START node_id AuditSuccess ("service " +:+ service +:+ " started")
          (MetaService service pid)).
Definition emit_service_stop (node_id service : string) : AgentAuditSink → AgentAuditSink :=
  emit (system_event SERVICE_STOP node_id AuditSuccess ("service " +:+ service +:+ " stopped")).
End events.

(** Calls of the sink, the lock making each of them atomic. *)
Inductive SinkCall := CallEmit (e : AuditEvent) | CallDrain | CallFlush.
(** A run: the sink afterwards and the batches that were drained. *)
Fixpoint run_sink (cs : list SinkCall) (s : AgentAuditSink) : AgentAuditSink * list (list AuditEvent) :=
  match cs with
  | [] => (s, [])
  | CallEmit e :: cs' => run_sink cs' (emit e s)
  | CallDrain :: cs' => let '(s1, batch) := drain s in let '(s2, bs) := run_sink cs' s1 in (s2, batch :: bs)
  | CallFlush :: cs' => run_sink cs' (flush s).1
  end.
Definition emitted (cs : list SinkCall) : list AuditEvent :=
  omap (λ c, match c with CallEmit e => Some e | _ => None end) cs.

(** Audit events are neither lost, repeated nor reordered: whatever calls
    come in whatever order, the drained batches followed by the buffer are
    exactly the events emitted; a flush forwards nothing. *)
Theorem audit_events_kept cs s :
  let '(s', batches) := run_sink cs s in
  mjoin batches ++ sink_buffer s' = sink_buffer s ++ emitted cs ∧ sink_node_id s' = sink_node_id s.
Proof.
  revert s. induction cs as [|c cs IH]; intros s; simpl; [by rewrite app_nil_r|]. destruct c as [e| |]; simpl.
  - specialize (IH (emit e s)). destruct (run_sink cs (emit e s)) as [s' bs]. destruct IH as [-> ->]. simpl.
    by rewrite <-app_assoc.
  - specialize (IH {| sink_buffer := []; sink_node_id := sink_node_id s |}).
    destruct (run_sink cs _) as [s' bs]. destruct IH as [IH1 IH2]. simpl in *. split; [|done].
    rewrite <-app_assoc. f_equal. exact IH1.
  - specialize (IH s). by destruct (run_sink cs s) as [s' bs].
Qed.
