(* ===== verification/CliText.v ===== *)
(** * Text of the command line client

    The parts of crates/pact-cli/src/commands/ that only compute: the
    declarative specification of apply.rs, the export of promote.rs, the
    listings and messages of the other commands, their argument checks, and
    the configuration of config.rs. Texts are UTF-8 byte strings; a panic is
    [None]. *)

From S2P Require Import Prelude Text Float64 Types Capability.
From stdpp Require Import options.
From Stdlib Require Import Ascii SpecFloat.

(** ** Formatting *)

(** The lines of a text, [push_str(..); push('\n')] for each. *)
Definition nl : string := String newline EmptyString.

(** Characters of a UTF-8 text: every byte but those that continue one. *)
Definition is_continuation (a : ascii) : bool := (N_of_ascii a `div` 64 =? 2)%N.
Fixpoint char_count (s : string) : nat :=
  match s with
  | EmptyString => 0
  | String a s' => (if is_continuation a then 0 else 1) + char_count s'
  end.

(** [{:<w}] and [{:>w}]. *)
Definition pad_right (w : nat) (s : string) : string := s +:+ blanks (w - char_count s).
Definition pad_left (w : nat) (s : string) : string := blanks (w - char_count s) +:+ s.

(** [&s[..n]]: a panic unless [n] is the end or the start of a character. *)
Fixpoint slice_to (n : nat) (s : string) : option string :=
  match n, s with
  | O, EmptyString => Some EmptyString
  | O, String a _ => if is_continuation a then None else Some EmptyString
  | S _, EmptyString => None
  | S n', String a s' => String a <$> slice_to n' s'
  end.

Definition bool_text (b : bool) : string := if b then "true" else "false".
Definition ellipsis : string := "…".

(** [{:.1}]: the exact value rounded to one decimal, ties to even. *)
Definition round_half_even (num den : Z) : Z :=
  let q := (num / den)%Z in
  let r := (num mod den)%Z in
  match (2 * r ?= den)%Z with
  | Lt => q
  | Gt => (q + 1)%Z
  | Eq => if Z.even q then q else (q + 1)%Z
  end.
Definition decimal1 (m : positive) (e : Z) : string :=
  let t := if (0 <=? e)%Z then (Zpos m * 2 ^ e * 10)%Z else round_half_even (Zpos m * 10) (2 ^ (- e)) in
  pretty (t / 10)%Z +:+ "." +:+ pretty (t mod 10)%Z.
Definition format_1 (x : f64) : string :=
  match x with
  | S754_nan => "NaN"
  | S754_infinity s => if s then "-inf" else "inf"
  | S754_zero s => if s then "-0.0" else "0.0"
  | S754_finite s m e => (if s then "-" else "") +:+ decimal1 m e
  end.

Example format_1_samples :
  format_1 <$> [F64.of_Z 2; F64.div (F64.of_Z 1) (F64.of_Z 4); F64.div (F64.of_Z 3) (F64.of_Z 4); F64.div (F64.of_Z 1) (F64.of_Z 3)]
    = ["2.0"; "0.2"; "0.8"; "0.3"].
Proof. vm_compute. reflexivity. Qed.

(** ** pact apply (apply.rs) *)

Record MountSpec := { sp_fs_type : string; sp_source : string; sp_options : string }.
Record FileSpec := { sp_content_hash : option string; sp_mode : option string; sp_owner : option string }.
Record ServiceSpec := { sp_state : string }.
(** A [BTreeMap] is the list of its entries in the order of the keys. *)
Record VClusterSpec := {
  vs_sysctl : list (string * string);
  vs_mounts : list (string * MountSpec);
  vs_files : list (string * FileSpec);
  vs_services : list (string * ServiceSpec);
  vs_network : list (string * string);
  vs_packages : list (string * string);
}.
Record ApplySpec := { as_vcluster : list (string * VClusterSpec) }.

(** [load_spec]: the file and the TOML parser are arguments. *)
Definition load_spec (read : string → result string string) (from_toml : string → result ApplySpec string) (path : string)
    : result ApplySpec string :=
  match read path with
  | Err e => Err ("cannot read spec file " +:+ path +:+ ": " +:+ e)
  | Ok content =>
      match from_toml content with
      | Err e => Err ("invalid spec format in " +:+ path +:+ ": " +:+ e)
      | Ok spec => Ok spec
      end
  end.

Definition delta_item (a : DeltaAction) (key : string) (value previous : option string) : DeltaItem :=
  {| item_action := a; item_key := key; item_value := value; item_previous := previous |}.
Definition spec_to_delta (spec : VClusterSpec) : StateDelta :=
  {| delta_kernel := (λ kv, delta_item Modify kv.1 (Some kv.2) None) <$> vs_sysctl spec;
     delta_mounts := (λ kv, delta_item Add kv.1
        (Some (sp_fs_type kv.2 +:+ ":" +:+ sp_source kv.2 +:+ " (" +:+ sp_options kv.2 +:+ ")")) None) <$> vs_mounts spec;
     delta_files := (λ kv, delta_item Modify kv.1 (sp_content_hash kv.2) (sp_owner kv.2)) <$> vs_files spec;
     delta_services := (λ kv, delta_item Modify kv.1 (Some (sp_state kv.2)) None) <$> vs_services spec;
     delta_network := (λ kv, delta_item Modify kv.1 (Some kv.2) None) <$> vs_network spec;
     delta_packages := (λ kv, delta_item Add kv.1 (Some kv.2) None) <$> vs_packages spec;
     delta_gpu := [] |}.

Definition spec_changes (s : VClusterSpec) : nat :=
  length (vs_sysctl s) + length (vs_mounts s) + length (vs_files s) + length (vs_services s) +
  length (vs_network s) + length (vs_packages s).
Definition vcluster_lines (vc : string * VClusterSpec) : list string :=
  ("vCluster " +:+ vc.1 +:+ ": " +:+ pretty (spec_changes vc.2) +:+ " changes") ::
  ((λ kv, "  sysctl: " +:+ kv.1 +:+ " = " +:+ kv.2) <$> vs_sysctl vc.2) ++
  ((λ kv, "  mount: " +:+ kv.1 +:+ " (" +:+ sp_fs_type kv.2 +:+ ":" +:+ sp_source kv.2 +:+ ")") <$> vs_mounts vc.2) ++
  ((λ kv, "  service: " +:+ kv.1 +:+ " → " +:+ sp_state kv.2) <$> vs_services vc.2).
Definition format_spec_summary (spec : ApplySpec) : string :=
  Str.join nl (mjoin (vcluster_lines <$> as_vcluster spec)).

(** ** pact promote (promote.rs) *)

Definition debug_action (a : DeltaAction) : string :=
  match a with Add => "Add" | Remove => "Remove" | Modify => "Modify" end.
Definition write_item (i : DeltaItem) : string :=
  match item_value i with
  | Some value => item_key i +:+ " = " +:+ quote +:+ value +:+ quote +:+ nl
  | None => "# " +:+ item_key i +:+ " (action: " +:+ debug_action (item_action i) +:+ ")" +:+ nl
  end.
Definition active_items (items : list DeltaItem) : list DeltaItem := filter (λ i, item_action i ≠ Remove) items.
Definition write_section (name : string) (items : list DeltaItem) : string :=
  match active_items items with
  | [] => ""
  | active => "[" +:+ name +:+ "]" +:+ nl +:+ Str.join "" (write_item <$> active) +:+ nl
  end.
Definition export_delta (d : StateDelta) : string :=
  write_section "kernel" (delta_kernel d) +:+ write_section "services" (delta_services d) +:+
  write_section "mounts" (delta_mounts d) +:+ write_section "files" (delta_files d) +:+
  write_section "network" (delta_network d) +:+ write_section "packages" (delta_packages d) +:+
  write_section "gpu" (delta_gpu d).
Definition export_deltas_as_toml (deltas : list StateDelta) : string :=
  "# Promoted from node deltas" +:+ nl +:+ "# Review and apply with: pact apply <this-file.toml>" +:+ nl +:+ nl +:+
  Str.join "" (export_delta <$> deltas).

Record PromoteConflict := {
  pc_key : string; pc_promoted_value : string; pc_existing_value : string; pc_node_id : string }.
Record PromoteResult := {
  pm_node_id : string; pm_vcluster_id : string; pm_deltas_exported : N; pm_overlay_toml : string;
  pm_conflicts : list PromoteConflict; pm_dry_run : bool }.
Definition format_promote_result (r : PromoteResult) : string :=
  (if pm_dry_run r then "DRY RUN — no changes applied" +:+ nl +:+ nl else "") +:+
  "Promoted " +:+ pretty (pm_deltas_exported r) +:+ " delta(s) from node " +:+ pm_node_id r +:+ " to vCluster " +:+
    pm_vcluster_id r +:+ nl +:+
  (if bool_decide (pm_conflicts r = []) then ""
   else nl +:+ pretty (length (pm_conflicts r)) +:+ " conflict(s) detected:" +:+ nl +:+
        Str.join "" ((λ c, "  " +:+ pc_key c +:+ " on " +:+ pc_node_id c +:+ ": promoted=" +:+ quote +:+ pc_promoted_value c +:+
          quote +:+ " vs existing=" +:+ quote +:+ pc_existing_value c +:+ quote +:+ nl) <$> pm_conflicts r)) +:+
  (if negb (pm_dry_run r) && bool_decide (pm_conflicts r = [])
   then nl +:+ "Overlay updated. Subscribed agents will receive the update." +:+ nl else "").

(** ** pact diff (diff.rs) *)

Definition item_detail (i : DeltaItem) : string :=
  match item_value i, item_previous i with
  | Some val, Some prev => item_key i +:+ ": " +:+ prev +:+ " → " +:+ val
  | Some val, None => item_key i +:+ ": " +:+ val
  | None, Some prev => item_key i +:+ ": " +:+ prev +:+ " (removed)"
  | None, None => item_key i
  end.
Definition action_sign (a : DeltaAction) : string :=
  match a with Add => "+" | Remove => "-" | Modify => "~" end.
Definition format_delta_section (category : string) (items : list DeltaItem) : list string :=
  (λ i, "  " +:+ action_sign (item_action i) +:+ " " +:+ category +:+ ": " +:+ item_detail i) <$> items.
Definition diff_lines (d : StateDelta) : list string :=
  format_delta_section "kernel" (delta_kernel d) ++ format_delta_section "mounts" (delta_mounts d) ++
  format_delta_section "files" (delta_files d) ++ format_delta_section "network" (delta_network d) ++
  format_delta_section "services" (delta_services d) ++ format_delta_section "packages" (delta_packages d) ++
  format_delta_section "gpu" (delta_gpu d).
Definition format_diff (d : StateDelta) : string :=
  match diff_lines d with [] => "(no differences)" | lines => Str.join nl lines end.
Definition format_committed_diff (node_id : string) (deltas : list (N * string * StateDelta)) : string :=
  match deltas with
  | [] => "(no committed node deltas on " +:+ node_id +:+ ")"
  | _ => Str.join nl (("Committed node deltas on " +:+ node_id +:+ " (" +:+ pretty (length deltas) +:+ " total):") ::
           mjoin ((λ d : N * string * StateDelta,
             ("  seq:" +:+ pretty d.1.1 +:+ " (" +:+ d.1.2 +:+ ")") ::
             ((λ line, "    " +:+ line) <$> str_lines (format_diff d.2))) <$> deltas))
  end.

(** ** Messages of the other commands *)

(** [format_scope] of commit.rs and rollback.rs. *)
Definition format_scope (s : Scope) : string :=
  match s with Global => "global" | VCluster vc => "vcluster: " +:+ vc | Node n => "node: " +:+ n end.

(** commit.rs *)
Record CommitResult := {
  cm_sequence : N; cm_scope : Scope; cm_policy_ref : option string; cm_approval_required : bool;
  cm_approval_id : option string }.
Definition format_commit_result (r : CommitResult) : string :=
  if cm_approval_required r then
    "Approval required (two-person policy on " +:+ format_scope (cm_scope r) +:+ ")" +:+ nl +:+ "Pending approval: " +:+
    default "unknown" (cm_approval_id r) +:+ " (expires in 30 min)" +:+ nl +:+ "Waiting for approval... (Ctrl-C to background)"
  else
    "Committed (seq:" +:+ pretty (cm_sequence r) +:+ ") on " +:+ format_scope (cm_scope r) +:+
    match cm_policy_ref r with Some p => "  policy: " +:+ p | None => "" end.
Definition validate_commit_args (message : option string) (ty : EntryType) : result () string :=
  if decide (ty = ET_Commit ∧ message = None) then
    Err ("Commit message required (-m " +:+ quote +:+ "message" +:+ quote +:+ ")")
  else Ok ().

(** rollback.rs *)
Record RollbackResult := {
  rb_rollback_sequence : N; rb_target_sequence : N; rb_scope : Scope; rb_entries_reverted : N }.
Definition format_rollback_result (r : RollbackResult) : string :=
  "Rolled back to seq:" +:+ pretty (rb_target_sequence r) +:+ " (" +:+ pretty (rb_entries_reverted r) +:+
  " entries reverted). New entry: seq:" +:+ pretty (rb_rollback_sequence r) +:+ " on " +:+ format_scope (rb_scope r).
Definition validate_rollback_target (target current : N) : result () string :=
  if (current <=? target)%N then
    Err ("Cannot rollback to seq:" +:+ pretty target +:+ " — current is seq:" +:+ pretty current +:+
         ". Target must be earlier.")
  else if (target =? 0)%N then Err "Cannot rollback to seq:0 (no entries)"
  else Ok ().

(** blacklist.rs *)
Inductive BlacklistOp := BlList | BlAdd (path : string) | BlRemove (path : string).
Record BlacklistResult := { bl_operation : BlacklistOp; bl_paths : list string }.
Definition format_blacklist_result (r : BlacklistResult) : string :=
  match bl_operation r with
  | BlList => match bl_paths r with
              | [] => "No blacklist entries."
              | paths => "Blacklisted paths:" +:+ nl +:+ Str.join "" ((λ p, "  " +:+ p +:+ nl) <$> paths)
              end
  | BlAdd path => "Added to blacklist: " +:+ path
  | BlRemove path => "Removed from blacklist: " +:+ path
  end.
Definition default_blacklist : list string :=
  ["/tmp/**"; "/var/log/**"; "/proc/**"; "/sys/**"; "/dev/**"; "/run/user/**"].

(** approve.rs *)
Definition approve_scope (s : Scope) : string :=
  match s with Global => "global" | VCluster vc => vc | Node n => n end.
Definition format_age (now created : DateTime) : string :=
  let elapsed := ((now - created) `quot` 1000000000)%Z in
  if (elapsed <? 60)%Z then pretty elapsed +:+ "s ago"
  else if (elapsed <? 3600)%Z then pretty (elapsed `quot` 60)%Z +:+ " min ago"
  else pretty (elapsed `quot` 3600)%Z +:+ " hr ago".
(** Cut at a byte position: a panic when that is inside a character. *)
Definition truncate (s : string) (max_len : nat) : option string :=
  if decide (String.length s ≤ max_len) then Some s else (λ p, p +:+ ellipsis) <$> slice_to (max_len - 1) s.
Definition status_marker (s : ApprovalStatus) : string :=
  match s with Pending => "" | Approved => " [APPROVED]" | Rejected => " [REJECTED]" | Expired => " [EXPIRED]" end.
Definition approval_line (now : DateTime) (a : PendingApproval) : option string :=
  id ← truncate (apr_approval_id a) 10;
  scope ← truncate (approve_scope (apr_scope a)) 20;
  action ← truncate (apr_action a) 30;
  who ← truncate (principal (apr_requester a)) 25;
  Some (pad_right 10 id +:+ " " +:+ pad_right 20 scope +:+ " " +:+ pad_right 30 action +:+ " " +:+ pad_right 25 who +:+
        " " +:+ format_age now (apr_created_at a) +:+ status_marker (apr_status a)).
Definition format_approval_list (now : DateTime) (approvals : list PendingApproval) : option string :=
  match approvals with
  | [] => Some "(no pending approvals)"
  | _ => (λ lines, Str.join nl ((pad_right 10 "ID" +:+ " " +:+ pad_right 20 "SCOPE" +:+ " " +:+ pad_right 30 "ACTION" +:+
            " " +:+ pad_right 25 "REQUESTER" +:+ " AGE") :: lines)) <$> mapM (approval_line now) approvals
  end.
Definition format_approve_result (approval_id action : string) : string :=
  if decide (action = "approve") then "Approved " +:+ approval_id +:+ ". Original operation will proceed."
  else if decide (action = "deny") then "Denied " +:+ approval_id +:+ ". Original operation cancelled."
  else action +:+ ": " +:+ approval_id.
Definition validate_approval (now : DateTime) (a : PendingApproval) (approver : string) : result () string :=
  if decide (apr_status a ≠ Pending) then
    Err ("Approval " +:+ apr_approval_id a +:+ " is already " +:+ debug_approval_status (apr_status a))
  else if decide (principal (apr_requester a) = approver) then
    Err "Cannot approve your own request (P4: self-approval denied)"
  else if (apr_expires_at a <? now)%Z then Err ("Approval " +:+ apr_approval_id a +:+ " has expired (P5)")
  else Ok ().

(** emergency.rs *)
Record EmergencyResult := {
  er_action : string; er_node_id : string; er_sequence : N; er_window_seconds : option N }.
Definition format_emergency_result (r : EmergencyResult) : string :=
  if decide (er_action r = "start") then
    "Emergency mode ACTIVE on " +:+ er_node_id r +:+ " (seq:" +:+ pretty (er_sequence r) +:+ ")" +:+ nl +:+
    "Extended commit window: " +:+ pretty (default 14400 (er_window_seconds r) `div` 60)%N +:+ " minutes" +:+ nl +:+
    "All actions continue to be logged."
  else if decide (er_action r = "end") then
    "Emergency mode ENDED on " +:+ er_node_id r +:+ " (seq:" +:+ pretty (er_sequence r) +:+ ")" +:+ nl +:+
    "Normal commit window restored."
  else "Emergency: " +:+ er_action r +:+ " on " +:+ er_node_id r.
Definition validate_emergency_start (pt : PrincipalType) (reason : string) : result () string :=
  if decide (pt = Agent ∨ pt = Service) then Err "AI/service agents cannot enter emergency mode (P8)"
  else if Str.is_empty (Str.trim reason) then Err "Emergency reason is required"
  else Ok ().

(** exec.rs *)
Record CliExecResult := {
  xr_node_id : string; xr_command : string; xr_stdout : string; xr_stderr : string; xr_exit_code : Z }.
Definition format_exec_result (r : CliExecResult) : string :=
  xr_stdout r +:+
  (if Str.is_empty (xr_stderr r) then "" else (if Str.is_empty (xr_stdout r) then "" else nl) +:+ xr_stderr r).
Definition NOT_WHITELISTED : Z := 6.
Definition AUTH_FAILURE : Z := 2.
Definition POLICY_REJECTION : Z := 3.
Definition TIMEOUT : Z := 5.
Definition GENERAL_ERROR : Z := 1.
Definition error_to_exit_code (error : string) : Z :=
  if Str.contains error "not whitelisted" || Str.contains error "not allowed" then NOT_WHITELISTED
  else if Str.contains error "auth" || Str.contains error "token" || Str.contains error "unauthorized" then AUTH_FAILURE
  else if Str.contains error "policy" || Str.contains error "denied" then POLICY_REJECTION
  else if Str.contains error "timeout" || Str.contains error "unreachable" then TIMEOUT
  else GENERAL_ERROR.
Definition parse_exec_command (parts : list string) : result (string * list string) string :=
  match parts with [] => Err "No command specified" | c :: args => Ok (c, args) end.

(** group.rs *)
Record GroupSummary := {
  gs_name : string; gs_node_count : N; gs_enforcement_mode : string; gs_two_person_approval : bool }.
Record GroupDetail := { gd_name : string; gd_policy : VClusterPolicy; gd_node_ids : list string }.
Fixpoint repeat_text (n : nat) (s : string) : string :=
  match n with O => "" | S n' => s +:+ repeat_text n' s end.
Definition format_group_list (groups : list GroupSummary) : string :=
  match groups with
  | [] => "No vClusters configured."
  | _ => pad_right 20 "VCLUSTER" +:+ " " +:+ pad_right 8 "NODES" +:+ " " +:+ pad_right 12 "MODE" +:+ " 2PA" +:+ nl +:+
         repeat_text 52 "-" +:+ nl +:+
         Str.join "" ((λ g, pad_right 20 (gs_name g) +:+ " " +:+ pad_right 8 (pretty (gs_node_count g)) +:+ " " +:+
           pad_right 12 (gs_enforcement_mode g) +:+ " " +:+ (if gs_two_person_approval g then "yes" else "no") +:+ nl) <$> groups)
  end.
Definition format_group_detail (d : GroupDetail) : string :=
  "vCluster: " +:+ gd_name d +:+ nl +:+
  "  enforcement: " +:+ pol_enforcement_mode (gd_policy d) +:+ nl +:+
  "  two-person approval: " +:+ bool_text (pol_two_person_approval (gd_policy d)) +:+ nl +:+
  "  base commit window: " +:+ pretty (pol_base_commit_window_seconds (gd_policy d)) +:+ "s" +:+ nl +:+
  "  drift sensitivity: " +:+ format_1 (pol_drift_sensitivity (gd_policy d)) +:+ nl +:+
  "  nodes: " +:+ pretty (length (gd_node_ids d)) +:+ nl +:+
  Str.join "" ((λ n, "    - " +:+ n +:+ nl) <$> gd_node_ids d).

(** log.rs; [time] is chrono's formatting with %Y-%m-%d %H:%M:%S. *)
Definition log_scope (s : Scope) : string :=
  match s with Global => "global" | VCluster vc => "vc:" +:+ vc | Node n => "node:" +:+ n end.
Definition format_entry_type (t : EntryType) : string :=
  match t with
  | ET_Commit => "COMMIT" | ET_Rollback => "ROLLBACK" | ET_AutoConverge => "AUTO_CONVERGE"
  | ET_DriftDetected => "DRIFT_DETECTED" | ET_CapabilityChange => "CAP_CHANGE" | ET_PolicyUpdate => "POLICY_UPDATE"
  | ET_BootConfig => "BOOT_CONFIG" | ET_EmergencyStart => "EMERGENCY_ON" | ET_EmergencyEnd => "EMERGENCY_OFF"
  | ET_ExecLog => "EXEC" | ET_ShellSession => "SHELL" | ET_ServiceLifecycle => "SERVICE"
  | ET_PendingApproval => "APPROVAL" | ET_NodeEnrolled => "NODE_ENROLLED" | ET_NodeActivated => "NODE_ACTIVATED"
  | ET_NodeDeactivated => "NODE_DEACTIVATED" | ET_NodeDecommissioned => "NODE_DECOMMISSIONED"
  | ET_NodeAssigned => "NODE_ASSIGNED" | ET_NodeUnassigned => "NODE_UNASSIGNED" | ET_CertSigned => "CERT_SIGNED"
  | ET_CertRevoked => "CERT_REVOKED"
  end.
Definition format_log_entry (time : DateTime → string) (e : ConfigEntry) : string :=
  "#" +:+ pad_right 6 (pretty (entry_sequence e)) +:+ " " +:+ time (entry_timestamp e) +:+ " " +:+
  pad_right 16 (format_entry_type (entry_type e)) +:+ " " +:+ pad_right 12 (log_scope (entry_scope e)) +:+ " by " +:+
  principal (entry_author e) +:+
  match entry_emergency_reason e with Some r => "  reason: " +:+ r | None => "" end +:+
  match entry_policy_ref e with Some p => "  policy: " +:+ p | None => "" end.
Definition format_log (time : DateTime → string) (es : list ConfigEntry) : string :=
  match es with [] => "(no log entries)" | _ => Str.join nl (format_log_entry time <$> es) end.

(** service.rs *)
Definition format_service_state (s : ServiceState) : string :=
  match s with
  | Starting => "starting" | Running => "running" | Stopping => "stopping" | Stopped => "stopped" | Failed => "FAILED"
  | Restarting => "restarting"
  end.
Definition format_uptime (seconds : N) : string :=
  if (seconds <? 60)%N then pretty seconds +:+ "s"
  else if (seconds <? 3600)%N then pretty (seconds `div` 60)%N +:+ "m" +:+ pretty (seconds `mod` 60)%N +:+ "s"
  else if (seconds <? 86400)%N then
    pretty (seconds `div` 3600)%N +:+ "h" +:+ pretty ((seconds `mod` 3600) `div` 60)%N +:+ "m"
  else pretty (seconds `div` 86400)%N +:+ "d" +:+ pretty ((seconds `mod` 86400) `div` 3600)%N +:+ "h".
Definition service_line (a b c d e : string) : string :=
  pad_right 25 a +:+ " " +:+ pad_right 12 b +:+ " " +:+ pad_left 8 c +:+ " " +:+ pad_left 10 d +:+ " " +:+ pad_left 8 e.
Definition format_service_status (services : list ServiceStatusInfo) : string :=
  match services with
  | [] => "(no services)"
  | _ => Str.join nl (service_line "SERVICE" "STATE" "PID" "UPTIME" "RESTARTS" ::
           ((λ s, service_line (si_name s) (format_service_state (si_state s)) (pretty (si_pid s))
              (format_uptime (si_uptime_seconds s)) (pretty (si_restart_count s))) <$> services))
  end.
Definition format_single_service (s : ServiceStatusInfo) : string :=
  si_name s +:+ ": " +:+ format_service_state (si_state s) +:+ " (PID " +:+ pretty (si_pid s) +:+ ", uptime " +:+
  format_uptime (si_uptime_seconds s) +:+ ", " +:+ pretty (si_restart_count s) +:+ " restarts)".

(** status.rs *)
Record NodeStatus := {
  nst_node_id : string; nst_vcluster_id : string; nst_config_state : ConfigState; nst_drift_summary : option DriftVector;
  nst_supervisor : SupervisorStatus; nst_gpu_count : N; nst_gpu_healthy : N; nst_gpu_degraded : N;
  nst_memory_total_gb : f64; nst_memory_avail_gb : f64 }.
Definition format_config_state (s : ConfigState) : string :=
  match s with
  | Committed => "COMMITTED" | Drifted => "DRIFTED" | Converging => "CONVERGING" | Emergency => "EMERGENCY"
  | ObserveOnly => "OBSERVE_ONLY"
  end.
Definition format_supervisor_backend (s : SupervisorStatus) : string :=
  match ss_backend s with Pact => "pact" | Systemd => "systemd" end.
Definition drift_part (name : string) (x : f64) : list string :=
  if F64.gt x F64.zero then [name +:+ "(" +:+ format_1 x +:+ ")"] else [].
Definition format_drift_categories (d : DriftVector) : string :=
  Str.join ", " (drift_part "kernel" (drift_kernel d) ++ drift_part "mounts" (drift_mounts d) ++
    drift_part "files" (drift_files d) ++ drift_part "network" (drift_network d) ++
    drift_part "services" (drift_services d) ++ drift_part "packages" (drift_packages d) ++ drift_part "gpu" (drift_gpu d)).
Definition format_node_status (s : NodeStatus) : string :=
  Str.join nl (
    ["Node: " +:+ nst_node_id s +:+ "  vCluster: " +:+ nst_vcluster_id s +:+ "  State: " +:+
       format_config_state (nst_config_state s);
     "Supervisor: " +:+ format_supervisor_backend (nst_supervisor s) +:+ " (" +:+
       pretty (ss_services_running (nst_supervisor s)) +:+ "/" +:+ pretty (ss_services_declared (nst_supervisor s)) +:+
       " running, " +:+ pretty (ss_services_failed (nst_supervisor s)) +:+ " failed)";
     "Memory: " +:+ format_1 (nst_memory_avail_gb s) +:+ " GB / " +:+ format_1 (nst_memory_total_gb s) +:+ " GB available"] ++
    (if (0 <? nst_gpu_count s)%N then
       ["GPUs: " +:+ pretty (nst_gpu_count s) +:+ " total (" +:+ pretty (nst_gpu_healthy s) +:+ " healthy, " +:+
        pretty (nst_gpu_degraded s) +:+ " degraded)"] else []) ++
    match nst_drift_summary s with
    | Some d => let c := format_drift_categories d in if Str.is_empty c then [] else ["Drift: " +:+ c]
    | None => []
    end).
Definition format_gpu_health (h : GpuHealth) : string :=
  match h with Healthy => "healthy" | Degraded => "DEGRADED" | FailedGpu => "FAILED" end.

(** ** Configuration (config.rs) *)

Inductive OutputFormat := TextOutput | JsonOutput.
Record CliConfig := {
  cc_endpoint : string;
  cc_token : option string;
  cc_token_path : string;
  cc_default_vcluster : option string;
  cc_output_format : OutputFormat;
  cc_timeout_seconds : N;
}.
(** What the client asks of the machine: the configuration directory of the
    user (dirs), files, environment variables and the TOML parser. *)
Class CliEnv := {
  env_config_dir : option string;
  env_exists : string → bool;
  env_read : string → result string string;
  env_var : string → option string;
  env_config_toml : string → result CliConfig string;
}.

Definition default_endpoint : string := "http://localhost:9443".
Definition config_dir `{CliEnv} : string := default "." env_config_dir.
Definition default_token_path `{CliEnv} : string := config_dir +:+ "/pact/token".
Definition cli_config_default `{CliEnv} : CliConfig :=
  {| cc_endpoint := default_endpoint; cc_token := None; cc_token_path := default_token_path;
     cc_default_vcluster := None; cc_output_format := TextOutput; cc_timeout_seconds := 30 |}.

(** [load]: a file that cannot be read or parsed is a warning. *)
Definition cli_load `{CliEnv} : CliConfig :=
  let path := config_dir +:+ "/pact/cli.toml" in
  if env_exists path then
    match env_read path with
    | Ok contents => match env_config_toml contents with Ok c => c | Err _ => cli_config_default end
    | Err _ => cli_config_default
    end
  else cli_config_default.

Definition with_env_overrides `{CliEnv} (c : CliConfig) : CliConfig :=
  {| cc_endpoint := default (cc_endpoint c) (env_var "PACT_ENDPOINT");
     cc_token := match env_var "PACT_TOKEN" with Some t => Some t | None => cc_token c end;
     cc_token_path := cc_token_path c;
     cc_default_vcluster := match env_var "PACT_VCLUSTER" with Some v => Some v | None => cc_default_vcluster c end;
     cc_output_format := if decide (env_var "PACT_OUTPUT" = Some "json") then JsonOutput else cc_output_format c;
     cc_timeout_seconds := cc_timeout_seconds c |}.

Definition resolve_token `{CliEnv} (c : CliConfig) : result string string :=
  let missing := Err ("No auth token found. Set PACT_TOKEN, pass --token, or write to " +:+ cc_token_path c) in
  match cc_token c with
  | Some t => Ok t
  | None =>
      if env_exists (cc_token_path c) then
        let? content := env_read (cc_token_path c) in
        let token := Str.trim content in
        if Str.is_empty token then missing else Ok token
      else missing
  end.

Definition resolve_vcluster (arg : option string) (c : CliConfig) : result string string :=
  ok_or (match arg with Some v => Some v | None => cc_default_vcluster c end)
    "No vCluster specified. Use --vcluster or set PACT_VCLUSTER".

(** The overrides of main: the options of the command line come last. *)
Record CliOptions := { opt_endpoint : option string; opt_token : option string; opt_vcluster : option string }.
Definition effective_config `{CliEnv} (o : CliOptions) : CliConfig :=
  let c := with_env_overrides cli_load in
  {| cc_endpoint := default (cc_endpoint c) (opt_endpoint o);
     cc_token := match opt_token o with Some t => Some t | None => cc_token c end;
     cc_token_path := cc_token_path c;
     cc_default_vcluster := match opt_vcluster o with Some v => Some v | None => cc_default_vcluster c end;
     cc_output_format := cc_output_format c;
     cc_timeout_seconds := cc_timeout_seconds c |}.

(** ** Properties *)

(** A setting of the command line wins over the environment, the
    environment over the file, and the file over the defaults; a broken
    configuration file counts as none. The token file is read only when no
    token was given anywhere. *)
Theorem configuration_precedence `{CliEnv} o :
  cc_endpoint (effective_config o) =
    match opt_endpoint o, env_var "PACT_ENDPOINT" with
    | Some e, _ => e | None, Some e => e | None, None => cc_endpoint cli_load end ∧
  cc_default_vcluster (effective_config o) =
    match opt_vcluster o, env_var "PACT_VCLUSTER" with
    | Some v, _ => Some v | None, Some v => Some v | None, None => cc_default_vcluster cli_load end ∧
  (∀ t, opt_token o = Some t ∨ opt_token o = None ∧ env_var "PACT_TOKEN" = Some t →
     resolve_token (effective_config o) = Ok t) ∧
  (∀ t, opt_token o = None → env_var "PACT_TOKEN" = None → cc_token cli_load = None →
     resolve_token (effective_config o) = Ok t →
     t ≠ "" ∧ ∃ content, env_read (cc_token_path cli_load) = Ok content ∧ t = Str.trim content).
Proof.
  unfold effective_config, resolve_token. simpl. split_and!.
  - by destruct (opt_endpoint o), (env_var "PACT_ENDPOINT").
  - by destruct (opt_vcluster o), (env_var "PACT_VCLUSTER").
  - intros t [->|[-> ->]]; done.
  - intros t -> -> ->. destruct (env_exists _); [|done]. destruct (env_read _) as [content|]; simpl; [|done].
    destruct (Str.is_empty (Str.trim content)) eqn:E; [done|]. intros [= <-]. split; [|eauto].
    intros He. by rewrite He in E.
Qed.

(** Slicing at [n] panics exactly past the end and inside a character. *)
Lemma slice_to_spec n s p : slice_to n s = Some p → ∃ r, s = p +:+ r ∧ String.length p = n.
Proof.
  revert n p. induction s as [|a s IH]; intros [|n] p; simpl; intros Hs; simplify_eq.
  - by exists "".
  - destruct (is_continuation a); simplify_eq. by exists (String a s).
  - destruct (slice_to n s) as [q|] eqn:E; simplify_eq/=. destruct (IH _ _ E) as (r & -> & <-). by exists r.
Qed.

Lemma char_count_append s t : char_count (s +:+ t) = char_count s + char_count t.
Proof. induction s as [|a s IH]; [done|]. rewrite append_cons. simpl. rewrite IH. lia. Qed.
Lemma char_count_length s : char_count s ≤ String.length s.
Proof. induction s as [|a s IH]; simpl; [done|]. destruct (is_continuation a); lia. Qed.
Lemma char_count_blanks k : char_count (blanks k) = k.
Proof. induction k as [|k IH]; [done|]. simpl. by rewrite IH. Qed.

(** A cell of a table: what [truncate] returns fits its column, the
    padding fills the column exactly, and the text is either unchanged or a
    prefix marked with an ellipsis. A text that has to be cut inside a
    character is a panic. *)
Theorem truncated_cell s w :
  0 < w →
  (∀ t, truncate s w = Some t →
     char_count t ≤ w ∧ char_count (pad_right w t) = w ∧
     (t = s ∨ ∃ p r, s = p +:+ r ∧ String.length p = w - 1 ∧ t = p +:+ ellipsis)) ∧
  (truncate s w = None ↔ w < String.length s ∧ slice_to (w - 1) s = None).
Proof.
  intros Hw. split.
  - intros t Ht. assert (Hc : char_count t ≤ w ∧ (t = s ∨ ∃ p r, s = p +:+ r ∧ String.length p = w - 1 ∧ t = p +:+ ellipsis)).
    { unfold truncate in Ht. case_decide as Hl; simplify_eq.
      - pose proof (char_count_length t). split; [lia|by left].
      - destruct (slice_to (w - 1) s) as [p|] eqn:E; simplify_eq/=. apply slice_to_spec in E as (r & Hs & Hp).
        split; [|by right; exists p, r]. rewrite char_count_append. pose proof (char_count_length p).
        change (char_count ellipsis) with 1. lia. }
    destruct Hc as [Hc Hs]. split_and!; [done| |done]. unfold pad_right. rewrite char_count_append, char_count_blanks. lia.
  - unfold truncate. case_decide as Hl.
    + split; [done|]. intros [? _]. lia.
    + rewrite fmap_None. split; [intros ?; split; [lia|done]|by intros [_ ?]].
Qed.

Lemma truncated_cell_witness :
  truncate "a-very-long-identifier" 10 = Some ("a-very-lo" +:+ ellipsis) ∧
  char_count ("a-very-lo" +:+ ellipsis) ≤ 10.
Proof.
  split; [reflexivity|].
  apply (truncated_cell "a-very-long-identifier" 10); [lia|reflexivity].
Defined.

(** A name that has to be cut inside a character breaks the listing. *)
Example truncate_panics : truncate "12345678é9" 10 = None.
Proof. reflexivity. Qed.

(** *** The export of promoted deltas *)

(** A reader of the exported text: section headers, comments and lines of
    the form [key = "value"], each value with its section. *)
Definition read_export_line (st : string * list (string * string * string)) (line : string)
    : string * list (string * string * string) :=
  let '(section, items) := st in
  match line with
  | EmptyString => st
  | String "#" _ => st
  | String "[" r => (default section (Str.strip_suffix "]" r), items)
  | _ => match split_once (ascii_of_N 34) line with
         | Some (pre, r) =>
             match Str.strip_suffix " = " pre, Str.strip_suffix quote r with
             | Some k, Some v => (section, items ++ [(section, k, v)])
             | _, _ => st
             end
         | None => st
         end
  end.
Definition read_export (text : string) : list (string * string * string) :=
  (foldl read_export_line ("", []) (str_lines text)).2.

(** Keys and values that fit on a line of the export. *)
Definition plain_key (k : string) : Prop :=
  plain_line k ∧ char_free (ascii_of_N 34) k = true ∧
  match k with EmptyString => False | String a _ => a ≠ "#"%char ∧ a ≠ "["%char end.
Definition plain_item (i : DeltaItem) : Prop :=
  plain_key (item_key i) ∧ match item_value i with Some v => plain_line v | None => True end.

Definition sections (d : StateDelta) : list (string * list DeltaItem) :=
  [("kernel", delta_kernel d); ("services", delta_services d); ("mounts", delta_mounts d); ("files", delta_files d);
   ("network", delta_network d); ("packages", delta_packages d); ("gpu", delta_gpu d)].
(** What an export is to say: the values of the items that are not
    removals, section by section. *)
Definition exported_items (sec : string * list DeltaItem) : list (string * string * string) :=
  omap (λ i, (λ v, (sec.1, item_key i, v)) <$> item_value i) (active_items sec.2).

Definition item_line (i : DeltaItem) : string :=
  match item_value i with
  | Some value => item_key i +:+ " = " +:+ quote +:+ value +:+ quote
  | None => "# " +:+ item_key i +:+ " (action: " +:+ debug_action (item_action i) +:+ ")"
  end.
Definition section_lines (sec : string * list DeltaItem) : list string :=
  match active_items sec.2 with
  | [] => []
  | active => ("[" +:+ sec.1 +:+ "]") :: (item_line <$> active) ++ [""]
  end.

Lemma unlines_items l : Str.join "" (write_item <$> l) = unlines (item_line <$> l).
Proof.
  assert (Hw : ∀ i, write_item i = item_line i +:+ nl).
  { intros i. unfold write_item, item_line. destruct (item_value i); by rewrite !append_assoc. }
  assert (Hj : ∀ s ls, Str.join "" (s :: ls) = s +:+ Str.join "" ls).
  { intros s [|t ls]; [by rewrite append_nil_r|done]. }
  induction l as [|i l IH]; [done|]. rewrite !fmap_cons, Hj, IH, Hw, unlines_cons.
  by rewrite append_assoc.
Qed.
Lemma write_section_lines sec : write_section sec.1 sec.2 = unlines (section_lines sec).
Proof.
  unfold write_section, section_lines. destruct (active_items sec.2) as [|i l]; [done|].
  rewrite unlines_items, unlines_cons, unlines_app. by rewrite !append_assoc.
Qed.
Lemma export_delta_lines d : export_delta d = unlines (mjoin (section_lines <$> sections d)).
Proof.
  unfold export_delta, sections. csimpl. rewrite !unlines_app. rewrite <-!write_section_lines. simpl.
  by rewrite append_nil_r.
Qed.

Lemma read_value_line section items a r :
  a ≠ "#"%char → a ≠ "["%char →
  read_export_line (section, items) (String a r) =
    match split_once (ascii_of_N 34) (String a r) with
    | Some (pre, r') =>
        match Str.strip_suffix " = " pre, Str.strip_suffix quote r' with
        | Some k, Some v => (section, items ++ [(section, k, v)])
        | _, _ => (section, items)
        end
    | None => (section, items)
    end.
Proof.
  intros H1 H2. unfold read_export_line. destruct a as [[] [] [] [] [] [] [] []]; done.
Qed.
Lemma read_item section items i :
  plain_item i →
  read_export_line (section, items) (item_line i) =
    (section, items ++ match item_value i with Some v => [(section, item_key i, v)] | None => [] end).
Proof.
  intros [(_ & Hq & Hk) _]. unfold item_line. destruct (item_value i) as [v|]; [|by rewrite app_nil_r].
  destruct (item_key i) as [|a k] eqn:Ek; [done|]. destruct Hk as [Ha Hb].
  change (String a k +:+ " = " +:+ quote +:+ v +:+ quote)
    with (String a (k +:+ " = " +:+ quote +:+ v +:+ quote)).
  rewrite read_value_line by done.
  replace (String a (k +:+ " = " +:+ quote +:+ v +:+ quote))
    with ((String a k +:+ " = ") +:+ String (ascii_of_N 34) (v +:+ quote)) by by rewrite append_assoc.
  rewrite split_once_found by (rewrite char_free_append, Hq; done).
  by rewrite !strip_suffix_append.
Qed.
Lemma read_items section items l :
  Forall plain_item l →
  foldl read_export_line (section, items) (item_line <$> l) =
    (section, items ++ omap (λ i, (λ v, (section, item_key i, v)) <$> item_value i) l).
Proof.
  intros Hl. revert items. induction Hl as [|i l Hi Hl IH]; intros items; [by rewrite app_nil_r|].
  rewrite fmap_cons. cbn [foldl]. rewrite read_item, IH by done. csimpl. f_equal.
  destruct (item_value i); simpl; by rewrite <-app_assoc.
Qed.
Lemma read_section section items sec :
  Forall plain_item sec.2 →
  ∃ section', foldl read_export_line (section, items) (section_lines sec) = (section', items ++ exported_items sec).
Proof.
  intros Hp. unfold section_lines, exported_items.
  assert (Ha : Forall plain_item (active_items sec.2)).
  { apply Forall_forall. intros i [_ Hi]%list_elem_of_filter. rewrite Forall_forall in Hp. auto. }
  destruct (active_items sec.2) as [|i l]; [exists section; by rewrite app_nil_r|].
  exists sec.1. cbn [foldl]. rewrite foldl_app.
  change (read_export_line (section, items) ("[" +:+ sec.1 +:+ "]"))
    with (default section (Str.strip_suffix "]" (sec.1 +:+ "]")), items).
  rewrite strip_suffix_append. simpl default. by rewrite read_items.
Qed.

Definition plain_delta (d : StateDelta) : Prop := Forall (λ sec, Forall plain_item sec.2) (sections d).

Lemma section_lines_plain sec : plain_line sec.1 → Forall plain_item sec.2 → Forall plain_line (section_lines sec).
Proof.
  intros Hn Hp. unfold section_lines.
  assert (Ha : Forall plain_item (active_items sec.2)).
  { apply Forall_forall. intros i [_ Hi]%list_elem_of_filter. rewrite Forall_forall in Hp. auto. }
  destruct (active_items sec.2) as [|i l]; [done|]. apply Forall_cons. split.
  { by repeat apply plain_line_append. }
  apply Forall_app. split; [|by apply Forall_singleton]. apply Forall_fmap.
  eapply Forall_impl; [exact Ha|]. intros j [(Hk & _) Hv]. simpl. unfold item_line.
  destruct (item_value j); repeat apply plain_line_append; try done. by destruct (item_action j).
Qed.

Definition export_header : list string :=
  ["# Promoted from node deltas"; "# Review and apply with: pact apply <this-file.toml>"; ""].
Definition export_lines (ds : list StateDelta) : list string := mjoin ((λ d, mjoin (section_lines <$> sections d)) <$> ds).

Lemma export_text_lines ds : export_deltas_as_toml ds = unlines (export_header ++ export_lines ds).
Proof.
  unfold export_deltas_as_toml. rewrite unlines_app. change (unlines export_header) with ("# Promoted from node deltas" +:+ nl +:+
    "# Review and apply with: pact apply <this-file.toml>" +:+ nl +:+ nl). rewrite !append_assoc. do 5 f_equal.
  unfold export_lines. induction ds as [|d ds IH]; [done|]. rewrite !fmap_cons.
  assert (Hj : ∀ s ls, Str.join "" (s :: ls) = s +:+ Str.join "" ls).
  { intros s [|t ls]; [by rewrite append_nil_r|done]. }
  rewrite Hj, IH, export_delta_lines. cbn [mjoin list_join]. by rewrite unlines_app.
Qed.
Lemma export_lines_plain ds : Forall plain_delta ds → Forall plain_line (export_lines ds).
Proof.
  intros Hp. apply Forall_join, Forall_fmap. eapply Forall_impl; [exact Hp|].
  intros d Hd. cbv beta. apply Forall_join, Forall_fmap. unfold plain_delta in Hd.
  assert (Hn : Forall (λ sec, plain_line sec.1) (sections d))
    by (unfold sections; repeat (apply Forall_cons; split; [apply (bool_decide_unpack _); vm_compute; exact I|]); constructor).
  eapply Forall_impl; [apply Forall_and; split; [exact Hn|exact Hd]|]. intros sec [H1 H2]. by apply section_lines_plain.
Qed.
Lemma read_sections secs section items :
  Forall (λ sec, Forall plain_item sec.2) secs →
  ∃ section', foldl read_export_line (section, items) (mjoin (section_lines <$> secs)) =
              (section', items ++ mjoin (exported_items <$> secs)).
Proof.
  revert section items. induction secs as [|sec secs IH]; intros section items Hp; [exists section; by rewrite app_nil_r|].
  inversion_clear Hp as [|?? H1 H2]. csimpl. rewrite foldl_app. destruct (read_section section items sec H1) as [s1 ->].
  destruct (IH s1 (items ++ exported_items sec) H2) as [s2 ->]. exists s2. by rewrite <-app_assoc.
Qed.
Lemma read_deltas ds section items :
  Forall plain_delta ds →
  (foldl read_export_line (section, items) (export_lines ds)).2 =
  items ++ mjoin ((λ d, mjoin (exported_items <$> sections d)) <$> ds).
Proof.
  unfold export_lines. revert section items.
  induction ds as [|d ds IH]; intros section items Hp; [by rewrite app_nil_r|].
  inversion_clear Hp as [|?? H1 H2]. rewrite !fmap_cons. cbn [mjoin list_join]. rewrite foldl_app.
  destruct (read_sections _ section items H1) as [s1 ->]. rewrite IH by done. by rewrite <-app_assoc.
Qed.

(** What promote exports is what the deltas say: a reader of the text finds
    exactly the values of the items that are not removals, in order and each
    in its section, for keys and values that fit on a line. Items without a
    value become comments and removals are left out. *)
Theorem promote_export_read ds :
  Forall plain_delta ds →
  read_export (export_deltas_as_toml ds) = mjoin ((λ d, mjoin (exported_items <$> sections d)) <$> ds).
Proof.
  intros Hp. unfold read_export. rewrite export_text_lines, str_lines_unlines; last first.
  { apply Forall_app. split; [apply (bool_decide_unpack _); vm_compute; exact I|by apply export_lines_plain]. }
  rewrite foldl_app. change (foldl read_export_line ("", []) export_header) with ("", @nil (string * string * string)).
  by apply (read_deltas ds "" []).
Qed.

Lemma promote_export_read_witness :
  let item a k v := {| item_action := a; item_key := k; item_value := v; item_previous := None |} in
  let d := {| delta_mounts := [item Add "/scratch" None]; delta_files := []; delta_network := []; delta_services := [];
              delta_kernel := [item Modify "vm.swappiness" (Some "10"); item Remove "vm.old" (Some "1")];
              delta_packages := [item Add "slurm" (Some "24")]; delta_gpu := [] |} in
  read_export (export_deltas_as_toml [d]) = [("kernel", "vm.swappiness", "10"); ("packages", "slurm", "24")].
Proof.
  intros item d. rewrite (promote_export_read [d]).
  - vm_compute. reflexivity.
  - apply Forall_singleton. unfold plain_delta, sections. simpl.
    repeat (apply Forall_cons; split; [simpl; repeat (apply Forall_cons; split; [split_and!; simpl; try done; by apply (bool_decide_unpack _); vm_compute|]); constructor|]);
      constructor.
Defined.
