(* ===== verification/CliCommands.v ===== *)
(** * Commands of the client against the journal

    crates/pact-cli/src/commands/execute.rs and diag.rs: each command makes
    requests to the journal or to an agent and formats the answer. A request
    to the journal runs the handler of the journal's model, so that the
    theorems speak of what a command does to the journal; the network may
    lose a request or its answer. gRPC statuses as text, header encoding,
    JWT decoding and time formatting are the interface [CliApi]. *)

From S2P Require Import Prelude Text Float64 Types JournalState JournalInvariants JournalProperties Raft.
From S2P Require Import ConfigService Rbac PolicyService EnrollmentService CommitWindow CertRotation Shell CliText.
From stdpp Require Import options.
From Stdlib Require Import Ascii.

Class CliApi := {
  status_text : Status → string;             (** [{e}] of a tonic status *)
  metadata_value : string → bool;            (** whether a text can be a header *)
  insecure_decode : string → option (option string * option string); (** sub and pact_role *)
  format_date : DateTime → string;           (** %Y-%m-%d %H:%M:%S *)
  format_clock : DateTime → string;          (** %H:%M:%S *)
  handler_panicked : Status;                 (** what the client sees of a panic *)
  from_utf8_lossy : bytes → string;
}.

(** ** Identity and connections *)

Section client.
Context `{Chrono} `{ChronoTimestamp} `{EntryJson} `{CliApi}.

Definition resolve_identity_from_token (token : string) : string * string :=
  match insecure_decode token with
  | Some (sub, role) => (default "cli-user" sub, default "pact-platform-admin" role)
  | None => ("cli-user", "pact-platform-admin")
  end.

(** [TlsOptions::to_tls_config]: the PEM texts used. *)
Record TlsOptions := { tls_ca_cert : option string; tls_client_cert : option string; tls_client_key : option string }.
Record TlsConfig := { tc_ca : option string; tc_identity : option (string * string) }.
Definition to_tls_config (read : string → result string string) (o : TlsOptions) : result TlsConfig string :=
  let named what path := match read path with
                         | Ok d => Ok d
                         | Err e => Err ("cannot read " +:+ what +:+ " " +:+ path +:+ ": " +:+ e)
                         end in
  let? ca := match tls_ca_cert o with
             | Some path => let? pem := named "CA cert" path in Ok (Some pem)
             | None => Ok None
             end in
  let? identity := match tls_client_cert o, tls_client_key o with
                   | Some cert_path, Some key_path =>
                       let? cert := named "client cert" cert_path in
                       let? key := named "client key" key_path in
                       Ok (Some (cert, key))
                   | _, _ => Ok None
                   end in
  Ok {| tc_ca := ca; tc_identity := identity |}.

Definition http_uri (endpoint : string) : string :=
  if Str.starts_with endpoint "http" then endpoint else "http://" +:+ endpoint.

(** [connect_with_tls]: the address connected to and the TLS configuration. *)
Definition connect_with_tls (read : string → result string string) (net : string → ConnectOutcome) (reason : string)
    (config : CliConfig) (tls : option TlsOptions) : result (string * option TlsConfig) string :=
  let uri := http_uri (cc_endpoint config) in
  match net uri with
  | InvalidUri e => Err ("invalid endpoint " +:+ uri +:+ ": " +:+ e)
  | outcome =>
      let? tc := if Str.starts_with uri "https" || bool_decide (is_Some tls) then
                   let? c := match tls with
                             | Some o => to_tls_config read o
                             | None => Ok {| tc_ca := None; tc_identity := None |}
                             end in
                   match outcome with
                   | TlsConfigError e => Err ("TLS config error for " +:+ uri +:+ ": " +:+ e)
                   | _ => Ok (Some c)
                   end
                 else Ok None in
      match outcome with
      | Connected => Ok (uri, tc)
      | _ => Err ("cannot connect to journal at " +:+ uri +:+ ": " +:+ reason)
      end
  end.

(** [connect_agent]: the address connected to. *)
Definition connect_agent (net : string → ConnectOutcome) (reason agent_addr : string) : result string string :=
  let uri := http_uri agent_addr in
  match net uri with
  | InvalidUri e => Err ("invalid agent endpoint " +:+ uri +:+ ": " +:+ e)
  | Connected => Ok uri
  | _ => Err ("cannot connect to agent at " +:+ uri +:+ ": " +:+ reason)
  end.

(** ** Requests *)

(** [AuthInterceptor::call]. *)
Definition client_header (token : string) : result AuthHeader Status :=
  if Str.is_empty token then Ok NoHeader
  else if metadata_value ("Bearer " +:+ token) then Ok (Header ("Bearer " +:+ token))
  else Err (mkStatus Internal "invalid token format").

(** A request to a service of the journal that is behind its interceptor. *)
Definition rpc {A} (fault : CallFault) (token : string) (handler : AuthHeader → prog (result A Status))
    : prog (result A Status) :=
  match client_header token with
  | Err st => mret (Err st)
  | Ok header =>
      match fault with
      | NotSent st => mret (Err st)
      | Delivered => match auth_interceptor header with Err st => mret (Err st) | Ok _ => handler header end
      | ReplyLost st => match auth_interceptor header with
                        | Err _ => mret (Err st)
                        | Ok _ => _ ← handler header; mret (Err st)
                        end
      end
  end.
(** The same for the enrollment service, which checks tokens itself. *)
Definition rpc_plain {A} (fault : CallFault) (token : string) (handler : AuthHeader → prog (result A Status))
    : prog (result A Status) :=
  match client_header token with
  | Err st => mret (Err st)
  | Ok header =>
      match fault with
      | NotSent st => mret (Err st)
      | Delivered => handler header
      | ReplyLost st => _ ← handler header; mret (Err st)
      end
  end.

Definition reading {A} (f : JournalState → result A Status) : prog (result A Status) :=
  s ← read_state; mret (f s).

Definition append_rpc (fault : CallFault) (token : string) (now : DateTime) (e : ProtoConfigEntry) : prog (result N Status) :=
  rpc fault token (λ _, out ← append_entry now (Some e); mret out.2).
Definition list_rpc (fault : CallFault) (token : string) (req : ListEntriesRequest) : prog (result (list ProtoConfigEntry) Status) :=
  rpc fault token (λ _, reading (λ s, ok_or (list_entries req s) handler_panicked)).

(** [map_err(|e| anyhow!("{what}: {e}"))]. *)
Definition or_text {A} (what : string) (r : result A Status) : result A string :=
  match r with Ok x => Ok x | Err st => Err (what +:+ ": " +:+ status_text st) end.

(** A stream of answers, possibly cut off by an error after some of them. *)
Definition stream_of {A} (cut : option (nat * Status)) (l : list A) : list (result A Status) :=
  match cut with
  | None => Ok <$> l
  | Some (k, st) => (Ok <$> take k l) ++ [Err st]
  end.
(** The loops that collect a stream and fail at its first error. *)
Fixpoint collect {A} (what : string) (l : list (result A Status)) : result (list A) string :=
  match l with
  | [] => Ok []
  | Err st :: _ => Err (what +:+ ": " +:+ status_text st)
  | Ok x :: l' => let? xs := collect what l' in Ok (x :: xs)
  end.

(** ** Status and log *)

Definition status (fault : CallFault) (token node_id : string) : prog (result string string) :=
  r ← rpc fault token (λ _, reading (get_node_state node_id));
  mret (let? ns := or_text "status query failed" r in Ok ("Node: " +:+ ns.1 +:+ "  State: " +:+ ns.2)).

Definition parse_scope_filter (s : string) : ProtoScope :=
  match Str.strip_prefix "node:" s with
  | Some node => PNodeId node
  | None => match Str.strip_prefix "vc:" s with Some vc => PVclusterId vc | None => PGlobal true end
  end.

Definition entry_type_name (n : Z) : string :=
  match n with
  | 1 => "COMMIT" | 2 => "ROLLBACK" | 3 => "AUTO_CONVERGE" | 4 => "DRIFT_DETECTED" | 5 => "CAPABILITY_CHANGE"
  | 6 => "POLICY_UPDATE" | 7 => "BOOT_CONFIG" | 8 => "EMERGENCY_ON" | 9 => "EMERGENCY_OFF" | 10 => "EXEC_LOG"
  | 11 => "SHELL_SESSION" | 12 => "SERVICE_LIFECYCLE" | 13 => "PENDING_APPROVAL" | _ => "UNKNOWN"
  end%Z.
Definition proto_scope_text (s : option (option ProtoScope)) : string :=
  match s with
  | Some (Some (PNodeId n)) => "node:" +:+ n
  | Some (Some (PVclusterId v)) => "vc:" +:+ v
  | _ => "global"
  end.
Definition time_text (fmt : DateTime → string) (ts : option ProtoTimestamp) : string :=
  match ts with Some t => from_option fmt "---" (from_timestamp (ts_seconds t) 0) | None => "---" end.
Definition format_proto_entry (e : ProtoConfigEntry) : string :=
  "#" +:+ pad_right 6 (pretty (pe_sequence e)) +:+ " " +:+ time_text format_date (pe_timestamp e) +:+ " " +:+
  pad_right 18 (entry_type_name (pe_entry_type e)) +:+ " " +:+ pad_right 20 (proto_scope_text (pe_scope e)) +:+ " by " +:+
  from_option pi_principal "unknown" (pe_author e).

Definition log (fault : CallFault) (cut : option (nat * Status)) (token : string) (limit : N) (scope : option string)
    : prog (result string string) :=
  r ← list_rpc fault token {| le_scope := Some ∘ parse_scope_filter <$> scope; le_from := None; le_to := None; le_limit := Some limit |};
  mret (let? listed := or_text "log query failed" r in
        let? es := collect "log stream error" (stream_of cut listed) in
        Ok (match es with [] => "No entries found." | _ => Str.join nl (format_proto_entry <$> es) end)).

(** ** Commands that append an entry *)

Definition cli_author (principal role : string) : ProtoIdentity :=
  {| pi_principal := principal; pi_principal_type := "Human"; pi_role := role |}.
Definition cli_entry (ty : Z) (scope : ProtoScope) (author : ProtoIdentity) (parent : option N)
    (delta : option ProtoStateDelta) (policy_ref : string) (reason : option string) : ProtoConfigEntry :=
  {| pe_sequence := 0; pe_timestamp := None; pe_entry_type := ty; pe_scope := Some (Some scope); pe_author := Some author;
     pe_parent := parent; pe_state_delta := delta; pe_policy_ref := policy_ref; pe_ttl := None; pe_emergency_reason := reason |}.

(** An append with the text of the command's answer. *)
Definition append_command (fault : CallFault) (token : string) (now : DateTime) (what : string) (e : ProtoConfigEntry)
    (answer : N → string) : prog (result string string) :=
  r ← append_rpc fault token now e;
  mret (let? seq := or_text what r in Ok (answer seq)).

Definition commit_entry (message vcluster principal role : string) : ProtoConfigEntry :=
  cli_entry 1 (PVclusterId vcluster) (cli_author principal role) None None message None.
Definition commit (fault : CallFault) (token : string) (now : DateTime) (message vcluster principal role : string) :=
  append_command fault token now "commit failed" (commit_entry message vcluster principal role)
    (λ seq, "Committed (seq:" +:+ pretty seq +:+ ") on vCluster: " +:+ vcluster).

Definition rollback_entry (target : N) (vcluster principal role : string) : ProtoConfigEntry :=
  cli_entry 2 (PVclusterId vcluster) (cli_author principal role) (Some target) None "" None.
Definition rollback (fault : CallFault) (token : string) (now : DateTime) (target : N) (vcluster principal role : string) :=
  append_command fault token now "rollback failed" (rollback_entry target vcluster principal role)
    (λ seq, "Rolled back to seq:" +:+ pretty target +:+ " (new seq:" +:+ pretty seq +:+ ")").

Definition emergency_start (fault : CallFault) (token : string) (now : DateTime) (reason vcluster principal role : string) :=
  append_command fault token now "emergency start failed"
    (cli_entry 8 (PVclusterId vcluster) (cli_author principal role) None None "" (Some reason))
    (λ seq, "Emergency mode ACTIVE (seq:" +:+ pretty seq +:+ ") on vCluster: " +:+ vcluster +:+ nl +:+ "Reason: " +:+ reason).
Definition emergency_end (fault : CallFault) (token : string) (now : DateTime) (vcluster principal role : string) :=
  append_command fault token now "emergency end failed"
    (cli_entry 9 (PVclusterId vcluster) (cli_author principal role) None None "" None)
    (λ seq, "Emergency mode ENDED (seq:" +:+ pretty seq +:+ ") on vCluster: " +:+ vcluster).

Definition blacklist_add (fault : CallFault) (token : string) (now : DateTime) (pattern vcluster principal role : string) :=
  append_command fault token now "blacklist add failed"
    (cli_entry 1 (PVclusterId vcluster) (cli_author principal role) None None ("blacklist:add:" +:+ pattern) None)
    (λ seq, format_blacklist_result {| bl_operation := BlAdd pattern; bl_paths := [pattern] |} +:+ " (seq:" +:+ pretty seq +:+
       ") on vCluster: " +:+ vcluster).
Definition blacklist_remove (fault : CallFault) (token : string) (now : DateTime) (pattern vcluster principal role : string) :=
  append_command fault token now "blacklist remove failed"
    (cli_entry 1 (PVclusterId vcluster) (cli_author principal role) None None ("blacklist:remove:" +:+ pattern) None)
    (λ seq, format_blacklist_result {| bl_operation := BlRemove pattern; bl_paths := [pattern] |} +:+ " (seq:" +:+ pretty seq +:+
       ") on vCluster: " +:+ vcluster).

(** ** Apply *)

Definition apply_entry (spec_path principal role : string) (vc : string * VClusterSpec) : ProtoConfigEntry :=
  cli_entry 1 (PVclusterId vc.1) (cli_author principal role) None (Some (state_delta_to_proto (spec_to_delta vc.2)))
    ("apply:" +:+ spec_path) None.
(** The loop over the vClusters of the file; each append has its own fate
    and its own time. *)
Fixpoint apply_each (fates : nat → CallFault * DateTime) (token spec_path principal role : string) (i : nat)
    (vcs : list (string * VClusterSpec)) (results : list string) : prog (result (list string) string) :=
  match vcs with
  | [] => mret (Ok results)
  | vc :: rest =>
      r ← append_rpc (fates i).1 token (fates i).2 (apply_entry spec_path principal role vc);
      match or_text ("apply failed for " +:+ vc.1) r with
      | Err e => mret (Err e)
      | Ok seq => apply_each fates token spec_path principal role (S i) rest
                    (results ++ ["Applied to " +:+ vc.1 +:+ " (seq:" +:+ pretty seq +:+ ")"])
      end
  end.
Definition cli_apply (fates : nat → CallFault * DateTime) (token : string) (spec : result ApplySpec string)
    (spec_path principal role : string) : prog (result string string) :=
  match spec with
  | Err e => mret (Err e)
  | Ok spec =>
      match as_vcluster spec with
      | [] => mret (Ok "No changes in spec file.")
      | vcs =>
          r ← apply_each fates token spec_path principal role 0 vcs [];
          mret (let? results := r in Ok (format_spec_summary spec +:+ nl +:+ nl +:+ Str.join nl results))
      end
  end.

(** ** Promote *)

(** The client's own [proto_to_state_delta]: unlike the journal's it drops
    what a mount declares. *)
Definition cli_proto_to_state_delta (p : ProtoStateDelta) : StateDelta :=
  {| delta_mounts := (λ m, delta_item (proto_action (md_action m)) (md_path m) None None) <$> ps_mounts p;
     delta_files := (λ f, delta_item (proto_action (fd_action f)) (fd_path f) (fd_content_hash f) (fd_owner f)) <$> ps_files p;
     delta_network := (λ n, delta_item (proto_action (nd_action n)) (nd_interface n) (nd_detail n) None) <$> ps_network p;
     delta_services := (λ s, delta_item (proto_action (sd_action s)) (sd_name s) (sd_declared_state s) (sd_actual_state s)) <$> ps_services p;
     delta_kernel := (λ k, delta_item (proto_action (kd_action k)) (kd_key k) (kd_declared_value k) (kd_actual_value k)) <$> ps_kernel p;
     delta_packages := (λ q, delta_item (proto_action (pd_action q)) (pd_name q) (pd_version q) None) <$> ps_packages p;
     delta_gpu := (λ g, delta_item (proto_action (gd_action g)) (pretty (gd_gpu_index g)) (gd_detail g) None) <$> ps_gpu p |}.

Definition promoted_delta (e : ProtoConfigEntry) : option StateDelta :=
  if (pe_entry_type e =? 1)%Z then cli_proto_to_state_delta <$> pe_state_delta e else None.

(** [sort_unstable] of the section names and [dedup]. *)
Definition text_le (a b : string) : Prop := String.leb a b = true.
#[export] Instance text_le_dec : RelDecision text_le.
Proof. intros a b. unfold text_le. apply _. Defined.
Fixpoint dedup (l : list string) : list string :=
  match l with
  | [] => []
  | a :: rest => match rest with
                 | b :: _ => if decide (a = b) then dedup rest else a :: dedup rest
                 | [] => [a]
                 end
  end.
Definition used_sections (d : StateDelta) : list string :=
  omap (λ sec : string * list DeltaItem, if bool_decide (sec.2 = []) then None else Some sec.1)
    [("kernel", delta_kernel d); ("services", delta_services d); ("mounts", delta_mounts d); ("files", delta_files d);
     ("network", delta_network d); ("packages", delta_packages d); ("gpu", delta_gpu d)].
Definition promote_node (fault : CallFault) (cut : option (nat * Status)) (token node_id : string) (dry_run : bool)
    : prog (result string string) :=
  r ← list_rpc fault token {| le_scope := Some (Some (PNodeId node_id)); le_from := None; le_to := None; le_limit := None |};
  mret (let? listed := or_text "promote query failed" r in
        let? es := collect "promote stream error" (stream_of cut listed) in
        match omap promoted_delta es with
        | [] => Ok ("No committed deltas found for node " +:+ node_id +:+ ".")
        | deltas =>
            let count := pretty (length deltas) in
            if dry_run then
              let sections := dedup (sort_by text_le (mjoin (used_sections <$> deltas))) in
              Ok ("DRY RUN — would export " +:+ count +:+ " delta(s) from node " +:+ node_id +:+ nl +:+ "Sections: " +:+
                  match sections with [] => "(none)" | _ => Str.join ", " sections end)
            else Ok ("Exported " +:+ count +:+ " delta(s) from node " +:+ node_id +:+ nl +:+ nl +:+ export_deltas_as_toml deltas)
        end).

(** ** Approvals *)

Definition approval_row (a : PendingApprovalEntry) : option string :=
  id ← (if decide (10 < String.length (pa_approval_id a)) then slice_to 10 (pa_approval_id a) else Some (pa_approval_id a));
  Some (pad_right 12 id +:+ " " +:+ pad_right 20 (pa_scope a) +:+ " " +:+ pad_right 10 (pa_action a) +:+ " " +:+
        pad_right 24 (pa_requester a) +:+ " " +:+ pa_status a +:+ nl).
(** The listing; [None] is the panic of the slice. *)
Definition approval_table (approvals : list PendingApprovalEntry) : option string :=
  match approvals with
  | [] => Some "No pending approvals."
  | _ => (λ rows, pad_right 12 "ID" +:+ " " +:+ pad_right 20 "SCOPE" +:+ " " +:+ pad_right 10 "ACTION" +:+ " " +:+
            pad_right 24 "REQUESTER" +:+ " STATUS" +:+ nl +:+ Str.join "" rows) <$> mapM approval_row approvals
  end.
Definition approve_list (fault : CallFault) (token : string) (scope : option string) : prog (result (option string) string) :=
  r ← rpc fault token (λ _, reading (λ s, Ok (list_pending_approvals scope s)));
  mret (let? approvals := or_text "list approvals failed" r in Ok (approval_table approvals)).

(** The reason of a denial is sent along; the journal does not look at it. *)
Definition approve_decide (fault : CallFault) (token approval_id decision principal role : string) : prog (result string string) :=
  r ← rpc fault token (λ _, decide_approval
        {| da_approval_id := approval_id; da_approver := Some (cli_author principal role); da_decision := decision |});
  mret (let? result := or_text "decide approval failed" r in
        if dar_success result then Ok ("Approval " +:+ approval_id +:+ ": " +:+ decision)
        else Err ("approval decision failed: " +:+ default "unknown error" (dar_error result))).

(** ** Watch *)

Definition update_kind (u : option UpdatePayload) : string :=
  match u with
  | Some (VClusterChange _) => "OVERLAY" | Some (NodeChange _) => "NODE_DELTA"
  | Some (PolicyChange _) => "POLICY" | Some (BlacklistChange _) => "BLACKLIST"
  | None => "UNKNOWN"
  end.
Definition watch_line (u : ConfigUpdate) : string :=
  "[" +:+ time_text format_clock (cu_timestamp u) +:+ "] seq:" +:+ pad_right 6 (pretty (cu_sequence u)) +:+ " " +:+
  update_kind (cu_update u).
(** What is printed; the loop stops at an error, which is printed too. *)
Fixpoint watch_lines (stream : list (result ConfigUpdate Status)) : list string :=
  match stream with
  | [] => []
  | Ok u :: rest => watch_line u :: watch_lines rest
  | Err st :: _ => ["Stream error: " +:+ status_text st]
  end.
Definition watch (vcluster : string) (subscribed : result (list (result ConfigUpdate Status)) Status)
    : list string * result string string :=
  match or_text "watch subscribe failed" subscribed with
  | Err e => ([], Err e)
  | Ok stream => (("Watching config updates for vCluster: " +:+ vcluster +:+ " (Ctrl-C to stop)" +:+ nl) :: watch_lines stream,
                  Ok "Watch ended.")
  end.

(** ** Requests to an agent *)

Definition AGENT_DEFAULT_PORT : N := 9445.
(** [resolve_agent_address]: a node the journal does not know yet is looked
    up by name. *)
Definition resolve_agent_address (fault : CallFault) (token node_id : string) : prog (result string string) :=
  if decide (node_id = "local" ∨ node_id = "localhost") then mret (Ok ("http://127.0.0.1:" +:+ pretty AGENT_DEFAULT_PORT))
  else
    r ← rpc fault token (λ _, reading (get_node_state node_id));
    mret match r with
         | Ok _ => Ok ("http://" +:+ node_id +:+ ":" +:+ pretty AGENT_DEFAULT_PORT)
         | Err st => if decide (status_code st = NotFound) then Ok ("http://" +:+ node_id +:+ ":" +:+ pretty AGENT_DEFAULT_PORT)
                     else Err ("cannot resolve node '" +:+ node_id +:+ "': " +:+ status_text st)
         end.

(** The loop over the answers of [exec]; [None] is an empty message. *)
Fixpoint exec_stream (stream : list (result (option ExecOutput) Status)) (out err : bytes) (code : Z)
    : result (bytes * bytes * Z) string :=
  match stream with
  | [] => Ok (out, err, code)
  | Err st :: _ => Err ("exec stream error: " +:+ status_text st)
  | Ok (Some (Stdout d)) :: rest => exec_stream rest (out ++ d) err code
  | Ok (Some (Stderr d)) :: rest => exec_stream rest out (err ++ d) code
  | Ok (Some (ExitCode c)) :: rest => exec_stream rest out err c
  | Ok (Some (ErrorText e)) :: _ => Err e
  | Ok None :: rest => exec_stream rest out err code
  end.
Definition exec_text (out err : bytes) (code : Z) : string :=
  let o := if bool_decide (out = []) then "" else from_utf8_lossy out in
  let o := if bool_decide (err = []) then o
           else o +:+ (if Str.is_empty o then "" else nl) +:+ from_utf8_lossy err in
  if (code =? 0)%Z then o else o +:+ nl +:+ "(exit code: " +:+ pretty code +:+ ")".
Definition exec_remote (answer : result (list (result (option ExecOutput) Status)) Status) : result string string :=
  let? stream := or_text "exec failed" answer in
  let? r := exec_stream stream [] [] 0 in
  let '(out, err, code) := r in Ok (exec_text out err code).

Record CommandEntry := { ce_command : string; ce_state_changing : bool; ce_description : string }.
Definition list_agent_commands (answer : result (list CommandEntry) Status) : result string string :=
  let? commands := or_text "list commands failed" answer in
  Ok (match commands with
      | [] => "No commands available."
      | _ => pad_right 24 "COMMAND" +:+ " " +:+ pad_right 6 "STATE" +:+ " DESCRIPTION" +:+ nl +:+
             Str.join "" ((λ c, pad_right 24 (ce_command c) +:+ " " +:+ pad_right 6 (if ce_state_changing c then "yes" else "no") +:+
               " " +:+ ce_description c +:+ nl) <$> commands)
      end).

Definition cli_extend (mins : N) (answer : result ExtendWindowResponse Status) : result string string :=
  let? r := or_text "extend failed" answer in
  if ew_success r then
    Ok ("Commit window extended by " +:+ pretty mins +:+ " minutes (" +:+ pretty (ew_new_deadline_seconds r `div` 60)%N +:+
        " minutes remaining)")
  else Err ("extend failed: " +:+ default "unknown error" (ew_error r)).

Inductive ShellOutput := SoStdout (data : bytes) | SoSessionId (id : string) | SoExitCode (code : Z) | SoError (e : string).
Inductive Printed := PrintOut (data : bytes) | PrintErr (text : string).
(** [shell_interactive]: an error of the stream ends the session quietly. *)
Fixpoint shell_stream (stream : list (result (option ShellOutput) Status)) : list Printed * result string string :=
  match stream with
  | [] | Err _ :: _ => ([], Ok "Shell session ended.")
  | Ok (Some (SoStdout d)) :: rest => let '(ps, r) := shell_stream rest in (PrintOut d :: ps, r)
  | Ok (Some (SoSessionId id)) :: rest => let '(ps, r) := shell_stream rest in (PrintErr ("Shell session: " +:+ id) :: ps, r)
  | Ok (Some (SoExitCode c)) :: _ => ([], Ok ("Shell exited with code " +:+ pretty c))
  | Ok (Some (SoError e)) :: _ => ([], Err ("shell error: " +:+ e))
  | Ok None :: rest => shell_stream rest
  end.
Definition shell_open (term : option string) : ShellInput := InOpen 24 80 (default "xterm" term).
Definition shell_interactive (answer : result (list (result (option ShellOutput) Status)) Status)
    : list Printed * result string string :=
  match or_text "shell connection failed" answer with
  | Err e => ([], Err e)
  | Ok stream => shell_stream stream
  end.

(** diag.rs *)
Definition diag_request (source : string) (service grep : option string) (lines : N) : DiagRequest :=
  {| dr_source_filter := source; dr_service_name := default "" service; dr_grep_pattern := default "" grep; dr_line_limit := lines |}.
Definition chunk_text (c : DiagChunk) : string :=
  match dc_lines c with
  | [] => ""
  | lines => "--- " +:+ dc_source c +:+ " ---" +:+ nl +:+ Str.join "" ((λ l, l +:+ nl) <$> lines) +:+
             (if dc_truncated c then "(truncated)" +:+ nl else "")
  end.
Definition diag_node (answer : result (list (result DiagChunk Status)) Status) : result string string :=
  let? stream := or_text "diag failed" answer in
  let? chunks := collect "diag stream error" stream in
  let output := Str.join "" (chunk_text <$> chunks) in
  Ok (if Str.is_empty output then "No log entries found." else output).
Definition diag_fleet : result string string :=
  Err "fleet-wide diag requires --node or is not yet implemented for vCluster fan-out".

(** ** Groups *)

(** The vClusters that occur in scopes of the journal, as a sorted set. *)
Definition entry_vcluster (e : ProtoConfigEntry) : option string :=
  match pe_scope e with Some (Some (PVclusterId vc)) => Some vc | _ => None end.
Definition vcluster_ids (es : list ProtoConfigEntry) : list string :=
  sort_by text_le (elements (list_to_set (omap entry_vcluster es) : gset string)).
Definition group_summary (vc : string) (r : result ProtoVClusterPolicy Status) : GroupSummary :=
  match r with
  | Ok p => {| gs_name := vc; gs_node_count := 0;
               gs_enforcement_mode := if Str.is_empty (pp_enforcement_mode p) then "observe" else pp_enforcement_mode p;
               gs_two_person_approval := pp_two_person_approval p |}
  | Err _ => {| gs_name := vc; gs_node_count := 0; gs_enforcement_mode := "observe"; gs_two_person_approval := false |}
  end.
Fixpoint group_summaries (faults : nat → CallFault) (token : string) (i : nat) (vcs : list string) : prog (list GroupSummary) :=
  match vcs with
  | [] => mret []
  | vc :: rest =>
      r ← rpc (faults i) token (λ _, reading (svc_get_effective_policy vc));
      gs ← group_summaries faults token (S i) rest;
      mret (group_summary vc r :: gs)
  end.
Definition group_list (fault : CallFault) (cut : option (nat * Status)) (faults : nat → CallFault) (token : string)
    : prog (result string string) :=
  r ← list_rpc fault token {| le_scope := None; le_from := None; le_to := None; le_limit := None |};
  match (let? listed := or_text "list entries failed" r in collect "list entries stream error" (stream_of cut listed)) with
  | Err e => mret (Err e)
  | Ok es =>
      match vcluster_ids es with
      | [] => mret (Ok "No vClusters configured.")
      | vcs => gs ← group_summaries faults token 0 vcs; mret (Ok (format_group_list gs))
      end
  end.

(** [group_show] converts the policy itself: an update time chrono cannot
    represent is dropped, and empty texts get defaults. *)
Definition group_policy (p : ProtoVClusterPolicy) : VClusterPolicy :=
  {| pol_vcluster_id := pp_vcluster_id p;
     pol_policy_id := pp_policy_id p;
     pol_updated_at := pp_updated_at p ≫= λ ts, from_timestamp (ts_seconds ts) (i64_as_u32 (ts_nanos ts));
     pol_drift_sensitivity := pp_drift_sensitivity p;
     pol_base_commit_window_seconds := pp_base_commit_window_seconds p;
     pol_emergency_window_seconds := pp_emergency_window_seconds p;
     pol_auto_converge_categories := pp_auto_converge_categories p;
     pol_require_ack_categories := pp_require_ack_categories p;
     pol_enforcement_mode := if Str.is_empty (pp_enforcement_mode p) then "observe" else pp_enforcement_mode p;
     pol_role_bindings := (λ rb, {| binding_role := binding_role rb; binding_principals := binding_principals rb;
        binding_allowed_actions := binding_allowed_actions rb |}) <$> pp_role_bindings p;
     pol_regulated := pp_regulated p;
     pol_two_person_approval := pp_two_person_approval p;
     pol_emergency_allowed := pp_emergency_allowed p;
     pol_audit_retention_days := pp_audit_retention_days p;
     pol_federation_template := pp_federation_template p;
     pol_supervisor_backend := if Str.is_empty (pp_supervisor_backend p) then "pact" else pp_supervisor_backend p;
     pol_ai_exec_allowed := pp_ai_exec_allowed p;
     pol_exec_whitelist := pp_exec_whitelist p;
     pol_shell_whitelist := pp_shell_whitelist p |}.
Definition group_show (fault : CallFault) (token name : string) : prog (result string string) :=
  r ← rpc fault token (λ _, reading (svc_get_effective_policy name));
  mret (let? p := or_text ("get policy for '" +:+ name +:+ "' failed") r in
        Ok (format_group_detail {| gd_name := name; gd_policy := group_policy p; gd_node_ids := [] |})).

(** [group_set_policy]; [read] and [from_toml] are the file system and the
    TOML parser. *)
Definition set_policy_message (name : string) (p : VClusterPolicy) : ProtoVClusterPolicy :=
  {| pp_vcluster_id := name;
     pp_policy_id := pol_policy_id p;
     pp_updated_at := None;
     pp_drift_sensitivity := pol_drift_sensitivity p;
     pp_base_commit_window_seconds := pol_base_commit_window_seconds p;
     pp_emergency_window_seconds := pol_emergency_window_seconds p;
     pp_auto_converge_categories := pol_auto_converge_categories p;
     pp_require_ack_categories := pol_require_ack_categories p;
     pp_enforcement_mode := pol_enforcement_mode p;
     pp_role_bindings := (λ rb, {| binding_role := binding_role rb; binding_principals := binding_principals rb;
        binding_allowed_actions := binding_allowed_actions rb |}) <$> pol_role_bindings p;
     pp_regulated := pol_regulated p;
     pp_two_person_approval := pol_two_person_approval p;
     pp_audit_retention_days := pol_audit_retention_days p;
     pp_federation_template := pol_federation_template p;
     pp_supervisor_backend := pol_supervisor_backend p;
     pp_exec_whitelist := pol_exec_whitelist p;
     pp_shell_whitelist := pol_shell_whitelist p;
     pp_emergency_allowed := pol_emergency_allowed p;
     pp_ai_exec_allowed := pol_ai_exec_allowed p |}.
Definition group_set_policy (fault : CallFault) (read : string → result string string)
    (from_toml : string → result VClusterPolicy string) (token name policy_path : string) : prog (result string string) :=
  match read policy_path with
  | Err e => mret (Err ("cannot read policy file " +:+ policy_path +:+ ": " +:+ e))
  | Ok content =>
      match from_toml content with
      | Err e => mret (Err ("invalid policy TOML in " +:+ policy_path +:+ ": " +:+ e))
      | Ok policy =>
          r ← rpc fault token (λ _, update_policy {| up_vcluster_id := name; up_policy := Some (set_policy_message name policy) |});
          mret (let? result := or_text "update policy failed" r in
                if upr_success result then Ok ("Policy updated for vCluster '" +:+ name +:+ "' (ref: " +:+ upr_policy_ref result +:+ ")")
                else Err ("policy update failed: " +:+ default "unknown error" (upr_error result)))
      end
  end.

End client.

(** ** What a command does to the journal *)

Section properties.
Context `{Chrono} `{ChronoTimestamp} `{EntryJson} `{CliApi}.

(** The journal holds, under [seq], the entry a request asked for. *)
Definition recorded (s : JournalState) (now : DateTime) (p : ProtoConfigEntry) (seq : N) : Prop :=
  ∃ e, proto_to_config_entry now p = Ok e ∧ entries s !! seq = Some (with_sequence e seq).

Lemma recorded_mono s log now p seq :
  journal_wf s → (next_sequence s + N.of_nat (length log) < 2 ^ 64)%N →
  recorded s now p seq → recorded (apply_log log s) now p seq.
Proof.
  intros Hwf Hlen (e & Hp & He). exists e. split; [done|].
  eapply lookup_weaken; [done|]. by apply apply_log_entries_mono.
Qed.

(** The numbers of entries suffice for all that happens in a run. *)
Definition fits (h : list occurrence) (s : JournalState) : Prop :=
  (next_sequence s + N.of_nat (length (commands h)) < 2 ^ 64)%N.

(** The second part of a run starts in a well-formed journal with numbers
    enough. *)
Lemma fits_app {R} (p : prog R) h1 h2 s s1 r tr :
  journal_wf s → runs_in h1 s p s1 r tr → fits (h1 ++ h2) s →
  fits h1 s ∧ journal_wf s1 ∧ fits h2 s1 ∧ (next_sequence s <= next_sequence s1)%N.
Proof.
  unfold fits. rewrite commands_app, length_app. intros Hwf Hr Hf. rewrite (runs_in_state _ _ _ _ _ _ Hr).
  pose proof (apply_log_next_sequence (commands h1) s ltac:(lia)).
  split_and!; [lia|apply apply_log_wf; [lia|done]|lia|]. apply apply_log_next_sequence_mono. lia.
Qed.
Lemma recorded_runs {R} (p : prog R) h s s' r tr now e seq :
  journal_wf s → runs_in h s p s' r tr → fits h s → recorded s now e seq → recorded s' now e seq.
Proof. intros Hwf Hr Hf. rewrite (runs_in_state _ _ _ _ _ _ Hr). by apply recorded_mono. Qed.

(** An append the client is told about happened, at a number not below the
    counter at its start and below the counter afterwards. *)
Lemma append_rpc_recorded fault token now p h s s' seq tr :
  journal_wf s → runs_in h s (append_rpc fault token now p) s' (Ok seq) tr → fits h s →
  recorded s' now p seq ∧ (next_sequence s <= seq < next_sequence s')%N.
Proof.
  intros Hwf. unfold append_rpc, rpc.
  destruct (client_header token) as [hd|st]; [|by intros (? & _)%runs_in_ret_inv].
  destruct fault as [|st|st]; [|by intros (? & _)%runs_in_ret_inv|]; (destruct (auth_interceptor hd) as [?|?]; [|by intros (? & _)%runs_in_ret_inv]).
  2: { intros (? & ? & ? & ? & ? & ? & _ & (? & _)%runs_in_ret_inv & _)%runs_in_bind_inv. done. }
  intros (h1 & h2 & s1 & [ups r] & tr1 & tr2 & Hr & Hret & -> & _)%runs_in_bind_inv Hfit.
  destruct (fits_app _ _ _ _ _ _ _ Hwf Hr Hfit) as (Hf1 & Hwf1 & Hf2 & _).
  pose proof Hret as (Heq & _)%runs_in_ret_inv. simpl in Heq. subst r.
  rewrite (runs_in_state _ _ _ _ _ _ Hret). pose proof (runs_in_state _ _ _ _ _ _ Hr) as Hs1. unfold fits in *.
  destruct (append_entry_runs_in _ _ _ _ _ _ _ _ Hr) as (e & log1 & t & log2 & log3 & Hp & Hresp & Hh & _ & _).
  rewrite Hh, <- app_assoc in Hs1. rewrite Hh, !length_app in Hf1. simpl in Hf1.
  destruct (appended_persists log1 t e (log2 ++ log3) s seq Hwf) as [He Hseq]; [rewrite !length_app; simpl; rewrite length_app; lia|done|].
  simpl in Hs1. rewrite <- Hs1 in He. split; [|split].
  - apply recorded_mono; [done..|]. by exists e.
  - rewrite Hseq. apply apply_log_next_sequence_mono. lia.
  - assert (seq < next_sequence s1)%N by (apply (proj1 (jw_entries s1 Hwf1)); by eexists).
    pose proof (apply_log_next_sequence_mono (commands h2) s1). lia.
Qed.

(** The commands that append one entry: an answer means that the journal
    holds that entry, under the number the answer names. *)
Lemma append_command_recorded fault token now what p answer h s s' text tr :
  journal_wf s → runs_in h s (append_command fault token now what p answer) s' (Ok text) tr → fits h s →
  ∃ seq, text = answer seq ∧ recorded s' now p seq ∧ (next_sequence s <= seq)%N.
Proof.
  intros Hwf (h1 & h2 & s1 & r & tr1 & tr2 & Hr & Hret & -> & _)%runs_in_bind_inv Hfit.
  destruct (fits_app _ _ _ _ _ _ _ Hwf Hr Hfit) as (Hf1 & Hwf1 & Hf2 & _).
  pose proof Hret as (Heq & _)%runs_in_ret_inv. destruct r as [seq|st]; simplify_eq/=.
  destruct (append_rpc_recorded _ _ _ _ _ _ _ _ _ Hwf Hr Hf1) as [Hrec ?]. exists seq. split; [done|]. split; [|lia].
  by eapply recorded_runs.
Qed.

(** ** Apply *)

(** The entries of the vClusters [vcs] are in the journal under [seqs], in
    the order of the file; the [i]-th was appended at the [i]-th time. *)
Inductive applied (fates : nat → CallFault * DateTime) (spec_path principal role : string) (s : JournalState) :
    nat → N → list (string * VClusterSpec) → list N → Prop :=
| applied_nil i low : applied fates spec_path principal role s i low [] []
| applied_cons i low vc vcs seq seqs :
    recorded s (fates i).2 (apply_entry spec_path principal role vc) seq → (low <= seq)%N →
    applied fates spec_path principal role s (S i) (seq + 1) vcs seqs →
    applied fates spec_path principal role s i low (vc :: vcs) (seq :: seqs).

Definition applied_line (vc : string * VClusterSpec) (seq : N) : string :=
  "Applied to " +:+ vc.1 +:+ " (seq:" +:+ pretty seq +:+ ")".

Lemma applied_lower fates path pr ro s i low low' vcs seqs :
  (low' <= low)%N → applied fates path pr ro s i low vcs seqs → applied fates path pr ro s i low' vcs seqs.
Proof. intros Hle Ha. destruct Ha; constructor; [done|lia|done]. Qed.

Lemma applied_mono fates path pr ro s log i low vcs seqs :
  journal_wf s → (next_sequence s + N.of_nat (length log) < 2 ^ 64)%N →
  applied fates path pr ro s i low vcs seqs → applied fates path pr ro (apply_log log s) i low vcs seqs.
Proof. intros Hwf Hlen. induction 1; constructor; [by apply recorded_mono|done|done]. Qed.

(** The loop: a prefix of the vClusters has been applied; all of them on
    success, and the one the error names comes next otherwise. *)
Lemma apply_each_runs fates token path pr ro i vcs results h s s' r tr :
  journal_wf s → runs_in h s (apply_each fates token path pr ro i vcs results) s' r tr → fits h s →
  ∃ pre post seqs, vcs = pre ++ post ∧ applied fates path pr ro s' i (next_sequence s) pre seqs ∧
    match r with
    | Ok lines => post = [] ∧ lines = results ++ zip_with applied_line pre seqs
    | Err text => ∃ vc rest st, post = vc :: rest ∧ text = ("apply failed for " +:+ vc.1) +:+ ": " +:+ status_text st
    end.
Proof.
  revert i results h s tr. induction vcs as [|vc vcs IH]; intros i results h s tr Hwf Hr Hfit.
  { apply runs_in_ret_inv in Hr as (-> & _). exists [], [], []. split_and!; [done|constructor|done|]. by rewrite app_nil_r. }
  simpl in Hr. apply runs_in_bind_inv in Hr as (h1 & h2 & s1 & a & tr1 & tr2 & Ha & Hr & -> & _).
  destruct (fits_app _ _ _ _ _ _ _ Hwf Ha Hfit) as (Hf1 & Hwf1 & Hf2 & _).
  destruct a as [seq|st]; last first.
  { apply runs_in_ret_inv in Hr as (-> & _). exists [], (vc :: vcs), []. split_and!; [done|constructor|]. by eexists vc, vcs, st. }
  destruct (append_rpc_recorded _ _ _ _ _ _ _ _ _ Hwf Ha Hf1) as [Hrec Hseq]. simpl in Hr.
  destruct (IH _ _ _ _ _ Hwf1 Hr Hf2) as (pre & post & seqs & -> & Happ & Hres).
  exists (vc :: pre), post, (seq :: seqs). split_and!; [done| |].
  - constructor; [by eapply recorded_runs|lia|]. eapply applied_lower; [|done]. lia.
  - destruct r as [lines|text]; [|done]. destruct Hres as [-> ->]. split; [done|]. by rewrite <- app_assoc.
Qed.

(** C26: [pact apply] works through the vClusters of its file in order: when
    it reports success, the journal holds the entry of every one of them,
    under increasing numbers, and the report lists exactly those numbers;
    when it reports an error, the error names the vCluster that failed, the
    entries of all the ones before it stay in the journal, and nothing is
    undone. This holds whatever else is written to the journal meanwhile,
    and also when answers are lost. *)
Theorem apply_prefix_recorded fates token spec path pr ro h s s' r tr :
  journal_wf s → as_vcluster spec ≠ [] → runs_in h s (cli_apply fates token (Ok spec) path pr ro) s' r tr → fits h s →
  ∃ pre post seqs, as_vcluster spec = pre ++ post ∧ applied fates path pr ro s' 0 (next_sequence s) pre seqs ∧
    match r with
    | Ok text => post = [] ∧
        text = format_spec_summary spec +:+ nl +:+ nl +:+ Str.join nl (zip_with applied_line (as_vcluster spec) seqs)
    | Err text => ∃ vc rest st, post = vc :: rest ∧ text = ("apply failed for " +:+ vc.1) +:+ ": " +:+ status_text st
    end.
Proof.
  unfold cli_apply. intros Hwf Hne. destruct (as_vcluster spec) as [|vc0 vcs0] eqn:Hvcs; [done|].
  intros (h1 & h2 & s1 & a & tr1 & tr2 & Ha & Hr & -> & _)%runs_in_bind_inv Hfit.
  destruct (fits_app _ _ _ _ _ _ _ Hwf Ha Hfit) as (Hf1 & Hwf1 & Hf2 & _).
  destruct (apply_each_runs _ _ _ _ _ _ _ _ _ _ _ _ _ Hwf Ha Hf1) as (pre & post & seqs & Hsplit & Happ & Hres).
  rewrite (runs_in_state _ _ _ _ _ _ Hr). apply runs_in_ret_inv in Hr as (-> & _).
  exists pre, post, seqs. split_and!; [done|by eapply applied_mono|].
  destruct a as [lines|text]; simpl; [|done]. destruct Hres as [-> ->]. split; [done|].
  rewrite app_nil_r in Hsplit. by subst pre.
Qed.

(** ** Reading commands *)

(** A scope printed by the client, given back to [pact log --scope],
    selects exactly the entries of that scope. *)
Theorem scope_filter_roundtrip sc : scope_of_proto (parse_scope_filter (log_scope sc)) = sc.
Proof.
  destruct sc as [|v|n]; [done|..]; unfold parse_scope_filter, log_scope.
  - change (Str.strip_prefix "node:" ("vc:" +:+ v)) with (@None string).
    by rewrite (proj2 (strip_prefix_Some "vc:" _ v) eq_refl).
  - by rewrite (proj2 (strip_prefix_Some "node:" _ n) eq_refl).
Qed.

Lemma collect_ok {A} what (l : list A) : collect what (Ok <$> l) = Ok l.
Proof. induction l as [|x l IH]; [done|]. csimpl. by rewrite IH. Qed.

(** The entries [pact log] asks for, oldest first. *)
Definition log_matching (scope : option string) (s : JournalState) : list (N * ConfigEntry) :=
  filter (λ p, scope_matches (scope_of_proto <$> (parse_scope_filter <$> scope)) p.2 = true)
    (btree_range 0 u64_max (entries s)).

(** Everything in front of a cut of an ordered map's entries has a smaller
    key than everything behind it. *)
Lemma sorted_cut {A} (l : list (N * A)) k :
  StronglySorted key_le l → NoDup l.*1 → ∀ i j, i ∈ (take k l).*1 → j ∈ (drop k l).*1 → (i < j)%N.
Proof.
  intros Hs Hn i j Hi Hj. rewrite <- (take_drop k l) in Hs, Hn.
  rewrite fmap_app in Hn. apply NoDup_app in Hn as (_ & Hn & _).
  apply list_elem_of_fmap in Hi as ([i' x] & -> & Hx). apply list_elem_of_fmap in Hj as ([j' y] & -> & Hy).
  pose proof (StronglySorted_app_1_elem_of _ _ _ _ _ Hs Hx Hy) as Hle. unfold key_le in Hle. simpl in *.
  destruct (decide (i' = j')) as [->|]; [|lia].
  exfalso. apply (Hn j'); apply list_elem_of_fmap; by eexists (j', _).
Qed.

(** [pact log] prints the matching entries with the lowest numbers: when
    more entries match than the limit allows, every entry it prints is older
    than every matching entry it leaves out. *)
Theorem log_shows_oldest token limit scope now s text :
  (run now (log Delivered None token limit scope) s).2 = Ok text →
  ∃ shown hidden, log_matching scope s = shown ++ hidden ∧
    (N.of_nat (length shown) <= limit)%N ∧ (hidden ≠ [] → N.of_nat (length shown) = limit) ∧
    (∀ i j, i ∈ shown.*1 → j ∈ hidden.*1 → (i < j)%N) ∧
    text = match shown with
           | [] => "No entries found."
           | _ => Str.join nl (format_proto_entry <$> (config_entry_to_proto <$> shown.*2))
           end.
Proof.
  unfold log, list_rpc, rpc. destruct (client_header token) as [h|?]; [|done].
  destruct (auth_interceptor h) as [?|?]; [|done].
  change (run now _ s).2 with (let? listed := or_text "log query failed" (ok_or (list_entries
    {| le_scope := Some ∘ parse_scope_filter <$> scope; le_from := None; le_to := None; le_limit := Some limit |} s) handler_panicked) in
    let? es := collect "log stream error" (stream_of None listed) in
    Ok (match es with [] => "No entries found." | _ => Str.join nl (format_proto_entry <$> es) end)).
  unfold list_entries, select_entries. cbn [le_from le_to le_limit le_scope default from_option id].
  replace (scope_of_proto <$> mjoin (Some ∘ parse_scope_filter <$> scope))
    with (scope_of_proto <$> (parse_scope_filter <$> scope)) by (by destruct scope).
  change (u64_max <? 0)%N with false. cbn [fmap option_fmap option_map ok_or or_text stream_of].
  fold (log_matching scope s). rewrite collect_ok, takeN_take. set (l := log_matching scope s). simpl.
  intros [= <-]. exists (take (N.to_nat limit) l), (drop (N.to_nat limit) l).
  split_and!; [by rewrite take_drop|rewrite length_take; lia| | |].
  - intros Hd. rewrite length_take. destruct (decide (N.to_nat limit <= length l)); [lia|].
    exfalso. apply Hd. apply drop_ge. lia.
  - apply sorted_cut; unfold l, log_matching, btree_range.
    + apply StronglySorted_filter, StronglySorted_filter, btree_iter_sorted.
    + eapply sublist_NoDup; [apply (btree_iter_keys_nodup (entries s))|].
      apply fmap_sublist. etrans; apply sublist_filter.
  - by destruct (take _ l).
Qed.

(** What the user sees of a remote command is what the command wrote and
    its exit code, and the agent's message when the agent refused it. *)
Theorem exec_end_to_end r :
  exec_remote (Ok ((λ o, Ok (Some o)) <$> exec_outputs r)) =
    match r with
    | Ok (res, _) => Ok (exec_text (ex_stdout res) (ex_stderr res) (ex_exit_code res))
    | Err e => Err (shell_error_text e)
    end.
Proof.
  destruct r as [[res b]|e]; [|done]. unfold exec_remote, exec_outputs. simpl.
  repeat case_bool_decide; simpl; by repeat match goal with H : _ = [] |- _ => rewrite H; clear H end.
Qed.

(** ** Policies *)

(** The policy of a file as [pact group set-policy] stores it. *)
Definition policy_as_set (name : string) (p : VClusterPolicy) : VClusterPolicy :=
  {| pol_vcluster_id := name; pol_policy_id := pol_policy_id p; pol_updated_at := None;
     pol_drift_sensitivity := pol_drift_sensitivity p;
     pol_base_commit_window_seconds := pol_base_commit_window_seconds p;
     pol_emergency_window_seconds := pol_emergency_window_seconds p;
     pol_auto_converge_categories := pol_auto_converge_categories p;
     pol_require_ack_categories := pol_require_ack_categories p;
     pol_enforcement_mode := pol_enforcement_mode p; pol_role_bindings := pol_role_bindings p;
     pol_regulated := pol_regulated p; pol_two_person_approval := pol_two_person_approval p;
     pol_emergency_allowed := pol_emergency_allowed p; pol_audit_retention_days := pol_audit_retention_days p;
     pol_federation_template := pol_federation_template p; pol_supervisor_backend := pol_supervisor_backend p;
     pol_ai_exec_allowed := pol_ai_exec_allowed p; pol_exec_whitelist := pol_exec_whitelist p;
     pol_shell_whitelist := pol_shell_whitelist p |}.

Lemma role_bindings_copied (l : list RoleBinding) :
  (λ rb, {| binding_role := binding_role rb; binding_principals := binding_principals rb;
            binding_allowed_actions := binding_allowed_actions rb |}) <$> l = l.
Proof. induction l as [|[] l IH]; csimpl; by f_equal. Qed.

Lemma set_policy_message_read name p :
  proto_to_vcluster_policy (set_policy_message name p) = policy_as_set name p.
Proof.
  unfold proto_to_vcluster_policy, set_policy_message, policy_as_set. simpl. by rewrite !role_bindings_copied.
Qed.

(** A policy set from a file is the one in force for the vCluster
    afterwards (under the name of the command line, whatever the file says,
    and without an update time), nothing else of the journal changes, and
    showing the group gives that policy back. *)
Theorem set_policy_in_force read from_toml token name path policy content now s s' text :
  read path = Ok content → from_toml content = Ok policy →
  pol_enforcement_mode policy ≠ "" → pol_supervisor_backend policy ≠ "" →
  run now (group_set_policy Delivered read from_toml token name path) s = (s', Ok text) →
  text = "Policy updated for vCluster '" +:+ name +:+ "' (ref: policy:" +:+ name +:+ ")" ∧
  s' = (apply now (SetPolicy name (policy_as_set name policy)) s).1 ∧
  policies s' !! name = Some (policy_as_set name policy) ∧
  run now (group_show Delivered token name) s' =
    (s', Ok (format_group_detail {| gd_name := name; gd_policy := policy_as_set name policy; gd_node_ids := [] |})).
Proof.
  intros Hread Htoml Hmode Hback. unfold group_set_policy, group_show, rpc. rewrite Hread, Htoml.
  destruct (client_header token) as [h|?]; [|done]. destruct (auth_interceptor h) as [?|?]; [|done].
  simpl. rewrite set_policy_message_read. intros [= <- <-]. split_and!; [done..| |].
  - simpl. apply lookup_insert_eq.
  - unfold svc_get_effective_policy. simpl. rewrite lookup_insert_eq. simpl. do 4 f_equal.
    unfold group_policy, policy_as_set, vcluster_policy_to_proto. simpl. rewrite !role_bindings_copied.
    destruct (pol_enforcement_mode policy); [done|]. by destruct (pol_supervisor_backend policy).
Qed.

End properties.

(** ** Witnesses *)

Module CliSample.

#[export] Existing Instance JournalSample.chrono.
#[export] Existing Instance PolicySample.timestamps.
#[export] Existing Instance ConfigSample.json.
#[export] Instance api : CliApi :=
  {| status_text := status_message; metadata_value := λ _, true;
     insecure_decode := λ t, if decide (t = "alice-token") then Some (Some "alice@example.com", Some "pact-ops-ml") else None;
     format_date := λ _, "date"; format_clock := λ _, "clock";
     handler_panicked := mkStatus Internal "panicked"; from_utf8_lossy := λ _, "out" |}.

Definition vspec (key : string) : VClusterSpec :=
  {| vs_sysctl := [(key, "1")]; vs_mounts := []; vs_files := []; vs_services := []; vs_network := []; vs_packages := [] |}.
Definition spec : ApplySpec := {| as_vcluster := [("ml", vspec "a"); ("hpc", vspec "b")] |}.
(** The answer to the second append is lost. *)
Definition fates (i : nat) : CallFault * DateTime :=
  (if decide (i = 1) then ReplyLost (mkStatus Internal "gone") else Delivered, 5%Z).
Definition applied_run := run 9%Z (cli_apply fates "t" (Ok spec) "f.toml" "alice" "pact-ops-ml") journal_init.
Definition logged : JournalState :=
  (run 9%Z (_ ← append_rpc Delivered "t" 1%Z (commit_entry "m" "ml" "alice" "pact-ops-ml");
            append_rpc Delivered "t" 2%Z (commit_entry "n" "ml" "alice" "pact-ops-ml")) journal_init).1.

End CliSample.
Import CliSample.

Lemma apply_prefix_recorded_witness :
  ∃ pre post seqs, as_vcluster CliSample.spec = pre ++ post ∧
    applied fates "f.toml" "alice" "pact-ops-ml" applied_run.1 0 (next_sequence journal_init) pre seqs ∧
    ∃ vc rest st, post = vc :: rest ∧
      "apply failed for hpc: gone" = ("apply failed for " +:+ vc.1) +:+ ": " +:+ status_text st.
Proof.
  destruct (run_runs_in 9%Z (cli_apply fates "t" (Ok CliSample.spec) "f.toml" "alice" "pact-ops-ml") journal_init) as [tr Htr].
  refine (apply_prefix_recorded fates "t" CliSample.spec "f.toml" "alice" "pact-ops-ml" _ journal_init _
           (Err "apply failed for hpc: gone") tr journal_init_wf ltac:(discriminate) Htr _).
  vm_compute. reflexivity.
Defined.

Lemma log_shows_oldest_witness :
  ∃ shown hidden, log_matching (Some "vc:ml") logged = shown ++ hidden ∧
    (N.of_nat (length shown) <= 1)%N ∧ (hidden ≠ [] → N.of_nat (length shown) = 1%N) ∧
    (∀ i j, i ∈ shown.*1 → j ∈ hidden.*1 → (i < j)%N) ∧
    "#0      date COMMIT             vc:ml                by alice" =
      match shown with
      | [] => "No entries found."
      | _ => Str.join nl (format_proto_entry <$> (config_entry_to_proto <$> shown.*2))
      end.
Proof. apply (log_shows_oldest "t" 1 (Some "vc:ml") 9%Z logged). vm_compute. reflexivity. Defined.

Lemma set_policy_in_force_witness :
  let p := RbacSample.regulated_policy in
  let s' := (apply 9%Z (SetPolicy "hpc" (policy_as_set "hpc" p)) journal_init).1 in
  policies s' !! "hpc" = Some (policy_as_set "hpc" p).
Proof.
  apply (set_policy_in_force (λ _, Ok "toml") (λ _, Ok RbacSample.regulated_policy) "t" "hpc" "p.toml"
           RbacSample.regulated_policy "toml" 9%Z journal_init _
           "Policy updated for vCluster 'hpc' (ref: policy:hpc)");
    [reflexivity|reflexivity|discriminate|discriminate|reflexivity].
Defined.
