(* ===== verification/CliNodes.v ===== *)
(** * Node management commands of the client

    crates/pact-cli/src/commands/node.rs (enrollment commands and the import
    from the SMD inventory), delegate.rs (operations handed to the lattice
    scheduler or to the node management backend), csm.rs and openchami.rs
    (the two backends), and crates/pact-common/src/node_mgmt.rs. HTTP and the
    lattice client are the interfaces [Http] and [LatticeNodes]; requests to
    the journal run its model. *)

From S2P Require Import Prelude Text Types JournalState JournalInvariants JournalProperties Raft.
From S2P Require Import ConfigService PolicyService EnrollmentService CliText CliCommands.
From stdpp Require Import options.
From Stdlib Require Import Ascii.

(** ** Enrollment commands *)

Section enrollment_commands.
Context `{Chrono} `{CliApi} (validator : TokenValidator) (domain_id : string).

(** [client.call(request).await?]: the error is the status itself. *)
Definition or_status {A} (r : result A Status) : result A string :=
  match r with Ok x => Ok x | Err st => Err (status_text st) end.

Definition cli_hardware (mac : string) (bmc_serial : option string) : ProtoHardware :=
  {| ph_mac_address := mac; ph_bmc_serial := default "" bmc_serial; ph_extra := ∅ |}.

Definition cli_enroll (fault : CallFault) (token : string) (now : DateTime) (node_id mac : string) (bmc_serial : option string)
    : prog (result string string) :=
  r ← rpc_plain fault token (λ h, register_node validator domain_id now h
        {| rn_node_id := node_id; rn_hardware_identity := Some (cli_hardware mac bmc_serial) |});
  mret (let? resp := or_status r in Ok ("Enrolled node " +:+ resp.1 +:+ " — state: " +:+ resp.2)).

Definition decommission_text (resp : DecommissionNodeResponse) : string :=
  "Decommissioned node " +:+ dn_node_id resp +:+ " — state: " +:+ dn_enrollment_state resp +:+
  (if Str.is_empty (dn_cert_serial_revoked resp) then ""
   else nl +:+ "  Certificate revoked: " +:+ dn_cert_serial_revoked resp) +:+
  (if (0 <? dn_sessions_terminated resp)%N then nl +:+ "  Sessions terminated: " +:+ pretty (dn_sessions_terminated resp) else "").
Definition cli_decommission (fault : CallFault) (token node_id : string) (force : bool) : prog (result string string) :=
  r ← rpc_plain fault token (λ h, decommission_node validator h node_id force);
  mret (let? resp := or_status r in Ok (decommission_text resp)).

Definition cli_assign (fault : CallFault) (token node_id vcluster_id : string) : prog (result string string) :=
  r ← rpc_plain fault token (λ h, assign_node validator h node_id vcluster_id);
  mret (let? resp := or_status r in Ok ("Assigned node " +:+ resp.1 +:+ " to vCluster " +:+ resp.2)).

Definition cli_unassign (fault : CallFault) (token node_id : string) : prog (result string string) :=
  r ← rpc_plain fault token (λ h, unassign_node validator h node_id);
  mret (let? node := or_status r in Ok ("Unassigned node " +:+ node +:+ " from vCluster")).

Definition cli_move_node (fault : CallFault) (token node_id to_vcluster : string) : prog (result string string) :=
  r ← rpc_plain fault token (λ h, move_node validator h node_id to_vcluster);
  mret (let? resp := or_status r in
        let '(node, from, to) := resp in Ok ("Moved node " +:+ node +:+ " from " +:+ from +:+ " to " +:+ to)).

Definition node_row (n : NodeSummary) : string :=
  pad_right 20 (ns_node_id n) +:+ " " +:+ pad_right 12 (ns_enrollment_state n) +:+ " " +:+
  pad_right 20 (if Str.is_empty (ns_vcluster_id n) then "(none)" else ns_vcluster_id n) +:+ " " +:+
  pad_right 20 (if Str.is_empty (ns_last_seen n) then "-" else ns_last_seen n) +:+ " " +:+ ns_mac_address n +:+ nl.
Definition node_table (nodes : list NodeSummary) : string :=
  match nodes with
  | [] => "No nodes found."
  | _ => pad_right 20 "NODE ID" +:+ " " +:+ pad_right 12 "STATE" +:+ " " +:+ pad_right 20 "VCLUSTER" +:+ " " +:+
         pad_right 20 "LAST SEEN" +:+ " MAC" +:+ nl +:+ repeat_text 90 "-" +:+ nl +:+ Str.join "" (node_row <$> nodes)
  end.
Definition cli_list (fault : CallFault) (token : string) (state_filter vcluster_filter : option string) (unassigned_only : bool)
    : prog (result string string) :=
  r ← rpc_plain fault token (λ h, reading (list_nodes validator h
        {| ln_state_filter := default "" state_filter; ln_vcluster_filter := default "" vcluster_filter;
           ln_unassigned_only := unassigned_only |}));
  mret (let? nodes := or_status r in Ok (node_table nodes)).

Definition inspect_text (r : InspectNodeResponse) : string :=
  "Node: " +:+ in_node_id r +:+ nl +:+
  "  Domain:            " +:+ in_domain_id r +:+ nl +:+
  "  Enrollment State:  " +:+ in_enrollment_state r +:+ nl +:+
  match in_hardware_identity r with
  | Some hw => "  MAC Address:       " +:+ ph_mac_address hw +:+ nl +:+
      (if Str.is_empty (ph_bmc_serial hw) then "" else "  BMC Serial:        " +:+ ph_bmc_serial hw +:+ nl)
  | None => ""
  end +:+
  "  vCluster:          " +:+ (if Str.is_empty (in_vcluster_id r) then "(none)" else in_vcluster_id r) +:+ nl +:+
  (if Str.is_empty (in_cert_serial r) then ""
   else "  Certificate:       " +:+ in_cert_serial r +:+ nl +:+ "  Cert Expires:      " +:+ in_cert_expires_at r +:+ nl) +:+
  (if Str.is_empty (in_last_seen r) then "" else "  Last Seen:         " +:+ in_last_seen r +:+ nl) +:+
  "  Enrolled At:       " +:+ in_enrolled_at r +:+ nl +:+
  "  Enrolled By:       " +:+ in_enrolled_by r +:+ nl +:+
  (if (0 <? in_active_sessions r)%N then "  Active Sessions:   " +:+ pretty (in_active_sessions r) +:+ nl else "").
Definition cli_inspect (fault : CallFault) (token node_id : string) : prog (result string string) :=
  r ← rpc_plain fault token (λ h, reading (inspect_node validator h node_id));
  mret (let? resp := or_status r in Ok (inspect_text resp)).

End enrollment_commands.

(** ** HTTP *)

Inductive HttpBody :=
| NoBody
| CapmcPowerAction (reason : string) (xnames : list string) (force : bool)
| BosSessionRequest (operation limit : string)
| PowerAction (reset_type : string).
Record HttpRequest := { hr_method : string; hr_url : string; hr_bearer : option string; hr_body : HttpBody }.
Record HttpResponse := { hs_status : N; hs_text : string }.

Record SmdComponent := { smd_id : string; smd_state : string; smd_type : string; smd_role : string }.
Record SmdEthernetInterface := { eth_id : string; eth_mac_address : string; eth_component_id : string }.

(** reqwest and the JSON decoding of the answers. *)
Class Http := {
  http_send : HttpRequest → result HttpResponse string;
  status_display : N → string;                 (** "404 Not Found" *)
  bos_session_name : string → option string;
  smd_components : string → result (list SmdComponent) string;
  smd_interfaces : string → option (list SmdEthernetInterface);
}.

Definition is_success (s : N) : bool := ((200 <=? s) && (s <? 300))%N.
Fixpoint trim_end_slash (s : string) : string :=
  match s with
  | EmptyString => EmptyString
  | String a s' => let t := trim_end_slash s' in
      if decide (a = "/"%char ∧ t = EmptyString) then EmptyString else String a t
  end.

(** ** Import from SMD *)

Section smd.
Context `{Chrono} `{CliApi} `{Http} (validator : TokenValidator) (domain_id : string).

Definition smd_get (url : string) (smd_token : option string) : HttpRequest :=
  {| hr_method := "GET"; hr_url := url; hr_bearer := smd_token; hr_body := NoBody |}.
Definition hsm_prefix (env_prefix : option string) : string := default "/hsm/v2" env_prefix.

Definition query_smd_components (env_prefix : option string) (smd_url : string) (smd_token group : option string)
    : result (list SmdComponent) string :=
  let url := trim_end_slash smd_url +:+ hsm_prefix env_prefix +:+ "/State/Components?type=Node" in
  let? resp := http_send (smd_get url smd_token) in
  if is_success (hs_status resp) then
    let? components := smd_components (hs_text resp) in
    Ok (match group with
        | Some g => filter (λ c, eq_ignore_ascii_case (smd_role c) g = true) components
        | None => components
        end)
  else Err ("SMD components query failed: HTTP " +:+ status_display (hs_status resp)).

Definition query_smd_ethernet (env_prefix : option string) (smd_url : string) (smd_token : option string) (component_id : string)
    : result (list SmdEthernetInterface) string :=
  let url := trim_end_slash smd_url +:+ hsm_prefix env_prefix +:+ "/Inventory/EthernetInterfaces?ComponentID=" +:+ component_id in
  let? resp := http_send (smd_get url smd_token) in
  if is_success (hs_status resp) then Ok (default [] (smd_interfaces (hs_text resp))) else Ok [].

Definition component_mac (interfaces : list SmdEthernetInterface) (c : SmdComponent) : string :=
  from_option (λ p, eth_mac_address p.2) "" (list_find (λ i, eth_component_id i = smd_id c) interfaces).
Definition parse_smd_enrollment_data (components : list SmdComponent) (interfaces : list SmdEthernetInterface)
    : list (string * string) :=
  (λ c, (smd_id c, component_mac interfaces c)) <$> components.

(** The loop that collects the interfaces of every component. *)
Fixpoint all_interfaces (query : string → result (list SmdEthernetInterface) string) (cs : list SmdComponent)
    : result (list SmdEthernetInterface) string :=
  match cs with
  | [] => Ok []
  | c :: rest => let? here := query (smd_id c) in let? others := all_interfaces query rest in Ok (here ++ others)
  end.

Record ImportCounts := { im_enrolled : N; im_already : N; im_failed : N; im_errors : list string }.
Definition no_imports : ImportCounts := {| im_enrolled := 0; im_already := 0; im_failed := 0; im_errors := [] |}.

Definition count_import (node_id : string) (r : result (string * string) Status) (c : ImportCounts) : ImportCounts :=
  match r with
  | Ok _ => {| im_enrolled := wrap_u32 (im_enrolled c + 1); im_already := im_already c; im_failed := im_failed c;
               im_errors := im_errors c |}
  | Err st =>
      let msg := status_message st in
      if Str.contains msg "already enrolled" || Str.contains msg "already registered" then
        {| im_enrolled := im_enrolled c; im_already := wrap_u32 (im_already c + 1); im_failed := im_failed c;
           im_errors := im_errors c |}
      else {| im_enrolled := im_enrolled c; im_already := im_already c; im_failed := wrap_u32 (im_failed c + 1);
              im_errors := im_errors c ++ ["  " +:+ node_id +:+ ": " +:+ msg] |}
  end.
Fixpoint import_each (fates : nat → CallFault * DateTime) (token : string) (i : nat) (nodes : list (string * string))
    (c : ImportCounts) : prog ImportCounts :=
  match nodes with
  | [] => mret c
  | (node_id, mac) :: rest =>
      r ← rpc_plain (fates i).1 token (λ h, register_node validator domain_id (fates i).2 h
            {| rn_node_id := node_id; rn_hardware_identity := Some (cli_hardware mac None) |});
      import_each fates token (S i) rest (count_import node_id r c)
  end.
Definition import_text (total : nat) (c : ImportCounts) : string :=
  "Imported from SMD: " +:+ pretty (im_enrolled c) +:+ " enrolled, " +:+ pretty (im_already c) +:+ " already enrolled, " +:+
  pretty (im_failed c) +:+ " failed (out of " +:+ pretty total +:+ " discovered)" +:+
  Str.join "" ((λ e, nl +:+ e) <$> im_errors c).

Definition import_from_smd (fates : nat → CallFault * DateTime) (env_prefix : option string) (token smd_url : string)
    (smd_token group : option string) : prog (result string string) :=
  match query_smd_components env_prefix smd_url smd_token group with
  | Err e => mret (Err e)
  | Ok [] => mret (Ok "No nodes found in SMD inventory.")
  | Ok components =>
      match all_interfaces (query_smd_ethernet env_prefix smd_url smd_token) components with
      | Err e => mret (Err e)
      | Ok interfaces =>
          let data := parse_smd_enrollment_data components interfaces in
          c ← import_each fates token 0 data no_imports;
          mret (Ok (import_text (length data) c))
      end
  end.

End smd.

(** ** Node management backends *)

Inductive NodeMgmtBackendType := Csm | Ochami.
Definition display_name (t : NodeMgmtBackendType) : string := match t with Csm => "CSM" | Ochami => "OpenCHAMI" end.

Inductive NodeMgmtError :=
| NotConfigured | Unreachable (e : string) | BackendError (status : N) (body : string) | AuthError (e : string)
| NoBootTemplate (node : string).
Definition node_mgmt_error_text (e : NodeMgmtError) : string :=
  match e with
  | NotConfigured => "node management backend not configured"
  | Unreachable e => "backend unreachable: " +:+ e
  | BackendError status body => "backend returned error: HTTP " +:+ pretty status +:+ " — " +:+ body
  | AuthError e => "authentication failed: " +:+ e
  | NoBootTemplate n => "no boot template found for node " +:+ n
  end.

Record DelegationConfig := {
  dl_lattice_endpoint : option string;
  dl_lattice_token : option string;
  dl_node_mgmt_backend : option NodeMgmtBackendType;
  dl_node_mgmt_base_url : option string;
  dl_node_mgmt_token : option string;
  dl_openchami_smd_url : option string;
  dl_openchami_token : option string;
  dl_timeout_secs : N;
}.

(** [CsmBackend] and [OpenChamiBackend]. *)
Record Backend := { be_base_url : string; be_token : option string }.
Definition new_backend (base_url : string) (token : option string) : Backend :=
  {| be_base_url := trim_end_slash base_url; be_token := token |}.
Definition post (b : Backend) (path : string) (body : HttpBody) : HttpRequest :=
  {| hr_method := "POST"; hr_url := be_base_url b +:+ path; hr_bearer := be_token b; hr_body := body |}.
Definition map_http_error (status : N) (body : string) : NodeMgmtError :=
  if ((status =? 401) || (status =? 403))%N then AuthError body else BackendError status body.

Inductive NodeMgmtDispatch := DispatchCsm (b : Backend) | DispatchOchami (b : Backend).
Definition backend_name (d : NodeMgmtDispatch) : string :=
  match d with DispatchCsm _ => "CSM" | DispatchOchami _ => "OpenCHAMI" end.
Definition hsm_path_prefix (d : NodeMgmtDispatch) : string :=
  match d with DispatchCsm _ => "/smd/hsm/v2" | DispatchOchami _ => "/hsm/v2" end.

Definition create_node_mgmt_backend (c : DelegationConfig) : result NodeMgmtDispatch NodeMgmtError :=
  let token := match dl_node_mgmt_token c with Some t => Some t | None => dl_openchami_token c end in
  match dl_node_mgmt_backend c with
  | None => match dl_openchami_smd_url c with
            | Some url => Ok (DispatchOchami (new_backend url token))
            | None => Err NotConfigured
            end
  | Some ty =>
      let? base_url := ok_or (match ty with
                              | Ochami => match dl_node_mgmt_base_url c with Some u => Some u | None => dl_openchami_smd_url c end
                              | Csm => dl_node_mgmt_base_url c
                              end) NotConfigured in
      Ok (match ty with
          | Csm => DispatchCsm (new_backend base_url token)
          | Ochami => DispatchOchami (new_backend base_url token)
          end)
  end.

Section backends.
Context `{Http}.

Definition send_to (req : HttpRequest) : result HttpResponse NodeMgmtError :=
  match http_send req with Ok r => Ok r | Err e => Err (Unreachable e) end.

Definition csm_reboot_request (b : Backend) (node_id : string) : HttpRequest :=
  post b "/capmc/capmc/v1/xname_reinit" (CapmcPowerAction "pact reboot" [node_id] false).
Definition csm_reboot (b : Backend) (node_id : string) : result string NodeMgmtError :=
  let? resp := send_to (csm_reboot_request b node_id) in
  if is_success (hs_status resp) then Ok ("reboot initiated for " +:+ node_id +:+ " via CAPMC")
  else Err (map_http_error (hs_status resp) (hs_text resp)).

Definition csm_reimage_request (b : Backend) (node_id : string) : HttpRequest :=
  post b "/bos/v2/sessions" (BosSessionRequest "reboot" node_id).
Definition csm_reimage (b : Backend) (node_id : string) : result string NodeMgmtError :=
  let? resp := send_to (csm_reimage_request b node_id) in
  let status := hs_status resp in
  let body := hs_text resp in
  if is_success status then
    let name := default "" (bos_session_name body) in
    Ok ("reimage initiated for " +:+ node_id +:+ " via BOS" +:+ (if Str.is_empty name then "" else " (session: " +:+ name +:+ ")"))
  else if ((status =? 404)%N || (status =? 400)%N) && (Str.contains body "template" || Str.contains body "not found")
  then Err (NoBootTemplate node_id)
  else Err (map_http_error status body).

Definition power_cycle_request (b : Backend) (node_id : string) : HttpRequest :=
  post b ("/hsm/v2/State/Components/" +:+ node_id +:+ "/Actions/PowerCycle") (PowerAction "ForceRestart").
Definition power_cycle (b : Backend) (node_id : string) : result string NodeMgmtError :=
  let? resp := send_to (power_cycle_request b node_id) in
  if is_success (hs_status resp) then Ok ("power cycle initiated for " +:+ node_id)
  else Err (map_http_error (hs_status resp) (hs_text resp)).
Definition ochami_reimage (b : Backend) (node_id : string) : result string NodeMgmtError :=
  let? _ := power_cycle b node_id in
  Ok ("reimage initiated for " +:+ node_id +:+ " (power cycle + BSS re-provision)").

Definition dispatch_reboot (d : NodeMgmtDispatch) (node_id : string) : HttpRequest * result string NodeMgmtError :=
  match d with
  | DispatchCsm b => (csm_reboot_request b node_id, csm_reboot b node_id)
  | DispatchOchami b => (power_cycle_request b node_id, power_cycle b node_id)
  end.
Definition dispatch_reimage (d : NodeMgmtDispatch) (node_id : string) : HttpRequest * result string NodeMgmtError :=
  match d with
  | DispatchCsm b => (csm_reimage_request b node_id, csm_reimage b node_id)
  | DispatchOchami b => (power_cycle_request b node_id, ochami_reimage b node_id)
  end.

End backends.

(** ** Delegation *)

(** The node operations of the lattice client; [Err] carries its message. *)
Class LatticeNodes := {
  lattice_connect : string → N → option string → result () string;
  lattice_drain_node : string → string → result (bool * N) string; (** success, active allocations *)
  lattice_disable_node : string → string → result bool string;
  lattice_enable_node : string → result bool string;
  lattice_undrain_node : string → result bool string;
}.

(** What leaves the client for another system. *)
Inductive ExternalCall := LatticeCall (operation node : string) | BackendCall (req : HttpRequest).

Record DelegationResult := {
  de_command : string; de_node_id : string; de_target_system : string; de_success : bool; de_message : string }.
Definition format_delegation_result (r : DelegationResult) : string :=
  (if de_success r then "" else "FAILED: ") +:+ de_command r +:+ " on " +:+ de_node_id r +:+ " → " +:+ de_message r +:+
  " (via " +:+ de_target_system r +:+ ")".

Section delegation.
Context `{Chrono} `{EntryJson} `{CliApi} `{Http} `{LatticeNodes}.

Definition delegation_entry (command node_id target principal role : string) : ProtoConfigEntry :=
  cli_entry 12 (PNodeId node_id) (cli_author principal role) None None
    ("delegate:" +:+ target +:+ ":" +:+ command +:+ ":" +:+ node_id) None.
Definition audit_delegation (fault : CallFault) (token : string) (now : DateTime)
    (command node_id target principal role : string) : prog (result N string) :=
  r ← append_rpc fault token now (delegation_entry command node_id target principal role);
  mret (or_text ("audit logging for " +:+ command +:+ " failed") r).
Definition audit_message (r : result N string) : string :=
  match r with Ok seq => "audit seq:" +:+ pretty seq | Err _ => "" end.

Definition delegated (command node_id target : string) (success : bool) (message : string) : DelegationResult :=
  {| de_command := command; de_node_id := node_id; de_target_system := target; de_success := success; de_message := message |}.

(** The shape the four lattice operations share: audit, connect, call. *)
Definition lattice_delegation (fault : CallFault) (token : string) (now : DateTime) (command node_id principal role : string)
    (c : DelegationConfig) (call : result (bool * (string → string)) string) : prog (list ExternalCall * DelegationResult) :=
  audit ← audit_delegation fault token now command node_id "lattice" principal role;
  let audit_msg := audit_message audit in
  let answer := delegated command node_id "lattice" in
  mret (match dl_lattice_endpoint c with
        | None => ([], answer false ("lattice endpoint not configured (" +:+ audit_msg +:+ ")"))
        | Some endpoint =>
            match lattice_connect endpoint (dl_timeout_secs c) (dl_lattice_token c) with
            | Err e => ([], answer false ("connection failed: " +:+ e +:+ " (" +:+ audit_msg +:+ ")"))
            | Ok _ =>
                ([LatticeCall command node_id],
                 match call with
                 | Ok (success, text) => answer success (text audit_msg)
                 | Err e => answer false (e +:+ " (" +:+ audit_msg +:+ ")")
                 end)
            end
        end).
Definition plain_answer (done : string) (r : result bool string) : result (bool * (string → string)) string :=
  match r with Ok b => Ok (b, λ audit_msg, done +:+ " (" +:+ audit_msg +:+ ")") | Err e => Err e end.

Definition drain_node (fault : CallFault) (token : string) (now : DateTime) (node_id principal role : string) (c : DelegationConfig) :=
  lattice_delegation fault token now "drain" node_id principal role c
    (match lattice_drain_node node_id "pact drain" with
     | Ok (b, active) => Ok (b, λ audit_msg, "drained (" +:+ pretty active +:+ " active allocations, " +:+ audit_msg +:+ ")")
     | Err e => Err e
     end).
Definition cordon_node (fault : CallFault) (token : string) (now : DateTime) (node_id principal role : string) (c : DelegationConfig) :=
  lattice_delegation fault token now "cordon" node_id principal role c
    (plain_answer "cordoned" (lattice_disable_node node_id "pact cordon")).
Definition uncordon_node (fault : CallFault) (token : string) (now : DateTime) (node_id principal role : string) (c : DelegationConfig) :=
  lattice_delegation fault token now "uncordon" node_id principal role c
    (plain_answer "uncordoned" (lattice_enable_node node_id)).
Definition undrain_node (fault : CallFault) (token : string) (now : DateTime) (node_id principal role : string) (c : DelegationConfig) :=
  lattice_delegation fault token now "undrain" node_id principal role c
    (plain_answer "undrained" (lattice_undrain_node node_id)).

Definition mgmt_target (c : DelegationConfig) : string := from_option display_name "OpenCHAMI" (dl_node_mgmt_backend c).
(** The shape of the two operations of the node management backend. *)
Definition backend_delegation (fault : CallFault) (token : string) (now : DateTime) (command node_id principal role : string)
    (c : DelegationConfig) (call : NodeMgmtDispatch → HttpRequest * result string NodeMgmtError)
    : prog (list ExternalCall * DelegationResult) :=
  audit ← audit_delegation fault token now command node_id (mgmt_target c) principal role;
  let audit_msg := audit_message audit in
  let suffix := " (" +:+ audit_msg +:+ ")" in
  mret (match create_node_mgmt_backend c with
        | Err e => ([], delegated command node_id (mgmt_target c) false (node_mgmt_error_text e +:+ suffix))
        | Ok backend =>
            let '(req, answer) := call backend in
            ([BackendCall req],
             match answer with
             | Ok msg => delegated command node_id (backend_name backend) true (msg +:+ suffix)
             | Err e => delegated command node_id (backend_name backend) false (node_mgmt_error_text e +:+ suffix)
             end)
        end).
Definition reboot_node (fault : CallFault) (token : string) (now : DateTime) (node_id principal role : string) (c : DelegationConfig) :=
  backend_delegation fault token now "reboot" node_id principal role c (λ d, dispatch_reboot d node_id).
Definition reimage_node (fault : CallFault) (token : string) (now : DateTime) (node_id principal role : string) (c : DelegationConfig) :=
  backend_delegation fault token now "reimage" node_id principal role c (λ d, dispatch_reimage d node_id).

End delegation.

(** ** Audit of delegated operations *)

Section delegation_properties.
Context `{Chrono} `{EntryJson} `{CliApi} `{Http} `{LatticeNodes}.

(** The system a reboot or reimage is audited against is the one that is
    called: a configured backend is used under its own name, the fallback to
    the older OpenCHAMI settings never turns into a call to CSM, and CSM is
    never called at an OpenCHAMI address. *)
Theorem audited_backend_called c d :
  create_node_mgmt_backend c = Ok d →
  backend_name d = mgmt_target c ∧
  match d with
  | DispatchCsm b => dl_node_mgmt_backend c = Some Csm ∧ ∃ url, dl_node_mgmt_base_url c = Some url ∧ be_base_url b = trim_end_slash url
  | DispatchOchami b => dl_node_mgmt_backend c ≠ Some Csm ∧
      ∃ url, be_base_url b = trim_end_slash url ∧ (dl_node_mgmt_base_url c = Some url ∨ dl_openchami_smd_url c = Some url)
  end.
Proof.
  unfold create_node_mgmt_backend, mgmt_target.
  destruct (dl_node_mgmt_backend c) as [[]|]; simpl;
    [destruct (dl_node_mgmt_base_url c) as [u|] eqn:Hu
    |destruct (dl_node_mgmt_base_url c) as [u|] eqn:Hu; [|destruct (dl_openchami_smd_url c) as [u|] eqn:Hs]
    |destruct (dl_openchami_smd_url c) as [u|] eqn:Hs]; simpl; intros; simplify_eq/=; eauto 10.
Qed.

(** The message of a reboot or reimage tells truly whether it was audited:
    either it ends with the number under which the journal holds the audit
    entry, naming the operation, the node, the target and the caller, or it
    ends in empty parentheses. *)
Theorem delegation_message_true fault token now command node pr ro c call h s s' calls res tr :
  journal_wf s → runs_in h s (backend_delegation fault token now command node pr ro c call) s' (calls, res) tr → fits h s →
  (∃ text seq, de_message res = text +:+ " (audit seq:" +:+ pretty seq +:+ ")" ∧
     recorded s' now (delegation_entry command node (mgmt_target c) pr ro) seq) ∨
  (∃ text, de_message res = text +:+ " ()").
Proof.
  intros Hwf (h1 & h2 & s1 & a & tr1 & tr2 & Ha & Hr & -> & _)%runs_in_bind_inv Hfit.
  destruct (fits_app _ _ _ _ _ _ _ Hwf Ha Hfit) as (Hf1 & Hwf1 & Hf2 & _).
  pose proof Hr as (Heq & _)%runs_in_ret_inv.
  assert (Hmsg : ∃ text, de_message res = text +:+ " (" +:+ audit_message a +:+ ")").
  { destruct (create_node_mgmt_backend c) as [d|e]; [|by simplify_eq/=; eauto].
    destruct (call d) as [req [m|e]]; simplify_eq/=; eauto. }
  destruct Hmsg as [text Hmsg].
  apply runs_in_bind_inv in Ha as (h3 & h4 & s2 & r & tr3 & tr4 & Happ & Hret & -> & _).
  destruct (fits_app _ _ _ _ _ _ _ Hwf Happ Hf1) as (Hf3 & Hwf2 & Hf4 & _).
  pose proof Hret as (-> & _)%runs_in_ret_inv. destruct r as [seq|st]; [left|right; by exists text].
  destruct (append_rpc_recorded _ _ _ _ _ _ _ _ _ Hwf Happ Hf3) as [Hrec _].
  exists text, seq. split; [by rewrite Hmsg; simpl; rewrite ?append_assoc|].
  eapply recorded_runs; [exact Hwf1|exact Hr|exact Hf2|]. by eapply recorded_runs.
Qed.

(** A delegated operation is carried out even when it could not be
    audited: with the journal out of reach, a reboot leaves the journal as it
    was and still sends its request to the backend. *)
Theorem delegation_unaudited st token now node pr ro c d s :
  create_node_mgmt_backend c = Ok d →
  (run now (reboot_node (NotSent st) token now node pr ro c) s).1 = s ∧
  (run now (reboot_node (NotSent st) token now node pr ro c) s).2.1 = [BackendCall (dispatch_reboot d node).1].
Proof.
  intros Hd. unfold reboot_node, backend_delegation, audit_delegation, append_rpc, rpc.
  destruct (client_header token); simpl; rewrite Hd; destruct (dispatch_reboot d node); done.
Qed.

End delegation_properties.

(** ** What an import reports *)

Section import_properties.
Context `{Chrono} `{CliApi} `{Http} (validator : TokenValidator) (domain_id : string).

Lemma register_rpc_runs fault token now req s s' r tr :
  runs s (rpc_plain fault token (λ h, register_node validator domain_id now h req)) s' r tr →
  (if r is Ok _ then 1 else 0) ≤ registrations tr.
Proof.
  destruct r as [a|st]; [|lia]. unfold rpc_plain. destruct (client_header token) as [h|]; [|by intros [? ?]%runs_ret_inv].
  destruct fault as [| |st]; [|by intros [? ?]%runs_ret_inv|by intros (? & ? & ? & ? & _ & [? ?]%runs_ret_inv & _)%runs_bind_inv].
  unfold register_node. destruct (platform_admin validator h) as [who|]; [|by intros [? ?]%runs_ret_inv].
  destruct (rn_hardware_identity req) as [hw|]; [|by intros [? ?]%runs_ret_inv].
  intros [(log & t & tr' & -> & [Hr _]%runs_ret_inv)|(log & e & tr' & [Hr _]%runs_ret_inv & _)]%runs_write_inv; [|done].
  unfold registrations. rewrite filter_cons. unfold is_registered at 1. simpl in *.
  destruct (apply_register_node _ _).2; simplify_eq/=; lia.
Qed.

Lemma count_import_sum node r c :
  (im_enrolled c + im_already c + im_failed c + 1 < 2 ^ 32)%N →
  let c' := count_import node r c in
  (im_enrolled c' + im_already c' + im_failed c' = im_enrolled c + im_already c + im_failed c + 1)%N ∧
  im_enrolled c' = (im_enrolled c + if r is Ok _ then 1 else 0)%N ∧
  (N.of_nat (length (im_errors c')) + im_failed c = N.of_nat (length (im_errors c)) + im_failed c')%N.
Proof.
  intros Hb. unfold count_import, wrap_u32. destruct r as [a|st]; [|destruct (_ || _)]; simpl;
    rewrite ?N.mod_small by lia; rewrite ?length_app; simpl; lia.
Qed.

(** The report of an import accounts for every node of the inventory:
    the three counters add up to the number discovered, one message is
    printed per failure, and no node is counted as enrolled unless the
    journal took a registration for it, whatever happens to the requests. *)
Theorem import_accounts_for_all fates token nodes s s' c tr :
  (N.of_nat (length nodes) < 2 ^ 32)%N →
  runs s (import_each validator domain_id fates token 0 nodes no_imports) s' c tr →
  (im_enrolled c + im_already c + im_failed c)%N = N.of_nat (length nodes) ∧
  N.of_nat (length (im_errors c)) = im_failed c ∧
  (im_enrolled c <= N.of_nat (registrations tr))%N.
Proof.
  intros Hb Hr.
  enough (∀ i c0, (im_enrolled c0 + im_already c0 + im_failed c0 + N.of_nat (length nodes) < 2 ^ 32)%N →
    runs s (import_each validator domain_id fates token i nodes c0) s' c tr →
    (im_enrolled c + im_already c + im_failed c = im_enrolled c0 + im_already c0 + im_failed c0 + N.of_nat (length nodes))%N ∧
    (N.of_nat (length (im_errors c)) + im_failed c0 = N.of_nat (length (im_errors c0)) + im_failed c)%N ∧
    (im_enrolled c <= im_enrolled c0 + N.of_nat (registrations tr))%N) as Hgen.
  { destruct (Hgen 0 no_imports ltac:(simpl; lia) Hr) as (? & ? & ?). simpl in *. lia. }
  clear Hb Hr. revert s tr. induction nodes as [|[n m] nodes IH]; intros s tr i c0 Hb Hr.
  { apply runs_ret_inv in Hr as [-> ->]. unfold registrations. simpl. lia. }
  apply runs_bind_inv in Hr as (s1 & r & tr1 & tr2 & Hone & Hrest & ->). apply register_rpc_runs in Hone. simpl in Hb.
  pose proof (count_import_sum n r c0 ltac:(lia)) as (Hs & He & Hf).
  destruct (IH s1 tr2 (S i) (count_import n r c0) ltac:(lia) Hrest) as (Hs' & Hf' & He').
  rewrite registrations_app. destruct r; simpl in *; lia.
Qed.

(** An import misreads the journal's refusals. A node that is already
    enrolled is counted as failed, because the journal's message spells that
    in capitals; a node that is not enrolled, but shares its hardware identity
    with another node (as all nodes without a MAC address in SMD do), is
    counted as already enrolled. *)
Theorem import_misreads_refusals fates token i node mac h admin now s :
  fates i = (Delivered, now) → client_header token = Ok h → platform_admin validator h = Ok admin →
  Str.contains node "already enrolled" = false → Str.contains node "already registered" = false →
  (is_Some (enrollments s !! node) →
     run now (import_each validator domain_id fates token i [(node, mac)] no_imports) s =
       (s, {| im_enrolled := 0; im_already := 0; im_failed := 1;
              im_errors := ["  " +:+ node +:+ ": NODE_ALREADY_ENROLLED: " +:+ node] |})) ∧
  (∀ other, enrollments s !! node = None →
     hw_index s !! hw_canonical_key (proto_hw_to_domain (cli_hardware mac None)) = Some other →
     run now (import_each validator domain_id fates token i [(node, mac)] no_imports) s =
       (s, {| im_enrolled := 0; im_already := 1; im_failed := 0; im_errors := [] |})).
Proof.
  intros Hf Hh Ha Hn1 Hn2. unfold import_each, rpc_plain. rewrite Hf, Hh. unfold register_node. rewrite Ha. simpl.
  unfold apply_register_node. simpl. split.
  - intros [e ->]. unfold count_import. cbn [status_message snd].
    assert (∀ p, p = "already enrolled" ∨ p = "already registered" →
      Str.contains ("NODE_ALREADY_ENROLLED: " +:+ node) p = Str.contains node p) as Hc by (by intros ? [->| ->]).
    by rewrite !Hc, Hn1, Hn2 by auto.
  - intros other -> ->. unfold count_import. cbn [status_message snd].
    assert (Str.contains ("HARDWARE_IDENTITY_CONFLICT: hardware already registered to " +:+ other) "already registered" = true)
      as -> by done. by rewrite orb_true_r.
Qed.

End import_properties.

(** ** Witnesses *)

Module CliNodesSample.

#[export] Existing Instance JournalSample.chrono.
#[export] Existing Instance ConfigSample.json.
#[export] Existing Instance CliSample.api.
#[export] Instance http : Http :=
  {| http_send := λ req, if decide (hr_method req = "POST") then Ok {| hs_status := 202; hs_text := "" |} else Err "refused";
     status_display := pretty; bos_session_name := λ _, None; smd_components := λ _, Ok []; smd_interfaces := λ _, None |}.

Definition config : DelegationConfig :=
  {| dl_lattice_endpoint := None; dl_lattice_token := None; dl_node_mgmt_backend := Some Csm;
     dl_node_mgmt_base_url := Some "https://csm/"; dl_node_mgmt_token := None; dl_openchami_smd_url := Some "https://smd";
     dl_openchami_token := Some "t2"; dl_timeout_secs := 30 |}.
Definition backend : Backend := {| be_base_url := "https://csm"; be_token := Some "t2" |}.
Definition rebooted := run 9%Z (reboot_node Delivered "t" 5%Z "n1" "alice" "pact-ops-ml" config) journal_init.
Definition inventory : list (string * string) := [("n1", "aa"); ("n2", "bb")].
Definition imported :=
  run 9%Z (import_each EnrollSample.validator "site" (λ _, (Delivered, 5%Z)) "admin" 0 inventory no_imports) journal_init.

End CliNodesSample.
Import CliNodesSample.

Lemma audited_backend_called_witness :
  backend_name (DispatchCsm backend) = mgmt_target config ∧
  dl_node_mgmt_backend config = Some Csm ∧
  ∃ url, dl_node_mgmt_base_url config = Some url ∧ be_base_url backend = trim_end_slash url.
Proof. apply (audited_backend_called config (DispatchCsm backend)). reflexivity. Defined.

Lemma delegation_message_true_witness :
  (∃ text seq, de_message rebooted.2.2 = text +:+ " (audit seq:" +:+ pretty seq +:+ ")" ∧
     recorded rebooted.1 5%Z (delegation_entry "reboot" "n1" (mgmt_target config) "alice" "pact-ops-ml") seq) ∨
  (∃ text, de_message rebooted.2.2 = text +:+ " ()").
Proof.
  destruct (run_runs_in 9%Z (reboot_node Delivered "t" 5%Z "n1" "alice" "pact-ops-ml" config) journal_init) as [tr Htr].
  refine (delegation_message_true Delivered "t" 5%Z "reboot" "n1" "alice" "pact-ops-ml" config
           (λ d, dispatch_reboot d "n1") _ journal_init _ rebooted.2.1 rebooted.2.2 tr journal_init_wf _ _).
  - unfold rebooted. rewrite <- surjective_pairing. exact Htr.
  - vm_compute. reflexivity.
Defined.

Lemma delegation_unaudited_witness :
  (run 9%Z (reboot_node (NotSent (mkStatus Internal "down")) "t" 9%Z "n1" "alice" "pact-ops-ml" config) journal_init).2.1
    = [BackendCall (dispatch_reboot (DispatchCsm backend) "n1").1].
Proof.
  apply (delegation_unaudited (mkStatus Internal "down") "t" 9%Z "n1" "alice" "pact-ops-ml" config (DispatchCsm backend)
           journal_init). reflexivity.
Defined.

Lemma import_accounts_for_all_witness :
  (im_enrolled imported.2 + im_already imported.2 + im_failed imported.2)%N = N.of_nat (length inventory).
Proof.
  destruct (run_runs 9%Z (import_each EnrollSample.validator "site" (λ _, (Delivered, 5%Z)) "admin" 0 inventory no_imports) journal_init)
    as [tr Htr].
  apply (import_accounts_for_all EnrollSample.validator "site" (λ _, (Delivered, 5%Z)) "admin" inventory journal_init imported.1 imported.2 tr);
    [reflexivity|exact Htr].
Defined.

Lemma import_misreads_refusals_witness :
  run 9%Z (import_each EnrollSample.validator "site" (λ _, (Delivered, 9%Z)) "admin" 0 [("n1", "aa")] no_imports) imported.1 =
    (imported.1, {| im_enrolled := 0; im_already := 0; im_failed := 1;
                    im_errors := ["  " +:+ "n1" +:+ ": NODE_ALREADY_ENROLLED: " +:+ "n1"] |}).
Proof.
  apply (import_misreads_refusals EnrollSample.validator "site" (λ _, (Delivered, 9%Z)) "admin" 0 "n1" "aa" EnrollSample.admin
           JournalSample.admin 9%Z imported.1);
    try reflexivity. vm_compute. eauto.
Defined.
