(* ===== verification/CliLattice.v ===== *)
(** * Commands answered by the lattice scheduler

    crates/pact-cli/src/commands/lattice.rs: job, queue, accounting, workflow,
    budget, backup and node queries, and the commands that combine the
    journal with lattice (cluster status, audit, health). The lattice client
    is the interface [LatticeApi]; of its messages, the records below have
    the fields the commands read. *)

From S2P Require Import Prelude Text Float64 Types JournalState JournalInvariants JournalProperties Raft.
From S2P Require Import ConfigService PolicyService EnrollmentService CliText CliCommands CliNodes.
From stdpp Require Import options.
From Stdlib Require Import Ascii.

(** ** Messages *)

Record Probe := {
  pb_type : string; pb_port : N; pb_path : string; pb_period_secs : N; pb_failure_threshold : N; pb_timeout_secs : N;
  pb_initial_delay_secs : N }.
Record LtResources := { res_min_nodes : N; res_max_nodes : N; res_gpu_type : string }.
Record AllocationSpec := {
  al_tenant : string; al_project : string; al_vcluster : string; al_entrypoint : string; al_sensitive : bool;
  al_resources : option LtResources; al_liveness_probe : option Probe }.
Record Allocation := {
  al_id : string; al_state : string; al_user : string; al_message : string; al_exit_code : Z;
  al_assigned_nodes : list string; al_spec : option AllocationSpec;
  al_created_at : option Z; al_started_at : option Z; al_completed_at : option Z }.
Record QueueStatus := { qs_vcluster_id : string; qs_pending : N; qs_running : N; qs_total : N }.
Record RaftMember := { rm_node_id : N; rm_address : string; rm_role : string; rm_match_index : N }.
Record RaftStatus := {
  ra_leader_id : N; ra_current_term : N; ra_last_applied : N; ra_commit_index : N; ra_members : list RaftMember }.
Record LtAuditEntry := { la_timestamp : option Z; la_user_id : string; la_action : string; la_details : string }.
Record AccountingUsage := {
  ac_tenant_id : string; ac_cpu_hours : f64; ac_gpu_hours : f64; ac_storage_bytes : N; ac_allocation_count : N }.
Record LtHealth := { lh_status : string; lh_version : string; lh_uptime_secs : N }.
Record LtEndpoint := { ep_allocation_id : string; ep_tenant : string; ep_port : N; ep_protocol : string; ep_nodes : list string }.
Record ServiceLookup := { sl_name : string; sl_endpoints : list LtEndpoint }.
Record Dag := {
  dag_id : string; dag_state : string; dag_allocations : list Allocation; dag_created_at : option Z;
  dag_completed_at : option Z }.
Record TenantUsage := {
  tu_tenant : string; tu_period_start : string; tu_period_end : string; tu_period_days : N;
  tu_gpu_hours_used : f64; tu_gpu_hours_budget : option f64; tu_gpu_fraction_used : option f64;
  tu_node_hours_used : f64; tu_node_hours_budget : option f64; tu_node_fraction_used : option f64 }.
Record UserUsage := {
  uu_user : string; uu_period_start : string; uu_period_end : string; uu_total_gpu_hours : f64; uu_tenants : list TenantUsage }.
Record BackupCreated := {
  bc_success : bool; bc_message : string; bc_node_count : N; bc_allocation_count : N; bc_tenant_count : N;
  bc_audit_entry_count : N; bc_timestamp : option Z }.
Record BackupChecked := {
  bv_valid : bool; bv_message : string; bv_timestamp : option Z; bv_snapshot_term : N; bv_snapshot_index : N }.
Record LtNode := {
  lt_node_id : string; lt_state : string; lt_state_reason : string; lt_group : string; lt_gpu_count : N; lt_gpu_type : string;
  lt_cpu_cores : N; lt_memory_gb : N; lt_features : list string; lt_owner_tenant : string; lt_owner_vcluster : string;
  lt_owner_allocation : string; lt_allocation_ids : list string; lt_last_heartbeat : option Z }.

(** The lattice client; [Err] carries the text of its error. *)
Class LatticeApi := {
  list_allocations : string → result (list Allocation) string;
  get_allocation : string → result Allocation string;
  cancel_allocation : string → result bool string;
  vcluster_queue : string → result QueueStatus string;
  raft_status : result RaftStatus string;
  query_audit : N → result (list LtAuditEntry) string;
  accounting_usage : string → result AccountingUsage string;
  lattice_health : result LtHealth string;
  service_names : result (list string) string;
  service_lookup : string → result ServiceLookup string;
  dags : string → string → N → result (list Dag) string;
  get_dag : string → result Dag string;
  stop_dag : string → result (bool * N) string;
  tenant_usage : string → N → result TenantUsage string;
  user_usage : string → N → result UserUsage string;
  create_backup : string → result BackupCreated string;
  verify_backup : string → result BackupChecked string;
  restore_backup : string → result (bool * string) string;
  lattice_nodes : string → string → N → result (list LtNode) string;
  get_node : string → result LtNode string;
  to_uppercase : string → string;             (** Unicode upper case *)
}.

(** ** Formatting *)

Definition line (s : string) : string := s +:+ nl.
Definition gap : string := "  ".
Definition row (cells : list string) : string := Str.join gap cells +:+ nl.
Definition rule (n : nat) : string := repeat_text n "-" +:+ nl.
Definition seconds_text (t : Z) : string := pretty t +:+ "s".
Definition opt_line (label : string) (t : option Z) : string :=
  from_option (λ t, label +:+ seconds_text t +:+ nl) "" t.
Definition or_dash (s : string) : string := if Str.is_empty s then "-" else s.
Definition text_line (label s : string) : string := if Str.is_empty s then "" else label +:+ s +:+ nl.
Definition list_line (label : string) (l : list string) : string :=
  match l with [] => "" | _ => label +:+ Str.join ", " l +:+ nl end.

Section lattice.
Context `{Chrono} `{ChronoTimestamp} `{EntryJson} `{CliApi} `{LatticeNodes} `{LatticeApi}.

Definition connect_lattice (c : DelegationConfig) : result () string :=
  match dl_lattice_endpoint c with
  | None => Err "lattice endpoint not configured (set PACT_LATTICE_ENDPOINT)"
  | Some endpoint => match lattice_connect endpoint (dl_timeout_secs c) (dl_lattice_token c) with
                     | Ok _ => Ok ()
                     | Err e => Err ("lattice connection failed: " +:+ e)
                     end
  end.

(** ** Jobs *)

Definition job_nodes (nodes : list string) : string :=
  match nodes with
  | [] => "-"
  | [_] | [_; _] => Str.join "," nodes
  | first :: rest => first +:+ "+" +:+ pretty (length rest)
  end.
Definition job_row (a : Allocation) : string :=
  row [pad_right 36 (al_id a); pad_right 12 (al_state a); pad_right 20 (job_nodes (al_assigned_nodes a));
       pad_right 16 (from_option al_vcluster "-" (al_spec a)); al_user a].
Definition on_node (node_filter : option string) (a : Allocation) : bool :=
  match node_filter with Some n => bool_decide (n ∈ al_assigned_nodes a) | None => true end.
Definition list_jobs (c : DelegationConfig) (node_filter vcluster_filter : option string) : result string string :=
  let? _ := connect_lattice c in
  let? allocations := list_allocations (default "" vcluster_filter) in
  match allocations with
  | [] => Ok "No jobs found."
  | _ => Ok (row [pad_right 36 "ID"; pad_right 12 "STATE"; pad_right 20 "NODE(S)"; pad_right 16 "VCLUSTER"; "USER"] +:+
             rule 100 +:+ Str.join "" (job_row <$> filter (λ a, on_node node_filter a = true) allocations))
  end.

Definition cancel_job (c : DelegationConfig) (job_id : string) : result string string :=
  let? _ := connect_lattice c in
  let? success := cancel_allocation job_id in
  Ok (if success : bool then "Job " +:+ job_id +:+ " cancelled." else "Job " +:+ job_id +:+ " cancel returned: success=false").

Definition probe_text (p : Probe) : string :=
  (if decide (pb_type p = "http") then "HTTP GET :" +:+ pretty (pb_port p) +:+ pb_path p else "TCP :" +:+ pretty (pb_port p)) +:+
  " every " +:+ pretty (pb_period_secs p) +:+ "s (threshold=" +:+ pretty (pb_failure_threshold p) +:+ ", timeout=" +:+
  pretty (pb_timeout_secs p) +:+ "s, delay=" +:+ pretty (pb_initial_delay_secs p) +:+ "s)".
Definition spec_text (s : AllocationSpec) : string :=
  line ("Tenant:     " +:+ al_tenant s) +:+ line ("Project:    " +:+ al_project s) +:+ line ("vCluster:   " +:+ al_vcluster s) +:+
  line ("Entrypoint: " +:+ al_entrypoint s) +:+ line ("Sensitive:  " +:+ bool_text (al_sensitive s)) +:+
  from_option (λ r, line ("Resources:  min_nodes=" +:+ pretty (res_min_nodes r) +:+ ", max_nodes=" +:+ pretty (res_max_nodes r) +:+
    ", gpu_type=" +:+ res_gpu_type r)) "" (al_resources s) +:+
  from_option (λ p, line ("Probe:      " +:+ probe_text p)) "" (al_liveness_probe s).
Definition inspect_job (c : DelegationConfig) (job_id : string) : result string string :=
  let? _ := connect_lattice c in
  let? a := get_allocation job_id in
  Ok (line ("Allocation: " +:+ al_id a) +:+ line ("State:      " +:+ al_state a) +:+ line ("User:       " +:+ al_user a) +:+
      line ("Message:    " +:+ al_message a) +:+ line ("Exit code:  " +:+ pretty (al_exit_code a)) +:+
      list_line "Nodes:      " (al_assigned_nodes a) +:+ from_option spec_text "" (al_spec a) +:+
      opt_line "Created:    " (al_created_at a) +:+ opt_line "Started:    " (al_started_at a) +:+
      opt_line "Completed:  " (al_completed_at a)).

(** ** Queue and accounting *)

Definition queue_status (c : DelegationConfig) (vcluster : option string) : result string string :=
  let? _ := connect_lattice c in
  let? q := vcluster_queue (default "default" vcluster) in
  Ok (line ("Queue status for vCluster: " +:+ qs_vcluster_id q) +:+ line ("  Pending: " +:+ pretty (qs_pending q)) +:+
      line ("  Running: " +:+ pretty (qs_running q)) +:+ line ("  Total:   " +:+ pretty (qs_total q))).

Definition accounting (c : DelegationConfig) (vcluster : option string) : result string string :=
  let? _ := connect_lattice c in
  let? u := accounting_usage (default "" vcluster) in
  Ok (row [pad_right 16 "TENANT"; pad_right 14 "CPU HOURS"; pad_right 14 "GPU HOURS"; pad_right 16 "STORAGE (bytes)"; "ALLOCATIONS"] +:+
      rule 80 +:+
      row [pad_right 16 (ac_tenant_id u); pad_right 14 (format_1 (ac_cpu_hours u)); pad_right 14 (format_1 (ac_gpu_hours u));
           pad_right 16 (pretty (ac_storage_bytes u)); pretty (ac_allocation_count u)]).

(** ** Journal and lattice together *)

Definition member_line (m : RaftMember) : string :=
  line ("    " +:+ pretty (rm_node_id m) +:+ " (" +:+ rm_address m +:+ ") — role=" +:+ rm_role m +:+ ", match_index=" +:+
        pretty (rm_match_index m)).
Definition raft_text (c : DelegationConfig) : string :=
  match connect_lattice c with
  | Err msg => line (gap +:+ msg)
  | Ok _ =>
      match raft_status with
      | Err e => line ("  Raft query failed: " +:+ e)
      | Ok r => line ("  Leader:       " +:+ pretty (ra_leader_id r)) +:+ line ("  Term:         " +:+ pretty (ra_current_term r)) +:+
                line ("  Last applied: " +:+ pretty (ra_last_applied r)) +:+ line ("  Commit index: " +:+ pretty (ra_commit_index r)) +:+
                match ra_members r with [] => "" | ms => line "  Members:" +:+ Str.join "" (member_line <$> ms) end
      end
  end.
Definition cluster_status (fault : CallFault) (token : string) (c : DelegationConfig) : prog (result string string) :=
  r ← status fault token "local";
  mret (Ok (line "=== Pact Journal ===" +:+
            match r with Ok st => line st | Err e => line ("  Status: error (" +:+ e +:+ ")") end +:+
            nl +:+ line "=== Lattice Scheduler ===" +:+ raft_text c)).

Definition audit_line (e : LtAuditEntry) : string :=
  line ("  [" +:+ from_option seconds_text "-" (la_timestamp e) +:+ "] " +:+ la_user_id e +:+ " " +:+ la_action e +:+ " — " +:+ la_details e).
Definition lattice_audit (c : DelegationConfig) (limit : N) : string :=
  line "=== Lattice Audit Log ===" +:+
  match connect_lattice c with
  | Err msg => line (gap +:+ msg)
  | Ok _ => match query_audit limit with
            | Ok [] => line "  No audit entries."
            | Ok es => Str.join "" (audit_line <$> es)
            | Err e => line ("  Audit query failed: " +:+ e)
            end
  end.
Definition audit_combined (fault : CallFault) (cut : option (nat * Status)) (token : string) (c : DelegationConfig)
    (source : string) (limit : N) : prog (result string string) :=
  let show_lattice := bool_decide (source = "all" ∨ source = "lattice") in
  let rest := if show_lattice then lattice_audit c limit else "" in
  if decide (source = "all" ∨ source = "pact") then
    r ← log fault cut token limit None;
    mret (Ok (line "=== Pact Audit Log ===" +:+
              match r with Ok l => line l | Err e => line ("  Error: " +:+ e) end +:+ rest))
  else mret (Ok rest).

(** ** Health *)

(** The lines of the services and the number of their endpoints, a [u32]. *)
Fixpoint service_lines (names : list string) : N * list string :=
  match names with
  | [] => (0%N, [])
  | name :: rest =>
      let '(total, lines) := service_lines rest in
      match service_lookup name with
      | Ok svc => let count := wrap_u32 (N.of_nat (length (sl_endpoints svc))) in
          (wrap_u32 (total + count), ("    " +:+ name +:+ ": " +:+ pretty count +:+ " endpoints") :: lines)
      | Err _ => (total, ("    " +:+ name +:+ ": (lookup failed)") :: lines)
      end
  end.
Definition services_text : string :=
  match service_names with
  | Err e => line ("  Service registry error: " +:+ e)
  | Ok [] => line "  Registered: 0 services"
  | Ok names => let '(total, lines) := service_lines names in
      line ("  Registered: " +:+ pretty (length names) +:+ " services, " +:+ pretty total +:+ " endpoints") +:+
      Str.join "" (line <$> lines)
  end.
(** Whether lattice is healthy, its part of the report, and whether its
    services are asked for. *)
Definition lattice_report (c : DelegationConfig) : bool * string * bool :=
  match connect_lattice c with
  | Err msg => (false, line ("  Status: UNAVAILABLE (" +:+ msg +:+ ")"), false)
  | Ok _ =>
      match lattice_health with
      | Err e => (false, line ("  Status: UNHEALTHY (" +:+ e +:+ ")"), false)
      | Ok h => (bool_decide (lh_status h = "healthy"),
                 line ("  Status:  " +:+ to_uppercase (lh_status h)) +:+ line ("  Version: " +:+ lh_version h) +:+
                 line ("  Uptime:  " +:+ pretty (lh_uptime_secs h) +:+ "s"), true)
      end
  end.
Definition health_text (journal : result string string) (lattice_text : string) (reachable : bool) : string :=
  line "=== Pact Journal ===" +:+
  match journal with Ok _ => line "  Status: HEALTHY" | Err e => line ("  Status: UNHEALTHY (" +:+ e +:+ ")") end +:+
  nl +:+ line "=== Lattice Scheduler ===" +:+ lattice_text +:+
  nl +:+ line "=== Lattice Services ===" +:+ (if reachable then services_text else line "  (unavailable — see above)") +:+ nl.
Definition health_check (fault : CallFault) (token : string) (c : DelegationConfig) : prog (result string string) :=
  r ← status fault token "local";
  let '(lattice_ok, text, reachable) := lattice_report c in
  mret (Ok (health_text r text reachable +:+ "Overall: " +:+ (if is_ok r && lattice_ok then "PASS" else "FAIL"))).

(** ** Services *)

Definition list_services (c : DelegationConfig) : result string string :=
  let? _ := connect_lattice c in
  let? names := service_names in
  match names with
  | [] => Ok (line "No services registered.")
  | _ => Ok (line (pretty (length names) +:+ " registered services:") +:+ Str.join "" ((λ n, line (gap +:+ n)) <$> names))
  end.

Definition endpoint_line (ep : LtEndpoint) : string :=
  line ("    alloc=" +:+ ep_allocation_id ep +:+ " tenant=" +:+ ep_tenant ep +:+ " port=" +:+ pretty (ep_port ep) +:+ " proto=" +:+
        (if Str.is_empty (ep_protocol ep) then "tcp" else ep_protocol ep) +:+ " nodes=[" +:+ Str.join ", " (ep_nodes ep) +:+ "]").
Definition lookup_service (c : DelegationConfig) (name : string) : result string string :=
  let? _ := connect_lattice c in
  let? svc := service_lookup name in
  Ok (line ("Service: " +:+ sl_name svc) +:+
      match sl_endpoints svc with
      | [] => line "  No endpoints registered."
      | eps => line (gap +:+ pretty (length eps) +:+ " endpoints:") +:+ Str.join "" (endpoint_line <$> eps)
      end).

(** ** Workflows *)

Definition dag_row (d : Dag) : string :=
  row [pad_right 36 (dag_id d); pad_right 12 (dag_state d); pad_right 12 (pretty (length (dag_allocations d)));
       from_option seconds_text "-" (dag_created_at d)].
Definition list_dags (c : DelegationConfig) (tenant state : option string) (limit : N) : result string string :=
  let? _ := connect_lattice c in
  let? ds := dags (default "" tenant) (default "" state) limit in
  match ds with
  | [] => Ok "No DAGs found."
  | _ => Ok (row [pad_right 36 "DAG ID"; pad_right 12 "STATE"; pad_right 12 "STEPS"; "CREATED"] +:+ rule 80 +:+
             Str.join "" (dag_row <$> ds))
  end.

Definition dag_allocation_line (a : Allocation) : string :=
  line (gap +:+ al_id a +:+ " — " +:+ al_state a +:+ " (" +:+ al_user a +:+ ")").
Definition inspect_dag (c : DelegationConfig) (id : string) : result string string :=
  let? _ := connect_lattice c in
  let? d := get_dag id in
  Ok (line ("DAG:       " +:+ dag_id d) +:+ line ("State:     " +:+ dag_state d) +:+
      line ("Steps:     " +:+ pretty (length (dag_allocations d))) +:+
      opt_line "Created:   " (dag_created_at d) +:+ opt_line "Completed: " (dag_completed_at d) +:+
      match dag_allocations d with
      | [] => ""
      | l => nl +:+ line "Allocations:" +:+ Str.join "" (dag_allocation_line <$> l)
      end).

Definition cancel_dag (c : DelegationConfig) (id : string) : result string string :=
  let? _ := connect_lattice c in
  let? r := stop_dag id in
  Ok (if r.1 : bool then "DAG " +:+ id +:+ " cancelled (" +:+ pretty r.2 +:+ " allocations cancelled)."
      else "DAG " +:+ id +:+ " cancel returned: success=false").

(** ** Budgets *)

(** [ / budget] and [ (x.x%)] after the hours used. *)
Definition hours_text (used : f64) (budget fraction : option f64) : string :=
  format_1 used +:+ from_option (λ b, " / " +:+ format_1 b) "" budget +:+
  from_option (λ f, " (" +:+ format_1 (F64.mul f (F64.of_Z 100)) +:+ "%)") "" fraction +:+ nl.
Definition tenant_budget (c : DelegationConfig) (tenant_id : string) (days : N) : result string string :=
  let? _ := connect_lattice c in
  let? u := tenant_usage tenant_id days in
  Ok (line ("Tenant: " +:+ tu_tenant u) +:+
      line ("Period: " +:+ tu_period_start u +:+ " — " +:+ tu_period_end u +:+ " (" +:+ pretty (tu_period_days u) +:+ " days)") +:+
      "GPU hours:  " +:+ hours_text (tu_gpu_hours_used u) (tu_gpu_hours_budget u) (tu_gpu_fraction_used u) +:+
      "Node hours: " +:+ hours_text (tu_node_hours_used u) (tu_node_hours_budget u) (tu_node_fraction_used u)).

Definition tenant_row (t : TenantUsage) : string :=
  row [pad_right 16 (tu_tenant t); pad_right 14 (format_1 (tu_gpu_hours_used t));
       pad_right 14 (from_option format_1 "-" (tu_gpu_hours_budget t)); format_1 (tu_node_hours_used t)].
Definition user_budget (c : DelegationConfig) (user : string) (days : N) : result string string :=
  let? _ := connect_lattice c in
  let? u := user_usage user days in
  Ok (line ("User: " +:+ uu_user u) +:+ line ("Period: " +:+ uu_period_start u +:+ " — " +:+ uu_period_end u) +:+
      line ("Total GPU hours: " +:+ format_1 (uu_total_gpu_hours u)) +:+
      match uu_tenants u with
      | [] => ""
      | ts => nl +:+ row [pad_right 16 "TENANT"; pad_right 14 "GPU HOURS"; pad_right 14 "GPU BUDGET"; "NODE HOURS"] +:+ rule 65 +:+
              Str.join "" (tenant_row <$> ts)
      end).

(** ** Backups *)

(** What is asked of lattice by the backup commands, for the theorems. *)
Inductive BackupCall := CreateBackup (path : string) | RestoreBackup (path : string).

Definition backup_entry (operation path principal role : string) : ProtoConfigEntry :=
  cli_entry 12 (PGlobal true) (cli_author principal role) None None ("delegate:lattice:" +:+ operation +:+ ":" +:+ path) None.
Definition created_text (b : BackupCreated) : string :=
  line ("Backup created: " +:+ bc_message b) +:+
  line ("  Nodes: " +:+ pretty (bc_node_count b) +:+ ", Allocations: " +:+ pretty (bc_allocation_count b) +:+ ", Tenants: " +:+
        pretty (bc_tenant_count b) +:+ ", Audit entries: " +:+ pretty (bc_audit_entry_count b)) +:+
  opt_line "  Timestamp: " (bc_timestamp b).
Definition backup_create (fault : CallFault) (token : string) (now : DateTime) (c : DelegationConfig) (path principal role : string)
    : prog (list BackupCall * result string string) :=
  audit ← append_rpc fault token now (backup_entry "backup_create" path principal role);
  mret (match or_text "audit logging for backup_create failed" audit with
        | Err e => ([], Err e)
        | Ok _ =>
            match connect_lattice c with
            | Err e => ([], Err e)
            | Ok _ => ([CreateBackup path],
                let? b := create_backup path in
                if bc_success b then Ok (created_text b) else Err ("Backup failed: " +:+ bc_message b))
            end
        end).

Definition backup_verify (c : DelegationConfig) (path : string) : result string string :=
  let? _ := connect_lattice c in
  let? v := verify_backup path in
  Ok ("Backup valid: " +:+ (if bv_valid v then "YES" else "NO") +:+ nl +:+ line (bv_message v) +:+
      opt_line "  Timestamp: " (bv_timestamp v) +:+
      line ("  Snapshot: term=" +:+ pretty (bv_snapshot_term v) +:+ ", index=" +:+ pretty (bv_snapshot_index v))).

Definition backup_restore (fault : CallFault) (token : string) (now : DateTime) (c : DelegationConfig) (path principal role : string)
    : prog (list BackupCall * result string string) :=
  audit ← append_rpc fault token now (backup_entry "backup_restore" path principal role);
  mret (match or_text "audit logging for backup_restore failed" audit with
        | Err e => ([], Err e)
        | Ok _ =>
            match connect_lattice c with
            | Err e => ([], Err e)
            | Ok _ => ([RestoreBackup path],
                let? r := restore_backup path in
                if r.1 : bool then Ok ("Restore completed: " +:+ r.2) else Err ("Restore failed: " +:+ r.2))
            end
        end).

(** ** Nodes *)

Definition lattice_node_row (n : LtNode) : string :=
  row [pad_right 20 (lt_node_id n); pad_right 10 (lt_state n); pad_right 8 (pretty (lt_gpu_count n));
       pad_right 6 (pretty (lt_cpu_cores n)); pad_right 8 (pretty (lt_memory_gb n)); pad_right 16 (or_dash (lt_owner_vcluster n));
       lt_state_reason n].
Definition list_lattice_nodes (c : DelegationConfig) (state vcluster : option string) (limit : N) : result string string :=
  let? _ := connect_lattice c in
  let? nodes := lattice_nodes (default "" state) (default "" vcluster) limit in
  match nodes with
  | [] => Ok "No nodes found."
  | _ => Ok (row [pad_right 20 "NODE"; pad_right 10 "STATE"; pad_right 8 "GPUs"; pad_right 6 "CORES"; pad_right 8 "MEM GB";
                  pad_right 16 "VCLUSTER"; "REASON"] +:+ rule 90 +:+ Str.join "" (lattice_node_row <$> nodes))
  end.

Definition inspect_lattice_node (c : DelegationConfig) (node_id : string) : result string string :=
  let? _ := connect_lattice c in
  let? n := get_node node_id in
  Ok (line ("Node:      " +:+ lt_node_id n) +:+ line ("State:     " +:+ lt_state n) +:+
      text_line "Reason:    " (lt_state_reason n) +:+ line ("Group:     " +:+ lt_group n) +:+
      line ("GPU:       " +:+ pretty (lt_gpu_count n) +:+ " x " +:+ lt_gpu_type n) +:+
      line ("CPU:       " +:+ pretty (lt_cpu_cores n) +:+ " cores") +:+ line ("Memory:    " +:+ pretty (lt_memory_gb n) +:+ " GB") +:+
      list_line "Features:  " (lt_features n) +:+ text_line "Tenant:    " (lt_owner_tenant n) +:+
      text_line "vCluster:  " (lt_owner_vcluster n) +:+ text_line "Allocation: " (lt_owner_allocation n) +:+
      list_line "Active allocations: " (lt_allocation_ids n) +:+ opt_line "Heartbeat: " (lt_last_heartbeat n)).

End lattice.

(** ** Properties *)

Section lattice_properties.
Context `{Chrono} `{ChronoTimestamp} `{EntryJson} `{CliApi} `{LatticeNodes} `{LatticeApi}.

(** A request that only reads is answered from the state. *)
Lemma status_run fault token node now s :
  ∃ r, run now (status fault token node) s = (s, r) ∧
    (is_ok r = true ↔ fault = Delivered ∧ (∃ h, client_header token = Ok h ∧ is_ok (auth_interceptor h) = true) ∧
                      is_Some (node_states s !! node)).
Proof.
  unfold status, rpc. destruct (client_header token) as [h|st]; simpl.
  2: { eexists. split; [done|]. simpl. naive_solver. }
  destruct fault as [|st|st]; simpl; [|by eexists; split; [done|naive_solver]|].
  - destruct (auth_interceptor h) as [?|?] eqn:Hh; simpl; [|eexists; split; [done|]; split; [done|]; intros (_ & (? & ? & Hx) & _); by simplify_eq; rewrite Hh in Hx].
    eexists; split; [done|]. unfold get_node_state.
    destruct (node_states s !! node) as [c|] eqn:Hn; simpl; split; intros Hx; try done; [|by destruct Hx as (_ & _ & [? ?])].
    split_and!; eauto. exists h. by rewrite Hh.
  - destruct (auth_interceptor h) as [?|?]; simpl; eexists; (split; [done|]); naive_solver.
Qed.

(** The verdict of [pact health] is PASS exactly when the journal
    answered for a node called "local", the connection to lattice succeeded
    and lattice called itself "healthy". No node is enrolled under that name
    in a deployment, and then the verdict is FAIL however healthy both
    systems are; the command itself succeeds either way. *)
Theorem health_verdict fault token c now s :
  ∃ text pass, run now (health_check fault token c) s = (s, Ok (text +:+ "Overall: " +:+ if pass : bool then "PASS" else "FAIL")) ∧
    (pass = true ↔
       fault = Delivered ∧ (∃ h, client_header token = Ok h ∧ is_ok (auth_interceptor h) = true) ∧
       is_Some (node_states s !! "local") ∧ connect_lattice c = Ok () ∧
       ∃ h, lattice_health = Ok h ∧ lh_status h = "healthy").
Proof.
  destruct (status_run fault token "local" now s) as (r & Hr & Hok).
  unfold health_check. rewrite run_bind, Hr. cbn [fst snd].
  destruct (lattice_report c) as [[ok text] reachable] eqn:Hrep. cbn [run].
  exists (health_text r text reachable), (is_ok r && ok). split; [done|].
  assert (ok = true ↔ connect_lattice c = Ok () ∧ ∃ h, lattice_health = Ok h ∧ lh_status h = "healthy") as Hl.
  { revert Hrep. unfold lattice_report. destruct (connect_lattice c) as [[]|]; [|naive_solver].
    destruct lattice_health as [h|]; [|naive_solver]. intros [= <- _ _]. rewrite bool_decide_eq_true. naive_solver. }
  rewrite andb_true_iff, Hok, Hl. naive_solver.
Qed.

(** Lattice is only asked to restore a backup after the journal holds an
    audit entry that names the backup and the caller: an audit that fails
    stops the command. *)
Theorem restore_audited fault token now c path pr ro h s s' calls r tr :
  journal_wf s → runs_in h s (backup_restore fault token now c path pr ro) s' (calls, r) tr → fits h s →
  calls ≠ [] → ∃ seq, recorded s' now (backup_entry "backup_restore" path pr ro) seq.
Proof.
  intros Hwf (h1 & h2 & s1 & a & tr1 & tr2 & Ha & Hr & -> & _)%runs_in_bind_inv Hfit Hc.
  destruct (fits_app _ _ _ _ _ _ _ Hwf Ha Hfit) as (Hf1 & Hwf1 & Hf2 & _).
  pose proof Hr as (Heq & _)%runs_in_ret_inv. destruct a as [seq|st]; simpl in Heq; [|by simplify_eq].
  destruct (append_rpc_recorded _ _ _ _ _ _ _ _ _ Hwf Ha Hf1) as [Hrec _]. exists seq. by eapply recorded_runs.
Qed.

End lattice_properties.

(** ** Witnesses *)

Module LatticeSample.

#[export] Existing Instance JournalSample.chrono.
#[export] Existing Instance ConfigSample.json.
#[export] Existing Instance CliSample.api.
#[export] Instance nodes : LatticeNodes :=
  {| lattice_connect := λ _ _ _, Ok (); lattice_drain_node := λ _ _, Ok (true, 2%N); lattice_disable_node := λ _ _, Ok true;
     lattice_enable_node := λ _, Ok true; lattice_undrain_node := λ _, Err "not draining" |}.
#[export] Instance lattice_api : LatticeApi :=
  {| list_allocations := λ _, Ok []; get_allocation := λ _, Err "unknown"; cancel_allocation := λ _, Ok true;
     vcluster_queue := λ v, Ok {| qs_vcluster_id := v; qs_pending := 1; qs_running := 2; qs_total := 3 |};
     raft_status := Err "down"; query_audit := λ _, Ok []; accounting_usage := λ _, Err "down";
     lattice_health := Ok {| lh_status := "healthy"; lh_version := "1"; lh_uptime_secs := 5 |};
     service_names := Ok []; service_lookup := λ _, Err "unknown"; dags := λ _ _ _, Ok []; get_dag := λ _, Err "unknown";
     stop_dag := λ _, Ok (true, 1%N); tenant_usage := λ _ _, Err "down"; user_usage := λ _ _, Err "down";
     create_backup := λ _, Err "disk full"; verify_backup := λ _, Err "unknown"; restore_backup := λ _, Ok (true, "done");
     lattice_nodes := λ _ _ _, Ok []; get_node := λ _, Err "unknown"; to_uppercase := λ s, s |}.

Definition config : DelegationConfig :=
  {| dl_lattice_endpoint := Some "http://lattice"; dl_lattice_token := None; dl_node_mgmt_backend := None;
     dl_node_mgmt_base_url := None; dl_node_mgmt_token := None; dl_openchami_smd_url := None; dl_openchami_token := None;
     dl_timeout_secs := 30 |}.
Definition restored := run 9%Z (backup_restore Delivered "t" 5%Z config "/b" "alice" "pact-ops-ml") journal_init.

End LatticeSample.
Import LatticeSample.

Lemma restore_audited_witness :
  ∃ seq, recorded restored.1 5%Z (backup_entry "backup_restore" "/b" "alice" "pact-ops-ml") seq.
Proof.
  destruct (run_runs_in 9%Z (backup_restore Delivered "t" 5%Z LatticeSample.config "/b" "alice" "pact-ops-ml") journal_init) as [tr Htr].
  refine (restore_audited Delivered "t" 5%Z LatticeSample.config "/b" "alice" "pact-ops-ml" _ journal_init _ restored.2.1 restored.2.2 tr
            journal_init_wf _ _ _); [| |vm_compute; discriminate].
  - unfold restored. rewrite <- surjective_pairing. exact Htr.
  - vm_compute. reflexivity.
Defined.
