(* ===== verification/CliMain.v ===== *)
(** * The command line program

    crates/pact-cli/src/main.rs: the commands, the authentication and the
    connection in front of them, their dispatch and the exit code. The
    machine is the interface [CliEnv] of the configuration; the login library
    (hpc_auth), the network and the agents are [CliWorld]. *)

From S2P Require Import Prelude Text Float64 Types JournalState JournalInvariants JournalProperties Raft.
From S2P Require Import ConfigService PolicyService EnrollmentService CertRotation Shell CliText CliCommands CliNodes CliLattice.
From stdpp Require Import options.

(** ** Commands *)

Inductive EmergencySubcommand := EmergencyStart (reason : string) | EmergencyEnd (force : bool).
Inductive ApproveSubcommand := ApproveList | ApproveAccept (id : string) | ApproveDeny (id m : string).
Inductive ServiceSubcommand := SvcStatus (name : option string) | SvcRestart (name : string) | SvcLogs (name : string).
Inductive NodeSubcommand :=
| NodeEnroll (node_id mac : string) (bmc_serial : option string)
| NodeDecommission (node_id : string) (force : bool)
| NodeAssign (node_id vcluster : string)
| NodeUnassign (node_id : string)
| NodeMove (node_id to_vcluster : string)
| NodeList (state vcluster : option string) (unassigned : bool)
| NodeInspect (node_id : string)
| NodeImport (group : option string).
Inductive GroupSubcommand := GroupList | GroupShow (name : string) | GroupSetPolicy (name policy : string).
Inductive JobsSubcommand := JobsList (node vcluster : option string) | JobsCancel (id : string) | JobsInspect (id : string).
Inductive ServicesSubcommand := ServicesList | ServicesLookup (name : string).
Inductive BlacklistSubcommand := BlacklistList | BlacklistAdd (pattern : string) | BlacklistRemove (pattern : string).
Inductive DagSubcommand := DagList (tenant state : option string) (n : N) | DagInspect (id : string) | DagCancel (id : string).
Inductive BudgetSubcommand := BudgetTenant (id : string) (days : N) | BudgetUser (id : string) (days : N).
Inductive BackupSubcommand := BackupCreate (path : string) | BackupVerify (path : string) | BackupRestore (path : string) (confirm : bool).
Inductive NodesSubcommand := NodesList (state vcluster : option string) (n : N) | NodesInspect (node_id : string).

Inductive Commands :=
| Status (node vcluster : option string)
| Diff (node : option string) (committed : bool)
| Log (n : N) (scope : option string)
| Commit (m : string)
| Rollback (seq : N)
| Exec (node : string) (command : list string)
| Shell (node : string)
| Emergency (action : EmergencySubcommand)
| Approve (action : ApproveSubcommand)
| Service (action : ServiceSubcommand)
| Cap (node : option string)
| Watch (vcluster : option string)
| Apply (spec : string)
| Node (action : NodeSubcommand)
| Promote (node : string) (dry_run : bool)
| Drain (node : string) | Cordon (node : string) | Uncordon (node : string) | Undrain (node : string)
| Reboot (node : string) | Reimage (node : string)
| Group (action : GroupSubcommand)
| Diag (node : option string) (lines : N) (source : string) (service grep vcluster : option string)
| Blacklist (action : BlacklistSubcommand)
| Jobs (action : JobsSubcommand)
| Queue (vcluster : option string)
| ClusterStatus
| Audit (source : string) (n : N)
| Accounting (vcluster : option string)
| Dag (action : DagSubcommand)
| Budget (action : BudgetSubcommand)
| Backup (action : BackupSubcommand)
| Nodes (action : NodesSubcommand)
| Health
| Services (action : ServicesSubcommand)
| Extend (mins : N)
| Login (server : option string) (device_code service_account : bool)
| Logout.

Definition needs_journal (c : Commands) : bool :=
  match c with
  | Status _ _ | Log _ _ | Commit _ | Rollback _ | Diff _ _ | Emergency _ | Approve _ | Watch _ | Apply _ | Exec _ _
  | Service _ | Cap _ | Extend _ | Node _ | Promote _ _ | Group _ | Blacklist _ | Diag _ _ _ _ _ _ | Drain _ | Cordon _
  | Uncordon _ | Undrain _ | Reboot _ | Reimage _ | ClusterStatus | Audit _ _ | Backup _ | Health | Services _ => true
  | Shell _ | Jobs _ | Queue _ | Accounting _ | Dag _ | Budget _ | Nodes _ | Login _ _ _ | Logout => false
  end.

(** The subcommands left out of the help text of a site without lattice. *)
Definition lattice_commands : list string :=
  ["drain"; "undrain"; "cordon"; "uncordon"; "jobs"; "queue"; "accounting"; "dag"; "budget"; "backup"; "nodes"; "services"].

(** ** The world *)

Inductive OAuthFlow := DeviceCode | ClientCredentials (client_id client_secret : string).
Class CliWorld := {
  auth_get_token : string → result string string;            (** hpc_auth's cache, by server *)
  auth_login : string → option OAuthFlow → result () string;
  auth_logout : string → result () string;
  journal_net : string → ConnectOutcome;
  agent_net : string → ConnectOutcome;
  net_reason : string;
  agent_exec : string → string → string → list string → result (list (result (option ExecOutput) Raft.Status)) Raft.Status;
  agent_commands : string → string → result (list CommandEntry) Raft.Status;
  agent_extend : string → string → N → result ExtendWindowResponse Raft.Status;
  agent_shell : string → string → ShellInput → result (list (result (option ShellOutput) Raft.Status)) Raft.Status;
  agent_diag : string → string → DiagRequest → result (list (result DiagChunk Raft.Status)) Raft.Status;
  journal_watch : string → string → result (list (result ConfigUpdate Raft.Status)) Raft.Status;
  fates : nat → CallFault * DateTime;                         (** of the requests to the journal, in order *)
  stream_cut : option (nat * Raft.Status);
  spec_toml : string → result ApplySpec string;
  policy_toml : string → result VClusterPolicy string;
}.

(** ** Outcomes *)

Record Outcome := { oc_out : list string; oc_err : list string; oc_code : Z }.
Definition exit_error (code : Z) (e : string) : Outcome := {| oc_out := []; oc_err := ["Error: " +:+ e]; oc_code := code |}.
(** What a panic leaves: an exit code of 101. *)
Definition panicked : Outcome := {| oc_out := []; oc_err := []; oc_code := 101 |}.
(** The end of main. *)
Definition finish (r : result string string) : Outcome :=
  match r with Ok output => {| oc_out := [output]; oc_err := []; oc_code := 0 |} | Err e => exit_error 1 e end.
Definition finish_prog (p : prog (result string string)) : prog Outcome := r ← p; mret (finish r).
(** A delegation prints its result itself, and exits when it failed. *)
Definition finish_delegation (p : prog (list ExternalCall * DelegationResult)) : prog Outcome :=
  r ← p;
  mret (let text := format_delegation_result r.2 in
        if de_success r.2 then {| oc_out := [text; ""]; oc_err := []; oc_code := 0 |}
        else {| oc_out := [text]; oc_err := []; oc_code := 1 |}).
(** [journal_client.as_mut().unwrap()] and [auth_channel.as_ref().unwrap()]. *)
Definition with_journal (connected : bool) (p : prog Outcome) : prog Outcome := if connected then p else mret panicked.

Section main.
Context `{Chrono} `{ChronoTimestamp} `{EntryJson} `{CliApi} `{CliEnv} `{CliWorld} `{Http} `{LatticeNodes} `{LatticeApi}.
Context (validator : TokenValidator) (domain_id : string).

(** ** Configuration of the delegation *)

Definition backend_of_text (s : string) : option NodeMgmtBackendType :=
  if decide (s = "csm") then Some Csm else if decide (s = "ochami") then Some Ochami else None.
Definition delegation_config (token : string) : DelegationConfig :=
  {| dl_lattice_endpoint := env_var "PACT_LATTICE_ENDPOINT";
     dl_lattice_token := match env_var "PACT_LATTICE_TOKEN" with
                         | Some t => Some t
                         | None => if Str.is_empty token then None else Some token
                         end;
     dl_node_mgmt_backend := env_var "PACT_NODE_MGMT_BACKEND" ≫= backend_of_text;
     dl_node_mgmt_base_url := env_var "PACT_NODE_MGMT_URL";
     dl_node_mgmt_token := env_var "PACT_NODE_MGMT_TOKEN";
     dl_openchami_smd_url := env_var "PACT_OPENCHAMI_SMD_URL";
     dl_openchami_token := env_var "PACT_OPENCHAMI_TOKEN";
     dl_timeout_secs := 30 |}.

(** ** Commands to an agent *)

Definition fault0 : CallFault := (fates 0).1.
Definition now0 : DateTime := (fates 0).2.

(** The agent of a node is found, connected to and asked. *)
Definition ask_agent (token node : string) (ask : string → result string string) : prog Outcome :=
  addr ← resolve_agent_address fault0 token node;
  mret (finish (let? a := addr in let? uri := connect_agent agent_net net_reason a in ask uri)).

Definition service_args (action : ServiceSubcommand) : string * list string :=
  match action with
  | SvcStatus name => ("systemctl", ["status"; default "--all" name])
  | SvcRestart name => ("systemctl", ["restart"; name])
  | SvcLogs name => ("journalctl", ["-u"; name; "-n"; "50"])
  end.

(** A shell prints while it runs. *)
Definition shell_outcome (r : list Printed * result string string) : Outcome :=
  let fin := finish r.2 in
  {| oc_out := omap (λ p, if p is PrintOut d then Some (from_utf8_lossy d) else None) r.1 ++ oc_out fin;
     oc_err := omap (λ p, if p is PrintErr t then Some t else None) r.1 ++ oc_err fin; oc_code := oc_code fin |}.

(** ** Dispatch *)

Definition dispatch_approve (token : string) (action : ApproveSubcommand) : prog Outcome :=
  match action with
  | ApproveList =>
      r ← approve_list fault0 token None;
      mret match r with Ok (Some text) => finish (Ok text) | Ok None => panicked | Err e => finish (Err e) end
  | ApproveAccept id => finish_prog (approve_decide fault0 token id "approved" "cli-user" "pact-platform-admin")
  | ApproveDeny id _ => finish_prog (approve_decide fault0 token id "rejected" "cli-user" "pact-platform-admin")
  end.

Definition dispatch_node (token : string) (d : DelegationConfig) (action : NodeSubcommand) : prog Outcome :=
  match action with
  | NodeEnroll node mac serial => finish_prog (cli_enroll validator domain_id fault0 token now0 node mac serial)
  | NodeDecommission node force => finish_prog (cli_decommission validator fault0 token node force)
  | NodeAssign node vc => finish_prog (cli_assign validator fault0 token node vc)
  | NodeUnassign node => finish_prog (cli_unassign validator fault0 token node)
  | NodeMove node to => finish_prog (cli_move_node validator fault0 token node to)
  | NodeList state vc unassigned => finish_prog (cli_list validator fault0 token state vc unassigned)
  | NodeInspect node => finish_prog (cli_inspect validator fault0 token node)
  | NodeImport group =>
      match dl_openchami_smd_url d with
      | None => mret (exit_error 1 "PACT_OPENCHAMI_SMD_URL not configured")
      | Some url => finish_prog (import_from_smd validator domain_id fates (env_var "PACT_HSM_PATH_PREFIX") token url
                                   (dl_openchami_token d) group)
      end
  end.

Definition dispatch_group (token : string) (action : GroupSubcommand) : prog Outcome :=
  match action with
  | GroupList => finish_prog (group_list fault0 stream_cut (λ i, (fates (S i)).1) token)
  | GroupShow name => finish_prog (group_show fault0 token name)
  | GroupSetPolicy name policy => finish_prog (group_set_policy fault0 env_read policy_toml token name policy)
  end.

Definition dispatch_jobs (d : DelegationConfig) (action : JobsSubcommand) : result string string :=
  match action with
  | JobsList node vc => list_jobs d node vc | JobsCancel id => cancel_job d id | JobsInspect id => inspect_job d id
  end.
Definition dispatch_dag (d : DelegationConfig) (action : DagSubcommand) : result string string :=
  match action with
  | DagList tenant state n => list_dags d tenant state n | DagInspect id => inspect_dag d id | DagCancel id => cancel_dag d id
  end.
Definition dispatch_budget (d : DelegationConfig) (action : BudgetSubcommand) : result string string :=
  match action with BudgetTenant id days => tenant_budget d id days | BudgetUser id days => user_budget d id days end.
Definition dispatch_nodes (d : DelegationConfig) (action : NodesSubcommand) : result string string :=
  match action with
  | NodesList state vc n => list_lattice_nodes d state vc n | NodesInspect node => inspect_lattice_node d node
  end.
Definition dispatch_services (d : DelegationConfig) (action : ServicesSubcommand) : result string string :=
  match action with ServicesList => list_services d | ServicesLookup name => lookup_service d name end.
Definition dispatch_backup (connected : bool) (token : string) (d : DelegationConfig) (principal role : string)
    (action : BackupSubcommand) : prog Outcome :=
  match action with
  | BackupCreate path =>
      with_journal connected (r ← backup_create fault0 token now0 d path principal role; mret (finish r.2))
  | BackupVerify path => mret (finish (backup_verify d path))
  | BackupRestore path confirm =>
      if confirm then with_journal connected (r ← backup_restore fault0 token now0 d path principal role; mret (finish r.2))
      else mret (finish (Err "backup restore is destructive — pass --confirm to proceed"))
  end.

Definition login_flow (device_code service_account : bool) : option OAuthFlow :=
  if device_code then Some DeviceCode
  else if service_account then Some (ClientCredentials (default "" (env_var "PACT_CLIENT_ID")) (default "" (env_var "PACT_CLIENT_SECRET")))
  else None.

Definition dispatch_diag (config : CliConfig) (token : string) (connected : bool) (node : option string) (lines : N) (source : string)
    (service grep vc : option string) : prog Outcome :=
  match node with
  | Some node_id =>
      with_journal connected
        (ask_agent token node_id (λ uri, diag_node (agent_diag uri token (diag_request source service grep lines))))
  | None =>
      match (match vc with Some v => Some v | None => cc_default_vcluster config end) with
      | Some _ => with_journal connected (mret (finish diag_fleet))
      | None => mret (finish (Err "specify --node <id> for single-node or --vcluster <name> for fleet-wide diag"))
      end
  end.
Definition dispatch_blacklist (config : CliConfig) (token : string) (connected : bool) (principal role : string)
    (action : BlacklistSubcommand) : prog Outcome :=
  let vcluster := default "default" (cc_default_vcluster config) in
  match action with
  | BlacklistList =>
      mret {| oc_out := [format_blacklist_result {| bl_operation := BlList; bl_paths := default_blacklist |}; ""];
              oc_err := []; oc_code := 0 |}
  | BlacklistAdd pattern =>
      with_journal connected (finish_prog (blacklist_add fault0 token now0 pattern vcluster principal role))
  | BlacklistRemove pattern =>
      with_journal connected (finish_prog (blacklist_remove fault0 token now0 pattern vcluster principal role))
  end.
Definition dispatch_watch (config : CliConfig) (token : string) (connected : bool) (vc : option string) : prog Outcome :=
  let vc := match vc with Some v => v | None => default "default" (cc_default_vcluster config) end in
  with_journal connected
    (let '(printed, r) := watch vc (journal_watch token vc) in
     mret {| oc_out := printed ++ oc_out (finish r); oc_err := oc_err (finish r); oc_code := oc_code (finish r) |}).
Definition dispatch_login (config : CliConfig) (server : option string) (device_code service_account : bool) : result string string :=
  let? _ := auth_login (default (cc_endpoint config) server) (login_flow device_code service_account) in Ok "Login successful.".
Definition dispatch_logout (config : CliConfig) : result string string :=
  let? _ := auth_logout (cc_endpoint config) in Ok "Logged out.".

Definition dispatch (config : CliConfig) (token : string) (connected : bool) (command : Commands) : prog Outcome :=
  let d := delegation_config token in
  let '(principal, role) := resolve_identity_from_token token in
  let vcluster := default "default" (cc_default_vcluster config) in
  match command with
  | Status node _ => with_journal connected (finish_prog (status fault0 token (default "local" node)))
  | Log n scope => with_journal connected (finish_prog (log fault0 stream_cut token n scope))
  | Commit m => with_journal connected (finish_prog (commit fault0 token now0 m vcluster principal role))
  | Rollback seq => with_journal connected (finish_prog (rollback fault0 token now0 seq vcluster principal role))
  | Diff node _ =>
      with_journal connected (finish_prog (log fault0 stream_cut token 50 ((λ n, "node:" +:+ n) <$> node)))
  | Exec node parts =>
      match parse_exec_command parts with
      | Err e => mret (finish (Err e))
      | Ok (cmd, args) => with_journal connected (ask_agent token node (λ uri, exec_remote (agent_exec uri token cmd args)))
      end
  | Shell node =>
      with_journal connected
        (addr ← resolve_agent_address fault0 token node;
         mret match (let? a := addr in connect_agent agent_net net_reason a) with
              | Err e => finish (Err e)
              | Ok uri => shell_outcome (shell_interactive (agent_shell uri token (shell_open (env_var "TERM"))))
              end)
  | Emergency (EmergencyStart reason) =>
      with_journal connected (finish_prog (emergency_start fault0 token now0 reason vcluster "cli-user" "pact-platform-admin"))
  | Emergency (EmergencyEnd _) =>
      with_journal connected (finish_prog (emergency_end fault0 token now0 vcluster "cli-user" "pact-platform-admin"))
  | Approve action => with_journal connected (dispatch_approve token action)
  | Service action =>
      let '(cmd, args) := service_args action in
      with_journal connected (ask_agent token "local" (λ uri, exec_remote (agent_exec uri token cmd args)))
  | Cap node =>
      with_journal connected (ask_agent token (default "local" node) (λ uri, list_agent_commands (agent_commands uri token)))
  | Watch vc => dispatch_watch config token connected vc
  | Apply spec =>
      with_journal connected (finish_prog (cli_apply fates token (load_spec env_read spec_toml spec) spec principal role))
  | Extend mins => with_journal connected (ask_agent token "local" (λ uri, cli_extend mins (agent_extend uri token mins)))
  | Node action => with_journal connected (dispatch_node token d action)
  | Promote node dry_run => with_journal connected (finish_prog (promote_node fault0 stream_cut token node dry_run))
  | Drain node => with_journal connected (finish_delegation (drain_node fault0 token now0 node principal role d))
  | Cordon node => with_journal connected (finish_delegation (cordon_node fault0 token now0 node principal role d))
  | Uncordon node => with_journal connected (finish_delegation (uncordon_node fault0 token now0 node principal role d))
  | Undrain node => with_journal connected (finish_delegation (undrain_node fault0 token now0 node principal role d))
  | Reboot node => with_journal connected (finish_delegation (reboot_node fault0 token now0 node principal role d))
  | Reimage node => with_journal connected (finish_delegation (reimage_node fault0 token now0 node principal role d))
  | Group action => with_journal connected (dispatch_group token action)
  | Diag node lines source service grep vc =>
      dispatch_diag config token connected node lines source service grep vc
  | Blacklist action => dispatch_blacklist config token connected principal role action
  | ClusterStatus => with_journal connected (finish_prog (cluster_status fault0 token d))
  | Audit source n => with_journal connected (finish_prog (audit_combined fault0 stream_cut token d source n))
  | Health => with_journal connected (finish_prog (health_check fault0 token d))
  | Jobs action => mret (finish (dispatch_jobs d action))
  | Queue vc => mret (finish (queue_status d vc))
  | Accounting vc => mret (finish (accounting d vc))
  | Dag action => mret (finish (dispatch_dag d action))
  | Budget action => mret (finish (dispatch_budget d action))
  | Backup action => dispatch_backup connected token d principal role action
  | Nodes action => mret (finish (dispatch_nodes d action))
  | Services action => mret (finish (dispatch_services d action))
  | Login server device_code service_account => mret (finish (dispatch_login config server device_code service_account))
  | Logout => mret (finish (dispatch_logout config))
  end.

(** The token of a command that needs the journal: given or stored ones
    first, then the cache of the login library. *)
Definition resolve_auth (config : CliConfig) : result string string :=
  match resolve_token config with Ok t => Ok t | Err _ => auth_get_token (cc_endpoint config) end.
Definition not_authenticated (e : string) : Outcome :=
  {| oc_out := []; oc_err := ["Error: not authenticated. Run `pact login` first."; "  Detail: " +:+ e]; oc_code := 2 |}.

Definition main (o : CliOptions) (command : Commands) : prog Outcome :=
  let config := effective_config o in
  if needs_journal command then
    match resolve_auth config with
    | Err e => mret (not_authenticated e)
    | Ok token =>
        match connect_with_tls env_read journal_net net_reason config None with
        | Err e => mret (exit_error 1 e)
        | Ok _ => dispatch config token true command
        end
    end
  else dispatch config "" false command.

(** ** Panics and exit codes *)

(** A regular end: success or an error of the command. *)
Definition regular (oc : Outcome) : Prop := oc_code oc = 0%Z ∨ oc_code oc = 1%Z.

Lemma finish_regular r : regular (finish r).
Proof. destruct r; [by left|by right]. Qed.
Lemma error_regular e : regular (exit_error 1 e).
Proof. by right. Qed.
Lemma finish_prog_regular p : may_return regular (finish_prog p).
Proof. apply may_return_bind. intros r. apply finish_regular. Qed.
Lemma finish_delegation_regular p : may_return regular (finish_delegation p).
Proof. apply may_return_bind. intros r. simpl. destruct (de_success r.2); [by left|by right]. Qed.
Lemma ask_agent_regular token node ask : may_return regular (ask_agent token node ask).
Proof. apply may_return_bind. intros r. apply finish_regular. Qed.

Create HintDb regular.
#[local] Hint Resolve finish_regular error_regular finish_prog_regular finish_delegation_regular ask_agent_regular : regular.

Lemma dispatch_node_regular token d action : may_return regular (dispatch_node token d action).
Proof. destruct action; simpl; auto with regular. destruct (dl_openchami_smd_url d); simpl; auto with regular. Qed.
Lemma dispatch_group_regular token action : may_return regular (dispatch_group token action).
Proof. destruct action; simpl; auto with regular. Qed.
Lemma dispatch_backup_regular token d pr ro action : may_return regular (dispatch_backup true token d pr ro action).
Proof.
  destruct action as [path|path|path []]; simpl; auto with regular;
    apply may_return_bind; intros r; apply finish_regular.
Qed.
#[local] Hint Resolve dispatch_node_regular dispatch_group_regular dispatch_backup_regular : regular.

Lemma dispatch_connected_regular config token command :
  (∀ node, command ≠ Shell node) → command ≠ Approve ApproveList →
  may_return regular (dispatch config token true command).
Proof.
  intros Hs Ha. unfold dispatch. destruct (resolve_identity_from_token token) as [pr ro].
  destruct command; simpl; auto with regular.
  - destruct (parse_exec_command command) as [[cmd args]|e]; simpl; auto with regular.
  - by destruct (Hs node).
  - destruct action; simpl; auto with regular.
  - destruct action; [done|simpl; auto with regular..].
  - destruct (service_args action). auto with regular.
  - destruct (watch _ _) as [printed r]. simpl. destruct r; [by left|by right].
  - destruct node; simpl; auto with regular. destruct (match vcluster with Some _ => _ | None => _ end); simpl; auto with regular.
  - destruct action; simpl; auto with regular. by left.
Qed.

Lemma dispatch_alone_regular config command :
  (∀ node, command ≠ Shell node) → needs_journal command = false → may_return regular (dispatch config "" false command).
Proof.
  intros Hs Hn. unfold dispatch. destruct (resolve_identity_from_token "") as [pr ro].
  destruct command; simpl; try done; auto with regular. by destruct (Hs node).
Qed.

(** A command that can panic. *)
Definition may_panic (command : Commands) : Prop := (∃ node, command = Shell node) ∨ command = Approve ApproveList.

Lemma may_panic_or command : may_panic command ∨ (∀ node, command ≠ Shell node) ∧ command ≠ Approve ApproveList.
Proof. destruct command; try (by right); [left; left; by eexists|]. destruct action; [left; by right|by right..]. Qed.

Lemma dispatch_may_panic config token connected command :
  may_panic command → may_return (λ oc, regular oc ∨ oc = panicked) (dispatch config token connected command).
Proof.
  intros Hp. unfold dispatch. destruct (resolve_identity_from_token token) as [pr ro].
  destruct Hp as [[node ->]| ->]; destruct connected; simpl; auto.
  - apply may_return_bind. intros r. left. destruct (let? a := r in _) as [uri|e]; [|by right].
    unfold regular, shell_outcome. simpl. apply finish_regular.
  - apply may_return_bind. intros [[text|]|e]; [left; by left|by right|left; by right].
Qed.

(** C40: The program ends with exit code 2, and writes nothing, exactly when
    the command needs the journal and no token could be found. Otherwise it
    ends with 0 or 1, or panics (code 101), which only [pact shell] and the
    listing of approvals can do. No other code is ever returned: not 3, 4, 5,
    6 or 10, which the documentation assigns to refusals by policy, conflicts,
    an unreachable journal, commands outside the whitelist and failed
    rollbacks. *)
Theorem main_exit_codes o command s s' oc tr :
  runs s (main o command) s' oc tr →
  (oc_code oc = 2%Z ↔ needs_journal command = true ∧ is_ok (resolve_auth (effective_config o)) = false) ∧
  (oc_code oc = 2%Z → tr = [] ∧ ∃ e, oc = not_authenticated e) ∧
  (oc_code oc ≠ 2%Z → oc_code oc = 0%Z ∨ oc_code oc = 1%Z ∨ oc = panicked ∧ may_panic command).
Proof.
  intros Hr.
  assert (∀ config token connected, runs s (dispatch config token connected command) s' oc tr →
    (connected = true ∨ needs_journal command = false ∧ connected = false ∧ token = "") → regular oc ∨ oc = panicked ∧ may_panic command) as Hd.
  { intros config token connected Hrun Hc. destruct (may_panic_or command) as [Hp|[Hs Ha]].
    - destruct (may_return_runs _ _ _ _ _ _ (dispatch_may_panic config token connected command Hp) Hrun) as [?|?]; [by left|by right].
    - left. destruct Hc as [->|(Hn & -> & ->)]; refine (may_return_runs regular _ _ _ _ _ _ Hrun);
        [by apply dispatch_connected_regular|by apply dispatch_alone_regular]. }
  assert (∀ P : Prop, regular oc ∨ oc = panicked ∧ may_panic command → ¬ P →
    (oc_code oc = 2%Z ↔ P) ∧ (oc_code oc = 2%Z → tr = [] ∧ ∃ e, oc = not_authenticated e) ∧
    (oc_code oc ≠ 2%Z → oc_code oc = 0%Z ∨ oc_code oc = 1%Z ∨ oc = panicked ∧ may_panic command)) as Hend.
  { intros P Hx HP. assert (oc_code oc ≠ 2%Z) by (by destruct Hx as [[->| ->]|[-> _]]). unfold regular in Hx. tauto. }
  unfold main in Hr. destruct (needs_journal command) eqn:Hn.
  - destruct (resolve_auth (effective_config o)) as [token|e].
    + apply Hend; [|by intros []]. destruct (connect_with_tls _ _ _ _ _) as [c|e].
      * by eapply Hd; [exact Hr|left].
      * apply runs_ret_inv in Hr as [-> _]. by left; right.
    + apply runs_ret_inv in Hr as [-> ->]. split; [done|]. split; [|done]. intros _. split; [done|by eexists].
  - apply Hend; [|by intros []]. eapply Hd; [exact Hr|by right].
Qed.

(** [pact shell] always panics: it is missing from the commands that get
    a connection to the journal, and unwraps that connection first. *)
Theorem shell_always_panics o node s s' oc tr :
  runs s (main o (Shell node)) s' oc tr → oc = panicked ∧ tr = [].
Proof.
  unfold main, dispatch. simpl. destruct (resolve_identity_from_token "") as [pr ro].
  apply runs_ret_inv.
Qed.

(** ** Who acts *)

(** The two-person rule does not bind the client's user: whoever runs
    [pact approve accept], their own pending request included, the journal
    records the decision of "cli-user" as a platform administrator and takes
    it, unless the request was made under exactly that name. *)
Theorem approval_under_fixed_name o token h now id a s :
  resolve_auth (effective_config o) = Ok token → client_header token = Ok h → is_ok (auth_interceptor h) = true →
  is_ok (connect_with_tls env_read journal_net net_reason (effective_config o) None) = true → fates 0 = (Delivered, now) →
  pending_approvals s !! id = Some a → apr_status a = Pending → principal (apr_requester a) ≠ "cli-user" →
  let '(s', oc) := run now (main o (Approve (ApproveAccept id))) s in
  oc = finish (Ok ("Approval " +:+ id +:+ ": approved")) ∧
  pending_approvals s' !! id = Some (decide_with a Approved
    (Some {| principal := "cli-user"; principal_type := Human; role := "pact-platform-admin" |})).
Proof.
  intros Ht Hh Hi Hc Hf Ha Hp Hne. unfold main. simpl. rewrite Ht.
  destruct (connect_with_tls _ _ _ _ _) as [c|]; [|done]. unfold dispatch.
  destruct (resolve_identity_from_token token) as [pr ro]. simpl.
  unfold approve_decide, rpc, fault0. rewrite Hh, Hf. simpl. destruct (auth_interceptor h); [|done]. simpl.
  unfold apply_decide_approval. rewrite Ha. rewrite decide_False by (by intros Hx; apply Hx).
  rewrite decide_False by done. simpl. split; [done|]. apply lookup_insert_eq.
Qed.

(** A change of the emergency mode is recorded under the fixed name
    "cli-user" with the role of a platform administrator, whoever holds the
    token. *)
Theorem emergency_under_fixed_name o reason h s s' oc tr :
  journal_wf s → runs_in h s (main o (Emergency (EmergencyStart reason))) s' oc tr → fits h s → oc_code oc = 0%Z →
  ∃ seq e, entries s' !! seq = Some e ∧ entry_type e = ET_EmergencyStart ∧
    entry_author e = {| principal := "cli-user"; principal_type := Human; role := "pact-platform-admin" |} ∧
    entry_scope e = VCluster (default "default" (cc_default_vcluster (effective_config o))) ∧
    entry_emergency_reason e = Some reason.
Proof.
  intros Hwf. unfold main. simpl. destruct (resolve_auth _) as [token|e]; [|by intros (-> & _)%runs_in_ret_inv].
  destruct (connect_with_tls _ _ _ _ _) as [c|e]; [|by intros (-> & _)%runs_in_ret_inv]. unfold dispatch.
  destruct (resolve_identity_from_token token) as [pr ro]. simpl.
  intros (h1 & h2 & s1 & r & tr1 & tr2 & Hrun & Hret & -> & _)%runs_in_bind_inv Hfit Hcode.
  destruct (fits_app _ _ _ _ _ _ _ Hwf Hrun Hfit) as (Hf1 & Hwf1 & Hf2 & _).
  pose proof Hret as (-> & _)%runs_in_ret_inv. destruct r as [text|e]; [|done].
  destruct (append_command_recorded _ _ _ _ _ _ _ _ _ _ _ Hwf Hrun Hf1) as (seq & _ & Hrec & _).
  destruct (recorded_runs _ _ _ _ _ _ _ _ _ Hwf1 Hret Hf2 Hrec) as (e & He & Hin).
  exists seq, (with_sequence e seq). split; [done|]. unfold proto_to_config_entry in He. simpl in He. injection He as <-. done.
Qed.

(** The commands that only talk to lattice never use the user's token:
    without PACT_LATTICE_TOKEN they connect to lattice without one, and a
    token on the command line changes nothing of what they do. *)
Theorem lattice_commands_anonymous e ep vc t command :
  needs_journal command = false →
  main {| opt_endpoint := ep; opt_token := Some t; opt_vcluster := vc |} command =
    main {| opt_endpoint := ep; opt_token := e; opt_vcluster := vc |} command ∧
  dl_lattice_token (delegation_config "") = env_var "PACT_LATTICE_TOKEN".
Proof.
  intros Hn. unfold main. rewrite Hn. split; [|simpl; by destruct (env_var "PACT_LATTICE_TOKEN")].
  destruct command; try discriminate Hn; reflexivity.
Qed.

End main.

(** ** Witnesses *)

Module MainSample.

#[export] Existing Instance JournalSample.chrono.
#[export] Existing Instance PolicySample.timestamps.
#[export] Existing Instance ConfigSample.json.
#[export] Existing Instance CliSample.api.
#[export] Existing Instance CliNodesSample.http.
#[export] Existing Instance LatticeSample.nodes.
#[export] Existing Instance LatticeSample.lattice_api.
#[export] Instance env : CliEnv :=
  {| env_config_dir := Some "/home/alice/.config"; env_exists := λ _, false; env_read := λ _, Err "no such file";
     env_var := λ _, None; env_config_toml := λ _, Err "empty" |}.
#[export] Instance world : CliWorld :=
  {| auth_get_token := λ _, Err "no cached token"; auth_login := λ _ _, Ok (); auth_logout := λ _, Ok ();
     journal_net := λ _, Connected; agent_net := λ _, Connected; net_reason := "";
     agent_exec := λ _ _ _ _, Ok []; agent_commands := λ _ _, Ok [];
     agent_extend := λ _ _ _, Ok {| ew_success := true; ew_new_deadline_seconds := 60; ew_error := None |};
     agent_shell := λ _ _ _, Ok []; agent_diag := λ _ _ _, Ok []; journal_watch := λ _ _, Ok [];
     fates := λ _, (Delivered, 5%Z); stream_cut := None; spec_toml := λ _, Err "bad"; policy_toml := λ _, Err "bad" |}.

Definition options (token : option string) : CliOptions := {| opt_endpoint := None; opt_token := token; opt_vcluster := Some "ml" |}.
Definition pact (o : CliOptions) (c : Commands) := main EnrollSample.validator "site" o c.

(** A request of alice's waits for approval. *)
Definition request : PendingApproval :=
  {| apr_approval_id := "a1"; apr_original_request := "commit"; apr_action := "commit"; apr_scope := VCluster "ml";
     apr_requester := {| principal := "alice@example.com"; principal_type := Human; role := "pact-regulated-ml" |};
     apr_approver := None; apr_status := Pending; apr_created_at := 0%Z; apr_expires_at := 1800000000000%Z |}.
Definition waiting : JournalState := apply_log [(0%Z, CreateApproval request)] journal_init.

End MainSample.
Import MainSample.

Lemma main_exit_codes_witness :
  oc_code (run 5%Z (pact (MainSample.options None) (Commit "m")) journal_init).2 = 2%Z.
Proof.
  destruct (run_runs 5%Z (pact (MainSample.options None) (Commit "m")) journal_init) as [tr Htr].
  apply (main_exit_codes EnrollSample.validator "site" (MainSample.options None) (Commit "m") journal_init _ _ tr Htr).
  split; vm_compute; reflexivity.
Defined.

Lemma shell_always_panics_witness :
  (run 5%Z (pact (MainSample.options (Some "alice-token")) (Shell "n1")) journal_init).2 = panicked.
Proof.
  destruct (run_runs 5%Z (pact (MainSample.options (Some "alice-token")) (Shell "n1")) journal_init) as [tr Htr].
  apply (shell_always_panics EnrollSample.validator "site" (MainSample.options (Some "alice-token")) "n1" journal_init _ _ tr Htr).
Defined.

Lemma approval_under_fixed_name_witness :
  let '(s', oc) := run 5%Z (pact (MainSample.options (Some "alice-token")) (Approve (ApproveAccept "a1"))) waiting in
  oc = finish (Ok ("Approval " +:+ "a1" +:+ ": approved")) ∧
  pending_approvals s' !! "a1" = Some (decide_with MainSample.request Approved
    (Some {| principal := "cli-user"; principal_type := Human; role := "pact-platform-admin" |})).
Proof.
  apply (approval_under_fixed_name EnrollSample.validator "site" (MainSample.options (Some "alice-token")) "alice-token"
           (Header "Bearer alice-token") 5%Z "a1" MainSample.request waiting); try reflexivity. discriminate.
Defined.

Lemma emergency_under_fixed_name_witness :
  let s' := (run 5%Z (pact (MainSample.options (Some "alice-token")) (Emergency (EmergencyStart "fire"))) journal_init).1 in
  ∃ seq e, entries s' !! seq = Some e ∧ entry_type e = ET_EmergencyStart ∧
    entry_author e = {| principal := "cli-user"; principal_type := Human; role := "pact-platform-admin" |} ∧
    entry_scope e = VCluster "ml" ∧ entry_emergency_reason e = Some "fire".
Proof.
  destruct (run_runs_in 5%Z (pact (MainSample.options (Some "alice-token")) (Emergency (EmergencyStart "fire"))) journal_init)
    as [tr Htr].
  refine (emergency_under_fixed_name EnrollSample.validator "site" (MainSample.options (Some "alice-token")) "fire" _ journal_init _ _ tr
           journal_init_wf Htr _ eq_refl).
  vm_compute. reflexivity.
Defined.

Lemma lattice_commands_anonymous_witness :
  pact (MainSample.options (Some "alice-token")) (Queue None) = pact (MainSample.options None) (Queue None) ∧
  dl_lattice_token (delegation_config "") = env_var "PACT_LATTICE_TOKEN".
Proof.
  apply (lattice_commands_anonymous EnrollSample.validator "site" None None (Some "ml") "alice-token" (Queue None)).
  reflexivity.
Defined.
