(* ===== verification/McpTools.v ===== *)
(** * Protocol and tools of the MCP server

    crates/pact-mcp/src/protocol.rs (JSON-RPC messages) and tools.rs (the
    advertised tools with their input schemas, and the answers of a server
    without connections). JSON values are those of serde_json; its text form
    and Rust's debug form of texts are the interface [JsonText]. *)

From S2P Require Import Prelude Text Float64 Types.
From stdpp Require Import options.

(** ** JSON values *)

#[warnings="-register-all"]
Inductive Json :=
| JNull | JBool (b : bool) | JInt (n : Z) | JFloat (x : f64) | JStr (s : string) | JArr (l : list Json)
| JObj (fields : list (string * Json)).

Fixpoint field_of (k : string) (fields : list (string * Json)) : option Json :=
  match fields with
  | [] => None
  | (k', v) :: rest => if decide (k = k') then Some v else field_of k rest
  end.
(** [Value::get], [as_str], [as_bool] and [as_u64]. *)
Definition get (k : string) (j : Json) : option Json := match j with JObj fields => field_of k fields | _ => None end.
Definition as_str (j : Json) : option string := match j with JStr s => Some s | _ => None end.
Definition as_bool (j : Json) : option bool := match j with JBool b => Some b | _ => None end.
Definition as_u64 (j : Json) : option N :=
  match j with JInt n => if ((0 <=? n) && (n <=? Z.of_N u64_max))%Z then Some (Z.to_N n) else None | _ => None end.
Definition str_arg (k : string) (args : Json) : option string := get k args ≫= as_str.
Definition u64_arg (k : string) (args : Json) : option N := get k args ≫= as_u64.
Definition bool_arg (k : string) (args : Json) : option bool := get k args ≫= as_bool.
Fixpoint set_field (k : string) (v : Json) (fields : list (string * Json)) : list (string * Json) :=
  match fields with
  | [] => [(k, v)]
  | (k', v') :: rest => if decide (k = k') then (k, v) :: rest else (k', v') :: set_field k v rest
  end.
(** [value[k] = v]: a null becomes an object; [None] is the panic on any
    other value that is not an object. *)
Definition index_set (k : string) (v : Json) (j : Json) : option Json :=
  match j with
  | JObj fields => Some (JObj (set_field k v fields))
  | JNull => Some (JObj [(k, v)])
  | _ => None
  end.

Class JsonText := {
  json_text : Json → string;
  json_parse : string → result Json string;
  serde_error : Json → string;     (** why a value is not a message *)
  debug_text : string → string;    (** [{:?}] of a text *)
}.

(** ** Messages *)

Record JsonRpcRequest := { rq_jsonrpc : string; rq_id : Json; rq_method : string; rq_params : Json }.
Record JsonRpcError := { er_code : Z; er_message : string; er_data : option Json }.
Record JsonRpcResponse := { rs_jsonrpc : string; rs_id : Json; rs_result : option Json; rs_error : option JsonRpcError }.
Record ToolDefinition := { td_name : string; td_description : string; td_input_schema : Json }.
Record ToolCallParams := { tp_name : string; tp_arguments : Json }.
Record ContentBlock := { cb_content_type : string; cb_text : string }.
Record ToolCallResult := { tr_content : list ContentBlock; tr_is_error : bool }.

Definition success_response (id result : Json) : JsonRpcResponse :=
  {| rs_jsonrpc := "2.0"; rs_id := id; rs_result := Some result; rs_error := None |}.
Definition error_response (id : Json) (code : Z) (message : string) : JsonRpcResponse :=
  {| rs_jsonrpc := "2.0"; rs_id := id; rs_result := None;
     rs_error := Some {| er_code := code; er_message := message; er_data := None |} |}.
Definition text_content (text : string) : ContentBlock := {| cb_content_type := "text"; cb_text := text |}.
Definition tool_result (text : string) (is_error : bool) : ToolCallResult :=
  {| tr_content := [text_content text]; tr_is_error := is_error |}.

Definition PARSE_ERROR : Z := -32700.
Definition METHOD_NOT_FOUND : Z := -32601.
Definition INVALID_PARAMS : Z := -32602.

(** The derived deserialisers: an object by its field names, or an array by
    position; a field without default must be there. *)
Definition request_of_json (j : Json) : option JsonRpcRequest :=
  let request v id m params :=
    v ← as_str v; m ← as_str m;
    Some {| rq_jsonrpc := v; rq_id := id; rq_method := m; rq_params := params |} in
  match j with
  | JObj _ => v ← get "jsonrpc" j; id ← get "id" j; m ← get "method" j; request v id m (default JNull (get "params" j))
  | JArr [v; id; m] => request v id m JNull
  | JArr [v; id; m; params] => request v id m params
  | _ => None
  end.
Definition params_of_json (j : Json) : option ToolCallParams :=
  let params n args := n ← as_str n; Some {| tp_name := n; tp_arguments := args |} in
  match j with
  | JObj _ => n ← get "name" j; params n (default JNull (get "arguments" j))
  | JArr [n] => params n JNull
  | JArr [n; args] => params n args
  | _ => None
  end.

Definition tool_json (t : ToolDefinition) : Json :=
  JObj [("name", JStr (td_name t)); ("description", JStr (td_description t)); ("inputSchema", td_input_schema t)].
Definition content_json (c : ContentBlock) : Json := JObj [("type", JStr (cb_content_type c)); ("text", JStr (cb_text c))].
Definition result_json (r : ToolCallResult) : Json :=
  JObj [("content", JArr (content_json <$> tr_content r)); ("isError", JBool (tr_is_error r))].

(** ** Advertised tools *)

(** An object schema: its properties with type, description and further
    keywords, and the required ones. *)
Definition prop (name type description : string) (extra : list (string * Json)) : string * Json :=
  (name, JObj ([("type", JStr type); ("description", JStr description)] ++ extra)).
Definition tool (name description : string) (required : option (list string)) (props : list (string * Json)) : ToolDefinition :=
  {| td_name := name; td_description := description;
     td_input_schema := JObj ([("type", JStr "object"); ("properties", JObj props)] ++
       from_option (λ req, [("required", JArr (JStr <$> req))]) [] required) |}.

Definition pact_status : ToolDefinition :=
  tool "pact_status" "Query node or vCluster state, drift, and capabilities."
    None
     [prop "node" "string" "Node ID to query. Omit for all nodes in vCluster." [];
      prop "vcluster" "string" "vCluster scope." []].
Definition pact_diff : ToolDefinition :=
  tool "pact_diff" "Show declared vs actual state differences for a node."
    None
     [prop "node" "string" "Node ID to diff." [];
      prop "committed" "boolean" "Show committed node deltas not yet promoted." [("default", JBool false)]].
Definition pact_log : ToolDefinition :=
  tool "pact_log" "Query configuration history from the journal."
    None
     [prop "n" "integer" "Number of entries to return." [("default", JInt 20)];
      prop "scope" "string" "Scope filter: 'node:X', 'vc:X', or 'global'." [];
      prop "entry_types" "array" "Filter by entry types (commit, rollback, drift_detected, etc.)." [("items", JObj [("type", JStr "string")])]].
Definition pact_commit : ToolDefinition :=
  tool "pact_commit" "Commit pending drift as a configuration entry."
    (Some ["message"])
     [prop "message" "string" "Commit message describing the change." [];
      prop "scope" "string" "Scope: 'node:X' or 'vc:X'." []].
Definition pact_rollback : ToolDefinition :=
  tool "pact_rollback" "Roll back to a previous configuration state."
    (Some ["sequence"])
     [prop "sequence" "integer" "Target sequence number to roll back to." []].
Definition pact_exec : ToolDefinition :=
  tool "pact_exec" "Run a whitelisted diagnostic command on a remote node."
    (Some ["node"; "command"])
     [prop "node" "string" "Target node ID." [];
      prop "command" "string" "Command to execute (must be whitelisted)." [];
      prop "args" "array" "Command arguments." [("items", JObj [("type", JStr "string")])]].
Definition pact_apply : ToolDefinition :=
  tool "pact_apply" "Apply a declarative config spec to a vCluster."
    (Some ["scope"; "config"; "message"])
     [prop "scope" "string" "Target scope: 'vc:X'." [];
      prop "config" "object" "Configuration object to apply." [];
      prop "message" "string" "Description of the change." []].
Definition pact_cap : ToolDefinition :=
  tool "pact_cap" "Show node hardware capability report (GPUs, memory, network, storage)."
    None
     [prop "node" "string" "Node ID. Omit for all nodes." []].
Definition pact_service_status : ToolDefinition :=
  tool "pact_service_status" "Query service health across nodes."
    None
     [prop "node" "string" "Node ID. Omit for all nodes." [];
      prop "service" "string" "Service name. Omit for all services." []].
Definition pact_query_fleet : ToolDefinition :=
  tool "pact_query_fleet" "Fleet-wide health query with capability filtering."
    None
     [prop "vcluster" "string" "vCluster scope." [];
      prop "capability_filter" "string" "Filter expression (e.g. 'gpu_health=degraded')." [];
      prop "config_state" "string" "Filter by config state (committed, drifted, emergency)." []].
Definition pact_emergency : ToolDefinition :=
  tool "pact_emergency" "Start or end emergency mode. Note: AI agents are typically restricted from this (P8)."
    (Some ["action"])
     [prop "action" "string" "Emergency action." [("enum", JArr [JStr "start"; JStr "end"])];
      prop "reason" "string" "Reason for emergency (required for start)." [];
      prop "force" "boolean" "Force-end another admin's emergency." [("default", JBool false)]].
Definition pact_jobs_list : ToolDefinition :=
  tool "pact_jobs_list" "List running job allocations from the lattice scheduler."
    None
     [prop "node" "string" "Filter by node ID." [];
      prop "vcluster" "string" "Filter by vCluster." []].
Definition pact_queue_status : ToolDefinition :=
  tool "pact_queue_status" "Show scheduling queue depth and status from the lattice scheduler."
    None
     [prop "vcluster" "string" "vCluster to query queue for. Defaults to 'default'." []].
Definition pact_cluster_health : ToolDefinition :=
  tool "pact_cluster_health" "Combined cluster health: pact journal Raft status and lattice Raft status."
    None
     [].
Definition pact_system_health : ToolDefinition :=
  tool "pact_system_health" "Combined system health check across pact journal and lattice scheduler."
    None
     [].
Definition pact_accounting : ToolDefinition :=
  tool "pact_accounting" "Resource usage accounting (CPU hours, GPU hours, storage) from lattice."
    None
     [prop "vcluster" "string" "vCluster (maps to tenant) to query accounting for." []].
Definition pact_services_list : ToolDefinition :=
  tool "pact_services_list" "List registered services from the lattice service registry."
    None
     [].
Definition pact_services_lookup : ToolDefinition :=
  tool "pact_services_lookup" "Look up endpoints for a named service in the lattice service registry."
    (Some ["name"])
     [prop "name" "string" "Service name to look up." []].
Definition pact_undrain : ToolDefinition :=
  tool "pact_undrain" "Cancel a drain on a node, returning it to Ready state (delegates to lattice)."
    (Some ["node"])
     [prop "node" "string" "Node ID to undrain." []].
Definition pact_dag_list : ToolDefinition :=
  tool "pact_dag_list" "List DAG workflows from the lattice scheduler."
    None
     [prop "tenant" "string" "Filter by tenant." [];
      prop "state" "string" "Filter by state (running, completed, failed, cancelled)." [];
      prop "limit" "integer" "Max results (default 50)." [("default", JInt 50)]].
Definition pact_dag_inspect : ToolDefinition :=
  tool "pact_dag_inspect" "Inspect a DAG workflow — show steps and allocation status."
    (Some ["dag_id"])
     [prop "dag_id" "string" "DAG ID to inspect." []].
Definition pact_budget : ToolDefinition :=
  tool "pact_budget" "Query budget/usage for a tenant or user from lattice."
    None
     [prop "tenant" "string" "Tenant ID to query budget for." [];
      prop "user" "string" "User ID to query budget for (across all tenants)." [];
      prop "days" "integer" "Rolling window in days (default 90)." [("default", JInt 90)]].
Definition pact_backup_create : ToolDefinition :=
  tool "pact_backup_create" "Create a backup of lattice Raft state. Requires pact-platform-admin."
    (Some ["path"])
     [prop "path" "string" "Backup file path." []].
Definition pact_backup_verify : ToolDefinition :=
  tool "pact_backup_verify" "Verify integrity of a lattice backup file."
    (Some ["path"])
     [prop "path" "string" "Backup file path to verify." []].
Definition pact_nodes_list : ToolDefinition :=
  tool "pact_nodes_list" "List lattice nodes with state, GPU, and ownership info."
    None
     [prop "state" "string" "Filter by state (ready, draining, drained, down)." [];
      prop "vcluster" "string" "Filter by vCluster." [];
      prop "limit" "integer" "Max results (default 100)." [("default", JInt 100)]].
Definition pact_node_inspect : ToolDefinition :=
  tool "pact_node_inspect" "Inspect a single lattice node — hardware, ownership, allocations."
    (Some ["node_id"])
     [prop "node_id" "string" "Node ID to inspect." []].
Definition all_tools : list ToolDefinition :=
  [pact_status; pact_diff; pact_log; pact_commit; pact_rollback; pact_exec; pact_apply; pact_cap; pact_service_status; pact_query_fleet; pact_emergency; pact_jobs_list; pact_queue_status; pact_cluster_health; pact_system_health; pact_accounting; pact_services_list; pact_services_lookup; pact_undrain; pact_dag_list; pact_dag_inspect; pact_budget; pact_backup_create; pact_backup_verify; pact_nodes_list; pact_node_inspect].

(** ** Answers without connections *)

Section stubs.
Context `{JsonText}.

(** [match args.get(..).and_then(..) { Some(x) => x, None => return .. }]. *)
Definition required (k error : string) (args : Json) (f : string → ToolCallResult) : ToolCallResult :=
  match str_arg k args with Some v => f v | None => tool_result error true end.

Definition stub_status (args : Json) : ToolCallResult :=
  tool_result ("Status query: node=" +:+ default "all" (str_arg "node" args) +:+ ", vcluster=" +:+
    default "default" (str_arg "vcluster" args) +:+ " (gRPC client required)") false.
Definition stub_diff (args : Json) : ToolCallResult :=
  tool_result ("Diff query: node=" +:+ default "current" (str_arg "node" args) +:+ ", committed=" +:+
    (if default false (bool_arg "committed" args) then "true" else "false") +:+ " (gRPC client required)") false.
Definition stub_log (args : Json) : ToolCallResult :=
  tool_result ("Log query: n=" +:+ pretty (default 20%N (u64_arg "n" args)) +:+ ", scope=" +:+
    default "all" (str_arg "scope" args) +:+ " (gRPC client required)") false.
Definition stub_commit (args : Json) : ToolCallResult :=
  required "message" "Error: commit message required" args (λ m,
    tool_result ("Commit: message=" +:+ debug_text m +:+ " (gRPC client required)") false).
Definition stub_rollback (args : Json) : ToolCallResult :=
  match u64_arg "sequence" args with
  | Some seq => tool_result ("Rollback: target_seq=" +:+ pretty seq +:+ " (gRPC client required)") false
  | None => tool_result "Error: sequence number required" true
  end.
Definition stub_exec (args : Json) : ToolCallResult :=
  required "node" "Error: node ID required" args (λ node,
  required "command" "Error: command required" args (λ command,
    tool_result ("Exec: node=" +:+ node +:+ ", command=" +:+ debug_text command +:+ " (gRPC client required)") false)).
Definition stub_apply (args : Json) : ToolCallResult :=
  required "scope" "Error: scope required" args (λ scope,
    tool_result ("Apply: scope=" +:+ scope +:+ ", message=" +:+ debug_text (default "auto-apply" (str_arg "message" args)) +:+
      " (gRPC client required)") false).
Definition stub_cap (args : Json) : ToolCallResult :=
  tool_result ("Capability report: node=" +:+ default "all" (str_arg "node" args) +:+ " (gRPC client required)") false.
Definition stub_service_status (args : Json) : ToolCallResult :=
  tool_result ("Service status: node=" +:+ default "all" (str_arg "node" args) +:+ ", service=" +:+
    default "all" (str_arg "service" args) +:+ " (gRPC client required)") false.
Definition stub_query_fleet (args : Json) : ToolCallResult :=
  tool_result ("Fleet query: vcluster=" +:+ default "all" (str_arg "vcluster" args) +:+ ", filter=" +:+
    default "none" (str_arg "capability_filter" args) +:+ " (gRPC client required)") false.
Definition P8_text : string :=
  "Error: AI agents are restricted from entering emergency mode (P8). Request a human admin to enter emergency mode.".
Definition stub_emergency (args : Json) : ToolCallResult :=
  required "action" "Error: action required (start/end)" args (λ action,
    if decide (action = "start") then tool_result P8_text true
    else tool_result ("Emergency: action=" +:+ action +:+ " (gRPC client required)") false).
Definition stub_jobs_list (args : Json) : ToolCallResult :=
  tool_result ("Jobs list: node=" +:+ default "all" (str_arg "node" args) +:+ ", vcluster=" +:+
    default "all" (str_arg "vcluster" args) +:+ " (lattice client required)") false.
Definition stub_queue_status (args : Json) : ToolCallResult :=
  tool_result ("Queue status: vcluster=" +:+ default "default" (str_arg "vcluster" args) +:+ " (lattice client required)") false.
Definition stub_cluster_health : ToolCallResult := tool_result "Cluster health: (gRPC + lattice client required)" false.
Definition stub_system_health : ToolCallResult := tool_result "System health: (gRPC + lattice client required)" false.
Definition stub_accounting (args : Json) : ToolCallResult :=
  tool_result ("Accounting: vcluster=" +:+ default "all" (str_arg "vcluster" args) +:+ " (lattice client required)") false.
Definition stub_services_list : ToolCallResult := tool_result "Services list (lattice client required)" false.
Definition stub_services_lookup (args : Json) : ToolCallResult :=
  tool_result ("Service lookup: " +:+ default "unknown" (str_arg "name" args) +:+ " (lattice client required)") false.
Definition stub_undrain (args : Json) : ToolCallResult :=
  required "node" "Error: node ID required" args (λ node,
    tool_result ("Undrain: node=" +:+ node +:+ " (journal + lattice client required)") false).
Definition stub_dag_list (args : Json) : ToolCallResult :=
  tool_result ("DAG list: tenant=" +:+ default "all" (str_arg "tenant" args) +:+ ", state=" +:+
    default "all" (str_arg "state" args) +:+ " (lattice client required)") false.
Definition stub_dag_inspect (args : Json) : ToolCallResult :=
  required "dag_id" "Error: dag_id required" args (λ id,
    tool_result ("DAG inspect: id=" +:+ id +:+ " (lattice client required)") false).
Definition stub_budget (args : Json) : ToolCallResult :=
  match str_arg "tenant" args, str_arg "user" args with
  | Some t, _ => tool_result ("Budget: tenant=" +:+ t +:+ " (lattice client required)") false
  | _, Some u => tool_result ("Budget: user=" +:+ u +:+ " (lattice client required)") false
  | _, _ => tool_result "Error: specify tenant or user" true
  end.
Definition stub_backup_create (args : Json) : ToolCallResult :=
  required "path" "Error: path required" args (λ path,
    tool_result ("Backup create: path=" +:+ path +:+ " (journal + lattice client required)") false).
Definition stub_backup_verify (args : Json) : ToolCallResult :=
  required "path" "Error: path required" args (λ path,
    tool_result ("Backup verify: path=" +:+ path +:+ " (lattice client required)") false).
Definition stub_nodes_list (args : Json) : ToolCallResult :=
  tool_result ("Nodes list: state=" +:+ default "all" (str_arg "state" args) +:+ ", vcluster=" +:+
    default "all" (str_arg "vcluster" args) +:+ " (lattice client required)") false.
Definition stub_node_inspect (args : Json) : ToolCallResult :=
  required "node_id" "Error: node_id required" args (λ id,
    tool_result ("Node inspect: id=" +:+ id +:+ " (lattice client required)") false).

Definition stub_handlers (args : Json) : list (string * ToolCallResult) :=
    [("pact_status", stub_status args); ("pact_diff", stub_diff args); ("pact_log", stub_log args);
     ("pact_commit", stub_commit args); ("pact_rollback", stub_rollback args); ("pact_exec", stub_exec args);
     ("pact_apply", stub_apply args); ("pact_cap", stub_cap args); ("pact_service_status", stub_service_status args);
     ("pact_query_fleet", stub_query_fleet args); ("pact_emergency", stub_emergency args);
     ("pact_jobs_list", stub_jobs_list args); ("pact_queue_status", stub_queue_status args);
     ("pact_cluster_health", stub_cluster_health); ("pact_system_health", stub_system_health);
     ("pact_accounting", stub_accounting args); ("pact_services_list", stub_services_list);
     ("pact_services_lookup", stub_services_lookup args); ("pact_undrain", stub_undrain args);
     ("pact_dag_list", stub_dag_list args); ("pact_dag_inspect", stub_dag_inspect args); ("pact_budget", stub_budget args);
     ("pact_backup_create", stub_backup_create args); ("pact_backup_verify", stub_backup_verify args);
     ("pact_nodes_list", stub_nodes_list args); ("pact_node_inspect", stub_node_inspect args)].
Definition dispatch_tool (name : string) (args : Json) : ToolCallResult :=
  match find (λ p : string * ToolCallResult, bool_decide (p.1 = name)) (stub_handlers args) with
  | Some p => p.2
  | None => tool_result ("Unknown tool: " +:+ name) true
  end.

End stubs.
