(* ===== verification/Mcp.v ===== *)
(** * The MCP server

    crates/pact-mcp/src/connected.rs (the tools, against the journal, the
    agent and lattice) and main.rs (the JSON-RPC loop on standard input).
    Requests to the journal run its model; the agent is the interface
    [McpAgent], lattice that of the command line client. *)

From S2P Require Import Prelude Text Float64 Types JournalState JournalInvariants JournalProperties Raft.
From S2P Require Import ConfigService PolicyService EnrollmentService Shell CertRotation CliText CliCommands CliNodes CliLattice McpTools.
From stdpp Require Import options.

Record Connections := {
  cn_journal : bool;                  (** whether the connection was made *)
  cn_agent : bool;
  cn_delegation : DelegationConfig;
  cn_mcp_token : option string;
}.

(** The one agent the server is connected to. *)
Class McpAgent := {
  mcp_exec : string → string → list string → result (list (result (option ExecOutput) Status)) Status;
  mcp_commands : string → result (list CommandEntry) Status;
}.

(** What becomes of a tool call; a panic ends the server. *)
Inductive Handled := UnknownTool | Answered (r : ToolCallResult) | Crashed.

Section mcp.
Context `{Chrono} `{ChronoTimestamp} `{EntryJson} `{CliApi} `{LatticeNodes} `{LatticeApi} `{JsonText} `{McpAgent}.

(** [while let Some(Ok(x)) = stream.next().await]: an error ends the stream. *)
Fixpoint until_error {A} (l : list (result A Status)) : list A :=
  match l with Ok x :: rest => x :: until_error rest | _ => [] end.

Definition format_entry (e : ProtoConfigEntry) : string :=
  "#" +:+ pretty (pe_sequence e) +:+ " " +:+ entry_type_name (pe_entry_type e) +:+ " " +:+ proto_scope_text (pe_scope e) +:+ " by " +:+
  from_option pi_principal "unknown" (pe_author e).

Definition mcp_author : ProtoIdentity :=
  {| pi_principal := "mcp-agent"; pi_principal_type := "Agent"; pi_role := "pact-service-ai" |}.
Definition mcp_entry (ty : Z) (vcluster : string) (parent : option N) (policy_ref : string) : ProtoConfigEntry :=
  cli_entry ty (PVclusterId vcluster) mcp_author parent None policy_ref None.

Section call.
(** The fate and the time of the journal request of this call. *)
Context (c : Connections) (fault : CallFault) (cut : option (nat * Status)) (now : DateTime).

Definition token : string := default "" (cn_mcp_token c).
Definition answer (r : ToolCallResult) : prog Handled := mret (Answered r).

(** An append and the texts of its outcome. *)
Definition append_tool (e : ProtoConfigEntry) (ok : N → string) (failed : string) : prog Handled :=
  r ← append_rpc fault token now e;
  answer match r with
         | Ok seq => tool_result (ok seq) false
         | Err st => tool_result (failed +:+ ": " +:+ status_text st) true
         end.

(** ** Tools of the journal *)

Definition handle_status (args : Json) : prog Handled :=
  r ← rpc fault token (λ _, reading (get_node_state (default "local" (str_arg "node" args))));
  answer match r with
         | Ok ns => tool_result ("Node: " +:+ ns.1 +:+ "  State: " +:+ ns.2) false
         | Err st => tool_result ("Error querying status: " +:+ status_text st) true
         end.

Definition handle_log (args : Json) : prog Handled :=
  let n := wrap_u32 (default 20%N (u64_arg "n" args)) in
  r ← list_rpc fault token {| le_scope := Some ∘ parse_scope_filter <$> str_arg "scope" args; le_from := None; le_to := None;
        le_limit := Some n |};
  answer match r with
         | Ok listed =>
             match format_entry <$> until_error (stream_of cut listed) with
             | [] => tool_result "No entries found." false
             | lines => tool_result (Str.join nl lines) false
             end
         | Err st => tool_result ("Error querying log: " +:+ status_text st) true
         end.

Definition handle_commit (args : Json) : prog Handled :=
  match str_arg "message" args with
  | None => answer (tool_result "Error: commit message required" true)
  | Some message =>
      let vcluster := default "default" (str_arg "vcluster" args) in
      append_tool (mcp_entry 1 vcluster None message)
        (λ seq, "Committed (seq:" +:+ pretty seq +:+ ") on vCluster: " +:+ vcluster) "Commit failed"
  end.

Definition handle_rollback (args : Json) : prog Handled :=
  match u64_arg "sequence" args with
  | None => answer (tool_result "Error: sequence number required" true)
  | Some seq =>
      append_tool (mcp_entry 2 (default "default" (str_arg "vcluster" args)) (Some seq) "")
        (λ new_seq, "Rolled back to seq:" +:+ pretty seq +:+ " (new seq:" +:+ pretty new_seq +:+ ")") "Rollback failed"
  end.

Definition handle_diff (args : Json) : prog Handled :=
  let node := default "current" (str_arg "node" args) in
  match index_set "scope" (JStr ("node:" +:+ node)) args ≫= index_set "n" (JInt 50) with
  | Some args' => handle_log args'
  | None => mret Crashed
  end.

Definition handle_emergency (args : Json) : prog Handled :=
  match str_arg "action" args with
  | None => answer (tool_result "Error: action required (start/end)" true)
  | Some action =>
      if decide (action = "start") then answer (tool_result P8_text true)
      else append_tool (mcp_entry 9 (default "default" (str_arg "vcluster" args)) None "")
             (λ seq, "Emergency mode ENDED (seq:" +:+ pretty seq +:+ ")") "Emergency end failed"
  end.

Definition handle_apply (args : Json) : prog Handled :=
  match str_arg "scope" args with
  | None => answer (tool_result "Error: scope required" true)
  | Some scope =>
      let message := default "mcp-apply" (str_arg "message" args) in
      match get "config" args with
      | None => answer (tool_result "Error: config required" true)
      | Some config =>
          append_tool (mcp_entry 1 scope None (message +:+ ": " +:+ json_text config))
            (λ seq, "Applied to " +:+ scope +:+ " (seq:" +:+ pretty seq +:+ "): " +:+ message) "Apply failed"
      end
  end.

Definition handle_query_fleet (args : Json) : prog Handled :=
  let vcluster := default "all" (str_arg "vcluster" args) in
  r ← list_rpc fault token {| le_scope := if decide (vcluster = "all") then None else Some (Some (PVclusterId vcluster));
        le_from := None; le_to := None; le_limit := Some 100%N |};
  answer match r with
         | Ok listed =>
             match format_entry <$> until_error (stream_of cut listed) with
             | [] => tool_result ("No entries for vCluster: " +:+ vcluster) false
             | lines => tool_result ("Fleet query (" +:+ vcluster +:+ "): " +:+ pretty (length lines) +:+ " entries" +:+ nl +:+
                          Str.join nl lines) false
             end
         | Err st => tool_result ("Fleet query failed: " +:+ status_text st) true
         end.

(** ** Tools of the agent *)

(** The loop over the answers of a command: an error message, or the outputs
    and the exit code. *)
Fixpoint mcp_exec_stream (l : list (option ExecOutput)) (out err : bytes) (code : Z) : result (bytes * bytes * Z) string :=
  match l with
  | [] => Ok (out, err, code)
  | Some (Stdout d) :: rest => mcp_exec_stream rest (out ++ d) err code
  | Some (Stderr d) :: rest => mcp_exec_stream rest out (err ++ d) code
  | Some (ExitCode k) :: rest => mcp_exec_stream rest out err k
  | Some (ErrorText e) :: _ => Err e
  | None :: rest => mcp_exec_stream rest out err code
  end.
Definition mcp_exec_text (node command : string) (out err : bytes) (code : Z) : string :=
  "[" +:+ node +:+ "] " +:+ command +:+ nl +:+
  (if bool_decide (out = []) then "" else from_utf8_lossy out) +:+
  (if bool_decide (err = []) then "" else nl +:+ "stderr: " +:+ from_utf8_lossy err) +:+
  (if (code =? 0)%Z then "" else nl +:+ "(exit code: " +:+ pretty code +:+ ")").
Definition handle_exec (args : Json) : ToolCallResult :=
  match str_arg "node" args with
  | None => tool_result "Error: node ID required" true
  | Some node =>
      match str_arg "command" args with
      | None => tool_result "Error: command required" true
      | Some command =>
          match split_whitespace command with
          | [] => tool_result "Error: empty command" true
          | cmd :: cmd_args =>
              match mcp_exec token cmd cmd_args with
              | Err st => tool_result ("Exec failed: " +:+ status_text st) true
              | Ok stream =>
                  match mcp_exec_stream (until_error stream) [] [] 0 with
                  | Err e => tool_result ("Exec error: " +:+ e) true
                  | Ok (out, err, code) => tool_result (mcp_exec_text node command out err code) (negb (code =? 0)%Z)
                  end
              end
          end
      end
  end.

Definition cap_line (cmd : CommandEntry) : string :=
  "  " +:+ ce_command cmd +:+ " " +:+ (if ce_state_changing cmd then "[state-changing]" else "") +:+ " " +:+ ce_description cmd +:+ nl.
Definition handle_cap : ToolCallResult :=
  match mcp_commands token with
  | Err st => tool_result ("Cap query failed: " +:+ status_text st) true
  | Ok [] => tool_result "No commands available." false
  | Ok commands => tool_result (pretty (length commands) +:+ " whitelisted commands:" +:+ nl +:+
                                Str.join "" (cap_line <$> commands)) false
  end.

(** Only standard output is kept. *)
Fixpoint service_output (l : list (option ExecOutput)) (acc : string) : result string string :=
  match l with
  | [] => Ok acc
  | Some (Stdout d) :: rest => service_output rest (acc +:+ from_utf8_lossy d)
  | Some (ErrorText e) :: _ => Err e
  | _ :: rest => service_output rest acc
  end.
Definition handle_service_status (args : Json) : ToolCallResult :=
  match mcp_exec token "systemctl" ["status"; default "--all" (str_arg "service" args)] with
  | Err st => tool_result ("Service status failed: " +:+ status_text st) true
  | Ok stream => match service_output (until_error stream) "" with
                 | Ok output => tool_result output false
                 | Err e => tool_result ("Service status error: " +:+ e) true
                 end
  end.

(** ** Tools of lattice *)

Definition tool_of (failed : string) (r : result string string) : ToolCallResult :=
  match r with Ok output => tool_result output false | Err e => tool_result (failed +:+ ": " +:+ e) true end.
Definition lattice : DelegationConfig := cn_delegation c.

Definition handle_jobs_list (args : Json) := tool_of "Jobs list failed" (list_jobs lattice (str_arg "node" args) (str_arg "vcluster" args)).
Definition handle_queue_status (args : Json) := tool_of "Queue status failed" (queue_status lattice (str_arg "vcluster" args)).
Definition handle_cluster_health : prog Handled :=
  r ← cluster_status fault token lattice; answer (tool_of "Cluster health failed" r).
Definition handle_system_health : prog Handled :=
  r ← health_check fault token lattice; answer (tool_of "System health check failed" r).
Definition handle_accounting (args : Json) := tool_of "Accounting query failed" (accounting lattice (str_arg "vcluster" args)).
Definition handle_services_list := tool_of "Service list failed" (list_services lattice).
Definition handle_services_lookup (args : Json) :=
  tool_of "Service lookup failed" (lookup_service lattice (default "unknown" (str_arg "name" args))).
Definition handle_undrain (args : Json) : prog Handled :=
  match str_arg "node" args with
  | None => answer (tool_result "Error: node ID required" true)
  | Some node =>
      r ← undrain_node fault token now node "mcp-agent" "pact-service-ai" lattice;
      answer (tool_result (format_delegation_result r.2) (negb (de_success r.2)))
  end.
Definition u32_arg (k : string) (dflt : N) (args : Json) : N := wrap_u32 (default dflt (u64_arg k args)).
Definition handle_dag_list (args : Json) :=
  tool_of "DAG list failed" (list_dags lattice (str_arg "tenant" args) (str_arg "state" args) (u32_arg "limit" 50 args)).
Definition handle_dag_inspect (args : Json) :=
  required "dag_id" "Error: dag_id required" args (λ id, tool_of "DAG inspect failed" (inspect_dag lattice id)).
Definition handle_budget (args : Json) :=
  let days := u32_arg "days" 90 args in
  match str_arg "tenant" args with
  | Some tenant => tool_of "Tenant budget failed" (tenant_budget lattice tenant days)
  | None => match str_arg "user" args with
            | Some user => tool_of "User budget failed" (user_budget lattice user days)
            | None => tool_result "Error: specify tenant or user" true
            end
  end.
Definition handle_backup_create (args : Json) : prog Handled :=
  match str_arg "path" args with
  | None => answer (tool_result "Error: path required" true)
  | Some path =>
      r ← backup_create fault token now lattice path "mcp-agent" "pact-service-ai";
      answer (tool_of "Backup create failed" r.2)
  end.
Definition handle_backup_verify (args : Json) :=
  required "path" "Error: path required" args (λ path, tool_of "Backup verify failed" (backup_verify lattice path)).
Definition handle_nodes_list (args : Json) :=
  tool_of "Nodes list failed"
    (list_lattice_nodes lattice (str_arg "state" args) (str_arg "vcluster" args) (u32_arg "limit" 100 args)).
Definition handle_node_inspect (args : Json) :=
  required "node_id" "Error: node_id required" args (λ id, tool_of "Node inspect failed" (inspect_lattice_node lattice id)).

(** ** Dispatch *)

Definition on_journal (p : prog Handled) : prog Handled :=
  if cn_journal c then p else answer (tool_result "Error: not connected to journal" true).
Definition on_agent (r : ToolCallResult) : prog Handled :=
  answer (if cn_agent c then r else tool_result "Error: not connected to agent" true).

(** The handler of each tool. *)
Definition tool_handlers (args : Json) : list (string * prog Handled) :=
  [("pact_status", on_journal (handle_status args));
   ("pact_log", on_journal (handle_log args));
   ("pact_commit", on_journal (handle_commit args));
   ("pact_rollback", on_journal (handle_rollback args));
   ("pact_diff", on_journal (handle_diff args));
   ("pact_emergency", on_journal (handle_emergency args));
   ("pact_apply", on_journal (handle_apply args));
   ("pact_query_fleet", on_journal (handle_query_fleet args));
   ("pact_exec", on_agent (handle_exec args));
   ("pact_cap", on_agent handle_cap);
   ("pact_service_status", on_agent (handle_service_status args));
   ("pact_jobs_list", answer (handle_jobs_list args));
   ("pact_queue_status", answer (handle_queue_status args));
   ("pact_cluster_health", on_journal handle_cluster_health);
   ("pact_system_health", on_journal handle_system_health);
   ("pact_accounting", answer (handle_accounting args));
   ("pact_services_list", answer handle_services_list);
   ("pact_services_lookup", answer (handle_services_lookup args));
   ("pact_undrain", on_journal (handle_undrain args));
   ("pact_dag_list", answer (handle_dag_list args));
   ("pact_dag_inspect", answer (handle_dag_inspect args));
   ("pact_budget", answer (handle_budget args));
   ("pact_backup_create", on_journal (handle_backup_create args));
   ("pact_backup_verify", answer (handle_backup_verify args));
   ("pact_nodes_list", answer (handle_nodes_list args));
   ("pact_node_inspect", answer (handle_node_inspect args))].
Fixpoint select_handler (name : string) (l : list (string * prog Handled)) : prog Handled :=
  match l with
  | [] => mret UnknownTool
  | (n, p) :: rest => if decide (n = name) then p else select_handler name rest
  end.
Definition dispatch_connected (name : string) (args : Json) : prog Handled := select_handler name (tool_handlers args).

End call.

(** ** The server *)

(** What the server answers to a request; [None] when it crashed. *)
Definition server_info (version : string) : Json :=
  JObj [("protocolVersion", JStr "2024-11-05");
        ("capabilities", JObj [("tools", JObj [("listChanged", JBool false)])]);
        ("serverInfo", JObj [("name", JStr "pact-mcp"); ("version", JStr version)])].
Definition handle_request (version : string) (c : Connections) (fate : CallFault * DateTime) (cut : option (nat * Status))
    (r : JsonRpcRequest) : prog (option JsonRpcResponse) :=
  let id := rq_id r in
  let m := rq_method r in
  if decide (m = "initialize") then mret (Some (success_response id (server_info version)))
  else if decide (m = "tools/list") then
    mret (Some (success_response id (JObj [("tools", JArr (tool_json <$> all_tools))])))
  else if decide (m = "tools/call") then
    match params_of_json (rq_params r) with
    | None => mret (Some (error_response id INVALID_PARAMS ("invalid tool call params: " +:+ serde_error (rq_params r))))
    | Some p =>
        h ← dispatch_connected c fate.1 cut fate.2 (tp_name p) (tp_arguments p);
        mret match h with
             | Answered res => Some (success_response id (result_json res))
             | UnknownTool => Some (success_response id (result_json (dispatch_tool (tp_name p) (tp_arguments p))))
             | Crashed => None
             end
    end
  else if decide (m = "notifications/initialized" ∨ m = "notifications/cancelled") then
    mret (Some (success_response id (JObj [])))
  else mret (Some (error_response id METHOD_NOT_FOUND ("unknown method: " +:+ m))).

(** A line of standard input: the answers written for it, none for a blank
    line, [None] when the server crashed. *)
Definition handle_line (version : string) (c : Connections) (fate : CallFault * DateTime) (cut : option (nat * Status))
    (line : string) : prog (option (list JsonRpcResponse)) :=
  if Str.is_empty (Str.trim line) then mret (Some [])
  else
    match json_parse line with
    | Err e => mret (Some [error_response JNull PARSE_ERROR e])
    | Ok j =>
        match request_of_json j with
        | None => mret (Some [error_response JNull PARSE_ERROR (serde_error j)])
        | Some req => resp ← handle_request version c fate cut req; mret (match resp with Some r => Some [r] | None => None end)
        end
    end.
(** The loop of main: what is written, and whether the server is still in
    order when the input ends. *)
Fixpoint serve (version : string) (c : Connections) (fates : nat → CallFault * DateTime) (cut : option (nat * Status)) (i : nat)
    (lines : list (result string string)) : prog (list JsonRpcResponse * bool) :=
  match lines with
  | [] => mret ([], true)
  | Err _ :: _ => mret ([], true)
  | Ok line :: rest =>
      out ← handle_line version c (fates i) cut line;
      match out with
      | None => mret ([], false)
      | Some out => r ← serve version c fates cut (S i) rest; mret (out ++ r.1, r.2)
      end
  end.

End mcp.

(** ** What the server writes *)

Section writes.
Context `{Chrono} `{ChronoTimestamp} `{EntryJson} `{CliApi} `{LatticeNodes} `{LatticeApi} `{JsonText} `{McpAgent}.

(** The entries the server may append: its own, and never the start of an
    emergency. *)
Definition mcp_write (cmd : JournalCommand) : Prop :=
  ∃ e, cmd = AppendEntry e ∧ principal (entry_author e) = "mcp-agent" ∧ role (entry_author e) = "pact-service-ai" ∧
    (entry_type e = ET_ServiceLifecycle ∧ principal_type (entry_author e) = Human ∨
     (entry_type e = ET_Commit ∨ entry_type e = ET_Rollback ∨ entry_type e = ET_EmergencyEnd) ∧
       principal_type (entry_author e) = Agent).

(** A token the journal's interceptor lets pass. *)
Definition passes (tok : string) : Prop := ∃ h, client_header tok = Ok h ∧ auth_interceptor h = Ok ().

Lemma rpc_may_write {A} P fault tok (handler : AuthHeader → prog (result A Status)) :
  (∀ h, passes tok → may_write P (handler h)) → may_write P (rpc fault tok handler).
Proof.
  intros Hh. unfold rpc. destruct (client_header tok) as [h|] eqn:Eh; [|done].
  destruct fault; [|done|]; (destruct (auth_interceptor h) as [[]|] eqn:Ei; [|done]);
    assert (passes tok) by (by exists h); [by apply Hh|].
  apply may_write_bind; [by apply Hh|done].
Qed.
Lemma append_entry_may_write P now p :
  (∀ e, proto_to_config_entry now p = Ok e → P (AppendEntry e)) → may_write P (append_entry now (Some p)).
Proof.
  intros HP. unfold append_entry. destruct (proto_to_config_entry now p) as [e|]; [|done]. split; [by apply HP|].
  intros [[|seq|reason|? ? ?]|e']; simpl; try done. intros s. by destruct (entries s !! seq).
Qed.
Lemma append_rpc_may_write P fault tok now p :
  (∀ e, passes tok → proto_to_config_entry now p = Ok e → P (AppendEntry e)) → may_write P (append_rpc fault tok now p).
Proof. intros HP. apply rpc_may_write. intros _ Hp. apply may_write_bind; [apply append_entry_may_write; auto|done]. Qed.
Lemma reading_may_write {A} P (f : JournalState → result A Status) : may_write P (reading f).
Proof. done. Qed.

Lemma mcp_entry_write now ty vc parent ref e :
  ty = 1%Z ∨ ty = 2%Z ∨ ty = 9%Z → proto_to_config_entry now (mcp_entry ty vc parent ref) = Ok e → mcp_write (AppendEntry e).
Proof. intros [->|[->| ->]] [= <-]; eexists; split_and!; try done; right; auto. Qed.

Lemma status_may_write P fault tok node : may_write P (status fault tok node).
Proof. apply may_write_bind; [by apply rpc_may_write|done]. Qed.

(** What the server writes, it writes with a token. *)
Definition mcp_write_by (c : Connections) (cmd : JournalCommand) : Prop := mcp_write cmd ∧ passes (token c).

Lemma append_tool_may_write c fault now ty vc parent ref ok failed :
  ty = 1%Z ∨ ty = 2%Z ∨ ty = 9%Z → may_write (mcp_write_by c) (append_tool c fault now (mcp_entry ty vc parent ref) ok failed).
Proof.
  intros Hty. apply may_write_bind; [|done]. apply append_rpc_may_write. intros e Hp He. split; [by eapply mcp_entry_write|done].
Qed.
Lemma log_may_write P c fault cut args : may_write P (handle_log c fault cut args).
Proof. apply may_write_bind; [|by intros [?|?]]. by apply rpc_may_write. Qed.

(** The entries of the operations the server delegates are the same as the
    command line client's, so that their author counts as human. *)
Lemma undrain_may_write c fault now node :
  may_write (mcp_write_by c) (undrain_node fault (token c) now node "mcp-agent" "pact-service-ai" (lattice c)).
Proof.
  apply may_write_bind; [|intros []; done]. apply may_write_bind; [|done]. apply append_rpc_may_write.
  intros e Hp [= <-]. split; [|done]. eexists; split_and!; try done. by left.
Qed.
Lemma backup_may_write c fault now path :
  may_write (mcp_write_by c) (backup_create fault (token c) now (lattice c) path "mcp-agent" "pact-service-ai").
Proof.
  apply may_write_bind; [|done]. apply append_rpc_may_write. intros e Hp [= <-]. split; [|done]. eexists; split_and!; try done. by left.
Qed.

Create HintDb mcp.
#[local] Hint Resolve append_tool_may_write log_may_write : mcp.

Lemma handlers_may_write c fault cut now args :
  Forall (λ p : string * prog Handled, may_write (mcp_write_by c) p.2) (tool_handlers c fault cut now args).
Proof.
  assert (Hj : ∀ p, may_write (mcp_write_by c) p → may_write (mcp_write_by c) (on_journal c p)).
  { intros p Hp. unfold on_journal. by destruct (cn_journal c). }
  repeat apply Forall_cons_2; simpl; try done; try apply Hj.
  - apply may_write_bind; [by apply rpc_may_write|done].
  - apply log_may_write.
  - unfold handle_commit. destruct (str_arg "message" args); simpl; auto with mcp.
  - unfold handle_rollback. destruct (u64_arg "sequence" args); simpl; auto with mcp.
  - unfold handle_diff. destruct (_ ≫= _); simpl; auto with mcp.
  - unfold handle_emergency. destruct (str_arg "action" args); simpl; auto. case_decide; simpl; auto with mcp.
  - unfold handle_apply. destruct (str_arg "scope" args); simpl; auto. destruct (get "config" args); simpl; auto with mcp.
  - apply may_write_bind; [|by intros [?|?]]. by apply rpc_may_write.
  - apply may_write_bind; [apply may_write_bind; [apply status_may_write|done]|done].
  - apply may_write_bind; [apply may_write_bind; [apply status_may_write|]|done].
    intros r. by destruct (lattice_report _) as [[? ?] ?].
  - unfold handle_undrain. destruct (str_arg "node" args); [|done]. apply may_write_bind; [apply undrain_may_write|done].
  - unfold handle_backup_create. destruct (str_arg "path" args); [|done]. apply may_write_bind; [apply backup_may_write|done].
Qed.

Lemma select_may_write P name l :
  Forall (λ p : string * prog Handled, may_write P p.2) l → may_write P (select_handler name l).
Proof. induction 1 as [|[n p] l Hp Hl IH]; simpl; [done|]. by case_decide. Qed.

Lemma serve_may_write version c fates cut i lines :
  may_write (mcp_write_by c) (serve version c fates cut i lines).
Proof.
  revert i. induction lines as [|[line|e] lines IH]; intros i; simpl; [done| |done].
  apply may_write_bind; [|by intros [out|]; [apply may_write_bind|]].
  unfold handle_line. destruct (Str.is_empty _); [done|]. destruct (json_parse line) as [j|]; [|done].
  destruct (request_of_json j) as [req|]; [|done]. apply may_write_bind; [|done].
  unfold handle_request. repeat (case_decide; [done || idtac|]); try done.
  destruct (params_of_json _); [|done]. apply may_write_bind; [|done].
  apply select_may_write, handlers_may_write.
Qed.

(** C35: Whatever a client of the MCP server sends, in whatever number and
    order, the server only appends entries under its own name and role, and
    only commits, rollbacks, ends of emergencies and records of delegated
    operations: an AI agent never starts an emergency through it. It can end
    one, which the invariant P8 also forbids. *)
Theorem mcp_never_starts_emergency version c fates cut lines s s' out tr :
  runs s (serve version c fates cut 0 lines) s' out tr →
  Forall (λ ev, mcp_write (ev_cmd ev)) tr ∧
  Forall (λ ev, ∀ e, ev_cmd ev = AppendEntry e → entry_type e ≠ ET_EmergencyStart) tr.
Proof.
  intros Hr. assert (Hw : Forall (λ ev, mcp_write (ev_cmd ev)) tr).
  { eapply Forall_impl; [eapply may_write_runs; [apply serve_may_write|done]|]. by intros ev []. }
  split; [done|]. eapply Forall_impl; [done|]. intros ev (e & He & _ & _ & Ht) e' He'. rewrite He in He'.
  injection He' as <-. naive_solver congruence.
Qed.

(** ** The start of the server *)

(** [try_connect]: an address that is not valid or not reachable leaves the
    server without the connection. *)
Definition mcp_try_connect (net : string → ConnectOutcome) (endpoint : string) : bool :=
  match net endpoint with Connected => true | _ => false end.
Definition delegation_default : DelegationConfig :=
  {| dl_lattice_endpoint := None; dl_lattice_token := None; dl_node_mgmt_backend := None; dl_node_mgmt_base_url := None;
     dl_node_mgmt_token := None; dl_openchami_smd_url := None; dl_openchami_token := None; dl_timeout_secs := 30 |}.
(** main up to its loop: the connections from the environment. *)
Definition mcp_connections (env : string → option string) (net : string → ConnectOutcome) : Connections :=
  {| cn_journal := mcp_try_connect net (default "http://localhost:9443" (env "PACT_ENDPOINT"));
     cn_agent := mcp_try_connect net (default "http://localhost:9445" (env "PACT_AGENT_ENDPOINT"));
     cn_delegation := {| dl_lattice_endpoint := env "PACT_LATTICE_ENDPOINT"; dl_lattice_token := env "PACT_LATTICE_TOKEN";
                         dl_node_mgmt_backend := dl_node_mgmt_backend delegation_default;
                         dl_node_mgmt_base_url := dl_node_mgmt_base_url delegation_default;
                         dl_node_mgmt_token := dl_node_mgmt_token delegation_default;
                         dl_openchami_smd_url := dl_openchami_smd_url delegation_default;
                         dl_openchami_token := dl_openchami_token delegation_default;
                         dl_timeout_secs := dl_timeout_secs delegation_default |};
     cn_mcp_token := env "PACT_MCP_TOKEN" |}.
Definition mcp_main (version : string) (env : string → option string) (net : string → ConnectOutcome)
    (fates : nat → CallFault * DateTime) (cut : option (nat * Status)) (lines : list (result string string))
    : prog (list JsonRpcResponse * bool) :=
  serve version (mcp_connections env net) fates cut 0 lines.

(** without a token, or with an empty one, the server writes nothing to
    the journal, whatever its client sends and whatever becomes of its
    requests. *)
Theorem mcp_needs_token version env net fates cut lines s s' out tr :
  default "" (env "PACT_MCP_TOKEN") = "" → runs s (mcp_main version env net fates cut lines) s' out tr → tr = [].
Proof.
  intros Ht Hr. destruct tr as [|ev tr]; [done|]. exfalso.
  pose proof (may_write_runs _ _ _ _ _ _ (serve_may_write version (mcp_connections env net) fates cut 0 lines) Hr) as Hw.
  apply Forall_cons in Hw as [[_ (h & Hh & Hi)] _]. unfold token in Hh. simpl in Hh. rewrite Ht in Hh. injection Hh as <-. done.
Qed.

End writes.

(** ** Tools and answers *)

Section answers.
Context `{Chrono} `{ChronoTimestamp} `{EntryJson} `{CliApi} `{LatticeNodes} `{LatticeApi} `{JsonText} `{McpAgent}.

Lemma select_unknown name l : name ∉ l.*1 → select_handler name l = mret UnknownTool.
Proof.
  induction l as [|[n p] l IH]; simpl; [done|]. rewrite not_elem_of_cons. intros [Hn Hl].
  rewrite decide_False by congruence. by apply IH.
Qed.
Lemma select_known P (Q : string → Prop) name l :
  name ∈ l.*1 → Forall (λ p : string * prog Handled, Q p.1 → may_return P p.2) l → Q name →
  may_return P (select_handler name l).
Proof.
  intros Hin Hl HQ. induction Hl as [|[n p] l Hp Hl IH]; [by apply elem_of_nil in Hin|]. simpl in *.
  case_decide; [subst; by apply Hp|]. apply IH. apply elem_of_cons in Hin. naive_solver congruence.
Qed.

(** The tool calls that make the server panic: [pact_diff] indexes into its
    arguments, which must be an object or null. *)
Definition indexable (args : Json) : bool := match args with JObj _ | JNull => true | _ => false end.
Definition survives (args : Json) (name : string) : Prop := name = "pact_diff" → indexable args = true.

Definition answered (h : Handled) : Prop := ∃ r, h = Answered r.
Lemma answered_bind {R} (p : prog R) (f : R → ToolCallResult) : may_return answered (p ≫= λ r, answer (f r)).
Proof. apply may_return_bind. intros r. by eexists. Qed.

Lemma diff_answered c fault cut args : indexable args = true → may_return answered (handle_diff c fault cut args).
Proof.
  intros Hi. unfold handle_diff. destruct args; try done; simpl; apply answered_bind.
Qed.
Lemma handlers_answered c fault cut now args :
  Forall (λ p : string * prog Handled, survives args p.1 → may_return answered p.2) (tool_handlers c fault cut now args).
Proof.
  assert (Hj : ∀ p, may_return answered p → may_return answered (on_journal c p)).
  { intros p Hp. unfold on_journal. destruct (cn_journal c); [done|by eexists]. }
  assert (Ha : ∀ r, answered (Answered r)) by (by eexists).
  repeat (apply Forall_cons_2; [intros Hi; simpl; try apply Hj; try apply Ha; try apply answered_bind|]); [..|constructor].
  - unfold handle_commit. destruct (str_arg "message" args); [apply answered_bind|apply Ha].
  - unfold handle_rollback. destruct (u64_arg "sequence" args); [apply answered_bind|apply Ha].
  - by apply diff_answered, Hi.
  - unfold handle_emergency. destruct (str_arg "action" args); [|apply Ha]. case_decide; [apply Ha|apply answered_bind].
  - unfold handle_apply. destruct (str_arg "scope" args); [|apply Ha]. destruct (get "config" args); [apply answered_bind|apply Ha].
  - unfold handle_undrain. destruct (str_arg "node" args); [apply answered_bind|apply Ha].
  - unfold handle_backup_create. destruct (str_arg "path" args); [apply answered_bind|apply Ha].
Qed.

Lemma tool_names c fault cut now args : (tool_handlers c fault cut now args).*1 ≡ₚ td_name <$> all_tools.
Proof. apply (bool_decide_unpack _). vm_compute. exact I. Qed.

Lemma stub_names name args : name ∈ (stub_handlers args).*1 → name ∈ td_name <$> all_tools.
Proof.
  revert name. apply Forall_forall. change (Forall (λ n, n ∈ td_name <$> all_tools) (stub_handlers JNull).*1).
  apply (bool_decide_unpack _). vm_compute. exact I.
Qed.

(** The tools the server advertises are exactly the ones it handles: a
    call of an advertised tool is answered by its handler (also when nothing
    is connected), so that the answers of a server without connections are
    never given, and any other name is reported as unknown. *)
Theorem advertised_tools_handled c fault cut now name args s s' h tr :
  runs s (dispatch_connected c fault cut now name args) s' h tr → survives args name →
  if bool_decide (name ∈ td_name <$> all_tools) then ∃ r, h = Answered r
  else h = UnknownTool ∧ dispatch_tool name args = tool_result ("Unknown tool: " +:+ name) true.
Proof.
  intros Hr Hi. case_bool_decide as Hin.
  - refine (may_return_runs answered _ _ _ _ _ _ Hr). eapply select_known; [by rewrite tool_names|apply handlers_answered|done].
  - unfold dispatch_connected in Hr. rewrite select_unknown in Hr by (by rewrite tool_names).
    apply runs_ret_inv in Hr as [-> _]. split; [done|]. unfold dispatch_tool.
    destruct (find _ _) as [[n r]|] eqn:Hf; [|done]. exfalso. apply find_some in Hf as [Hl Hn].
    apply bool_decide_eq_true in Hn. simpl in Hn. subst n. apply Hin, (stub_names _ args).
    apply list_elem_of_fmap. exists (name, r). split; [done|]. by apply list_elem_of_In.
Qed.

(** ** The loop *)

(** A line the server survives: not a call of [pact_diff] with arguments
    that cannot be indexed. *)
Definition survivable (line : string) : Prop :=
  ∀ j r p, json_parse line = Ok j → request_of_json j = Some r → params_of_json (rq_params r) = Some p →
    rq_method r = "tools/call" → survives (tp_arguments p) (tp_name p).
Definition blank (line : string) : bool := Str.is_empty (Str.trim line).
(** The answer to a line: one, unless the line is blank. *)
Definition one_answer (line : string) (out : option (list JsonRpcResponse)) : Prop :=
  ∃ l, out = Some l ∧ length l = if blank line then 0 else 1.

Lemma dispatch_survives c fault cut now name args :
  survives args name → may_return (λ h, h ≠ Crashed) (dispatch_connected c fault cut now name args).
Proof.
  intros Hs. destruct (decide (name ∈ td_name <$> all_tools)) as [Hin|Hout].
  - apply (may_return_impl answered); [by intros h [r ->]|].
    eapply select_known; [by rewrite tool_names|apply handlers_answered|done].
  - unfold dispatch_connected. by rewrite select_unknown by (by rewrite tool_names).
Qed.

Lemma handle_line_answers version c fate cut line :
  survivable line → may_return (one_answer line) (handle_line version c fate cut line).
Proof.
  intros Hs. unfold handle_line, one_answer, blank. destruct (Str.is_empty (Str.trim line)); [by exists []|].
  destruct (json_parse line) as [j|e] eqn:Hj; [|by eexists].
  destruct (request_of_json j) as [req|] eqn:Hreq; [|by eexists].
  apply (may_return_bind' (λ o, o ≠ None)); [|by intros [r|] Hr; [eexists|]].
  unfold handle_request. repeat (case_decide; [done || idtac|]); try done.
  destruct (params_of_json (rq_params req)) as [p|] eqn:Hp; [|done].
  apply (may_return_bind' (λ h, h ≠ Crashed)); [|by intros []].
  apply dispatch_survives. by eapply Hs.
Qed.

(** The server stays up: over input in which no call of [pact_diff] has
    arguments that are neither an object nor null, it runs to the end of the
    input and writes exactly one answer for every line that is not blank,
    malformed ones included. *)
Theorem serve_answers_every_line version c fates cut i lines s s' out up tr :
  Forall survivable lines → runs s (serve version c fates cut i (Ok <$> lines)) s' (out, up) tr →
  up = true ∧ length out = length (filter (λ l, blank l = false) lines).
Proof.
  intros Hs Hr. revert s s' i out up tr Hr. induction Hs as [|line lines Hline Hlines IH]; intros s s' i out up tr Hr.
  { by apply runs_ret_inv in Hr as [[= -> ->] _]. }
  apply runs_bind_inv in Hr as (s1 & o & tr1 & tr2 & Hl & Hr & _).
  apply (may_return_runs (one_answer line)) in Hl as (l & -> & Hlen); [|by apply handle_line_answers].
  apply runs_bind_inv in Hr as (s2 & [out' up'] & tr3 & tr4 & Hrest & [[= -> ->] _]%runs_ret_inv & _).
  destruct (IH _ _ _ _ _ _ Hrest) as [-> Hout]. split; [done|].
  rewrite length_app, Hout, Hlen, filter_cons. by destruct (blank line).
Qed.

(** A notification, which carries no id, is answered with a parse error
    instead of not at all, also the one every client sends after it has
    connected. *)
Theorem notifications_refused version c fate cut line fields :
  json_parse line = Ok (JObj fields) → field_of "id" fields = None → blank line = false →
  handle_line version c fate cut line = mret (Some [error_response JNull PARSE_ERROR (serde_error (JObj fields))]).
Proof.
  intros Hj Hid Hb. unfold handle_line. unfold blank in Hb. rewrite Hb, Hj. unfold request_of_json, get. rewrite Hid.
  by destruct (field_of "jsonrpc" fields).
Qed.

(** ** Scope of the tools *)

(** [pact_exec] runs its command on the one agent the server is connected
    to, whatever node it is told: the node only labels the output. *)
Theorem exec_ignores_node c command :
  (∃ r, ∀ node, handle_exec c (JObj [("node", JStr node); ("command", JStr command)]) = r) ∨
  (∃ text err, ∀ node, handle_exec c (JObj [("node", JStr node); ("command", JStr command)]) =
                         tool_result ("[" +:+ node +:+ "] " +:+ text) err).
Proof.
  unfold handle_exec. simpl. destruct (split_whitespace command) as [|cmd args]; [by left; eexists|].
  destruct (mcp_exec (token c) cmd args) as [stream|st]; [|by left; eexists].
  destruct (mcp_exec_stream (until_error stream) [] [] 0) as [[[out err] code]|e]; [|by left; eexists].
  right. by eexists _, _.
Qed.

(** [pact_apply] changes no configuration: the entry it records carries no
    state delta, and its scope is the argument as it stands, so that the form
    the tool asks for, "vc:ml", names a vCluster of that very name. *)
Theorem mcp_apply_changes_nothing c fault now args scope config h s s' r tr :
  journal_wf s → str_arg "scope" args = Some scope → get "config" args = Some config →
  runs_in h s (handle_apply c fault now args) s' (Answered r) tr → fits h s → tr_is_error r = false →
  ∃ seq e, entries s' !! seq = Some e ∧ entry_scope e = VCluster scope ∧ entry_state_delta e = None ∧ entry_type e = ET_Commit.
Proof.
  intros Hwf Hsc Hcf. unfold handle_apply. rewrite Hsc, Hcf.
  intros (h1 & h2 & s1 & a & tr1 & tr2 & Ha & Hr & -> & _)%runs_in_bind_inv Hfit Herr.
  destruct (fits_app _ _ _ _ _ _ _ Hwf Ha Hfit) as (Hf1 & Hwf1 & Hf2 & _).
  pose proof Hr as (Heq & _)%runs_in_ret_inv. destruct a as [seq|st]; injection Heq as ->; [|done].
  destruct (append_rpc_recorded _ _ _ _ _ _ _ _ _ Hwf Ha Hf1) as [Hrec _].
  destruct (recorded_runs _ _ _ _ _ _ _ _ _ Hwf1 Hr Hf2 Hrec) as (e & He & Hin).
  exists seq, (with_sequence e seq). split; [done|]. by injection He as <-.
Qed.

End answers.

(** ** Witnesses *)

Module McpSample.

#[export] Existing Instance JournalSample.chrono.
#[export] Existing Instance PolicySample.timestamps.
#[export] Existing Instance ConfigSample.json.
#[export] Existing Instance CliSample.api.
#[export] Existing Instance LatticeSample.nodes.
#[export] Existing Instance LatticeSample.lattice_api.

Definition request (method : string) (params : Json) : Json :=
  JObj [("jsonrpc", JStr "2.0"); ("id", JInt 1); ("method", JStr method); ("params", params)].
Definition call (name : string) (args : list (string * Json)) : Json :=
  request "tools/call" (JObj [("name", JStr name); ("arguments", JObj args)]).
Definition ready : list (string * Json) := [("jsonrpc", JStr "2.0"); ("method", JStr "notifications/initialized")].
Definition apply_args : Json := JObj [("scope", JStr "vc:ml"); ("config", JObj []); ("message", JStr "tune")].
(** A parser that knows the lines of the session. *)
#[export] Instance json_texts : JsonText :=
  {| json_text := λ _, "{}";
     json_parse := λ l, if decide (l = "ready") then Ok (JObj ready)
       else if decide (l = "start") then Ok (call "pact_emergency" [("action", JStr "start")])
       else if decide (l = "end") then Ok (call "pact_emergency" [("action", JStr "end")])
       else if decide (l = "diff") then Ok (call "pact_diff" [("node", JStr "n1")])
       else Err "expected value";
     serde_error := λ _, "missing field"; debug_text := λ s, s |}.
#[export] Instance agent : McpAgent := {| mcp_exec := λ _ _ _, Ok [Ok (Some (ExitCode 0))]; mcp_commands := λ _, Ok [] |}.

Definition connections : Connections :=
  {| cn_journal := true; cn_agent := true; cn_delegation := LatticeSample.config; cn_mcp_token := Some "t" |}.
Definition input : list string := ["ready"; "start"; "end"; ""; "diff"; "junk"].
Definition session := serve "1.0" connections (λ _, (Delivered, 5%Z)) None 0 (Ok <$> input).
Definition applied := run 5%Z (handle_apply connections Delivered 5%Z apply_args) journal_init.

End McpSample.
Import McpSample.

Lemma mcp_needs_token_witness :
  ∃ s' out, runs journal_init (mcp_main "1.0" (λ _, None) (λ _, Connected) (λ _, (Delivered, 5%Z)) None (Ok <$> input)) s' out [].
Proof.
  destruct (run_runs 5%Z (mcp_main "1.0" (λ _, None) (λ _, Connected) (λ _, (Delivered, 5%Z)) None (Ok <$> input)) journal_init) as [tr Htr].
  eexists _, _. rewrite <- (mcp_needs_token "1.0" (λ _, None) (λ _, Connected) (λ _, (Delivered, 5%Z)) None (Ok <$> input)
    journal_init _ _ tr eq_refl Htr). exact Htr.
Defined.

(** The client asks for the start and for the end of an emergency: the end is
    the one entry. *)
Lemma mcp_never_starts_emergency_witness :
  let '(s', out) := run 5%Z session journal_init in
  (∃ tr, runs journal_init session s' out tr ∧ Forall (λ ev, mcp_write (ev_cmd ev)) tr ∧
    Forall (λ ev, ∀ e, ev_cmd ev = AppendEntry e → entry_type e ≠ ET_EmergencyStart) tr) ∧
  entry_type <$> (btree_values (entries s')) = [ET_EmergencyEnd].
Proof.
  destruct (run_runs 5%Z session journal_init) as [tr Htr].
  assert (entry_type <$> btree_values (entries (run 5%Z session journal_init).1) = [ET_EmergencyEnd]) as He by (vm_compute; reflexivity).
  destruct (run 5%Z session journal_init) as [s' out] eqn:E. split; [|exact He]. exists tr. split; [exact Htr|].
  exact (mcp_never_starts_emergency "1.0" connections (λ _, (Delivered, 5%Z)) None (Ok <$> input) journal_init _ _ tr Htr).
Defined.

Lemma advertised_tools_handled_witness :
  let args := JObj [("action", JStr "end")] in
  if bool_decide ("pact_emergency" ∈ td_name <$> all_tools)
  then ∃ r, (run 5%Z (dispatch_connected connections Delivered None 5%Z "pact_emergency" args) journal_init).2 = Answered r
  else (run 5%Z (dispatch_connected connections Delivered None 5%Z "pact_emergency" args) journal_init).2 = UnknownTool ∧
       dispatch_tool "pact_emergency" args = tool_result ("Unknown tool: " +:+ "pact_emergency") true.
Proof.
  destruct (run_runs 5%Z (dispatch_connected connections Delivered None 5%Z "pact_emergency" (JObj [("action", JStr "end")]))
              journal_init) as [tr Htr].
  apply (advertised_tools_handled connections Delivered None 5%Z "pact_emergency" (JObj [("action", JStr "end")])
           journal_init _ _ tr Htr). discriminate.
Defined.

Lemma serve_answers_every_line_witness :
  (run 5%Z session journal_init).2.2 = true ∧
  length (run 5%Z session journal_init).2.1 = length (filter (λ l, blank l = false) input).
Proof.
  destruct (run_runs 5%Z session journal_init) as [tr Htr].
  apply (serve_answers_every_line "1.0" connections (λ _, (Delivered, 5%Z)) None 0 input journal_init
           (run 5%Z session journal_init).1 _ _ tr); [|by destruct (run 5%Z session journal_init) as [? [? ?]]].
  unfold input. repeat (apply Forall_cons; split; [by intros j r p [= <-] [= <-] [= <-] Hm Hd; vm_compute in Hm, Hd |- *|]).
  constructor.
Defined.

Lemma notifications_refused_witness :
  handle_line "1.0" connections (Delivered, 5%Z) None "ready" =
    mret (Some [error_response JNull PARSE_ERROR (serde_error (JObj ready))]).
Proof. apply (notifications_refused "1.0" connections (Delivered, 5%Z) None "ready" ready); reflexivity. Defined.

Lemma mcp_apply_changes_nothing_witness :
  ∃ seq e, entries applied.1 !! seq = Some e ∧ entry_scope e = VCluster "vc:ml" ∧ entry_state_delta e = None ∧
    entry_type e = ET_Commit.
Proof.
  destruct (run_runs_in 5%Z (handle_apply connections Delivered 5%Z apply_args) journal_init) as [tr Htr].
  refine (mcp_apply_changes_nothing connections Delivered 5%Z apply_args "vc:ml" (JObj []) _ journal_init _
            (tool_result "Applied to vc:ml (seq:0): tune" false) tr journal_init_wf eq_refl eq_refl Htr _ eq_refl).
  vm_compute. reflexivity.
Defined.
