(* ===== verification/Observer.v ===== *)
(** * State observers

    crates/pact-agent/src/observer/mod.rs: the inotify and netlink observers
    with their tasks, the loader of the eBPF observer, and the mock. A task is
    a function of what its iterations read from the kernel; [stop] clears the
    flag that a task checks before it waits. The kernel is an argument:
    descriptors of watches, what is readable, what a read returns. *)

From S2P Require Import Prelude Text Types Drift.
From stdpp Require Import options.

(** ** Descriptions of inotify masks *)

Definition IN_MODIFY : N := 2.
Definition IN_MOVED_FROM : N := 64.
Definition IN_MOVED_TO : N := 128.
Definition IN_CREATE : N := 256.
Definition IN_DELETE : N := 512.
(** [contains]: all the bits of a flag. *)
Definition mask_contains (mask flag : N) : bool := (N.land mask flag =? flag)%N.

Fixpoint hex_digits (fuel : nat) (n : N) : string :=
  match fuel with
  | O => ""
  | S fuel' =>
      let d := n mod 16 in
      let digit := default "" (["0"; "1"; "2"; "3"; "4"; "5"; "6"; "7"; "8"; "9"; "a"; "b"; "c"; "d"; "e"; "f"] !! N.to_nat d) in
      if n <? 16 then digit else hex_digits fuel' (n / 16) +:+ digit
  end%N.
Definition mask_parts (mask : N) : list string :=
  (if mask_contains mask IN_CREATE then ["created"] else []) ++
  (if mask_contains mask IN_DELETE then ["deleted"] else []) ++
  (if mask_contains mask IN_MODIFY then ["modified"] else []) ++
  (if mask_contains mask IN_MOVED_FROM then ["moved_from"] else []) ++
  (if mask_contains mask IN_MOVED_TO then ["moved_to"] else []).
(** The mask has 32 bits: eight digits are enough. *)
Definition describe_inotify_mask (mask : N) : string :=
  match mask_parts mask with
  | [] => "inotify event 0x" +:+ hex_digits 8 mask
  | parts => Str.join ", " parts
  end.

(** ** The inotify observer *)

Record RawEvent := { re_wd : Z; re_mask : N; re_name : option string }.
Inductive Errno := EAGAIN | OtherErrno (e : string).

Definition watch_flags : N := N.lor IN_MODIFY (N.lor IN_CREATE (N.lor IN_DELETE (N.lor IN_MOVED_FROM IN_MOVED_TO))).

(** The watches of [start]: the first that fails ends it. Adding a watch on
    a file that is watched already gives its descriptor again, and the later
    path replaces the earlier one. *)
Fixpoint add_watches (add_watch : string → N → result Z string) (paths : list string) (wds : gmap Z string)
    : result (gmap Z string) string :=
  match paths with
  | [] => Ok wds
  | p :: rest => let? wd := add_watch p watch_flags in add_watches add_watch rest (<[wd := p]> wds)
  end.

Definition inotify_event (wds : gmap Z string) (now : DateTime) (ev : RawEvent) : ObserverEvent :=
  let base := default "" (wds !! re_wd ev) in
  {| oe_category := "file";
     oe_path := match re_name ev with Some n => base +:+ "/" +:+ n | None => base end;
     oe_detail := describe_inotify_mask (re_mask ev);
     oe_timestamp := now |}.

(** One turn of a task: whether [stop] was called before the flag is read,
    whether the wait succeeded, what the read gave, and how many events the
    receiver still takes. *)
Record Turn (A : Type) := { tn_stopped : bool; tn_ready : bool; tn_read : result A Errno; tn_now : DateTime; tn_room : nat }.
Arguments tn_stopped {_} _.
Arguments tn_ready {_} _.
Arguments tn_read {_} _.
Arguments tn_now {_} _.
Arguments tn_room {_} _.

(** Events sent in order until the receiver is gone: what arrived, and
    whether all of it did. *)
Definition send_all (room : nat) (evs : list ObserverEvent) : list ObserverEvent * bool :=
  (take room evs, bool_decide (length evs <= room)).

(** A task: the events it sends, and the flag it leaves. *)
Fixpoint observer_task {A} (events : DateTime → A → list ObserverEvent) (turns : list (Turn A)) : list ObserverEvent * bool :=
  match turns with
  | [] => ([], true)
  | t :: rest =>
      if tn_stopped t then ([], false)
      else if tn_ready t then
        match tn_read t with
        | Ok a =>
            let '(sent, complete) := send_all (tn_room t) (events (tn_now t) a) in
            if complete then let '(more, running) := observer_task events rest in (sent ++ more, running)
            else (sent, false)
        | Err EAGAIN => observer_task events rest
        | Err (OtherErrno _) => ([], true)
        end
      else ([], true)
  end.

Definition inotify_batch (wds : gmap Z string) (now : DateTime) (evs : list RawEvent) : list ObserverEvent :=
  inotify_event wds now <$> evs.
(** [async_fd]: the descriptor cloned and registered with the runtime. *)
Definition inotify_start (init : result () string) (add_watch : string → N → result Z string) (paths : list string)
    (async_fd : result () string) (turns : list (Turn (list RawEvent))) : result (list ObserverEvent * bool) string :=
  let? _ := init in
  let? wds := add_watches add_watch paths ∅ in
  let? _ := async_fd in
  Ok (observer_task (inotify_batch wds) turns).

(** ** The netlink observer *)

(** A read of [n] bytes. *)
Definition netlink_batch (now : DateTime) (n : N) : list ObserverEvent :=
  if (0 <? n)%N then
    [{| oe_category := "network"; oe_path := "netlink";
        oe_detail := "link change notification (" +:+ pretty n +:+ " bytes)"; oe_timestamp := now |}]
  else [].
Definition netlink_start (sock bound async_fd : result () string) (turns : list (Turn N)) : result (list ObserverEvent * bool) string :=
  let? _ := sock in
  let? _ := bound in
  let? _ := async_fd in
  Ok (observer_task netlink_batch turns).

(** ** The eBPF observer *)

Definition tracepoint_for_file (filename : string) : option (string * string) :=
  if decide (filename = "mount.o") then Some ("syscalls", "sys_enter_mount")
  else if decide (filename = "sethostname.o") then Some ("syscalls", "sys_enter_sethostname")
  else if decide (filename = "sysctl.o") then Some ("syscalls", "sys_enter_sysctl")
  else None.

(** What the BPF library says of an object: whether it loads, whether it has
    the program, whether that is a tracepoint, and the outcomes of loading
    and attaching it. *)
Record BpfObject := { bo_loads : bool; bo_program : string → bool; bo_tracepoint : bool; bo_load : bool; bo_attach : string → string → bool }.
Definition attaches (o : BpfObject) (tp : string * string) : bool :=
  bo_loads o && bo_program o tp.2 && bo_tracepoint o && bo_load o && bo_attach o tp.1 tp.2.
Definition loads (entry : string * BpfObject) : bool :=
  bool_decide (is_Some (Str.strip_suffix ".o" entry.1)) &&
  match tracepoint_for_file entry.1 with Some tp => attaches entry.2 tp | None => false end.
(** The tracepoints attached, in the order of the directory; the task that
    follows sends nothing. *)
Definition ebpf_start (entries : result (list (string * BpfObject)) string) : result (list (string * string)) string :=
  let? es := entries in
  Ok (omap (λ e, tracepoint_for_file e.1) (filter (λ e, loads e = true) es)).
(** Without the feature. *)
Definition ebpf_stub_start (debug_dir : string) : result () string :=
  Err ("eBPF support is not compiled in (enable the 'ebpf' feature). programs_dir=" +:+ debug_dir).

(** ** The mock *)

Definition mock_start (events : list ObserverEvent) (room : nat) : list ObserverEvent := (send_all room events).1.

(** ** Properties *)

(** The flags of the five kinds of change, in the order they are named. *)
Definition change_flags (mask : N) : list bool :=
  (λ f, mask_contains mask f) <$> [IN_CREATE; IN_DELETE; IN_MODIFY; IN_MOVED_FROM; IN_MOVED_TO].
Definition parts_of (flags : list bool) : list string :=
  (zip_with (λ (b : bool) (p : string), if b then [p] else []) flags ["created"; "deleted"; "modified"; "moved_from"; "moved_to"]) ≫= id.
Definition all_flags : list (list bool) :=
  a ← [false; true]; b ← [false; true]; c ← [false; true]; d ← [false; true]; e ← [false; true]; mret [a; b; c; d; e].

Lemma change_flags_all mask : change_flags mask ∈ all_flags.
Proof.
  unfold change_flags. simpl fmap.
  destruct (mask_contains mask IN_CREATE), (mask_contains mask IN_DELETE), (mask_contains mask IN_MODIFY),
    (mask_contains mask IN_MOVED_FROM), (mask_contains mask IN_MOVED_TO);
    apply (bool_decide_unpack _); vm_compute; exact I.
Qed.
Lemma mask_parts_flags mask : mask_parts mask = parts_of (change_flags mask).
Proof.
  unfold mask_parts, change_flags, parts_of. simpl.
  by destruct (mask_contains mask IN_CREATE), (mask_contains mask IN_DELETE), (mask_contains mask IN_MODIFY),
    (mask_contains mask IN_MOVED_FROM), (mask_contains mask IN_MOVED_TO).
Qed.
Lemma parts_distinct :
  Forall (λ f, Forall (λ g, Str.join ", " (parts_of f) = Str.join ", " (parts_of g) → f = g) all_flags) all_flags.
Proof. apply (bool_decide_unpack _). vm_compute. exact I. Qed.
Lemma parts_never_hex x : Forall (λ f, parts_of f ≠ [] → Str.join ", " (parts_of f) ≠ "inotify event 0x" +:+ x) all_flags.
Proof.
  repeat (apply Forall_cons; split; [vm_compute; discriminate || (intros Hx; by destruct Hx)|]). constructor.
Qed.

(** The description of a change tells its kinds apart: two masks with the
    same description carry the same of the five flags, as soon as one of them
    carries any. *)
Theorem mask_description_exact m1 m2 :
  describe_inotify_mask m1 = describe_inotify_mask m2 → mask_parts m1 ≠ [] → change_flags m1 = change_flags m2.
Proof.
  unfold describe_inotify_mask. rewrite !mask_parts_flags. intros Heq Hne.
  pose proof (change_flags_all m1) as H1. pose proof (change_flags_all m2) as H2.
  pose proof (proj1 (Forall_forall _ _) parts_distinct _ H1) as Hd. apply (proj1 (Forall_forall _ _) Hd _ H2).
  pose proof (proj1 (Forall_forall _ _) (parts_never_hex (hex_digits 8 m2)) _ H1 Hne) as Hh.
  destruct (parts_of (change_flags m1)) as [|p ps]; [done|]. by destruct (parts_of (change_flags m2)).
Qed.

(** [stop] takes effect when the task next checks its flag: from the
    turn that finds it cleared on, nothing is sent, whatever the kernel has
    ready. *)
Theorem stop_silences {A} (events : DateTime → A → list ObserverEvent) pre t post :
  tn_stopped t = true → (observer_task events (pre ++ t :: post)).1 = (observer_task events pre).1.
Proof.
  intros Ht. induction pre as [|u pre IH]; simpl; [by rewrite Ht|].
  destruct (tn_stopped u); [done|]. destruct (tn_ready u); [|done]. destruct (tn_read u) as [a|[]]; [|done|done].
  destruct (bool_decide _); [|done].
  destruct (observer_task events (pre ++ t :: post)), (observer_task events pre). simpl in *. by subst.
Qed.

(** A turn without a fault: the events of its read, if any. *)
Definition clean {A} (events : DateTime → A → list ObserverEvent) (t : Turn A) : Prop :=
  tn_stopped t = false ∧ tn_ready t = true ∧
  match tn_read t with Ok a => length (events (tn_now t) a) ≤ tn_room t | Err e => e = EAGAIN end.
Definition turn_events {A} (events : DateTime → A → list ObserverEvent) (t : Turn A) : list ObserverEvent :=
  match tn_read t with Ok a => events (tn_now t) a | Err _ => [] end.

Lemma observer_task_clean {A} (events : DateTime → A → list ObserverEvent) turns :
  Forall (clean events) turns → observer_task events turns = (mjoin (turn_events events <$> turns), true).
Proof.
  induction 1 as [|t turns (Hs & Hr & Hread) _ IH]; [done|]. cbn. rewrite Hs, Hr. unfold turn_events at 1.
  destruct (tn_read t) as [a|e]; [|by subst e]. unfold send_all. rewrite bool_decide_eq_true_2, take_ge by done.
  by rewrite IH.
Qed.

Lemma add_watches_lookup add paths wds0 wds wd p :
  add_watches add paths wds0 = Ok wds → wds !! wd = Some p → wds0 !! wd = Some p ∨ p ∈ paths.
Proof.
  revert wds0. induction paths as [|q paths IH]; simpl; intros wds0; [intros [= ->]; by left|].
  destruct (add q watch_flags) as [wd'|]; simpl; [|done]. intros Ha Hl.
  destruct (IH _ Ha Hl) as [Hin|Hin]; [|right; by right].
  destruct (decide (wd' = wd)) as [->|]; [rewrite lookup_insert_eq in Hin; simplify_eq; right; by left|].
  rewrite lookup_insert_ne in Hin by done. by left.
Qed.

(** As long as the observer is not stopped, nothing fails and the receiver
    keeps up, every event the kernel reports is sent once, in order, as a
    change of a file; and an event of a watch names the watched path, or a
    name right below it. *)
Theorem inotify_reports_all add paths turns wds :
  add_watches add paths ∅ = Ok wds → Forall (clean (inotify_batch wds)) turns →
  inotify_start (Ok ()) add paths (Ok ()) turns = Ok (mjoin (turn_events (inotify_batch wds) <$> turns), true) ∧
  ∀ now ev, is_Some (wds !! re_wd ev) →
    oe_category (inotify_event wds now ev) = "file" ∧
    ∃ p, p ∈ paths ∧ oe_path (inotify_event wds now ev) = p +:+ from_option (λ n, "/" +:+ n) "" (re_name ev).
Proof.
  intros Hw Hc. unfold inotify_start. rewrite Hw. simpl. rewrite (observer_task_clean _ _ Hc). split; [done|].
  intros now ev [p Hp]. split; [done|]. exists p.
  destruct (add_watches_lookup _ _ _ _ _ _ Hw Hp) as [He|Hin]; [by rewrite lookup_empty in He|]. split; [done|].
  unfold inotify_event. simpl. rewrite Hp. destruct (re_name ev); simpl; [done|]. by rewrite append_nil_r.
Qed.

(** ** Witnesses *)

Lemma mask_description_exact_witness : change_flags 258 = change_flags 16642.
Proof. apply (mask_description_exact 258 16642); [reflexivity|discriminate]. Defined.

Definition sample_turn (stopped : bool) (n : N) : Turn N :=
  {| tn_stopped := stopped; tn_ready := true; tn_read := Ok n; tn_now := 5%Z; tn_room := 9 |}.
Lemma stop_silences_witness :
  (observer_task netlink_batch ([sample_turn false 7] ++ sample_turn true 8 :: [sample_turn false 9])).1 =
    (observer_task netlink_batch [sample_turn false 7]).1.
Proof. apply (stop_silences netlink_batch [sample_turn false 7] (sample_turn true 8) [sample_turn false 9]). reflexivity. Defined.

Definition sample_add (p : string) (_ : N) : result Z string := Ok (if decide (p = "/etc") then 1%Z else 2%Z).
Definition sample_event : RawEvent := {| re_wd := 1; re_mask := IN_CREATE; re_name := Some "motd" |}.
Definition sample_wds : gmap Z string := <[2%Z := "/opt"]> (<[1%Z := "/etc"]> ∅).
Definition sample_batch : Turn (list RawEvent) :=
  {| tn_stopped := false; tn_ready := true; tn_read := Ok [sample_event]; tn_now := 5%Z; tn_room := 9 |}.
Lemma inotify_reports_all_witness :
  inotify_start (Ok ()) sample_add ["/etc"; "/opt"] (Ok ()) [sample_batch] =
    Ok (mjoin (turn_events (inotify_batch sample_wds) <$> [sample_batch]), true).
Proof.
  apply (inotify_reports_all sample_add ["/etc"; "/opt"] [sample_batch] sample_wds); [reflexivity|].
  repeat constructor.
Defined.
