(* ===== verification/SessionEnv.v ===== *)
(** * The environment of a shell session

    The rest of crates/pact-agent/src/shell/session.rs: the environment the
    restricted shell starts with, the directory of links that is its PATH,
    and the pseudo terminal it is attached to. The tables of Unicode, the
    files of the node, openpty and fork are outside the program. *)

From S2P Require Import Prelude Text Types Whitelist Shell.
From stdpp Require Import options.
From Stdlib Require Import Ascii.

(** ** Characters of a string *)

(** A byte 10xxxxxx continues the character before it. *)
Definition is_continuation (a : ascii) : bool := (N.land (N_of_ascii a) 192 =? 128)%N.

(** The bytes that continue a character begun before the string, and the
    characters of the rest. *)
Fixpoint split_chars (s : string) : string * list string :=
  match s with
  | EmptyString => ("", [])
  | String a s' =>
      let '(p, l) := split_chars s' in
      if is_continuation a then (String a p, l) else ("", String a p :: l)
  end.
Definition chars (s : string) : list string :=
  let '(p, l) := split_chars s in if Str.is_empty p then l else p :: l.

Definition in_range (lo hi : ascii) (a : ascii) : bool :=
  (N_of_ascii lo <=? N_of_ascii a)%N && (N_of_ascii a <=? N_of_ascii hi)%N.
Definition ascii_alphanumeric (a : ascii) : bool :=
  in_range "0" "9" a || in_range "A" "Z" a || in_range "a" "z" a.

(** ** The session *)

(** [unicode_alphanumeric]: the table for the characters beyond ASCII. *)
Definition is_alphanumeric (unicode_alphanumeric : string → bool) (c : string) : bool :=
  match c with
  | EmptyString => false
  | String a _ => if (N_of_ascii a <? 128)%N then ascii_alphanumeric a else unicode_alphanumeric c
  end.
Definition safe_char (unicode_alphanumeric : string → bool) (c : string) : bool :=
  is_alphanumeric unicode_alphanumeric c || bool_decide (c = "@") || bool_decide (c = ".") ||
  bool_decide (c = "-") || bool_decide (c = "_").
Definition safe_principal (unicode_alphanumeric : string → bool) (principal_ : string) : string :=
  String.concat "" (filter (λ c, safe_char unicode_alphanumeric c = true) (chars principal_)).

Definition bin_dir (x : ShellSession) : string := "/run/pact/shell/" +:+ ss_session_id x +:+ "/bin".
Definition prompt_command (id who : string) : string :=
  "echo " +:+ quote +:+ "PACT_AUDIT session=" +:+ id +:+ " user=" +:+ who +:+ " cmd=$(history 1)" +:+ quote +:+
  " >> /run/pact/shell/" +:+ id +:+ "/audit.log".
Definition env_vars (unicode_alphanumeric : string → bool) (x : ShellSession) : list (string * string) :=
  [("PATH", bin_dir x); ("HOME", "/tmp"); ("TERM", ss_term x); ("LANG", "C.UTF-8"); ("SHELL", "/bin/rbash");
   ("PROMPT_COMMAND", prompt_command (ss_session_id x) (safe_principal unicode_alphanumeric (principal (ss_user x))));
   ("BASH_ENV", ""); ("ENV", "")].

Definition close_session (x : ShellSession) : ShellSession := set_session_state SClosing x.
Definition finalize (x : ShellSession) : ShellSession := set_session_state SClosed x.
(** The counter is a u32: a build with overflow checks panics ([None]). *)
Definition record_command (x : ShellSession) : option ShellSession :=
  if (ss_commands_executed x + 1 <? 2 ^ 32)%N
  then Some {| ss_session_id := ss_session_id x; ss_user := ss_user x; ss_node_id := ss_node_id x;
               ss_vcluster_id := ss_vcluster_id x; ss_started_at := ss_started_at x; ss_state := ss_state x;
               ss_commands_executed := ss_commands_executed x + 1; ss_rows := ss_rows x; ss_cols := ss_cols x;
               ss_term := ss_term x |}
  else None.

(** ** The directory of links *)

(** What the session setup sees of the file system: the files there were,
    and the links it made, by their path. *)
Record LinkFs := { lf_files : string → bool; lf_links : gmap string string }.
(** A path exists when it is a file, or a link to one. *)
Definition exists_ (fs : LinkFs) (p : string) : bool :=
  lf_files fs p || match lf_links fs !! p with Some t => lf_files fs t | None => false end.
(** symlink(2) refuses a path that is taken; [refused] are its other
    failures. A failure is logged. *)
Definition symlink (refused : string → bool) (target link : string) (fs : LinkFs) : LinkFs :=
  if refused link || lf_files fs link || bool_decide (is_Some (lf_links fs !! link)) then fs
  else {| lf_files := lf_files fs; lf_links := <[link := target]> (lf_links fs) |}.

Fixpoint link_command (refused : string → bool) (bin cmd : string) (search_dirs : list string) (fs : LinkFs) : LinkFs :=
  match search_dirs with
  | [] => fs
  | dir :: rest =>
      let real_path := path_join dir cmd in
      if exists_ fs real_path then symlink refused real_path (path_join bin cmd) fs
      else link_command refused bin cmd rest fs
  end.

(** [cmds] is the whitelist in the order the set is walked; [path_var] the
    agent's own PATH. *)
Definition setup_session_bin_dir (mkdir : string → result () string) (refused : string → bool) (path_var : option string)
    (cmds : list string) (x : ShellSession) (fs : LinkFs) : LinkFs * result () SessionError :=
  let bin := bin_dir x in
  match mkdir bin with
  | Err e => (fs, Err (SetupFailed ("mkdir " +:+ bin +:+ ": " +:+ e)))
  | Ok _ =>
      let search_dirs := Str.split ":"%char (default "" path_var) in
      (foldl (λ f cmd, link_command refused bin cmd search_dirs f) fs cmds, Ok tt)
  end.
(** The directory goes with all it holds, or stays as it was. *)
Definition cleanup_session_bin_dir (removed : bool) (x : ShellSession) (fs : LinkFs) : LinkFs :=
  if removed
  then {| lf_files := λ p, lf_files fs p && negb (Str.starts_with p (bin_dir x +:+ "/"));
          lf_links := filter (λ '(p, _), Str.starts_with p (bin_dir x +:+ "/") = false) (lf_links fs) |}
  else fs.

(** ** The pseudo terminal *)

(** What a descriptor of the child refers to. *)
Inductive OpenFile := DevNull | Terminal | Inherited.
#[export] Instance OpenFile_eq_dec : EqDecision OpenFile.
Proof. solve_decision. Defined.

Abbreviation fd_table := (gmap N OpenFile).

(** [Stdio::null] for the three standard descriptors, before [pre_exec]. *)
Definition stdio_null (t : fd_table) : fd_table := <[2%N := DevNull]> (<[1%N := DevNull]> (<[0%N := DevNull]> t)).
Definition dup2 (failure : N → option string) (old new : N) (t : fd_table) : result fd_table string :=
  match failure new, t !! old with
  | Some e, _ => Err e
  | None, Some f => Ok (<[new := f]> t)
  | None, None => Err "Bad file descriptor"
  end.
(** The closure that runs in the child between fork and exec. *)
Definition pre_exec (setsid : result () string) (failure : N → option string) (slave : N) (t : fd_table)
    : result fd_table string :=
  let? _ := setsid in
  let? t0 := dup2 failure slave 0 t in
  let? t1 := dup2 failure slave 1 t0 in
  let? t2 := dup2 failure slave 2 t1 in
  Ok (if (2 <? slave)%N then delete slave t2 else t2).

Record PtyHandle := { ph_master_fd : N; ph_child : N }.
Record ChildStart := { cs_program : string; cs_env : gmap string string; cs_fds : fd_table }.

(** What the kernel answers: the pair of descriptors of openpty, the calls of
    the child, fork and exec. *)
Record PtyKernel := {
  pk_openpty : N → N → result (N * N) string;
  pk_fds : fd_table;
  pk_setsid : result () string;
  pk_dup2 : N → option string;
  pk_spawn : result N string;
}.

(** [Command::env_clear], then [Command::env] for each variable. *)
Definition child_env (vars : list (string * string)) : gmap string string :=
  foldl (λ m kv, <[kv.1 := kv.2]> m) ∅ vars.

Definition allocate_pty (unicode_alphanumeric : string → bool) (k : PtyKernel) (x : ShellSession)
    : result (PtyHandle * ChildStart) SessionError :=
  match pk_openpty k (ss_rows x) (ss_cols x) with
  | Err e => Err (PtyFailed ("openpty: " +:+ e))
  | Ok (master, slave) =>
      let parent := <[slave := Terminal]> (<[master := Inherited]> (pk_fds k)) in
      match (let? t := pre_exec (pk_setsid k) (pk_dup2 k) slave (stdio_null parent) in
             let? pid := pk_spawn k in Ok (t, pid)) with
      | Err e => Err (PtyFailed ("spawn rbash: " +:+ e))
      | Ok (t, pid) =>
          Ok ({| ph_master_fd := master; ph_child := pid |},
              {| cs_program := "/bin/rbash"; cs_env := child_env (env_vars unicode_alphanumeric x); cs_fds := t |})
      end
  end.

(** The operations of the handle: the master is cloned, then read or
    written. *)
Definition pty_write (clone : result () string) (written : result N string) : result N SessionError :=
  match clone with
  | Err e => Err (PtyFailed ("clone master fd: " +:+ e))
  | Ok _ => match written with Err e => Err (PtyFailed ("write to master fd: " +:+ e)) | Ok n => Ok n end
  end.
Definition pty_read (clone : result () string) (got : result N string) : result N SessionError :=
  match clone with
  | Err e => Err (PtyFailed ("clone master fd: " +:+ e))
  | Ok _ => match got with Err e => Err (PtyFailed ("read from master fd: " +:+ e)) | Ok n => Ok n end
  end.
Definition pty_resize (ioctl : N → N → Z) (last_os_error : string) (rows cols : N) : result () SessionError :=
  if (ioctl rows cols <? 0)%Z then Err (PtyFailed ("TIOCSWINSZ ioctl failed: " +:+ last_os_error)) else Ok tt.

(** ** Properties *)

(** *** What a principal can put into the audit command *)

(** The bytes a shell reads as part of a plain word. *)
Definition inert (a : ascii) : bool :=
  (128 <=? N_of_ascii a)%N || ascii_alphanumeric a || bool_decide (a ∈ ["@"; "."; "-"; "_"]%char).
(** The other bytes of a string, in order. *)
Fixpoint active (s : string) : string :=
  match s with EmptyString => "" | String a s' => if inert a then active s' else String a (active s') end.

Lemma active_append s p : active (s +:+ p) = active s +:+ active p.
Proof.
  induction s as [|a s IH]; [done|]. rewrite append_cons. simpl. rewrite IH. by destruct (inert a).
Qed.

Lemma continuation_inert a : is_continuation a = true → inert a = true.
Proof. by destruct a as [[] [] [] [] [] [] [] []]. Qed.

Lemma split_chars_shape s :
  active (split_chars s).1 = "" ∧
  Forall (λ c, match c with String a p => active p = "" | EmptyString => False end) (split_chars s).2.
Proof.
  induction s as [|a s IH]; simpl; [by split|]. destruct (split_chars s) as [p l]. destruct IH as [Hp Hl].
  destruct (is_continuation a) eqn:E; simpl; [|by split; [|constructor]].
  by rewrite (continuation_inert _ E).
Qed.

Lemma safe_char_active u a p : active p = "" → safe_char u (String a p) = true → active (String a p) = "".
Proof.
  intros Hp Hs. simpl. destruct (inert a) eqn:Ha; [done|]. exfalso. revert Hs Ha. unfold safe_char, inert. simpl.
  destruct (N.ltb_spec (N_of_ascii a) 128) as [Hlt|Hge]; [|by rewrite (proj2 (N.leb_le _ _) Hge)].
  intros Hs Ha. apply orb_false_iff in Ha as [Ha Hin]. apply orb_false_iff in Ha as [_ Ha]. rewrite Ha in Hs. simpl in Hs.
  apply bool_decide_eq_false in Hin.
  rewrite !orb_true_iff, !bool_decide_eq_true in Hs. apply Hin.
  destruct Hs as [[[Hs|Hs]|Hs]|Hs]; inversion Hs; set_solver.
Qed.

Lemma concat_cons c l : String.concat "" (c :: l) = c +:+ String.concat "" l.
Proof. destruct l; simpl; [by rewrite append_nil_r|]. by change (String.append "" ?s) with s. Qed.

Lemma safe_principal_inert u who : active (safe_principal u who) = "".
Proof.
  unfold safe_principal, chars. destruct (split_chars who) as [p l] eqn:E.
  pose proof (split_chars_shape who) as [Hp Hl]. rewrite E in Hp, Hl. simpl in *.
  assert (Forall (λ c, safe_char u c = true → active c = "") (if Str.is_empty p then l else p :: l)) as Hall.
  { assert (Forall (λ c, safe_char u c = true → active c = "") l) as Hl'.
    { eapply Forall_impl; [exact Hl|]. intros [|a q]; [done|]. apply safe_char_active. }
    destruct (Str.is_empty p); [done|]. by constructor. }
  clear E Hp Hl. induction Hall as [|c cs Hc Hcs IH]; [done|].
  destruct (decide (safe_char u c = true)) as [Hs|Hs]; [|by rewrite filter_cons_False].
  rewrite filter_cons_True, concat_cons, active_append, IH by done. rewrite Hc by done. done.
Qed.

(** C39: whoever the user claims to be, the command the shell runs at every
    prompt has the quotes, expansions, redirections, spaces and separators of
    the program's own text, in that order, and no other: with a session id of
    letters, digits and dashes (as UUIDs are), the principal adds no byte a
    shell gives a meaning to. *)
Theorem prompt_command_injection_free u id who :
  active id = "" → active (prompt_command id (safe_principal u who)) = active (prompt_command "" "").
Proof.
  intros Hid. unfold prompt_command. rewrite !active_append, Hid, safe_principal_inert. reflexivity.
Qed.

(** *** What is on the PATH of the shell *)

(** The first file of that name on a list of directories. *)
Definition which (files : string → bool) (dirs : list string) (cmd : string) : option string :=
  snd <$> list_find (λ p, files p = true) ((λ dir, path_join dir cmd) <$> dirs).
Definition basename (p : string) : string := from_option snd p (rsplit_once "/"%char p).
(** A file name without a slash. *)
Definition file_name (c : string) : Prop := char_free "/" c = true.

Lemma file_name_not_absolute c : file_name c → Str.starts_with c "/" = false.
Proof.
  unfold file_name, Str.starts_with. destruct c as [|a c]; simpl; [done|]. intros [Ha _]%andb_true_iff.
  apply negb_true_iff, bool_decide_eq_false in Ha. by destruct (decide _) as [<-|].
Qed.

Lemma basename_join dir c : file_name c → basename (path_join dir c) = c.
Proof.
  intros Hc. unfold path_join. rewrite file_name_not_absolute by done.
  destruct (Str.is_empty dir); [by unfold basename; rewrite rsplit_once_absent|].
  destruct (Str.strip_suffix "/" dir) as [d|] eqn:E.
  - apply strip_suffix_Some in E as ->. rewrite append_assoc. change ("/" +:+ c) with (String "/" c).
    unfold basename. by rewrite rsplit_once_found.
  - change ("/" +:+ c) with (String "/" c). unfold basename. by rewrite rsplit_once_found.
Qed.

Lemma link_command_which refused bin c dirs fs :
  file_name c → (∀ p, is_Some (lf_links fs !! p) → basename p ≠ c) →
  link_command refused bin c dirs fs =
    match which (lf_files fs) dirs c with
    | Some t => symlink refused t (path_join bin c) fs
    | None => fs
    end.
Proof.
  intros Hc Hfresh. induction dirs as [|d dirs IH]; [done|]. simpl.
  assert (lf_links fs !! path_join d c = None) as Hn.
  { destruct (lf_links fs !! path_join d c) eqn:E; [|done]. exfalso.
    apply (Hfresh (path_join d c)); [by rewrite E|]. by apply basename_join. }
  unfold exists_, which. rewrite Hn, orb_false_r. rewrite fmap_cons. simpl.
  destruct (lf_files fs (path_join d c)) eqn:E; simpl.
  - done.
  - rewrite IH. unfold which. by destruct (list_find _ _) as [[]|].
Qed.

Lemma setup_links refused bin dirs cmds fs p t :
  NoDup cmds → Forall file_name cmds → (∀ q, is_Some (lf_links fs !! q) → basename q ∉ cmds) →
  lf_links (foldl (λ f c, link_command refused bin c dirs f) fs cmds) !! p = Some t ↔
    lf_links fs !! p = Some t ∨
    ∃ c, c ∈ cmds ∧ p = path_join bin c ∧ which (lf_files fs) dirs c = Some t ∧ refused p = false ∧ lf_files fs p = false.
Proof.
  intros Hnd Hfn. revert fs Hnd Hfn. induction cmds as [|c cmds IH]; intros fs Hnd Hfn Hfresh; simpl; [set_solver|].
  apply NoDup_cons in Hnd as [Hc Hnd]. apply Forall_cons in Hfn as [Hcn Hfn].
  rewrite link_command_which by (done || (intros q Hq Hb; apply (Hfresh _ Hq); rewrite Hb; left)).
  assert (lf_links fs !! path_join bin c = None) as Hnone.
  { destruct (lf_links fs !! path_join bin c) eqn:E; [|done]. exfalso.
    apply (Hfresh (path_join bin c)); [by rewrite E|]. rewrite basename_join by done. left. }
  destruct (which (lf_files fs) dirs c) as [r|] eqn:Ew; [|rewrite IH by set_solver; split; [set_solver|]].
  2: { intros [|(c' & [->|]%elem_of_cons & Hrest)]; [by left| |by right; exists c'].
       destruct Hrest as (_ & Hw & _). congruence. }
  unfold symlink. rewrite Hnone, (bool_decide_eq_false_2 (is_Some None)), orb_false_r by (by intros []).
  destruct (refused (path_join bin c) || lf_files fs (path_join bin c)) eqn:Er.
  - rewrite IH by set_solver. split; [set_solver|].
    intros [|(c' & [->|]%elem_of_cons & Hrest)]; [by left| |by right; exists c'].
    destruct Hrest as (-> & _ & Hr & Hf). rewrite Hr, Hf in Er. done.
  - apply orb_false_iff in Er as [Er Ef]. rewrite IH; [|done|done|]; simpl.
    + rewrite lookup_insert_Some. split.
      * intros [[[<- <-]|[_ ?]]|(c' & Hin & Hrest)]; [right; exists c|by left|right; exists c'].
        { repeat split; [left|done..]. }
        { split; [by right|done]. }
      * intros [Hl|(c' & [->|Hin]%elem_of_cons & Hrest)].
        { left; right. split; [|done]. intros <-. congruence. }
        { destruct Hrest as (-> & Hw & _). left; left. split; [done|congruence]. }
        { right. by exists c'. }
    + intros q. rewrite lookup_insert_is_Some. intros [<-|[_ Hq]]; [by rewrite basename_join|].
      specialize (Hfresh _ Hq). set_solver.
Qed.

(** the directory a session has as its PATH holds, after the setup, a link
    for each whitelisted command the agent's own PATH has a file for, to the
    first such file, the one the whitelist resolves the command to, and no
    other link. *)
Theorem session_path_exact mkdir refused path_var cmds x fs fs' p t :
  NoDup cmds → Forall file_name cmds → lf_links fs = ∅ →
  setup_session_bin_dir mkdir refused path_var cmds x fs = (fs', Ok tt) →
  lf_links fs' !! p = Some t ↔
    ∃ c, c ∈ cmds ∧ p = path_join (bin_dir x) c ∧ refused p = false ∧ lf_files fs p = false ∧
      ∀ sc d, wl_binary_path (resolve_entry (lf_files fs) (default "" path_var)
        {| wl_command := c; wl_state_changing := sc; wl_description := d; wl_binary_path := None |}) = Some t.
Proof.
  intros Hnd Hfn Hempty. unfold setup_session_bin_dir. destruct (mkdir (bin_dir x)); [|done]. intros [= <-].
  rewrite setup_links; [|done..|by intros q; rewrite Hempty, lookup_empty; intros []].
  rewrite Hempty, lookup_empty. split.
  - intros [[=]|(c & Hc & Hp & Hw & Hr & Hf)]. by exists c.
  - intros (c & Hc & Hp & Hr & Hf & Hw). right. exists c. specialize (Hw false ""). done.
Qed.

(** *** What the shell starts with *)

Lemma child_env_from vars name v : child_env vars !! name = Some v → (name, v) ∈ vars.
Proof.
  unfold child_env. induction vars as [|[k w] vars IH] using rev_ind; [done|]. rewrite foldl_app. simpl.
  rewrite elem_of_app, list_elem_of_singleton. intros [[-> ->]|[_ ?]]%lookup_insert_Some; [by right|left; auto].
Qed.

Lemma insert_copy (t : fd_table) (s n : N) f : t !! s = Some f → (<[n := f]> t) !! s = Some f.
Proof. intros Hs. destruct (decide (n = s)) as [->|]; by simplify_map_eq. Qed.

(** The descriptor table of the child when the closure succeeds: the
    standard descriptors are copies of what [slave] is by then, and a slave
    above them is closed. *)
Lemma pre_exec_table setsid failure slave t t' f :
  t !! slave = Some f → pre_exec setsid failure slave t = Ok t' →
  t' = (let t2 := <[2%N := f]> (<[1%N := f]> (<[0%N := f]> t)) in if (2 <? slave)%N then delete slave t2 else t2).
Proof.
  intros Hs. unfold pre_exec, dup2. destruct setsid; simpl; [|done].
  rewrite Hs. destruct (failure 0%N); simpl; [done|].
  pose proof (insert_copy _ _ 0 _ Hs) as H0. rewrite H0. destruct (failure 1%N); simpl; [done|].
  pose proof (insert_copy _ _ 1 _ H0) as H1. rewrite H1. destruct (failure 2%N); simpl; [done|]. by intros [= <-].
Qed.

Lemma stdio_null_slave slave t :
  stdio_null (<[slave := Terminal]> t) !! slave = Some (if (2 <? slave)%N then Terminal else DevNull).
Proof.
  unfold stdio_null. destruct (N.ltb_spec 2 slave).
  - by rewrite 3!lookup_insert_ne, lookup_insert_eq by lia.
  - assert (slave = 0 ∨ slave = 1 ∨ slave = 2)%N as [->|[->| ->]] by lia; by simplify_map_eq.
Qed.

(** a shell that starts has the variables of [env_vars] and none of the
    agent's; its input, output and errors are the terminal, and no other
    descriptor of it is. When the terminal got a standard descriptor, which
    only an agent without its own standard descriptors can see, the shell has
    no terminal at all. *)
Theorem shell_starts_confined u k x h c master slave :
  pk_openpty k (ss_rows x) (ss_cols x) = Ok (master, slave) → allocate_pty u k x = Ok (h, c) →
  (∀ fd, pk_fds k !! fd ≠ Some Terminal) →
  (∀ name v, cs_env c !! name = Some v → (name, v) ∈ env_vars u x) ∧
  cs_env c !! "PATH" = Some (bin_dir x) ∧
  ((2 < slave)%N → ∀ fd, cs_fds c !! fd = Some Terminal ↔ (fd ≤ 2)%N) ∧
  ((slave ≤ 2)%N → ∀ fd, cs_fds c !! fd ≠ Some Terminal).
Proof.
  intros Ho Hp Hno. unfold allocate_pty in Hp. rewrite Ho in Hp.
  destruct (pre_exec _ _ _ _) as [t|] eqn:Et; simpl in Hp; [|done]. destruct (pk_spawn k); simpl in Hp; [|done].
  injection Hp as <- <-. simpl.
  apply (pre_exec_table _ _ _ _ _ _ (stdio_null_slave _ _)) in Et. simpl in Et. subst t.
  split; [intros name v; apply child_env_from|]. split; [done|]. unfold stdio_null.
  split; intros Hs; [rewrite (proj2 (N.ltb_lt _ _) Hs)|rewrite (proj2 (N.ltb_ge _ _) Hs)]; intros fd.
  - rewrite lookup_delete_Some, !lookup_insert_Some. specialize (Hno fd). split; [|intros; split; [lia|]].
    + intros (Hne & [[<- _]|(H2 & [[<- _]|(H1 & [[<- _]|(H0 & Hl)])])]); [lia..|].
      destruct Hl as [[_ ?]|(_ & [[_ ?]|(_ & [[_ ?]|(_ & [[? _]|(_ & [[_ ?]|(_ & ?)])])])])]; congruence.
    + assert (fd = 0 ∨ fd = 1 ∨ fd = 2)%N as [->|[->| ->]] by lia; [|by right; split; [|left]|by left].
      right; split; [done|]. right; split; [done|]. by left.
  - rewrite !lookup_insert_Some. specialize (Hno fd). intros Hl.
    assert (fd ≠ slave ∨ fd = 0 ∨ fd = 1 ∨ fd = 2)%N by lia. naive_solver.
Qed.

(** ** Witnesses *)

Definition env_user (who : string) : Identity := {| principal := who; principal_type := Human; role := "pact-ops-ml" |}.
Definition env_session : ShellSession :=
  {| ss_session_id := "3f2a-11"; ss_user := env_user "ann@hpc"; ss_node_id := "n1"; ss_vcluster_id := "ml";
     ss_started_at := 0%Z; ss_state := SInitializing; ss_commands_executed := 0; ss_rows := 24; ss_cols := 80;
     ss_term := "xterm" |}.
Definition env_files (p : string) : bool := bool_decide (p ∈ ["/bin/ls"; "/usr/bin/ls"; "/usr/bin/ps"]).

Example principal_cleaned :
  safe_principal (λ _, false) ("a$(reboot)" +:+ quote +:+ ";b@c") = "arebootb@c".
Proof. reflexivity. Qed.

Lemma prompt_command_injection_free_witness :
  active (prompt_command "3f2a-11" (safe_principal (λ _, false) "eve`id`>x")) = active (prompt_command "" "").
Proof. apply (prompt_command_injection_free (λ _, false) "3f2a-11" "eve`id`>x"). reflexivity. Defined.

Lemma session_path_exact_witness :
  let fs' := (setup_session_bin_dir (λ _, Ok tt) (λ _, false) (Some "/bin:/usr/bin") ["ls"; "ps"; "htop"] env_session
                {| lf_files := env_files; lf_links := ∅ |}).1 in
  lf_links fs' !! "/run/pact/shell/3f2a-11/bin/ls" = Some "/bin/ls".
Proof.
  apply (session_path_exact (λ _, Ok tt) (λ _, false) (Some "/bin:/usr/bin") ["ls"; "ps"; "htop"] env_session
           {| lf_files := env_files; lf_links := ∅ |}); [apply (bool_decide_unpack _); vm_compute; exact I| |reflexivity..|].
  - repeat constructor.
  - exists "ls". repeat split; try reflexivity. left.
Defined.

Definition env_kernel : PtyKernel :=
  {| pk_openpty := λ _ _, Ok (7%N, 8%N); pk_fds := {[0%N := Inherited; 1%N := Inherited; 2%N := Inherited]};
     pk_setsid := Ok tt; pk_dup2 := λ _, None; pk_spawn := Ok 4242%N |}.
Lemma shell_starts_confined_witness :
  let t := <[7%N := Inherited]> (pk_fds env_kernel) in
  ∀ name v, child_env (env_vars (λ _, false) env_session) !! name = Some v → (name, v) ∈ env_vars (λ _, false) env_session.
Proof.
  intros t.
  refine (proj1 (shell_starts_confined (λ _, false) env_kernel env_session {| ph_master_fd := 7; ph_child := 4242 |}
    {| cs_program := "/bin/rbash"; cs_env := child_env (env_vars (λ _, false) env_session);
       cs_fds := delete 8%N (<[2%N := Terminal]> (<[1%N := Terminal]> (<[0%N := Terminal]>
                   (stdio_null (<[8%N := Terminal]> t))))) |} 7 8 eq_refl eq_refl _)).
  intros fd. simpl. rewrite !lookup_insert_Some, lookup_singleton_Some. intuition discriminate.
Defined.
