(* ===== verification/JournalServer.v ===== *)
(** * The journal server

    What surrounds the services of the journal: the certificate authority
    (crates/pact-journal/src/ca.rs), the telemetry endpoints (telemetry.rs)
    and the start of the server with the services it registers (main.rs).
    The certificate library is an interface, the Raft node, the disks and the
    sockets are arguments. *)

From S2P Require Import Prelude Text Types JournalState JournalInvariants JournalProperties Raft.
From S2P Require Import EnrollmentService Whitelist Iam McpTools.
From stdpp Require Import options.
From Stdlib Require Import Ascii.

(** ** The certificate authority *)

(** The part of the certificate library the authority uses. *)
Class Rcgen := {
  Params : Type;
  KeyPair : Type;
  PublicKey : Type;
  Certificate : Type;
  default_params : Params;
  set_is_ca : Params → Params;
  push_common_name : string → Params → Params;
  key_from_pem : string → result KeyPair string;
  public_key : KeyPair → PublicKey;
  self_signed : Params → KeyPair → result Certificate string;
  signed_by : Params → PublicKey → Certificate → KeyPair → result Certificate string;
  csr_from_der : bytes → result (Params * PublicKey) string;
  cert_pem : Certificate → string;
}.

(** What the library documents of the certificates it signs: the subject and
    the key are those asked for, and the issuer's key verifies them. *)
Class RcgenLaws `(R : Rcgen) := {
  subject_of_params : Params → option string;
  subject : Certificate → option string;
  subject_key : Certificate → PublicKey;
  verifies : PublicKey → Certificate → Prop;
  subject_pushed cn p : subject_of_params (push_common_name cn p) = Some cn;
  signed_subject p k ca key c : signed_by p k ca key = Ok c → subject c = subject_of_params p;
  signed_key p k ca key c : signed_by p k ca key = Ok c → subject_key c = k;
  signed_verifies p k ca key c : signed_by p k ca key = Ok c → verifies (public_key key) c;
}.

Definition map_err {A E F} (f : E → F) (r : result A E) : result A F :=
  match r with Ok a => Ok a | Err e => Err (f e) end.

Section ca.
Context `{R : Rcgen}.

Record CaKeyManager := { ca_cert : Certificate; ca_key : KeyPair; ca_lifetime_seconds : N }.

(** [generated]: what [KeyPair::generate] gives. *)
Definition ca_generate (generated : result KeyPair string) (domain_id : string) (lifetime : N) : result CaKeyManager string :=
  let params := push_common_name ("pact-ca-" +:+ domain_id) (set_is_ca default_params) in
  let? key := map_err (λ e, "CA key generation failed: " +:+ e) generated in
  let? cert := map_err (λ e, "CA self-signing failed: " +:+ e) (self_signed params key) in
  Ok {| ca_cert := cert; ca_key := key; ca_lifetime_seconds := lifetime |}.

Definition ca_load (read : string → result string string) (ca_cert_path ca_key_path : string) (lifetime : N)
    : result CaKeyManager string :=
  let? ca_key_pem := map_err (λ e, "cannot read CA key " +:+ ca_key_path +:+ ": " +:+ e) (read ca_key_path) in
  let? _ := map_err (λ e, "cannot read CA cert " +:+ ca_cert_path +:+ ": " +:+ e) (read ca_cert_path) in
  let? key := map_err (λ e, "invalid CA key: " +:+ e) (key_from_pem ca_key_pem) in
  let params := push_common_name "pact-ca" (set_is_ca default_params) in
  let? cert := map_err (λ e, "failed to reconstruct CA cert: " +:+ e) (self_signed params key) in
  Ok {| ca_cert := cert; ca_key := key; ca_lifetime_seconds := lifetime |}.

Definition ca_cert_pem (ca : CaKeyManager) : string := cert_pem (ca_cert ca).

Definition node_common_name (node_id domain_id : string) : string := "pact-service-agent/" +:+ node_id +:+ "@" +:+ domain_id.

(** [serial], [now] and [generated] are the fresh identifier, the clock and
    the key pair made for a request without a CSR. *)
Definition sign_csr `{Chrono} (serial : string) (now : DateTime) (generated : result KeyPair string) (ca : CaKeyManager)
    (csr_der : bytes) (node_id domain_id : string) : result SignedCert string :=
  let? signed :=
    (if decide (csr_der = []) then
       let params := push_common_name (node_common_name node_id domain_id) default_params in
       let? node_key := map_err (λ e, "keypair generation failed: " +:+ e) generated in
       map_err (λ e, "certificate signing failed: " +:+ e) (signed_by params (public_key node_key) (ca_cert ca) (ca_key ca))
     else
       let? csr := map_err (λ e, "CSR parsing failed: " +:+ e) (csr_from_der csr_der) in
       let params := push_common_name (node_common_name node_id domain_id) csr.1 in
       map_err (λ e, "certificate signing failed: " +:+ e) (signed_by params csr.2 (ca_cert ca) (ca_key ca))) in
  Ok {| sc_cert_pem := cert_pem signed; sc_ca_chain_pem := cert_pem (ca_cert ca); sc_cert_serial := serial;
        sc_cert_expires_at := to_rfc3339 (now + seconds (Z.of_N (ca_lifetime_seconds ca)))%Z |}.

End ca.
Arguments CaKeyManager R : clear implicits.

(** ** Telemetry *)

Inductive ServerState := RaftLeader | RaftFollower | RaftCandidate | RaftLearner | RaftShutdown.
Record RaftMetrics := {
  rm_state : ServerState;
  rm_current_leader : option N;
  rm_current_term : N;
  rm_last_applied : option N;
}.
Record JournalMetrics := {
  jm_entries_total : Z;
  jm_boot_streams_active : Z;
  jm_overlay_builds_total : Z;
  jm_raft_leader : Z;
  jm_raft_term : Z;
  jm_raft_log_entries : Z;
  jm_raft_replication_lag : Z;
}.
(** Gauges start at zero. *)
Definition journal_metrics_new : JournalMetrics :=
  {| jm_entries_total := 0; jm_boot_streams_active := 0; jm_overlay_builds_total := 0; jm_raft_leader := 0;
     jm_raft_term := 0; jm_raft_log_entries := 0; jm_raft_replication_lag := 0 |}.

Definition i64_max : Z := 9223372036854775807.
(** [i64::try_from] of an unsigned value. *)
Definition i64_try_from (n : N) : option Z := if (Z.of_N n <=? i64_max)%Z then Some (Z.of_N n) else None.

Definition role_text (s : ServerState) : string :=
  match s with
  | RaftLeader => "leader" | RaftFollower => "follower" | RaftCandidate => "candidate" | RaftLearner => "learner"
  | RaftShutdown => "shutdown"
  end.
Definition health_handler (m : RaftMetrics) (journal : JournalState) : Json :=
  JObj [("status", JStr "healthy"); ("role", JStr (role_text (rm_state m)));
        ("entries", JInt (Z.of_nat (size (entries journal))))].

(** The gauges when a scrape is answered. *)
Definition metrics_handler (m : RaftMetrics) (journal : JournalState) (g : JournalMetrics) : JournalMetrics :=
  {| jm_entries_total := default i64_max (i64_try_from (N.of_nat (size (entries journal))));
     jm_boot_streams_active := jm_boot_streams_active g;
     jm_overlay_builds_total := jm_overlay_builds_total g;
     jm_raft_leader := match rm_current_leader m with Some l => default (-1)%Z (i64_try_from l) | None => -1 end;
     jm_raft_term := default 0%Z (i64_try_from (rm_current_term m));
     jm_raft_log_entries := match rm_last_applied m with
                            | Some i => default 0%Z (i64_try_from i)
                            | None => jm_raft_log_entries g
                            end;
     jm_raft_replication_lag := 0 |}.

Definition auth_discovery_handler (idp_url client_id : string) : Json :=
  JObj [("idp_url", JStr idp_url); ("client_id", JStr client_id); ("scopes", JArr [JStr "openid"; JStr "profile"])].

(** ** The start of the server *)

Record JournalArgs := {
  ja_node_id : N;
  ja_listen : string;
  ja_peers : list string;
  ja_data_dir : string;
  ja_snapshot_dir : option string;
  ja_metrics_listen : string;
  ja_bootstrap : bool;
}.

(** [parse_peers]; [None] is the panic. *)
Definition parse_peer (peer : string) : option (N * string) :=
  '(id_str, addr) ← split_once "="%char peer;
  id ← Str.parse_unsigned u64_max id_str;
  Some (id, addr).
Fixpoint parse_peers_into (peers : list string) (members : gmap N string) : option (gmap N string) :=
  match peers with
  | [] => Some members
  | p :: rest => '(id, addr) ← parse_peer p; parse_peers_into rest (<[id := addr]> members)
  end.
Definition parse_peers (peers : list string) : option (gmap N string) := parse_peers_into peers ∅.

Inductive GrpcService := SvcRaft | SvcConfig | SvcPolicy | SvcBootConfig | SvcEnrollment.

Inductive StartStep :=
| CreateDataDir (dir : string)
| OpenLogStore (dir : string)
| OpenStateMachine (snapshot_dir : string)
| RegisterPeer (id : N) (addr : string)
| StartRaft (id : N)
| InitializeCluster (members : gmap N string)
| ServeTelemetry (listen idp_url client_id : string)
| ServeGrpc (listen : string) (services : list (GrpcService * bool)).  (** with the interceptor or not *)

(** What the start meets: environment variables, and the outcomes of the
    steps that can fail. *)
Record JournalEnv := {
  je_var : string → option string;
  je_step : StartStep → result () string;
  je_bind : string → result () string;
  je_read : string → result string string;
}.

(** [String::into_bytes]. *)
Definition bytes_of_string (s : string) : bytes := N_of_ascii <$> String.list_ascii_of_string s.
Definition journal_oidc_config (env : JournalEnv) : OidcConfig :=
  {| oidc_issuer := default "https://auth.example.com" (je_var env "PACT_OIDC_ISSUER");
     oidc_audience := default "pact-journal" (je_var env "PACT_OIDC_AUDIENCE");
     oidc_hmac_secret := bytes_of_string <$> je_var env "PACT_OIDC_HMAC_SECRET" |}.
Definition journal_validator (env : JournalEnv) : JwksTokenValidator :=
  jwks_validator_new (journal_oidc_config env) (je_var env "PACT_OIDC_JWKS_URL").

(** The authority of the enrollment service, when it is enabled. *)
Definition enrollment_ca `{R : Rcgen} (env : JournalEnv) : option (CaKeyManager R) :=
  match je_var env "PACT_CA_CERT", je_var env "PACT_CA_KEY" with
  | Some cert, Some key => match ca_load (je_read env) cert key 259200 with Ok ca => Some ca | Err _ => None end
  | _, _ => None
  end.
Definition journal_services `{R : Rcgen} (env : JournalEnv) : list (GrpcService * bool) :=
  [(SvcRaft, false); (SvcConfig, true); (SvcPolicy, true); (SvcBootConfig, true)] ++
  match enrollment_ca env with Some _ => [(SvcEnrollment, false)] | None => [] end.

(** Steps in order: the first failure ends the start. *)
Fixpoint run_steps (env : JournalEnv) (steps : list StartStep) : list StartStep * result () string :=
  match steps with
  | [] => ([], Ok tt)
  | s :: rest =>
      match je_step env s with
      | Err e => ([s], Err e)
      | Ok _ => let '(done, r) := run_steps env rest in (s :: done, r)
      end
  end.

Definition raft_steps (args : JournalArgs) (members : gmap N string) : list StartStep :=
  [CreateDataDir (ja_data_dir args); OpenLogStore (ja_data_dir args);
   OpenStateMachine (default (path_join (ja_data_dir args) "snapshots") (ja_snapshot_dir args))] ++
  ((λ '(id, addr), RegisterPeer id addr) <$> btree_iter members) ++
  [StartRaft (ja_node_id args)] ++
  (if ja_bootstrap args then [InitializeCluster members] else []).

(** The journal's [main]: the steps taken and how it ends ([None]: it
    panics). [Ok] is a server that ran until its socket was closed. *)
Definition journal_main `{R : Rcgen} (args : JournalArgs) (env : JournalEnv) : list StartStep * option (result () string) :=
  match parse_peers (ja_peers args) with
  | None => ([], None)
  | Some members =>
      match run_steps env (raft_steps args members) with
      | (done, Err e) => (done, Some (Err e))
      | (done, Ok _) =>
          match je_bind env (ja_metrics_listen args) with
          | Err e => (done, Some (Err e))
          | Ok _ =>
              let telemetry := ServeTelemetry (ja_metrics_listen args) (default "" (je_var env "PACT_IDP_URL"))
                                 (default "pact-cli" (je_var env "PACT_CLIENT_ID")) in
              match je_bind env (ja_listen args) with
              | Err e => (done ++ [telemetry], Some (Err e))
              | Ok _ =>
                  let serve := ServeGrpc (ja_listen args) (journal_services env) in
                  (done ++ [telemetry; serve], Some (je_step env serve))
              end
          end
      end
  end.

(** ** Properties *)

Section ca_theorems.
Context `{R : Rcgen} {L : RcgenLaws R} `{Chrono}.

(** A certificate the authority made for a node: it names the node, its
    authority's key verifies it, and it holds the key of the request. *)
Definition issued_for (ca : CaKeyManager R) (csr : bytes) (node domain pem : string) : Prop :=
  ∃ c, pem = cert_pem c ∧ subject c = Some (node_common_name node domain) ∧ verifies (public_key (ca_key ca)) c ∧
    (csr ≠ [] → ∃ p, csr_from_der csr = Ok (p, subject_key c)).

Lemma sign_csr_issues serial now generated ca csr node domain r :
  sign_csr serial now generated ca csr node domain = Ok r →
  issued_for ca csr node domain (sc_cert_pem r) ∧ sc_ca_chain_pem r = ca_cert_pem ca ∧ sc_cert_serial r = serial.
Proof.
  unfold sign_csr. intros Hr.
  destruct (if decide _ then _ else _) as [c|] eqn:E; simpl in Hr; [|done]. injection Hr as <-. simpl.
  split; [|done]. exists c. case_decide as Hcsr.
  - destruct generated as [key|]; simpl in E; [|done]. destruct (signed_by _ _ _ _) as [c'|] eqn:Es; simplify_eq/=.
    rewrite (signed_subject _ _ _ _ _ Es), subject_pushed. repeat split; [by eapply signed_verifies|done].
  - destruct (csr_from_der csr) as [[p k]|] eqn:Ec; simpl in E; [|done].
    destruct (signed_by _ _ _ _) as [c'|] eqn:Es; simplify_eq/=.
    rewrite (signed_subject _ _ _ _ _ Es), subject_pushed. repeat split; [by eapply signed_verifies|].
    intros _. exists p. by rewrite (signed_key _ _ _ _ _ Es).
Qed.

(** C36: the certificate an agent gets when it enrolls is one the journal's
    authority signed over the public key of the agent's own request, under
    the name of the node its hardware is registered as: the one the journal's
    index has for the hardware of the request when the request is looked at,
    whatever name the request asked for. *)
Theorem enrolled_certificate_names_node serial now generated ca domain_id ctx admitted req h s s' r tr :
  hw_wf s → runs_in h s (enroll (sign_csr serial now generated ca) domain_id ctx admitted req) s' (Ok r) tr →
  ∃ hw log h', eq_hardware_identity req = Some hw ∧ h = others log ++ h' ∧
    hw_index (apply_log log s) !! hw_canonical_key (proto_hw_to_domain hw) = Some (es_node_id r) ∧
    es_domain_id r = domain_id ∧ issued_for ca (eq_csr req) (es_node_id r) domain_id (es_signed_cert r) ∧
    es_ca_chain r = ca_cert_pem ca.
Proof.
  intros Hwf Hr.
  destruct (enroll_shape _ _ _ _ _ _ _ _ _ _ Hwf Hr)
    as [(? & _)|(hw & node & log & log1 & t & expires & e & h2 & tr2 & _ & Hhw & Hix & -> & _ & _ & _ & _ & _ & Hs)]; [done|].
  destruct (enroll_sign_shape _ _ _ _ _ _ _ _ _ _ _ Hs) as (log2 & h3 & -> & _ & Hres).
  destruct (sign_csr serial now generated ca (eq_csr req) node domain_id) as [sc|] eqn:E; [|by destruct Hres].
  destruct Hres as ([= ->] & _). apply sign_csr_issues in E as (Hi & Hc & _).
  eexists hw, log, _. split; [done|]. split; [unfold others; by rewrite fmap_app, <- app_assoc|]. by split_and!.
Qed.

(** the certificate does not depend on the lifetime the authority is
    configured with, nor on the serial number and the expiry the journal
    records for it: those never reach the signature. *)
Theorem certificate_ignores_lifetime serial1 serial2 now1 now2 generated (ca : CaKeyManager R) lifetime csr node domain :
  match sign_csr serial1 now1 generated ca csr node domain,
        sign_csr serial2 now2 generated {| ca_cert := ca_cert ca; ca_key := ca_key ca; ca_lifetime_seconds := lifetime |}
          csr node domain with
  | Ok r1, Ok r2 => sc_cert_pem r1 = sc_cert_pem r2 ∧ sc_cert_serial r1 = serial1 ∧ sc_cert_serial r2 = serial2
  | Err e1, Err e2 => e1 = e2
  | _, _ => False
  end.
Proof. unfold sign_csr. simpl. by destruct (if decide _ then _ else _). Qed.

(** the authority loaded from disk is the same whatever the certificate
    file holds, as long as it can be read: the certificate agents are told to
    trust is made anew from the key. *)
Theorem loaded_ca_ignores_certificate read1 read2 cert_path key_path lifetime :
  read1 key_path = read2 key_path → (∃ t, read1 cert_path = Ok t) → (∃ t, read2 cert_path = Ok t) →
  ca_load read1 cert_path key_path lifetime = ca_load read2 cert_path key_path lifetime.
Proof. intros Hk [t1 H1] [t2 H2]. unfold ca_load. by rewrite Hk, H1, H2. Qed.

End ca_theorems.

Definition peer_text (p : N * string) : string := pretty p.1 +:+ String "=" p.2.

Lemma parse_peer_text id addr : (id ≤ u64_max)%N → parse_peer (peer_text (id, addr)) = Some (id, addr).
Proof.
  intros Hid. unfold parse_peer, peer_text. simpl. rewrite split_once_found by (by apply pretty_char_free). simpl.
  by rewrite parse_unsigned_pretty.
Qed.

Lemma parse_peers_into_texts l members :
  Forall (λ p, (p.1 ≤ u64_max)%N) l →
  parse_peers_into (peer_text <$> l) members = Some (foldl (λ m p, <[p.1 := p.2]> m) members l).
Proof.
  intros Hl. revert members. induction Hl as [|[id addr] l Hid Hl IH]; intros members; [done|].
  rewrite fmap_cons. cbn [parse_peers_into]. rewrite parse_peer_text by done. simpl. apply IH.
Qed.

Lemma foldl_insert_lookup (l : list (N * string)) (members : gmap N string) id :
  id ∉ l.*1 → foldl (λ m p, <[p.1 := p.2]> m) members l !! id = members !! id.
Proof.
  revert members. induction l as [|[k a] l IH]; intros members Hid; simpl; [done|].
  rewrite fmap_cons, not_elem_of_cons in Hid. destruct Hid as [Hne Hid]. rewrite IH by done. by rewrite lookup_insert_ne.
Qed.

(** a list of peers written as id=address is read back as the map from
    the ids to the addresses, also when an address has an equals sign; of two
    addresses given for one id the later counts. *)
Theorem parse_peers_roundtrip (l1 l2 : list (N * string)) id addr :
  Forall (λ p, (p.1 ≤ u64_max)%N) (l1 ++ (id, addr) :: l2) → id ∉ l2.*1 →
  ∃ members, parse_peers (peer_text <$> l1 ++ (id, addr) :: l2) = Some members ∧ members !! id = Some addr ∧
    ∀ k, is_Some (members !! k) → k ∈ (l1 ++ (id, addr) :: l2).*1.
Proof.
  intros Hl Hid. unfold parse_peers. rewrite (parse_peers_into_texts _ _ Hl). eexists. split; [done|]. split.
  - rewrite foldl_app. simpl. rewrite foldl_insert_lookup by done. by rewrite lookup_insert_eq.
  - intros k [a Ha]. destruct (decide (k ∈ (l1 ++ (id, addr) :: l2).*1)) as [|Hk]; [done|].
    rewrite foldl_insert_lookup in Ha by done. by rewrite lookup_empty in Ha.
Qed.

(** after any scrapes, a scrape reports the number of entries and the
    Raft position of that moment, within 64 bits: a count too large is capped,
    a leader too large or absent is -1; the gauges of boot streams and overlay
    builds and the replication lag are still zero. *)
Theorem scrape_reports (before : list (RaftMetrics * JournalState)) m journal :
  let g := metrics_handler m journal (foldl (λ g '(m, j), metrics_handler m j g) journal_metrics_new before) in
  jm_entries_total g = Z.min (Z.of_nat (size (entries journal))) i64_max ∧
  (-1 ≤ jm_raft_leader g ≤ i64_max)%Z ∧ (jm_raft_leader g = -1 ↔ ∀ l, rm_current_leader m = Some l → i64_max < Z.of_N l)%Z ∧
  (∀ i, rm_last_applied m = Some i → (Z.of_N i ≤ i64_max)%Z → jm_raft_log_entries g = Z.of_N i) ∧
  jm_boot_streams_active g = 0%Z ∧ jm_overlay_builds_total g = 0%Z ∧ jm_raft_replication_lag g = 0%Z.
Proof.
  assert (jm_boot_streams_active (foldl (λ g '(m, j), metrics_handler m j g) journal_metrics_new before) = 0%Z ∧
          jm_overlay_builds_total (foldl (λ g '(m, j), metrics_handler m j g) journal_metrics_new before) = 0%Z) as [Hb Ho].
  { induction before as [|[m' j'] before IH] using rev_ind; [done|]. by rewrite foldl_app. }
  set (g0 := foldl _ _ before) in *. simpl. rewrite Hb, Ho.
  repeat split; unfold i64_try_from.
  - destruct (Z.leb_spec (Z.of_N (N.of_nat (size (entries journal)))) i64_max); simpl; lia.
  - destruct (rm_current_leader m) as [l|]; [destruct (Z.leb_spec (Z.of_N l) i64_max); simpl; lia|lia].
  - unfold i64_max in *. destruct (rm_current_leader m) as [l|]; [|lia]. destruct (Z.leb_spec (Z.of_N l) 9223372036854775807); simpl; lia.
  - destruct (rm_current_leader m) as [l|]; [|done]. destruct (Z.leb_spec (Z.of_N l) i64_max); simpl; [lia|].
    intros _ l' [= <-]. lia.
  - destruct (rm_current_leader m) as [l|]; [|done]. intros Hl. specialize (Hl l eq_refl).
    by rewrite (proj2 (Z.leb_gt _ _) Hl).
  - intros i -> Hi. by rewrite (proj2 (Z.leb_le _ _) Hi).
Qed.

Lemma run_steps_ok env steps done r : run_steps env steps = (done, Ok r) → done = steps ∧ Forall (λ s, je_step env s = Ok tt) steps.
Proof.
  revert done. induction steps as [|s steps IH]; intros done; simpl; [intros [= <- _]; by split|].
  destruct (je_step env s) as [[]|] eqn:Es; [|done]. destruct (run_steps env steps) as [d x].
  intros [= <- ->]. destruct (IH d eq_refl) as [-> Hall]. split; [done|by constructor].
Qed.
Lemma run_steps_prefix env steps : (run_steps env steps).1 `prefix_of` steps.
Proof.
  induction steps as [|s steps IH]; simpl; [done|]. destruct (je_step env s); simpl.
  - destruct (run_steps env steps) as [d x]. by apply prefix_cons.
  - by exists steps.
Qed.

Lemma elem_of_raft_steps args members x :
  x ∈ raft_steps args members ↔
    x = CreateDataDir (ja_data_dir args) ∨ x = OpenLogStore (ja_data_dir args) ∨
    x = OpenStateMachine (default (path_join (ja_data_dir args) "snapshots") (ja_snapshot_dir args)) ∨
    (∃ id addr, members !! id = Some addr ∧ x = RegisterPeer id addr) ∨ x = StartRaft (ja_node_id args) ∨
    (ja_bootstrap args = true ∧ x = InitializeCluster members).
Proof.
  assert (x ∈ ((λ '(id, addr), RegisterPeer id addr) <$> btree_iter members) ↔
          ∃ id addr, members !! id = Some addr ∧ x = RegisterPeer id addr) as Hreg.
  { rewrite list_elem_of_fmap. split.
    - intros ([id addr] & -> & Hin%elem_of_btree_iter). eauto.
    - intros (id & addr & Hl & ->). exists (id, addr). by rewrite elem_of_btree_iter. }
  unfold raft_steps. rewrite !elem_of_app, !elem_of_cons, elem_of_nil, Hreg.
  destruct (ja_bootstrap args); rewrite ?elem_of_cons, ?elem_of_nil; naive_solver.
Qed.

Lemma journal_services_open `{R : Rcgen} env svc :
  (svc, false) ∈ journal_services env ↔ svc = SvcRaft ∨ (svc = SvcEnrollment ∧ is_Some (enrollment_ca env)).
Proof.
  unfold journal_services. rewrite elem_of_app, !elem_of_cons, elem_of_nil.
  destruct (enrollment_ca env); [rewrite list_elem_of_singleton|rewrite elem_of_nil]; rewrite ?is_Some_alt; naive_solver.
Qed.

(** a journal that comes up has opened its log and its snapshots and made
    every peer's address known before the Raft node started; the cluster is
    initialised only when asked for; every request to the configuration, policy
    and boot services passes the interceptor, and only the Raft transport and,
    when an authority could be loaded, the enrollment service are open without
    it. A start that fails stops at its first failing step. *)
Theorem journal_start `{R : Rcgen} args env steps r :
  journal_main args env = (steps, Some r) →
  ∃ members, parse_peers (ja_peers args) = Some members ∧
    steps `prefix_of` raft_steps args members ++
      [ServeTelemetry (ja_metrics_listen args) (default "" (je_var env "PACT_IDP_URL"))
         (default "pact-cli" (je_var env "PACT_CLIENT_ID"));
       ServeGrpc (ja_listen args) (journal_services env)] ∧
    (∀ m, InitializeCluster m ∈ steps → ja_bootstrap args = true ∧ m = members) ∧
    (∀ listen svcs svc, ServeGrpc listen svcs ∈ steps → (svc, false) ∈ svcs →
       svc = SvcRaft ∨ (svc = SvcEnrollment ∧ is_Some (enrollment_ca env))) ∧
    (r = Ok tt → ∀ id addr, members !! id = Some addr → RegisterPeer id addr ∈ steps).
Proof.
  unfold journal_main. destruct (parse_peers (ja_peers args)) as [members|]; [|done]. intros Hm. exists members. split; [done|].
  set (tail := [ServeTelemetry _ _ _; ServeGrpc _ _]).
  assert (steps `prefix_of` raft_steps args members ++ tail ∧ (r = Ok tt → raft_steps args members `prefix_of` steps)) as [Hp Hok].
  { remember (raft_steps args members) as rs eqn:Hrs. clear Hrs. destruct (run_steps env rs) as [done [u|e]] eqn:E.
    2: { injection Hm as <- <-. split; [|done]. apply prefix_app_r. pose proof (run_steps_prefix env rs) as Hp.
         by rewrite E in Hp. }
    apply run_steps_ok in E as [-> _].
    destruct (je_bind env (ja_metrics_listen args)); [|injection Hm as <- <-; split; [by apply prefix_app_r|done]].
    destruct (je_bind env (ja_listen args)); injection Hm as <- <-.
    - split; [done|]. intros _. by apply prefix_app_r.
    - split; [|done]. apply prefix_app. by exists [ServeGrpc (ja_listen args) (journal_services env)]. }
  assert (∀ x, x ∈ steps → x ∈ raft_steps args members ∨ x ∈ tail) as Hin.
  { intros x Hx. rewrite <- elem_of_app. by eapply elem_of_prefix. }
  split; [done|]. assert (∀ x, x ∈ tail → (∃ l i c, x = ServeTelemetry l i c) ∨ x = ServeGrpc (ja_listen args) (journal_services env)) as Htail.
  { unfold tail. intros x. rewrite !elem_of_cons, elem_of_nil. naive_solver. }
  split; [|split].
  - intros m Hs. destruct (Hin _ Hs) as [Hx%elem_of_raft_steps|Hx%Htail]; naive_solver.
  - intros listen svcs svc Hs Hopen. apply (journal_services_open env).
    destruct (Hin _ Hs) as [Hx%elem_of_raft_steps|Hx%Htail]; naive_solver.
  - intros Hr id addr Hl. eapply elem_of_prefix; [|by apply Hok]. apply elem_of_raft_steps. naive_solver.
Qed.

(** ** Witnesses *)

Module CaSample.
Export EnrollSample.
(** Certificates as the name, the key and the key that signed them. *)
Record DemoCert := { dc_name : option string; dc_key : N; dc_signer : N }.
#[export] Instance rcgen : Rcgen :=
  {| Params := option string; KeyPair := N; PublicKey := N; Certificate := DemoCert; default_params := None;
     set_is_ca p := p; push_common_name cn _ := Some cn;
     key_from_pem t := if decide (t = "KEY") then Ok 7%N else Err "not a key"; public_key k := k;
     self_signed p k := Ok {| dc_name := p; dc_key := k; dc_signer := k |};
     signed_by p k _ key := Ok {| dc_name := p; dc_key := k; dc_signer := key |};
     csr_from_der b := match b with [k] => Ok (Some "whoever", k) | _ => Err "bad DER" end;
     cert_pem c := default "" (dc_name c) +:+ " key " +:+ pretty (dc_key c) +:+ " by " +:+ pretty (dc_signer c) |}.
#[export] Instance rcgen_laws : RcgenLaws rcgen.
Proof.
  refine {| subject_of_params p := p; subject c := dc_name c; subject_key c := dc_key c; verifies k c := dc_signer c = k |};
    simpl; intros; simplify_eq; reflexivity.
Defined.
Definition files (p : string) : result string string :=
  if decide (p = "/ca.key") then Ok "KEY" else if decide (p = "/ca.pem") then Ok "any" else Err "no such file".
Definition ca : CaKeyManager rcgen :=
  {| ca_cert := {| dc_name := Some "pact-ca"; dc_key := 7; dc_signer := 7 |}; ca_key := 7%N; ca_lifetime_seconds := 259200 |}.
Definition request : EnrollRequest := {| eq_hardware_identity := eq_hardware_identity enroll_request; eq_csr := [99%N] |}.
Definition signer := sign_csr "5-a" 10%Z (Err "no entropy") ca.
Definition outcome := run 1 (enroll signer "site" ctx true request) registered.1.
Definition answer : EnrollResponse :=
  match outcome.2 with Ok r => r | Err _ => enroll_answer end.
Definition args : JournalArgs :=
  {| ja_node_id := 1; ja_listen := "0.0.0.0:9443"; ja_peers := ["1=j1:9443"; "2=j2:9443"]; ja_data_dir := "/var/lib/pact";
     ja_snapshot_dir := None; ja_metrics_listen := "0.0.0.0:9091"; ja_bootstrap := true |}.
Definition env : JournalEnv :=
  {| je_var v := if decide (v = "PACT_CA_CERT") then Some "/ca.pem" else if decide (v = "PACT_CA_KEY") then Some "/ca.key" else None;
     je_step _ := Ok tt; je_bind _ := Ok tt; je_read := files |}.
End CaSample.
Import CaSample.

Lemma enrolled_certificate_names_node_witness :
  es_node_id CaSample.answer = "n1" ∧
  issued_for CaSample.ca [99%N] "n1" "site" (es_signed_cert CaSample.answer).
Proof.
  assert (Hn : es_node_id CaSample.answer = "n1") by (vm_compute; reflexivity). split; [exact Hn|].
  destruct (run_runs 1 (enroll CaSample.signer "site" EnrollSample.ctx true CaSample.request) EnrollSample.registered.1) as [tr [h Htr]].
  assert (Ho : CaSample.outcome.2 = Ok CaSample.answer) by (vm_compute; reflexivity).
  unfold CaSample.outcome in Ho. rewrite Ho in Htr.
  destruct (enrolled_certificate_names_node "5-a" 10%Z (Err "no entropy") CaSample.ca "site" EnrollSample.ctx true
    CaSample.request _ _ _ _ _ EnrollSample.registered_hw Htr) as (hw & log & h' & _ & _ & _ & _ & Hi & _). rewrite Hn in Hi. exact Hi.
Defined.

Lemma loaded_ca_ignores_certificate_witness :
  ca_load CaSample.files "/ca.pem" "/ca.key" 60 = ca_load (λ p, if decide (p = "/ca.key") then Ok "KEY" else Ok "other") "/ca.pem" "/ca.key" 60.
Proof. apply (loaded_ca_ignores_certificate CaSample.files); [reflexivity|eexists; reflexivity..]. Defined.

Lemma parse_peers_roundtrip_witness :
  ∃ members, parse_peers ["1=j1:9443"; "2=j2=x"; "1=j3"] = Some members ∧ members !! 1%N = Some "j3".
Proof.
  destruct (parse_peers_roundtrip [(1%N, "j1:9443"); (2%N, "j2=x")] [] 1%N "j3") as (m & Hm & Hl & _).
  - apply (bool_decide_unpack _). vm_compute. exact I.
  - apply (bool_decide_unpack _). vm_compute. exact I.
  - exists m. split; [exact Hm|exact Hl].
Defined.

Lemma journal_start_witness :
  RegisterPeer 2 "j2:9443" ∈ (journal_main CaSample.args CaSample.env).1.
Proof.
  destruct (journal_start CaSample.args CaSample.env (journal_main CaSample.args CaSample.env).1 (Ok tt)) as (m & Hm & _ & _ & _ & Hr).
  - vm_compute. reflexivity.
  - apply Hr; [reflexivity|]. vm_compute in Hm. injection Hm as <-. vm_compute. reflexivity.
Defined.
