(* ===== verification/Config.v ===== *)
(** * Configuration files

    crates/pact-common/src/config.rs: the sections of the TOML file an agent
    or a journal is started with, and what the derived deserialisers make of
    them: required fields, defaults, sections that may be absent, unknown keys
    ignored. Reading TOML text into a value is the library's. *)

From S2P Require Import Prelude Float64 Types CommitWindow Drift AgentStart.
From stdpp Require Import options.

(** ** Values and decoders *)

#[warnings="-register-all"]
Inductive Toml :=
| TStr (s : string) | TInt (n : Z) | TFloat (x : f64) | TBool (b : bool) | TArr (l : list Toml)
| TTable (fields : list (string * Toml)).

(** Why a value is refused; of several reasons the library reports one. *)
Inductive ConfigError :=
| MissingField (k : string)
| InvalidType (expected : string)
| OutOfRange (n : Z)
| UnknownVariant (v : string).

Abbreviation decoder A := (Toml → result A ConfigError).
Abbreviation fields := (list (string * Toml)).

Fixpoint toml_field (k : string) (fs : fields) : option Toml :=
  match fs with
  | [] => None
  | (k', v) :: rest => if decide (k = k') then Some v else toml_field k rest
  end.

Definition required {A} (dec : decoder A) (k : string) (fs : fields) : result A ConfigError :=
  match toml_field k fs with Some v => dec v | None => Err (MissingField k) end.
(** [serde(default)]. *)
Definition defaulted {A} (dec : decoder A) (d : A) (k : string) (fs : fields) : result A ConfigError :=
  match toml_field k fs with Some v => dec v | None => Ok d end.
(** A field of an [Option] type. *)
Definition optional {A} (dec : decoder A) (k : string) (fs : fields) : result (option A) ConfigError :=
  match toml_field k fs with Some v => let? x := dec v in Ok (Some x) | None => Ok None end.

Definition to_string : decoder string := λ v, match v with TStr s => Ok s | _ => Err (InvalidType "string") end.
Definition to_bool : decoder bool := λ v, match v with TBool b => Ok b | _ => Err (InvalidType "boolean") end.
Definition to_unsigned (max : N) : decoder N := λ v,
  match v with
  | TInt n => if ((0 <=? n) && (n <=? Z.of_N max))%Z then Ok (Z.to_N n) else Err (OutOfRange n)
  | _ => Err (InvalidType "integer")
  end.
Definition to_f64 : decoder f64 := λ v,
  match v with TFloat x => Ok x | TInt n => Ok (F64.of_Z n) | _ => Err (InvalidType "float") end.
Fixpoint to_strings_of (l : list Toml) : result (list string) ConfigError :=
  match l with
  | [] => Ok []
  | v :: rest => let? s := to_string v in let? ss := to_strings_of rest in Ok (s :: ss)
  end.
Definition to_strings : decoder (list string) := λ v, match v with TArr l => to_strings_of l | _ => Err (InvalidType "array") end.
Definition table {A} (of_fields : fields → result A ConfigError) : decoder A := λ v,
  match v with TTable fs => of_fields fs | _ => Err (InvalidType "table") end.
Definition u32 : decoder N := to_unsigned u32_max.
(** A TOML integer has 64 bits and a sign. *)
Definition u64 : decoder N := to_unsigned 9223372036854775807.

(** ** The agent's sections *)

(** The variants as the derived deserialiser spells them. *)
Definition supervisor_backend_of : decoder SupervisorBackend := λ v,
  let? s := to_string v in
  if decide (s = "Pact") then Ok Pact else if decide (s = "Systemd") then Ok Systemd else Err (UnknownVariant s).
Definition supervisor_of (fs : fields) : result SupervisorBackend ConfigError := defaulted supervisor_backend_of Pact "backend" fs.

Definition journal_connection_of (fs : fields) : result JournalConnectionConfig ConfigError :=
  let? endpoints := required to_strings "endpoints" fs in
  let? tls_enabled := defaulted to_bool false "tls_enabled" fs in
  let? cert := optional to_string "tls_cert" fs in
  let? key := optional to_string "tls_key" fs in
  let? ca := optional to_string "tls_ca" fs in
  Ok {| jn_endpoints := endpoints; jn_tls_enabled := tls_enabled; jn_tls_cert := cert; jn_tls_key := key; jn_tls_ca := ca |}.

Record ObserverConfig := { ob_ebpf_enabled : bool; ob_inotify_enabled : bool; ob_netlink_enabled : bool }.
Definition observer_config_default : ObserverConfig :=
  {| ob_ebpf_enabled := false; ob_inotify_enabled := true; ob_netlink_enabled := true |}.
Definition observer_of (fs : fields) : result ObserverConfig ConfigError :=
  let? ebpf := defaulted to_bool false "ebpf_enabled" fs in
  let? inotify := defaulted to_bool true "inotify_enabled" fs in
  let? netlink := defaulted to_bool true "netlink_enabled" fs in
  Ok {| ob_ebpf_enabled := ebpf; ob_inotify_enabled := inotify; ob_netlink_enabled := netlink |}.

Record AuthAgentConfig := { au_issuer : string; au_audience : string; au_hmac_secret : option string; au_jwks_url : option string }.
Definition auth_of (fs : fields) : result AuthAgentConfig ConfigError :=
  let? issuer := required to_string "issuer" fs in
  let? audience := required to_string "audience" fs in
  let? secret := optional to_string "hmac_secret" fs in
  let? url := optional to_string "jwks_url" fs in
  Ok {| au_issuer := issuer; au_audience := audience; au_hmac_secret := secret; au_jwks_url := url |}.

Record ShellConfig := { sl_enabled : bool; sl_listen : string; sl_whitelist_mode : string; sl_auth : option AuthAgentConfig }.
Definition shell_config_default : ShellConfig :=
  {| sl_enabled := true; sl_listen := "0.0.0.0:9445"; sl_whitelist_mode := "learning"; sl_auth := None |}.
Definition shell_of (fs : fields) : result ShellConfig ConfigError :=
  let? enabled := defaulted to_bool true "enabled" fs in
  let? listen := defaulted to_string "0.0.0.0:9445" "listen" fs in
  let? mode := defaulted to_string "learning" "whitelist_mode" fs in
  let? auth := optional (table auth_of) "auth" fs in
  Ok {| sl_enabled := enabled; sl_listen := listen; sl_whitelist_mode := mode; sl_auth := auth |}.

Definition commit_window_of (fs : fields) : result CommitWindowConfig ConfigError :=
  let? base := defaulted u32 900%N "base_window_seconds" fs in
  let? sensitivity := defaulted to_f64 (F64.of_Z 2) "drift_sensitivity" fs in
  let? emergency := defaulted u32 14400%N "emergency_window_seconds" fs in
  Ok {| cw_base_window_seconds := base; cw_drift_sensitivity := sensitivity; cw_emergency_window_seconds := emergency |}.

Definition blacklist_of (fs : fields) : result (list string) ConfigError :=
  defaulted to_strings default_blacklist_patterns "patterns" fs.

Record CapabilityConfig := { cp_manifest_path : string; cp_socket_path : string; cp_gpu_poll_interval_seconds : N }.
Definition capability_of (fs : fields) : result CapabilityConfig ConfigError :=
  let? manifest := required to_string "manifest_path" fs in
  let? socket := required to_string "socket_path" fs in
  let? poll := defaulted u32 30%N "gpu_poll_interval_seconds" fs in
  Ok {| cp_manifest_path := manifest; cp_socket_path := socket; cp_gpu_poll_interval_seconds := poll |}.

Definition enrollment_of (fs : fields) : result EnrollmentConfig ConfigError :=
  let? endpoints := required to_strings "journal_endpoints" fs in
  let? ca := required to_string "ca_cert" fs in
  let? dir := defaulted to_string "/var/lib/pact/certs" "cert_dir" fs in
  let? renewal := defaulted u32 43200%N "renewal_before_expiry_seconds" fs in
  Ok {| ec_journal_endpoints := endpoints; ec_ca_cert := ca; ec_cert_dir := dir; ec_renewal_before_expiry_seconds := renewal |}.

(** [AgentConfig]: what boot reads, and the rest. *)
Record FullAgentConfig := {
  fa_boot : AgentConfig;
  fa_observer : ObserverConfig;
  fa_shell : ShellConfig;
  fa_capability : option CapabilityConfig;
}.
Definition agent_of (fs : fields) : result FullAgentConfig ConfigError :=
  let? node_id := required to_string "node_id" fs in
  let? vcluster := optional to_string "vcluster" fs in
  let? mode := defaulted to_string "observe" "enforcement_mode" fs in
  let? backend := defaulted (table supervisor_of) Pact "supervisor" fs in
  let? journal := required (table journal_connection_of) "journal" fs in
  let? observer := defaulted (table observer_of) observer_config_default "observer" fs in
  let? shell := defaulted (table shell_of) shell_config_default "shell" fs in
  let? window := defaulted (table commit_window_of) commit_window_config_default "commit_window" fs in
  let? blacklist := defaulted (table blacklist_of) default_blacklist_patterns "blacklist" fs in
  let? capability := optional (table capability_of) "capability" fs in
  let? enrollment := optional (table enrollment_of) "enrollment" fs in
  Ok {| fa_boot := {| ag_node_id := node_id; ag_vcluster := vcluster; ag_enforcement_mode := mode; ag_backend := backend;
                      ag_journal := journal; ag_commit_window := window; ag_blacklist := blacklist;
                      ag_enrollment := enrollment |};
        fa_observer := observer; fa_shell := shell; fa_capability := capability |}.

(** ** The other sections *)

Record EnrollmentJournalConfig := {
  ej_ca_cert : string;
  ej_ca_key : string;
  ej_cert_lifetime_seconds : N;
  ej_rate_limit_per_minute : N;
  ej_heartbeat_timeout_seconds : N;
}.
Definition enrollment_journal_of (fs : fields) : result EnrollmentJournalConfig ConfigError :=
  let? cert := required to_string "ca_cert" fs in
  let? key := required to_string "ca_key" fs in
  let? lifetime := defaulted u32 259200%N "cert_lifetime_seconds" fs in
  let? rate := defaulted u32 100%N "rate_limit_per_minute" fs in
  let? heartbeat := defaulted u32 300%N "heartbeat_timeout_seconds" fs in
  Ok {| ej_ca_cert := cert; ej_ca_key := key; ej_cert_lifetime_seconds := lifetime; ej_rate_limit_per_minute := rate;
        ej_heartbeat_timeout_seconds := heartbeat |}.

Record RaftConfig := { rf_members : list string; rf_snapshot_interval : N }.
Definition raft_of (fs : fields) : result RaftConfig ConfigError :=
  let? members := required to_strings "members" fs in
  let? interval := defaulted u64 10000%N "snapshot_interval" fs in
  Ok {| rf_members := members; rf_snapshot_interval := interval |}.
(** [StreamingConfig] is its one field. *)
Definition streaming_of (fs : fields) : result N ConfigError := defaulted u32 15000%N "max_concurrent_boot_streams" fs.

Record JournalConfig := {
  jo_listen_addr : string;
  jo_data_dir : string;
  jo_raft : option RaftConfig;
  jo_streaming : option N;
  jo_enrollment : option EnrollmentJournalConfig;
}.
Definition journal_of (fs : fields) : result JournalConfig ConfigError :=
  let? listen := defaulted to_string "0.0.0.0:9443" "listen_addr" fs in
  let? dir := required to_string "data_dir" fs in
  let? raft := optional (table raft_of) "raft" fs in
  let? streaming := optional (table streaming_of) "streaming" fs in
  let? enrollment := optional (table enrollment_journal_of) "enrollment" fs in
  Ok {| jo_listen_addr := listen; jo_data_dir := dir; jo_raft := raft; jo_streaming := streaming; jo_enrollment := enrollment |}.

Record IamConfig := { ia_oidc_issuer : string; ia_oidc_audience : string }.
Definition iam_of (fs : fields) : result IamConfig ConfigError :=
  let? issuer := required to_string "oidc_issuer" fs in
  let? audience := required to_string "oidc_audience" fs in
  Ok {| ia_oidc_issuer := issuer; ia_oidc_audience := audience |}.
Record PolicyEngineConfig := { en_engine_type : string; en_opa_endpoint : option string }.
Definition engine_of (fs : fields) : result PolicyEngineConfig ConfigError :=
  let? ty := required to_string "type" fs in
  let? opa := optional to_string "opa_endpoint" fs in
  Ok {| en_engine_type := ty; en_opa_endpoint := opa |}.
Record FederationConfig := { fd_sovra_endpoint : string; fd_sync_interval_seconds : N }.
Definition federation_of (fs : fields) : result FederationConfig ConfigError :=
  let? endpoint := required to_string "sovra_endpoint" fs in
  let? interval := defaulted u32 300%N "sync_interval_seconds" fs in
  Ok {| fd_sovra_endpoint := endpoint; fd_sync_interval_seconds := interval |}.

Record PolicyConfig := {
  po_enabled : bool;
  po_iam : option IamConfig;
  po_engine : option PolicyEngineConfig;
  po_federation : option FederationConfig;
}.
Definition policy_of (fs : fields) : result PolicyConfig ConfigError :=
  let? enabled := defaulted to_bool false "enabled" fs in
  let? iam := optional (table iam_of) "iam" fs in
  let? engine := optional (table engine_of) "engine" fs in
  let? federation := optional (table federation_of) "federation" fs in
  Ok {| po_enabled := enabled; po_iam := iam; po_engine := engine; po_federation := federation |}.

Record TelemetryConfig := {
  te_log_level : string;
  te_log_format : string;
  te_prometheus_enabled : bool;
  te_prometheus_listen : option string;
  te_loki_enabled : bool;
  te_loki_endpoint : option string;
}.
Definition telemetry_config_default : TelemetryConfig :=
  {| te_log_level := "info"; te_log_format := "text"; te_prometheus_enabled := false; te_prometheus_listen := None;
     te_loki_enabled := false; te_loki_endpoint := None |}.
Definition telemetry_of (fs : fields) : result TelemetryConfig ConfigError :=
  let? level := defaulted to_string "info" "log_level" fs in
  let? format := defaulted to_string "text" "log_format" fs in
  let? prometheus := defaulted to_bool false "prometheus_enabled" fs in
  let? listen := optional to_string "prometheus_listen" fs in
  let? loki := defaulted to_bool false "loki_enabled" fs in
  let? endpoint := optional to_string "loki_endpoint" fs in
  Ok {| te_log_level := level; te_log_format := format; te_prometheus_enabled := prometheus; te_prometheus_listen := listen;
        te_loki_enabled := loki; te_loki_endpoint := endpoint |}.

Record PactConfig := {
  pc_agent : option FullAgentConfig;
  pc_journal : option JournalConfig;
  pc_policy : option PolicyConfig;
  pc_telemetry : TelemetryConfig;
}.
Definition pact_config_of (fs : fields) : result PactConfig ConfigError :=
  let? agent := optional (table agent_of) "agent" fs in
  let? journal := optional (table journal_of) "journal" fs in
  let? policy := optional (table policy_of) "policy" fs in
  let? telemetry := defaulted (table telemetry_of) telemetry_config_default "telemetry" fs in
  Ok {| pc_agent := agent; pc_journal := journal; pc_policy := policy; pc_telemetry := telemetry |}.

(** ** The derived serialisers of the agent's sections

    An absent optional field is not written. *)

Definition opt_field {A} (k : string) (enc : A → Toml) (o : option A) : fields :=
  match o with Some x => [(k, enc x)] | None => [] end.
Definition supervisor_name (b : SupervisorBackend) : string := match b with Pact => "Pact" | Systemd => "Systemd" end.
Definition strings_toml (l : list string) : Toml := TArr (TStr <$> l).
Definition int_toml (n : N) : Toml := TInt (Z.of_N n).
Definition journal_connection_toml (c : JournalConnectionConfig) : Toml :=
  TTable ([("endpoints", strings_toml (jn_endpoints c)); ("tls_enabled", TBool (jn_tls_enabled c))] ++
          opt_field "tls_cert" TStr (jn_tls_cert c) ++ opt_field "tls_key" TStr (jn_tls_key c) ++
          opt_field "tls_ca" TStr (jn_tls_ca c)).
Definition auth_toml (c : AuthAgentConfig) : Toml :=
  TTable ([("issuer", TStr (au_issuer c)); ("audience", TStr (au_audience c))] ++
          opt_field "hmac_secret" TStr (au_hmac_secret c) ++ opt_field "jwks_url" TStr (au_jwks_url c)).
Definition shell_toml (c : ShellConfig) : Toml :=
  TTable ([("enabled", TBool (sl_enabled c)); ("listen", TStr (sl_listen c)); ("whitelist_mode", TStr (sl_whitelist_mode c))] ++
          opt_field "auth" auth_toml (sl_auth c)).
Definition observer_toml (c : ObserverConfig) : Toml :=
  TTable [("ebpf_enabled", TBool (ob_ebpf_enabled c)); ("inotify_enabled", TBool (ob_inotify_enabled c));
          ("netlink_enabled", TBool (ob_netlink_enabled c))].
Definition commit_window_toml (c : CommitWindowConfig) : Toml :=
  TTable [("base_window_seconds", int_toml (cw_base_window_seconds c)); ("drift_sensitivity", TFloat (cw_drift_sensitivity c));
          ("emergency_window_seconds", int_toml (cw_emergency_window_seconds c))].
Definition capability_toml (c : CapabilityConfig) : Toml :=
  TTable [("manifest_path", TStr (cp_manifest_path c)); ("socket_path", TStr (cp_socket_path c));
          ("gpu_poll_interval_seconds", int_toml (cp_gpu_poll_interval_seconds c))].
Definition enrollment_toml (c : EnrollmentConfig) : Toml :=
  TTable [("journal_endpoints", strings_toml (ec_journal_endpoints c)); ("ca_cert", TStr (ec_ca_cert c));
          ("cert_dir", TStr (ec_cert_dir c)); ("renewal_before_expiry_seconds", int_toml (ec_renewal_before_expiry_seconds c))].
Definition agent_toml (c : FullAgentConfig) : Toml :=
  let b := fa_boot c in
  TTable ([("node_id", TStr (ag_node_id b))] ++ opt_field "vcluster" TStr (ag_vcluster b) ++
          [("enforcement_mode", TStr (ag_enforcement_mode b));
           ("supervisor", TTable [("backend", TStr (supervisor_name (ag_backend b)))]);
           ("journal", journal_connection_toml (ag_journal b));
           ("observer", observer_toml (fa_observer c));
           ("shell", shell_toml (fa_shell c));
           ("commit_window", commit_window_toml (ag_commit_window b));
           ("blacklist", TTable [("patterns", strings_toml (ag_blacklist b))])] ++
          opt_field "capability" capability_toml (fa_capability c) ++
          opt_field "enrollment" enrollment_toml (ag_enrollment b)).

(** ** The configurations that come with the program *)

(** config/minimal.toml, with the supervisor section as an argument. *)
Definition minimal_toml (backend : string) : fields :=
  [("agent", TTable
     [("node_id", TStr "dev-node-001"); ("vcluster", TStr "dev-sandbox"); ("enforcement_mode", TStr "observe");
      ("supervisor", TTable [("backend", TStr backend)]);
      ("journal", TTable [("endpoints", TArr [TStr "localhost:9443"]); ("tls_enabled", TBool false)]);
      ("observer", TTable [("ebpf_enabled", TBool false); ("inotify_enabled", TBool true); ("netlink_enabled", TBool true)]);
      ("shell", TTable
         [("enabled", TBool true); ("listen", TStr "0.0.0.0:9445"); ("whitelist_mode", TStr "learning");
          ("auth", TTable [("issuer", TStr "https://auth.dev.example.com"); ("audience", TStr "pact-agent")])]);
      ("commit_window", TTable
         [("base_window_seconds", TInt 900); ("drift_sensitivity", TFloat (F64.of_Z 2)); ("emergency_window_seconds", TInt 14400)]);
      ("blacklist", TTable
         [("patterns", strings_toml ["/tmp/**"; "/var/log/**"; "/proc/**"; "/sys/**"; "/dev/**"; "/run/user/**"])])]);
   ("journal", TTable [("listen_addr", TStr "0.0.0.0:9443"); ("data_dir", TStr "/var/lib/pact/journal")]);
   ("policy", TTable [("enabled", TBool false)]);
   ("telemetry", TTable [("log_level", TStr "debug"); ("log_format", TStr "text")])].
(** The [agent] section of config/production.toml; [extra] are keys put in
    front. *)
Definition production_agent_toml (extra : fields) (backend : string) : fields :=
  extra ++
  [("enforcement_mode", TStr "enforce"); ("supervisor", TTable [("backend", TStr backend)]);
   ("journal", TTable
      [("endpoints", strings_toml ["journal-1.mgmt:9443"; "journal-2.mgmt:9443"; "journal-3.mgmt:9443"]);
       ("tls_enabled", TBool true); ("tls_cert", TStr "/etc/pact/agent.crt"); ("tls_key", TStr "/etc/pact/agent.key");
       ("tls_ca", TStr "/etc/pact/ca.crt")]);
   ("observer", TTable [("ebpf_enabled", TBool true); ("inotify_enabled", TBool true); ("netlink_enabled", TBool true)]);
   ("shell", TTable
      [("enabled", TBool true); ("listen", TStr "0.0.0.0:9445"); ("whitelist_mode", TStr "strict");
       ("auth", TTable [("issuer", TStr "https://auth.example.org/realms/hpc"); ("audience", TStr "pact-agent")])]);
   ("commit_window", TTable
      [("base_window_seconds", TInt 900); ("drift_sensitivity", TFloat (F64.of_Z 2)); ("emergency_window_seconds", TInt 14400)]);
   ("capability", TTable
      [("manifest_path", TStr "/run/pact/capability.json"); ("socket_path", TStr "/run/pact/capability.sock");
       ("gpu_poll_interval_seconds", TInt 30)]);
   ("blacklist", TTable
      [("patterns", strings_toml ["/tmp/**"; "/var/log/**"; "/proc/**"; "/sys/**"; "/dev/**"; "/run/user/**"; "/run/pact/**";
                                  "/run/lattice/**"])])].

(** ** Properties *)

#[local] Arguments to_strings : simpl never.
#[local] Arguments to_unsigned : simpl never.

Lemma to_strings_toml l : to_strings (strings_toml l) = Ok l.
Proof. unfold to_strings, strings_toml. induction l as [|s l IH]; [done|]. rewrite fmap_cons. simpl. by rewrite IH. Qed.
Lemma to_unsigned_toml max n : (n ≤ max)%N → to_unsigned max (int_toml n) = Ok n.
Proof. intros Hn. unfold to_unsigned, int_toml. rewrite (proj2 (Z.leb_le 0 _)), (proj2 (Z.leb_le _ (Z.of_N max))) by lia. simpl. by rewrite N2Z.id. Qed.

Lemma journal_connection_toml_ok c : table journal_connection_of (journal_connection_toml c) = Ok c.
Proof.
  destruct c as [eps tls cert key ca]. unfold journal_connection_toml, journal_connection_of, required, defaulted, optional. simpl.
  rewrite to_strings_toml. by destruct cert, key, ca.
Qed.
Lemma shell_toml_ok c : table shell_of (shell_toml c) = Ok c.
Proof. by destruct c as [e l m [[i a [] []]|]]. Qed.
Lemma commit_window_toml_ok c :
  (cw_base_window_seconds c ≤ u32_max)%N → (cw_emergency_window_seconds c ≤ u32_max)%N →
  table commit_window_of (commit_window_toml c) = Ok c.
Proof.
  intros Hb He. destruct c as [b s e]. simpl in *. unfold commit_window_of, defaulted, u32. simpl.
  by rewrite !to_unsigned_toml by done.
Qed.
Lemma capability_toml_ok c : (cp_gpu_poll_interval_seconds c ≤ u32_max)%N → table capability_of (capability_toml c) = Ok c.
Proof. intros Hp. destruct c as [m s p]. simpl in *. unfold capability_of, required, defaulted, u32. simpl. by rewrite to_unsigned_toml. Qed.
Lemma enrollment_toml_ok c : (ec_renewal_before_expiry_seconds c ≤ u32_max)%N → table enrollment_of (enrollment_toml c) = Ok c.
Proof.
  intros Hr. destruct c as [e a d r]. simpl in *. unfold enrollment_of, required, defaulted, u32. simpl.
  by rewrite to_strings_toml; simpl; rewrite to_unsigned_toml.
Qed.

(** The integers of a section fit the fields they are read into. *)
Definition agent_in_range (c : FullAgentConfig) : Prop :=
  (cw_base_window_seconds (ag_commit_window (fa_boot c)) ≤ u32_max)%N ∧
  (cw_emergency_window_seconds (ag_commit_window (fa_boot c)) ≤ u32_max)%N ∧
  (∀ k, fa_capability c = Some k → (cp_gpu_poll_interval_seconds k ≤ u32_max)%N) ∧
  (∀ e, ag_enrollment (fa_boot c) = Some e → (ec_renewal_before_expiry_seconds e ≤ u32_max)%N).

(** an agent section written by the derived serialiser is read back as the
    configuration it was written from, every optional part included. *)
Theorem agent_config_roundtrip c : agent_in_range c → table agent_of (agent_toml c) = Ok c.
Proof.
  intros (Hb & He & Hc & Hn). destruct c as [[node vc mode backend journal window black enr] obs shell cap]. simpl in *.
  pose proof (journal_connection_toml_ok journal) as Ej. pose proof (shell_toml_ok shell) as Es.
  pose proof (commit_window_toml_ok window Hb He) as Ew.
  assert (table observer_of (observer_toml obs) = Ok obs) as Eo by (by destruct obs).
  unfold agent_toml. revert Ej Es Ew Eo.
  cbn [fa_boot fa_observer fa_shell fa_capability ag_node_id ag_vcluster ag_enforcement_mode ag_backend ag_journal ag_commit_window
       ag_blacklist ag_enrollment].
  generalize (journal_connection_toml journal), (shell_toml shell), (commit_window_toml window), (observer_toml obs).
  intros tj ts tw to Ej Es Ew Eo. unfold agent_of, required, defaulted, optional.
  assert (∀ x, cap = Some x → table capability_of (capability_toml x) = Ok x) as Ec by (intros; apply capability_toml_ok; auto).
  assert (∀ x, enr = Some x → table enrollment_of (enrollment_toml x) = Ok x) as En by (intros; apply enrollment_toml_ok; auto).
  revert Ec En. generalize capability_toml, enrollment_toml. intros ct et Ec En.
  destruct vc as [vc|]; simpl; (destruct backend; simpl; rewrite Ej; simpl; rewrite Eo; simpl; rewrite Es; simpl;
    rewrite Ew; simpl; unfold blacklist_of, defaulted; simpl; rewrite to_strings_toml; simpl;
    (destruct cap as [cap|]; simpl; [rewrite (Ec _ eq_refl)|]; simpl);
    (destruct enr as [enr|]; simpl; [rewrite (En _ eq_refl)|]; simpl; reflexivity)).
Qed.

Lemma required_Ok {A} (dec : decoder A) k fs x : required dec k fs = Ok x → ∃ v, toml_field k fs = Some v ∧ dec v = Ok x.
Proof. unfold required. destruct (toml_field k fs) as [v|]; [|done]. eauto. Qed.
Lemma defaulted_Ok {A} (dec : decoder A) d k fs x :
  defaulted dec d k fs = Ok x → (toml_field k fs = None ∧ x = d) ∨ ∃ v, toml_field k fs = Some v ∧ dec v = Ok x.
Proof. unfold defaulted. destruct (toml_field k fs) as [v|]; [eauto|]. intros [= <-]. by left. Qed.
Lemma optional_Ok {A} (dec : decoder A) k fs o :
  optional dec k fs = Ok o → (toml_field k fs = None ∧ o = None) ∨ ∃ v x, toml_field k fs = Some v ∧ dec v = Ok x ∧ o = Some x.
Proof.
  unfold optional. destruct (toml_field k fs) as [v|]; [|intros [= <-]; by left].
  destruct (dec v) as [x|] eqn:E; simpl; [|done]. intros [= <-]. right. by exists v, x.
Qed.

Lemma table_Ok {A} (of_fields : fields → result A ConfigError) v x :
  table of_fields v = Ok x → ∃ fs, v = TTable fs ∧ of_fields fs = Ok x.
Proof. destruct v; simpl; try done. eauto. Qed.
Lemma to_string_Ok v s : to_string v = Ok s → v = TStr s.
Proof. destruct v; simpl; try done. by intros [= ->]. Qed.
Lemma let_Ok {A B E} (r : result A E) (f : A → result B E) y : (let? x := r in f x) = Ok y → ∃ x, r = Ok x ∧ f x = Ok y.
Proof. destruct r as [x|]; simpl; [|done]. eauto. Qed.

(** an agent section that is accepted names the node and the endpoints of
    the journal; a section that is absent stands for its documented defaults:
    changes are observed, not enforced, the shell's whitelist learns, and no
    token can be checked. *)
Theorem agent_config_fields fs c :
  agent_of fs = Ok c →
  toml_field "node_id" fs = Some (TStr (ag_node_id (fa_boot c))) ∧
  (∃ j eps, toml_field "journal" fs = Some (TTable j) ∧ toml_field "endpoints" j = Some eps ∧
     to_strings eps = Ok (jn_endpoints (ag_journal (fa_boot c)))) ∧
  (toml_field "enforcement_mode" fs = None → ag_enforcement_mode (fa_boot c) = "observe") ∧
  (toml_field "supervisor" fs = None → ag_backend (fa_boot c) = Pact) ∧
  (toml_field "shell" fs = None → sl_whitelist_mode (fa_shell c) = "learning" ∧ sl_auth (fa_shell c) = None) ∧
  (toml_field "blacklist" fs = None → ag_blacklist (fa_boot c) = default_blacklist_patterns) ∧
  (toml_field "enrollment" fs = None → ag_enrollment (fa_boot c) = None).
Proof.
  unfold agent_of. intros Hc. repeat (apply let_Ok in Hc as (? & ? & Hc)). injection Hc as <-. simpl.
  repeat match goal with
  | H : required _ _ _ = Ok _ |- _ => apply required_Ok in H as (? & ? & ?)
  | H : defaulted _ _ _ _ = Ok _ |- _ => apply defaulted_Ok in H
  | H : optional _ _ _ = Ok _ |- _ => apply optional_Ok in H
  end.
  repeat match goal with
  | H : to_string _ = Ok _ |- _ => apply to_string_Ok in H as ->
  | H : table journal_connection_of _ = Ok _ |- _ => apply table_Ok in H as (? & -> & H)
  end.
  split; [done|]. split; [|naive_solver].
  match goal with H : journal_connection_of _ = Ok _ |- _ => unfold journal_connection_of in H; apply let_Ok in H as (? & He & H) end.
  repeat match goal with H : (let? _ := _ in _) = Ok _ |- _ => apply let_Ok in H as (? & _ & H) end.
  apply required_Ok in He as (? & He & Hs). simplify_eq/=. by do 2 eexists.
Qed.

(** the configurations that come with the program are refused, the minimal
    one for the spelling of its supervisor backend, the production one also
    for the node id it leaves out, which the command line could only replace
    after the file is accepted; with the variant spelt as the program expects
    it the minimal one is accepted. *)
Theorem shipped_configurations_refused :
  pact_config_of (minimal_toml "pact") = Err (UnknownVariant "pact") ∧
  agent_of (production_agent_toml [] "pact") = Err (MissingField "node_id") ∧
  (∀ node, agent_of (production_agent_toml [("node_id", TStr node)] "pact") = Err (UnknownVariant "pact")) ∧
  ∃ c, pact_config_of (minimal_toml "Pact") = Ok c ∧ ag_node_id <$> (fa_boot <$> pc_agent c) = Some "dev-node-001".
Proof. repeat split. eexists. by vm_compute. Qed.

(** ** Witnesses *)

Definition sample_agent_config : FullAgentConfig :=
  {| fa_boot := {| ag_node_id := "n1"; ag_vcluster := Some "ml"; ag_enforcement_mode := "enforce"; ag_backend := Systemd;
       ag_journal := {| jn_endpoints := ["j1:9443"]; jn_tls_enabled := true; jn_tls_cert := Some "/c"; jn_tls_key := None; jn_tls_ca := Some "/a" |};
       ag_commit_window := commit_window_config_default; ag_blacklist := ["/tmp/**"]; ag_enrollment := None |};
     fa_observer := observer_config_default;
     fa_shell := {| sl_enabled := true; sl_listen := "[::]:9445"; sl_whitelist_mode := "strict";
                    sl_auth := Some {| au_issuer := "i"; au_audience := "a"; au_hmac_secret := None; au_jwks_url := Some "u" |} |};
     fa_capability := Some {| cp_manifest_path := "/m"; cp_socket_path := "/s"; cp_gpu_poll_interval_seconds := 5 |} |}.

Lemma agent_config_roundtrip_witness : table agent_of (agent_toml sample_agent_config) = Ok sample_agent_config.
Proof.
  apply (agent_config_roundtrip sample_agent_config). split; [by vm_compute|]. split; [by vm_compute|].
  split; [intros k [= <-]; by vm_compute|done].
Defined.

Definition sample_agent_fields : fields := [("node_id", TStr "n1"); ("journal", TTable [("endpoints", TArr [TStr "j1:9443"])])].
Lemma agent_config_fields_witness :
  match agent_of sample_agent_fields with Ok c => ag_enforcement_mode (fa_boot c) = "observe" | Err _ => False end.
Proof.
  destruct (agent_of sample_agent_fields) as [c|e] eqn:E.
  - apply (agent_config_fields _ _ E). reflexivity.
  - vm_compute in E. discriminate.
Defined.
