(* ===== verification/AgentMain.v ===== *)
(** * The agent's main program

    crates/pact-agent/src/main.rs: the configuration file with the overrides
    of the command line, the journal connection, the boot sequence, and the
    tasks started around its result: supervision loop, configuration
    subscription and shell server. *)

From S2P Require Import Prelude Text Float64 Types JournalState JournalInvariants JournalProperties Raft.
From S2P Require Import ConfigService EnrollmentService.
From S2P Require Import BootStream Subscription CommitWindow Conflict Drift Supervisor CertRotation Agent Capability BootInit.
From S2P Require Import Whitelist Shell AgentStart JournalServer Config.
From stdpp Require Import options.

(** ** Data *)

Record AgentArgs := { aa_config : string; aa_node_id : option string; aa_vcluster : option string }.

(** How a start ends early: exit status 1 for a file that cannot be read,
    and otherwise an error that [main] returns. *)
Inductive StartFailure :=
| ConfigUnreadable (e : string)
| ConfigSyntax (e : string)
| ConfigRefused (e : ConfigError)
| MissingAgentSection
| BootFailed (e : string)
| ShellBindFailed (e : string).

(** The agent once it is in its steady state. *)
Record RunningAgent := {
  ra_config : FullAgentConfig;
  ra_journal : option string;             (** the address of the journal *)
  ra_boot : BootResult;
  ra_supervision : bool;                  (** the supervision loop runs *)
  ra_boot_petter : bool;                  (** the boot task still feeds the watchdog *)
  ra_subscription : SubscriptionConfig;
  ra_streaming : bool;                    (** the subscription is connected to a journal *)
  ra_handles : AgentHandles;              (** what configuration updates act on *)
  ra_shell : ShellServer;
}.

(** ** Operations *)

Definition apply_overrides (args : AgentArgs) (c : FullAgentConfig) : FullAgentConfig :=
  let b := fa_boot c in
  {| fa_boot := {| ag_node_id := default (ag_node_id b) (aa_node_id args);
                   ag_vcluster := match aa_vcluster args with Some v => Some v | None => ag_vcluster b end;
                   ag_enforcement_mode := ag_enforcement_mode b; ag_backend := ag_backend b; ag_journal := ag_journal b;
                   ag_commit_window := ag_commit_window b; ag_blacklist := ag_blacklist b;
                   ag_enrollment := ag_enrollment b |};
     fa_observer := fa_observer c; fa_shell := fa_shell c; fa_capability := fa_capability c |}.

Definition shell_auth_config (c : ShellConfig) : AuthConfig :=
  match sl_auth c with
  | Some auth => {| ac_issuer := au_issuer auth; ac_audience := au_audience auth;
                    ac_hmac_secret := bytes_of_string <$> au_hmac_secret auth; ac_jwks_url := au_jwks_url auth |}
  | None => {| ac_issuer := ""; ac_audience := ""; ac_hmac_secret := None; ac_jwks_url := None |}
  end.

(** [ShellServer::with_journal_client]. *)
Definition with_journal_client (connected : bool) (s : ShellServer) : ShellServer :=
  {| sh_whitelist := sh_whitelist s; sh_sessions := sh_sessions s; sh_auth_config := sh_auth_config s;
     sh_exec_config := sh_exec_config s; sh_node_id := sh_node_id s; sh_vcluster_id := sh_vcluster_id s;
     sh_journal_client := connected || sh_journal_client s; sh_commit_window := sh_commit_window s;
     sh_supervisor_backend := sh_supervisor_backend s; sh_declared_services := sh_declared_services s |}.

Definition agent_shell_server (c : FullAgentConfig) (connected : bool) (b : BootResult) : ShellServer :=
  with_commit_window
    (with_journal_client connected
       (shell_server_new (shell_auth_config (fa_shell c)) exec_config_default (ag_node_id (fa_boot c))
          (unwrap_or_default (ag_vcluster (fa_boot c))) (bool_decide (sl_whitelist_mode (fa_shell c) = "learning")) 10))
    (Some (bt_commit_window b)).

(** boot::start_subscription. *)
Definition start_subscription (c : AgentConfig) : SubscriptionConfig :=
  {| sub_node_id := ag_node_id c; sub_vcluster_id := unwrap_or_default (ag_vcluster c);
     sub_reconnect_base_ms := sub_reconnect_base_ms subscription_config_default;
     sub_reconnect_max_ms := sub_reconnect_max_ms subscription_config_default;
     sub_max_reconnect_attempts := sub_max_reconnect_attempts subscription_config_default |}.

Section main.
Context {K : Type} `{!InitOs K} `{!Host} `{!Zstd} (delta_of_json : bytes → option StateDelta).
(** The TOML library, the files, the network and the listening socket. *)
Context (toml_parse : string → result fields string) (read : string → result string string)
  (net : string → ConnectOutcome) (bind : string → result () string).

Definition load_agent_config (args : AgentArgs) : result FullAgentConfig StartFailure :=
  let? text := map_err ConfigUnreadable (read (aa_config args)) in
  let? fs := map_err ConfigSyntax (toml_parse text) in
  let? config := map_err ConfigRefused (pact_config_of fs) in
  let? agent := ok_or (pc_agent config) MissingAgentSection in
  Ok (apply_overrides args agent).

(** [env] is what the boot sequence meets, given whether a journal answers. *)
Definition agent_main (env : bool → BootEnv K) (args : AgentArgs) : list BootEffect * result RunningAgent StartFailure :=
  match load_agent_config args with
  | Err e => ([], Err e)
  | Ok config =>
      let journal := try_connect read net (ag_journal (fa_boot config)) in
      let connected := bool_decide (is_Some journal) in
      match boot delta_of_json (fa_boot config) (env connected) with
      | (effects, Err e) => (effects, Err (BootFailed e))
      | (effects, Ok b) =>
          let supervised := bool_decide (is_Some (bt_supervisor b).2) in
          match bind (sl_listen (fa_shell config)) with
          | Err e => (effects, Err (ShellBindFailed e))
          | Ok _ =>
              (effects,
               Ok {| ra_config := config; ra_journal := journal; ra_boot := b; ra_supervision := supervised;
                     ra_boot_petter := bt_boot_petter b && negb supervised;
                     ra_subscription := start_subscription (fa_boot config); ra_streaming := connected;
                     ra_handles := {| ah_drift_evaluator := bt_drift_evaluator b; ah_commit_window := bt_commit_window b;
                                      ah_cached_policy := bt_cached_policy b; ah_blacklist := ag_blacklist (fa_boot config) |};
                     ra_shell := agent_shell_server config connected b |})
          end
      end
  end.
End main.

(** ** Properties *)

Section theorems.
Context {K : Type} `{!InitOs K} `{!Host} `{!Zstd} (delta_of_json : bytes → option StateDelta).
Context (toml_parse : string → result fields string) (read : string → result string string)
  (net : string → ConnectOutcome) (bind : string → result () string).

Lemma agent_shell_server_fields c connected b :
  sh_auth_config (agent_shell_server c connected b) = shell_auth_config (fa_shell c) ∧
  sh_node_id (agent_shell_server c connected b) = ag_node_id (fa_boot c) ∧
  sh_vcluster_id (agent_shell_server c connected b) = unwrap_or_default (ag_vcluster (fa_boot c)) ∧
  sh_journal_client (agent_shell_server c connected b) = connected ∧
  sh_commit_window (agent_shell_server c connected b) = Some (bt_commit_window b).
Proof. split_and!; try reflexivity. exact (orb_false_r connected). Qed.
Opaque agent_shell_server.

Lemma boot_hardware_watchdog config (env : BootEnv K) :
  ag_backend config = Systemd → (boot_hardware config env).2 = None.
Proof. unfold boot_hardware. by intros ->. Qed.

Lemma boot_Ok config (env : BootEnv K) effects b :
  boot delta_of_json config env = (effects, Ok b) →
  WroteReadiness (ag_node_id config) ∈ effects ∧
  bt_supervisor b = (ag_backend config, match ag_backend config with Pact => Some with_cgroups | Systemd => None end) ∧
  bt_commit_window b = Window.window_new (ag_commit_window config) ∧
  bt_drift_evaluator b = drift_new (ag_blacklist config) drift_weights_default ∧
  (bt_boot_petter b = true → ag_backend config = Pact).
Proof.
  unfold boot. destruct (boot_early env) as [early [reaper|]]; [|done].
  destruct (boot_hardware config env) as [hw wd] eqn:Eh. destruct (report _ _ _) as [rep|]; [|done]. intros [= <- <-]. simpl.
  repeat split; [set_solver|]. intros Hw%bool_decide_eq_true. destruct (ag_backend config) eqn:Eb; [done|].
  pose proof (boot_hardware_watchdog config env Eb) as Hn. rewrite Eh in Hn. simpl in Hn. subst wd. by destruct Hw.
Qed.

Lemma agent_main_Ok env args effects a :
  agent_main delta_of_json toml_parse read net bind env args = (effects, Ok a) →
  ∃ config b journal, load_agent_config toml_parse read args = Ok config ∧
    boot delta_of_json (fa_boot config) (env (bool_decide (is_Some journal))) = (effects, Ok b) ∧
    bind (sl_listen (fa_shell config)) = Ok tt ∧ journal = try_connect read net (ag_journal (fa_boot config)) ∧
    a = {| ra_config := config; ra_journal := journal; ra_boot := b;
           ra_supervision := bool_decide (is_Some (bt_supervisor b).2);
           ra_boot_petter := bt_boot_petter b && negb (bool_decide (is_Some (bt_supervisor b).2));
           ra_subscription := start_subscription (fa_boot config); ra_streaming := bool_decide (is_Some journal);
           ra_handles := {| ah_drift_evaluator := bt_drift_evaluator b; ah_commit_window := bt_commit_window b;
                            ah_cached_policy := bt_cached_policy b; ah_blacklist := ag_blacklist (fa_boot config) |};
           ra_shell := agent_shell_server config (bool_decide (is_Some journal)) b |}.
Proof.
  unfold agent_main. destruct (load_agent_config _ _ _) as [config|] eqn:El; [|done].
  destruct (boot _ _ _) as [eff [b|]] eqn:Eb; [|done]. destruct (bind _) as [[]|] eqn:Ebi; [|done]. intros [= <- <-]. simpl.
  by exists config, b, (try_connect read net (ag_journal (fa_boot config))).
Qed.

(** C37: an agent whose configuration has no HMAC secret, be it with a key
    server's address or without any authentication section, refuses every
    command whatever token comes with it, runs nothing, and records nothing. *)
Theorem shell_fail_closed `{JwtApi} env args effects a :
  agent_main delta_of_json toml_parse read net bind env args = (effects, Ok a) →
  (sl_auth (fa_shell (ra_config a)) ≫= au_hmac_secret) = None →
  ∀ now run header command cmd_args, ∃ e,
    exec now run header command cmd_args (ra_shell a) = (ra_shell a, [], Err (ShAuth e)) ∧
    (e = InvalidFormat ∨ e = NoSigningKey).
Proof.
  intros Ha Hs now run header command cmd_args. apply agent_main_Ok in Ha as (config & b & journal & _ & _ & _ & _ & ->).
  simpl in *. unfold exec, authenticate, validate_token.
  rewrite (proj1 (agent_shell_server_fields config (bool_decide (is_Some journal)) b)).
  assert (ac_hmac_secret (shell_auth_config (fa_shell config)) = None) as Hn.
  { unfold shell_auth_config. destruct (sl_auth (fa_shell config)) as [auth|]; simpl in *; [by rewrite Hs|done]. }
  rewrite Hn. destruct (extract_bearer_token header); eauto.
Qed.

(** an agent in its steady state runs under the node id and the vCluster
    of the command line where it has them and of the file otherwise, the same
    for the subscription and the shell; the supervision loop runs exactly with
    the pact supervisor, and the boot task that feeds the watchdog never
    outlives the start; updates and the shell act on the commit window of the
    configuration. *)
Theorem agent_start_wiring env args effects a :
  agent_main delta_of_json toml_parse read net bind env args = (effects, Ok a) →
  let c := fa_boot (ra_config a) in
  (∀ n, aa_node_id args = Some n → ag_node_id c = n) ∧ (∀ v, aa_vcluster args = Some v → ag_vcluster c = Some v) ∧
  sh_node_id (ra_shell a) = ag_node_id c ∧ sub_node_id (ra_subscription a) = ag_node_id c ∧
  sh_vcluster_id (ra_shell a) = sub_vcluster_id (ra_subscription a) ∧
  WroteReadiness (ag_node_id c) ∈ effects ∧
  (ra_supervision a = true ↔ ag_backend c = Pact) ∧ ra_boot_petter a = false ∧
  (ra_streaming a = true ↔ is_Some (ra_journal a)) ∧ sh_journal_client (ra_shell a) = ra_streaming a ∧
  sh_commit_window (ra_shell a) = Some (ah_commit_window (ra_handles a)) ∧
  Window.win_config (ah_commit_window (ra_handles a)) = ag_commit_window c.
Proof.
  intros Ha. apply agent_main_Ok in Ha as (config & b & journal & Hl & Hb & _ & _ & ->). simpl.
  destruct (agent_shell_server_fields config (bool_decide (is_Some journal)) b) as (_ & -> & -> & -> & ->).
  apply boot_Ok in Hb as (Hr & Hs & Hw & _ & Hp). rewrite Hs, Hw. simpl.
  assert (∃ c0, config = apply_overrides args c0) as [c0 ->].
  { unfold load_agent_config in Hl. repeat (apply let_Ok in Hl as (? & ? & Hl)). injection Hl as <-. eauto. }
  split_and!; try done; simpl; try (by intros ? ->).
  - by destruct (ag_backend (fa_boot c0)).
  - simpl in Hp. destruct (ag_backend (fa_boot c0)); simpl; [by rewrite andb_false_r|].
    destruct (bt_boot_petter b); [by specialize (Hp eq_refl)|done].
  - by rewrite bool_decide_eq_true.
Qed.

(** a start that fails over its configuration has not touched the machine;
    one that fails in the boot sequence never reached the shell; and one that
    cannot open the shell's port gives up after the node was declared ready. *)
Theorem agent_start_failures env args effects e :
  agent_main delta_of_json toml_parse read net bind env args = (effects, Err e) →
  match e with
  | ConfigUnreadable why => effects = [] ∧ read (aa_config args) = Err why
  | ConfigSyntax why => effects = [] ∧ ∃ text, read (aa_config args) = Ok text ∧ toml_parse text = Err why
  | ConfigRefused why => effects = [] ∧ ∃ text fs, read (aa_config args) = Ok text ∧ toml_parse text = Ok fs ∧ pact_config_of fs = Err why
  | MissingAgentSection => effects = []
  | BootFailed why => ∃ c, load_agent_config toml_parse read args = Ok c
  | ShellBindFailed why => ∃ c, load_agent_config toml_parse read args = Ok c ∧ bind (sl_listen (fa_shell c)) = Err why ∧
      WroteReadiness (ag_node_id (fa_boot c)) ∈ effects
  end.
Proof.
  unfold agent_main. destruct (load_agent_config _ _ _) as [c|e'] eqn:El.
  - destruct (boot _ _ _) as [eff [b|why]] eqn:Eb; [|intros [= <- <-]; eauto].
    destruct (bind _) as [|why] eqn:Ebi; [done|]. intros [= <- <-]. apply boot_Ok in Eb as (Hr & _). eauto.
  - intros [= <- <-]. revert El. unfold load_agent_config.
    destruct (read (aa_config args)) as [text|]; simpl; [|by intros [= <-]].
    destruct (toml_parse text) as [fs|] eqn:Et; simpl; [|intros [= <-]; eauto].
    destruct (pact_config_of fs) as [pc|] eqn:Ep; simpl; [|intros [= <-]; eauto 6].
    destruct (pc_agent pc); simpl; [done|by intros [= <-]].
Qed.
End theorems.
Transparent agent_shell_server.

(** ** Witnesses *)

Module MainSample.
Definition parse (text : string) : result fields string :=
  if decide (text = "bad") then Err "expected a key" else Ok (minimal_toml text).
Definition read (p : string) : result string string :=
  if decide (p = "/etc/pact/agent.toml") then Ok "Pact" else if decide (p = "/etc/pact/shipped.toml") then Ok "pact" else Err "no such file".
Definition net (uri : string) : ConnectOutcome := Unreachable.
Definition bind (addr : string) : result () string := Ok tt.
Definition args (config : string) : AgentArgs := {| aa_config := config; aa_node_id := Some "n7"; aa_vcluster := None |}.
Definition start (config : string) :=
  @agent_main DemoKernel _ StartSample.host BootSample.zstd (λ _, None) parse read net bind (λ _, StartSample.env) (args config).
End MainSample.

Lemma shell_fail_closed_witness :
  match MainSample.start "/etc/pact/agent.toml" with
  | (_, Ok a) => ∀ header, ∃ e, @exec WhitelistSample.jwt 0%Z (λ _ _, SpawnNotFound) header "uptime" [] (ra_shell a) =
                   (ra_shell a, [], Err (ShAuth e))
  | _ => False
  end.
Proof.
  assert (match MainSample.start "/etc/pact/agent.toml" with
          | (_, Ok a) => (sl_auth (fa_shell (ra_config a)) ≫= au_hmac_secret) = None | _ => False end) as Hs
    by (vm_compute; reflexivity).
  destruct (MainSample.start "/etc/pact/agent.toml") as [effects [a|e]] eqn:E; [|exact Hs].
  intros header.
  destruct (@shell_fail_closed DemoKernel _ StartSample.host BootSample.zstd (λ _, None) MainSample.parse MainSample.read MainSample.net
    MainSample.bind WhitelistSample.jwt (λ _, StartSample.env) (MainSample.args "/etc/pact/agent.toml") effects a E Hs 0%Z
    (λ _ _, SpawnNotFound) header "uptime" []) as (e & He & _).
  exists e. exact He.
Defined.

Lemma agent_start_wiring_witness :
  match MainSample.start "/etc/pact/agent.toml" with
  | (_, Ok a) => ag_node_id (fa_boot (ra_config a)) = "n7" ∧ ra_boot_petter a = false
  | _ => False
  end.
Proof.
  assert (match MainSample.start "/etc/pact/agent.toml" with (_, Ok a) => True | _ => False end) as Hs by (vm_compute; exact I).
  destruct (MainSample.start "/etc/pact/agent.toml") as [effects [a|e]] eqn:E; [|exact Hs].
  destruct (@agent_start_wiring DemoKernel _ StartSample.host BootSample.zstd (λ _, None) MainSample.parse MainSample.read MainSample.net
    MainSample.bind (λ _, StartSample.env) (MainSample.args "/etc/pact/agent.toml") effects a E) as (Hn & _ & _ & _ & _ & _ & _ & Hp & _).
  split; [apply Hn; reflexivity|exact Hp].
Defined.

Lemma agent_start_failures_witness :
  MainSample.start "/etc/pact/shipped.toml" = ([], Err (ConfigRefused (UnknownVariant "pact"))) ∧
  ∃ text fs, MainSample.read "/etc/pact/shipped.toml" = Ok text ∧ MainSample.parse text = Ok fs ∧ pact_config_of fs = Err (UnknownVariant "pact").
Proof.
  assert (E : MainSample.start "/etc/pact/shipped.toml" = ([], Err (ConfigRefused (UnknownVariant "pact")))) by (vm_compute; reflexivity).
  split; [exact E|].
  exact (proj2 (@agent_start_failures DemoKernel _ StartSample.host BootSample.zstd (λ _, None) MainSample.parse MainSample.read
    MainSample.net MainSample.bind (λ _, StartSample.env) (MainSample.args "/etc/pact/shipped.toml") [] _ E)).
Defined.
