(* ===== verification/System.v ===== *)
(** * The system: a journal and its agents

    The components composed as they are in a deployment: a journal as its
    main program starts it, agents as theirs does, and the calls between them
    through the journal's interceptor. A step of the system is a step of one
    component, so that requests, streams, agents' main loops and shells
    interleave in every way. *)

From S2P Require Import Prelude Text Float64 Types JournalState JournalInvariants JournalProperties Raft.
From S2P Require Import ConfigService EnrollmentService.
From S2P Require Import BootStream Subscription CommitWindow Conflict Drift Supervisor CertRotation Agent Capability BootInit.
From S2P Require Import Whitelist Shell AgentStart JournalServer Config AgentMain.
From stdpp Require Import options.

(** ** State *)

(** An open stream of the journal: what is on its way to the agent, and the
    number last sent. *)
Record Stream := { sm_queue : list ConfigUpdate; sm_last_sent : N }.

Record AgentNode := {
  an_config : SubscriptionConfig;
  an_header : AuthHeader;              (** what its calls to the journal carry *)
  an_sub : SubscriptionState;
  an_stream : option Stream;
  an_taken : nat;                      (** actions its main loop has handled *)
  an_handles : AgentHandles;
  an_shell : ShellServer;
  an_audit : list ProtoConfigEntry;    (** entries its shell sends, not yet answered *)
  an_restarts : nat;                   (** how often it was started again *)
}.

(** [sy_log]: every command applied so far; the journal is what they make of
    the empty one. [sy_audited]: entries of shells that reached the handler. *)
Record System := {
  sy_log : list (DateTime * JournalCommand);
  sy_announced : list ConfigUpdate;
  sy_agents : gmap string AgentNode;
  sy_audited : list (string * ProtoConfigEntry);
}.

(** The agent around a started [RunningAgent]. Its clients of the journal are
    made without an interceptor, so their calls carry no authorization. *)
Definition agent_node (a : RunningAgent) : AgentNode :=
  {| an_config := ra_subscription a; an_header := NoHeader; an_sub := subscription_new; an_stream := None; an_taken := 0;
     an_handles := ra_handles a; an_shell := ra_shell a; an_audit := []; an_restarts := 0 |}.
Definition system_init (agents : gmap string AgentNode) : System :=
  {| sy_log := []; sy_announced := []; sy_agents := agents; sy_audited := [] |}.

(** ** Changes of an agent *)

Definition with_sub (st : SubscriptionState) (stream : option Stream) (a : AgentNode) : AgentNode :=
  {| an_config := an_config a; an_header := an_header a; an_sub := st; an_stream := stream; an_taken := an_taken a;
     an_handles := an_handles a; an_shell := an_shell a; an_audit := an_audit a; an_restarts := an_restarts a |}.
Definition with_handles (taken : nat) (h : AgentHandles) (a : AgentNode) : AgentNode :=
  {| an_config := an_config a; an_header := an_header a; an_sub := an_sub a; an_stream := an_stream a; an_taken := taken;
     an_handles := h; an_shell := an_shell a; an_audit := an_audit a; an_restarts := an_restarts a |}.
Definition with_audit (audit : list ProtoConfigEntry) (a : AgentNode) : AgentNode :=
  {| an_config := an_config a; an_header := an_header a; an_sub := an_sub a; an_stream := an_stream a; an_taken := an_taken a;
     an_handles := an_handles a; an_shell := an_shell a; an_audit := audit; an_restarts := an_restarts a |}.

Definition journal_entry_of (fx : ShellEffect) : option ProtoConfigEntry :=
  match fx with AppendToJournal e => Some e | RunCommand _ _ => None end.

(** A command on the node's shell. The shell and the handler of updates share
    one commit window. *)
Definition run_exec `{JwtApi} (now : DateTime) (run : string → list string → Child) (auth command : string) (args : list string)
    (a : AgentNode) : AgentNode :=
  let h := an_handles a in
  let '(s', fx, _) := exec now run auth command args (with_commit_window (an_shell a) (Some (ah_commit_window h))) in
  {| an_config := an_config a; an_header := an_header a; an_sub := an_sub a; an_stream := an_stream a; an_taken := an_taken a;
     an_handles := {| ah_drift_evaluator := ah_drift_evaluator h;
                      ah_commit_window := default (ah_commit_window h) (sh_commit_window s');
                      ah_cached_policy := ah_cached_policy h; ah_blacklist := ah_blacklist h |};
     an_shell := s'; an_audit := an_audit a ++ omap journal_entry_of fx; an_restarts := an_restarts a |}.

(** The settings of an agent that updates might change are the same. *)
Definition same_settings (h0 h : AgentHandles) : Prop :=
  Window.win_config (ah_commit_window h) = Window.win_config (ah_commit_window h0) ∧
  ah_cached_policy h = ah_cached_policy h0 ∧ ah_drift_evaluator h = ah_drift_evaluator h0.

(** An agent that is started again with the same configuration: nothing of its
    subscription survives. *)
Definition restarted (h : AgentHandles) (shell : ShellServer) (a : AgentNode) : AgentNode :=
  {| an_config := an_config a; an_header := an_header a; an_sub := subscription_new; an_stream := None; an_taken := 0;
     an_handles := h; an_shell := shell; an_audit := []; an_restarts := S (an_restarts a) |}.

(** ** Steps *)

Section system.
Context `{Chrono} `{EntryJson} `{PayloadJson} `{JwtApi}.

Definition journal (sys : System) : JournalState := apply_log (sy_log sys) journal_init.
Definition set_agent (n : string) (a : AgentNode) (sys : System) : System :=
  {| sy_log := sy_log sys; sy_announced := sy_announced sys; sy_agents := <[n := a]> (sy_agents sys); sy_audited := sy_audited sys |}.
Definition advance (log : list (DateTime * JournalCommand)) (ups : list ConfigUpdate) (sys : System) : System :=
  {| sy_log := sy_log sys ++ log; sy_announced := sy_announced sys ++ ups; sy_agents := sy_agents sys; sy_audited := sy_audited sys |}.
Definition audited (n : string) (e : ProtoConfigEntry) (sys : System) : System :=
  {| sy_log := sy_log sys; sy_announced := sy_announced sys; sy_agents := sy_agents sys; sy_audited := sy_audited sys ++ [(n, e)] |}.

(** The journal's stream for a subscriber from a number on. *)
Definition open_stream (from : N) (s : JournalState) : Stream :=
  {| sm_queue := catchup from s; sm_last_sent := last_sent from s |}.

(** The loop of the subscription has not returned: it does when it was
    refused more often than configured. *)
Definition subscribing (a : AgentNode) : Prop :=
  (sub_reconnect_attempts (an_sub a) <= sub_max_reconnect_attempts (an_config a))%N.

Inductive system_step : System → System → Prop :=
(** Commands of the requests the journal serves and of its monitor. *)
| sys_commands sys log : system_step sys (advance log [] sys)
(** A handler announces an entry it finds in the journal. *)
| sys_announce sys k e :
    entries (journal sys) !! k = Some e → system_step sys (advance [] [entry_update k e] sys)
(** A subscription that passes the interceptor. *)
| sys_open sys n a :
    sy_agents sys !! n = Some a → an_stream a = None → subscribing a → auth_interceptor (an_header a) = Ok () →
    system_step sys (set_agent n (with_sub (on_connected (an_sub a)) (Some (open_stream (from_sequence (an_sub a)) (journal sys))) a) sys)
(** A subscription that is refused, or does not reach the journal. *)
| sys_refused sys n a :
    sy_agents sys !! n = Some a → an_stream a = None → subscribing a →
    system_step sys (set_agent n (with_sub (on_disconnected (an_config a) (an_sub a)).1 None a) sys)
(** A broadcast update on an open stream. *)
| sys_live sys n a sm u :
    sy_agents sys !! n = Some a → an_stream a = Some sm → u ∈ sy_announced sys →
    system_step sys (set_agent n (with_sub (an_sub a)
      (Some {| sm_queue := sm_queue sm ++ (live_next (sm_last_sent sm) u).2; sm_last_sent := (live_next (sm_last_sent sm) u).1 |}) a) sys)
(** The agent receives the next update. *)
| sys_deliver sys n a sm u rest :
    sy_agents sys !! n = Some a → an_stream a = Some sm → sm_queue sm = u :: rest →
    system_step sys (set_agent n (with_sub (process_stream [Ok u] (an_sub a))
      (Some {| sm_queue := rest; sm_last_sent := sm_last_sent sm |}) a) sys)
(** The stream ends. *)
| sys_break sys n a sm :
    sy_agents sys !! n = Some a → an_stream a = Some sm →
    system_step sys (set_agent n (with_sub (on_disconnected (an_config a) (an_sub a)).1 None a) sys)
(** The agent's main loop takes the next action. *)
| sys_take sys n a k act :
    sy_agents sys !! n = Some a → sub_actions (an_sub a) !! an_taken a = Some (k, act) →
    system_step sys (set_agent n (with_handles (S (an_taken a)) (handle_config_action act (an_handles a)) a) sys)
(** A user's command. *)
| sys_exec sys n a now run auth command args :
    sy_agents sys !! n = Some a →
    system_step sys (set_agent n (run_exec now run auth command args a) sys)
(** An audit entry of a shell reaches the handler that appends it, or is
    refused by the interceptor. *)
| sys_audit sys n a e rest :
    sy_agents sys !! n = Some a → an_audit a = e :: rest → auth_interceptor (an_header a) = Ok () →
    system_step sys (audited n e (set_agent n (with_audit rest a) sys))
| sys_audit_refused sys n a e rest st :
    sy_agents sys !! n = Some a → an_audit a = e :: rest → auth_interceptor (an_header a) = Err st →
    system_step sys (set_agent n (with_audit rest a) sys)
(** The agent is started again. *)
| sys_restart sys n a h shell :
    sy_agents sys !! n = Some a → same_settings (an_handles a) h →
    system_step sys (set_agent n (restarted h shell a) sys).

Definition reachable (agents : gmap string AgentNode) (sys : System) : Prop := rtc system_step (system_init agents) sys.

(** Fewer commands than numbers for entries. *)
Definition bounded (sys : System) : Prop := (N.of_nat (length (sy_log sys)) < 2 ^ 64)%N.

(** What the boot stream of an agent gives it through the interceptor. *)
Definition served_boot_config `{Zstd} (header : AuthHeader) (now : DateTime) (req : BootConfigRequest) (s : JournalState)
    : result (list (result ConfigChunk string)) string :=
  match auth_interceptor header with
  | Err st => Err (status_message st)
  | Ok _ => match stream_boot_config now req s with Err st => Err (status_message st) | Ok cs => Ok (Ok <$> cs) end
  end.

(** ** The journal of the system *)

Lemma journal_advance log ups sys : journal (advance log ups sys) = apply_log log (journal sys).
Proof. apply apply_log_app. Qed.

(** An acknowledged request to append an entry is a sequence of steps of the
    system, whatever else is applied meanwhile: the commands, the announcement
    of the entry found, and the commands after it. *)
Lemma acknowledged_steps sys now p s' ups seq tr :
  runs (journal sys) (append_entry now (Some p)) s' (ups, Ok seq) tr →
  ∃ e log1 t log2 sys', proto_to_config_entry now p = Ok e ∧
    (apply t (AppendEntry e) (apply_log log1 (journal sys))).2 = EntryAppended seq ∧
    rtc system_step sys sys' ∧ journal sys' = s' ∧ sy_log sys' = sy_log sys ++ log1 ++ (t, AppendEntry e) :: log2 ∧
    sy_announced sys' = sy_announced sys ++ ups ∧ sy_agents sys' = sy_agents sys ∧ sy_audited sys' = sy_audited sys.
Proof.
  intros (e & log1 & t & log2 & log3 & Hp & Hresp & -> & ->)%append_entry_runs. set (l := log1 ++ (t, AppendEntry e) :: log2).
  set (ups := match _ !! seq with Some _ => _ | None => _ end).
  exists e, log1, t, (log2 ++ log3), (advance log3 [] (advance [] ups (advance l [] sys))).
  split; [done|]. split; [done|]. split; [|split; [|split]].
  - eapply rtc_l; [constructor|]. eapply rtc_l; [|apply rtc_once; constructor].
    subst ups. destruct (entries (apply_log l (journal sys)) !! seq) eqn:He; [|constructor].
    apply sys_announce. by rewrite journal_advance.
  - rewrite !journal_advance. simpl. by rewrite <- apply_log_app.
  - simpl. subst l. rewrite app_nil_r, <- !app_assoc. done.
  - simpl. by rewrite !app_nil_r.
Qed.

(** So is every request to append an entry. *)
Lemma append_entry_steps sys now req s' ups r tr :
  runs (journal sys) (append_entry now req) s' (ups, r) tr →
  ∃ sys', rtc system_step sys sys' ∧ journal sys' = s' ∧ sy_announced sys' = sy_announced sys ++ ups ∧
    sy_agents sys' = sy_agents sys ∧ sy_audited sys' = sy_audited sys.
Proof.
  intros Hr. destruct r as [seq|st].
  - destruct req as [p|]; [|apply runs_ret_inv in Hr as [? ?]; simplify_eq].
    destruct (acknowledged_steps _ _ _ _ _ _ _ Hr) as (e & log1 & t & log2 & sys' & _ & _ & Hs & Hj & _ & Hrest). by exists sys'.
  - destruct (runs_log _ _ _ _ _ Hr) as [log ->].
    assert (ups = []) as ->.
    { enough (match (ups, @Err N Status st) with (_ :: _, Err _) => False | _ => True end) as Hu by (by destruct ups).
      refine (may_return_runs (λ x : list ConfigUpdate * result N Status, match x with (_ :: _, Err _) => False | _ => True end) _ _ _ _ _ _ Hr).
      unfold append_entry. destruct req as [p|]; [|done]. destruct (proto_to_config_entry now p); [|done].
      intros [[| | |]|]; try done. simpl. intros s0. by destruct (entries s0 !! _). }
    exists (advance log [] sys). split; [apply rtc_once; constructor|]. by rewrite journal_advance.
Qed.

Lemma step_log sys sys' : system_step sys sys' → ∃ log, sy_log sys' = sy_log sys ++ log.
Proof. destruct 1; try (by exists []; rewrite app_nil_r); by eexists. Qed.

Lemma steps_log sys sys' : rtc system_step sys sys' → ∃ log, sy_log sys' = sy_log sys ++ log.
Proof.
  induction 1 as [|x y z [l1 E1]%step_log _ [l2 E2]]; [exists []; by rewrite app_nil_r|].
  exists (l1 ++ l2). by rewrite E2, E1, app_assoc.
Qed.

Lemma journal_grows sys sys' log :
  sy_log sys' = sy_log sys ++ log → bounded sys' →
  bounded sys ∧ journal_wf (journal sys) ∧ entries (journal sys) ⊆ entries (journal sys').
Proof.
  unfold bounded, journal. intros -> Hb. rewrite length_app in Hb. rewrite apply_log_app.
  assert (journal_wf (apply_log (sy_log sys) journal_init)) as Hwf by (apply apply_log_wf; [simpl; lia|apply journal_init_wf]).
  pose proof (apply_log_next_sequence (sy_log sys) journal_init ltac:(simpl; lia)) as Hn. simpl in Hn.
  split_and!; [lia|done|]. apply apply_log_entries_mono; [lia|done].
Qed.

(** ** The invariant *)

(** An update that announces an entry of the journal. *)
Definition is_entry (s : JournalState) (u : ConfigUpdate) : Prop := ∃ k e, entries s !! k = Some e ∧ u = entry_update k e.
Definition is_action (s : JournalState) (x : N * ConfigUpdateAction) : Prop :=
  ∃ e, entries s !! x.1 = Some e ∧ x.2 = OverlayChanged (entry_to_json e).

(** A position of an agent: the start, or the number of an entry. *)
Definition is_position (s : JournalState) (k : N) : Prop := k = 0%N ∨ is_Some (entries s !! k).

Record agent_ok (s : JournalState) (a0 a : AgentNode) : Prop := {
  ok_config : an_config a = an_config a0;
  ok_header : an_header a = an_header a0;
  ok_stream : ∀ sm, an_stream a = Some sm → Forall (is_entry s) (sm_queue sm);
  ok_attempts : is_Some (an_stream a) → sub_reconnect_attempts (an_sub a) = 0%N;
  ok_position : is_position s (sub_last_sequence (an_sub a));
  ok_actions : Forall (is_action s) (sub_actions (an_sub a));
  ok_settings : same_settings (an_handles a0) (an_handles a);
  ok_refused : auth_interceptor (an_header a0) ≠ Ok () →
    an_stream a = None ∧ sub_actions (an_sub a) = [] ∧ sub_last_sequence (an_sub a) = 0%N ∧ sub_connected (an_sub a) = false;
}.

Record system_ok (agents : gmap string AgentNode) (sys : System) : Prop := {
  ok_announced : Forall (is_entry (journal sys)) (sy_announced sys);
  ok_agents : ∀ n a, sy_agents sys !! n = Some a → ∃ a0, agents !! n = Some a0 ∧ agent_ok (journal sys) a0 a;
  ok_audited : ∀ n e, (n, e) ∈ sy_audited sys → ∃ a0, agents !! n = Some a0 ∧ auth_interceptor (an_header a0) = Ok ();
}.

Lemma is_entry_mono s s' u : entries s ⊆ entries s' → is_entry s u → is_entry s' u.
Proof. intros Hsub (k & e & He & ->). exists k, e. split; [by eapply lookup_weaken|done]. Qed.
Lemma is_action_mono s s' x : entries s ⊆ entries s' → is_action s x → is_action s' x.
Proof. intros Hsub (e & He & ?). exists e. split; [by eapply lookup_weaken|done]. Qed.
Lemma is_position_mono s s' k : entries s ⊆ entries s' → is_position s k → is_position s' k.
Proof. intros Hsub [->|[e He]]; [by left|right]. exists e. by eapply lookup_weaken. Qed.
Lemma agent_ok_mono s s' a0 a : entries s ⊆ entries s' → agent_ok s a0 a → agent_ok s' a0 a.
Proof.
  intros Hsub [Hc Hh Hs Hat Hp Ha Hse Hr]. split; try done.
  - intros sm Hsm. eapply Forall_impl; [by apply Hs|]. intros u. by apply is_entry_mono.
  - by eapply is_position_mono.
  - eapply Forall_impl; [done|]. intros x. by apply is_action_mono.
Qed.

Lemma on_disconnected_keeps cfg st :
  sub_actions (on_disconnected cfg st).1 = sub_actions st ∧ sub_last_sequence (on_disconnected cfg st).1 = sub_last_sequence st ∧
  sub_connected (on_disconnected cfg st).1 = false.
Proof. unfold on_disconnected. by case_match. Qed.

Lemma deliver_actions s u st :
  is_entry s u → Forall (is_action s) (sub_actions st) → Forall (is_action s) (sub_actions (process_stream [Ok u] st)).
Proof.
  intros (k & e & He & ->) Hst. simpl. unfold process_update. simpl. destruct (sub_channel_open st); [|done].
  simpl. apply Forall_app. split; [done|]. constructor; [|done]. by exists e.
Qed.

Lemma deliver_position s u st :
  is_entry s u → is_position s (sub_last_sequence st) → is_position s (sub_last_sequence (process_stream [Ok u] st)).
Proof.
  intros (k & e & He & ->) Hst. simpl. unfold process_update. simpl. destruct (sub_channel_open st); [|done]. right. by exists e.
Qed.
Lemma deliver_attempts u st : sub_reconnect_attempts (process_stream [Ok u] st) = sub_reconnect_attempts st.
Proof. simpl. destruct (cu_update u) as [p|]; [|done]. unfold process_update. by repeat case_match. Qed.

Lemma open_config now x w : Window.win_config (Window.open now x w) = Window.win_config w.
Proof. reflexivity. Qed.

Lemma exec_window now run auth command args s :
  sh_commit_window (exec now run auth command args s).1.1 = sh_commit_window s ∨
  sh_commit_window (exec now run auth command args s).1.1 = Window.open now F64.one <$> sh_commit_window s.
Proof.
  unfold exec, authorize_exec. destruct (authenticate s auth) as [who|]; [|by left].
  repeat case_match; simplify_eq/=; auto.
Qed.

Lemma run_exec_settings now run auth command args a :
  same_settings (an_handles a) (an_handles (run_exec now run auth command args a)).
Proof.
  unfold run_exec. set (s0 := with_commit_window _ _).
  pose proof (exec_window now run auth command args s0) as Hw.
  destruct (exec now run auth command args s0) as [[s' fx] r]. simpl in *.
  split_and!; [|done|done]. simpl. by destruct Hw as [->| ->].
Qed.
Lemma run_exec_rest now run auth command args a :
  let a' := run_exec now run auth command args a in
  an_config a' = an_config a ∧ an_header a' = an_header a ∧ an_sub a' = an_sub a ∧ an_stream a' = an_stream a.
Proof. unfold run_exec. by destruct (exec _ _ _ _ _ _) as [[s' fx] r]. Qed.
Lemma run_exec_restarts now run auth command args a : an_restarts (run_exec now run auth command args a) = an_restarts a.
Proof. unfold run_exec. by destruct (exec _ _ _ _ _ _) as [[s' fx] r]. Qed.

(** The part of the invariant about agents, after a change of one of them. *)
Lemma set_agent_ok agents sys n a a' :
  system_ok agents sys → sy_agents sys !! n = Some a →
  (∀ a0, agents !! n = Some a0 → agent_ok (journal sys) a0 a → agent_ok (journal sys) a0 a') →
  system_ok agents (set_agent n a' sys).
Proof.
  intros [Han Hag Hau] Hn Ha. split; [done| |done]. intros m b. simpl.
  intros [[-> <-]|[_ Hm]]%lookup_insert_Some; [|by apply Hag].
  destruct (Hag _ _ Hn) as (a0 & H0' & Hok). exists a0. split; [done|]. by apply Ha.
Qed.

Lemma refused_no_stream s a0 a sm :
  agent_ok s a0 a → an_stream a = Some sm → auth_interceptor (an_header a0) = Ok ().
Proof.
  intros [_ _ _ _ _ _ _ Hr] Hs. destruct (auth_interceptor (an_header a0)) as [[]|st]; [done|].
  destruct (Hr ltac:(done)) as [Hn _]. congruence.
Qed.

(** A new state of the subscription and of its stream. *)
Lemma with_sub_ok s a0 a st stream :
  agent_ok s a0 a → (∀ sm, stream = Some sm → Forall (is_entry s) (sm_queue sm)) →
  (is_Some stream → sub_reconnect_attempts st = 0%N) → is_position s (sub_last_sequence st) → Forall (is_action s) (sub_actions st) →
  (auth_interceptor (an_header a0) ≠ Ok () →
     stream = None ∧ sub_actions st = [] ∧ sub_last_sequence st = 0%N ∧ sub_connected st = false) →
  agent_ok s a0 (with_sub st stream a).
Proof. intros [Hc Hh _ _ _ _ Hse _] Hs Hat Hp Ha Hr. by split. Qed.

Lemma catchup_entries from s : Forall (is_entry s) (catchup from s).
Proof. apply Forall_forall. intros u (k & e & He & _ & ->)%elem_of_catchup. by exists k, e. Qed.

Lemma disconnected_ok s a0 a : agent_ok s a0 a → agent_ok s a0 (with_sub (on_disconnected (an_config a) (an_sub a)).1 None a).
Proof.
  intros Hok. destruct (on_disconnected_keeps (an_config a) (an_sub a)) as (Ea & El & Ec).
  apply with_sub_ok; [done|done|by intros []%is_Some_None|rewrite El; apply Hok|rewrite Ea; apply Hok|]. intros Hr.
  destruct (ok_refused _ _ _ Hok Hr) as (_ & Hs & Hl & _). rewrite Ea, El, Ec. done.
Qed.

(** The journal moves on and announces entries of it. *)
Lemma advance_ok agents sys log ups :
  entries (journal sys) ⊆ entries (journal (advance log ups sys)) → Forall (is_entry (journal (advance log ups sys))) ups →
  system_ok agents sys → system_ok agents (advance log ups sys).
Proof.
  intros Hsub Hups [Han Hag Hau]. split; [|intros n a Hn|done].
  - apply Forall_app. split; [|done]. eapply Forall_impl; [done|]. intros u. by apply is_entry_mono.
  - destruct (Hag _ _ Hn) as (a0 & ? & ?). exists a0. split; [done|]. by eapply agent_ok_mono.
Qed.

Lemma step_ok agents sys sys' : system_step sys sys' → bounded sys' → system_ok agents sys → system_ok agents sys'.
Proof.
  intros Hstep Hb Hok. destruct (step_log _ _ Hstep) as [log Hlog].
  destruct (journal_grows _ _ _ Hlog Hb) as (_ & _ & Hsub). clear Hlog.
  destruct Hstep as [sys log'|sys k e He|sys n a Hn Hs _ Hi|sys n a Hn Hs _|sys n a sm u Hn Hs Hu|sys n a sm u rest Hn Hs Hq
    |sys n a sm Hn Hs|sys n a k act Hn Hact|sys n a now run auth command args Hn|sys n a e rest Hn Haud Hi|sys n a e rest st Hn Haud Hi|sys n a h shell Hn Hset].
  - by apply advance_ok.
  - apply advance_ok; [done| |done]. constructor; [|done]. exists k, e. split; [|done]. by eapply lookup_weaken.
  - eapply set_agent_ok; [done..|]. intros a0 Ha0 Ha. apply with_sub_ok; [done| |done|apply Ha|apply Ha|].
    + intros sm [= <-]. apply catchup_entries.
    + intros Hr. rewrite (ok_header _ _ _ Ha) in Hi. done.
  - eapply set_agent_ok; [done..|]. intros a0 Ha0 Ha. by apply disconnected_ok.
  - eapply set_agent_ok; [done..|]. intros a0 Ha0 Ha. pose proof (refused_no_stream _ _ _ _ Ha Hs) as Hi.
    apply with_sub_ok; [done| |intros _; apply (ok_attempts _ _ _ Ha); by eexists|apply Ha|apply Ha|done]. intros sm' [= <-]. simpl. apply Forall_app.
    split; [by apply (ok_stream _ _ _ Ha)|]. unfold live_next. destruct (_ <=? _)%N; [done|]. constructor; [|done].
    pose proof (ok_announced _ _ Hok) as Han. rewrite Forall_forall in Han. by apply Han.
  - eapply set_agent_ok; [done..|]. intros a0 Ha0 Ha. pose proof (refused_no_stream _ _ _ _ Ha Hs) as Hi.
    pose proof (ok_stream _ _ _ Ha _ Hs) as Hqs. rewrite Hq in Hqs. apply Forall_cons in Hqs as [Hu Hrest].
    apply with_sub_ok; [done|by intros sm' [= <-]| |apply deliver_position; [done|apply Ha]|apply deliver_actions; [done|apply Ha]|done].
    intros _. rewrite deliver_attempts. apply (ok_attempts _ _ _ Ha). by eexists.
  - eapply set_agent_ok; [done..|]. intros a0 Ha0 Ha. by apply disconnected_ok.
  - eapply set_agent_ok; [done..|]. intros a0 Ha0 [Hc Hh Hst Hat Hp Ha Hse Hr]. split; try done. simpl.
    rewrite Forall_forall in Ha. destruct (Ha (k, act)) as (e & _ & Hact'); [by eapply list_elem_of_lookup_2|].
    simpl in Hact'. by rewrite Hact'.
  - eapply set_agent_ok; [done..|]. intros a0 Ha0 [Hc Hh Hst Hat Hp Ha Hse Hr].
    destruct (run_exec_rest now run auth command args a) as (E1 & E2 & E3 & E4).
    destruct (run_exec_settings now run auth command args a) as (F1 & F2 & F3). destruct Hse as (G1 & G2 & G3).
    split; rewrite ?E1, ?E2, ?E3, ?E4; try done. split_and!; congruence.
  - assert (system_ok agents (set_agent n (with_audit rest a) sys)) as [Han Hag Hau'].
    { eapply set_agent_ok; [done..|]. intros a0 Ha0 [Hc Hh Hst Hat Hp Ha Hse Hr]. by split. }
    split; [done|done|]. intros m e'. simpl. intros [Hm|[= -> ->]%list_elem_of_singleton]%elem_of_app; [by apply (ok_audited _ _ Hok) in Hm|].
    destruct (ok_agents _ _ Hok _ _ Hn) as (a0 & Ha0 & Ha). exists a0. split; [done|]. by rewrite <- (ok_header _ _ _ Ha).
  - eapply set_agent_ok; [done..|]. intros a0 Ha0 [Hc Hh Hst Hat Hp Ha Hse Hr]. by split.
  - eapply set_agent_ok; [done..|]. intros a0 Ha0 [Hc Hh Hst Hat Hp Ha Hse Hr].
    split; try done; [by left|]. destruct Hse as (G1 & G2 & G3). destruct Hset as (F1 & F2 & F3). split_and!; simpl; congruence.
Qed.

(** Agents as they start. *)
Definition fresh (a : AgentNode) : Prop := an_sub a = subscription_new ∧ an_stream a = None ∧ an_taken a = 0%nat ∧ an_audit a = [] ∧ an_restarts a = 0%nat.

Lemma system_init_ok agents : map_Forall (λ _, fresh) agents → system_ok agents (system_init agents).
Proof.
  intros Hf. split; [constructor| |intros n e Hin; by apply not_elem_of_nil in Hin]. intros n a Hn. exists a. split; [done|].
  destruct (Hf _ _ Hn) as (Hs & Hst & _). split; try done; rewrite ?Hs, ?Hst; try done. by left.
Qed.

Lemma reachable_ok agents sys : map_Forall (λ _, fresh) agents → reachable agents sys → bounded sys → system_ok agents sys.
Proof.
  intros Hf. unfold reachable. revert sys. apply (rtc_ind_r (λ sys, bounded sys → system_ok agents sys)).
  - intros _. by apply system_init_ok.
  - intros x y Hx Hstep IH Hb. destruct (step_log _ _ Hstep) as [log Hlog]. destruct (journal_grows _ _ _ Hlog Hb) as (Hb' & _). eapply step_ok; eauto.
Qed.

(** ** Theorems *)

(** agents never disagree about the history: whenever two agents, at
    whatever times, were handed something under the same number, it was the
    same thing, the entry the journal holds under that number then and ever
    after, however requests, streams, broken connections and reconnects
    interleave. *)
Theorem agents_agree agents sys1 sys2 n m a b k act1 act2 :
  map_Forall (λ _, fresh) agents → reachable agents sys1 → rtc system_step sys1 sys2 → bounded sys2 →
  sy_agents sys1 !! n = Some a → sy_agents sys2 !! m = Some b →
  (k, act1) ∈ sub_actions (an_sub a) → (k, act2) ∈ sub_actions (an_sub b) →
  act1 = act2 ∧ ∃ e, entries (journal sys2) !! k = Some e ∧ act2 = OverlayChanged (entry_to_json e).
Proof.
  intros Hf Hr Hs Hb Hn Hm Ha Hb2. destruct (steps_log _ _ Hs) as [log Hlog].
  destruct (journal_grows _ _ _ Hlog Hb) as (Hb1 & _ & Hsub).
  assert (reachable agents sys2) as Hr2 by (unfold reachable in *; by etrans).
  destruct (ok_agents _ _ (reachable_ok _ _ Hf Hr Hb1) _ _ Hn) as (a0 & _ & Hoa).
  destruct (ok_agents _ _ (reachable_ok _ _ Hf Hr2 Hb) _ _ Hm) as (b0 & _ & Hob).
  pose proof (ok_actions _ _ _ Hoa) as Hacta. pose proof (ok_actions _ _ _ Hob) as Hactb. rewrite Forall_forall in Hacta, Hactb.
  destruct (Hacta _ Ha) as (e1 & He1 & E1). destruct (Hactb _ Hb2) as (e2 & He2 & E2). simpl in *.
  assert (e1 = e2) as -> by (eapply lookup_weaken in He1; [|done]; congruence). split; [congruence|by exists e2].
Qed.

(** nothing the journal announces ever changes an agent's settings: the
    commit window's parameters, the cached policy and the drift evaluator are
    those the agent started with, whatever policies are set in the journal. *)
Theorem updates_change_no_setting agents sys n a :
  map_Forall (λ _, fresh) agents → reachable agents sys → bounded sys → sy_agents sys !! n = Some a →
  ∃ a0, agents !! n = Some a0 ∧ same_settings (an_handles a0) (an_handles a).
Proof.
  intros Hf Hr Hb Hn. destruct (ok_agents _ _ (reachable_ok _ _ Hf Hr Hb) _ _ Hn) as (a0 & Ha0 & Ha).
  exists a0. split; [done|apply Ha].
Qed.

(** ** What a stream carries *)

(** The agent was handed the entry, or it is on its way on the open stream. *)
Definition handed_or_queued (k : N) (e : ConfigEntry) (a : AgentNode) : Prop :=
  (k, OverlayChanged (entry_to_json e)) ∈ sub_actions (an_sub a) ∨
  ∃ sm, an_stream a = Some sm ∧ entry_update k e ∈ sm_queue sm.

(** A step after which the agent has an open stream: the one it had before,
    when it had one. *)
Definition open_step (n : string) (x y : System) : Prop :=
  system_step x y ∧ ∃ b, sy_agents y !! n = Some b ∧ is_Some (an_stream b).

(** What an agent with an open stream keeps through the steps of the others
    and its own. *)
Definition following (k : N) (e : ConfigEntry) (n : string) (sys : System) : Prop :=
  ∃ a, sy_agents sys !! n = Some a ∧ is_Some (an_stream a) ∧ sub_channel_open (an_sub a) = true ∧ handed_or_queued k e a.

Lemma deliver_following k e u rest st sm :
  sub_channel_open st = true → sm_queue sm = u :: rest →
  (k, OverlayChanged (entry_to_json e)) ∈ sub_actions st ∨ entry_update k e ∈ sm_queue sm →
  let st' := process_stream [Ok u] st in
  sub_channel_open st' = true ∧ ((k, OverlayChanged (entry_to_json e)) ∈ sub_actions st' ∨ entry_update k e ∈ rest).
Proof.
  intros Ho Hq Hin st'. unfold st'. simpl. split.
  - destruct (cu_update u) as [p|]; [|done]. unfold process_update. destruct (update_action p); [|done]. by rewrite Ho.
  - rewrite Hq in Hin. assert (∀ x, x ∈ sub_actions st → x ∈ sub_actions (process_stream [Ok u] st)) as Hold.
    { intros x Hx. simpl. destruct (cu_update u) as [p|]; [|done]. unfold process_update. destruct (update_action p); [|done].
      rewrite Ho. simpl. set_solver. }
    destruct Hin as [Hin|[<-|Hin]%elem_of_cons]; [left; by apply Hold| |by right].
    left. simpl. unfold process_update. simpl. rewrite Ho. simpl. set_solver.
Qed.

Lemma open_step_following k e n x y : open_step n x y → following k e n x → following k e n y.
Proof.
  intros [Hstep (b & Hb & Hbs)] (a & Ha & Has & Ho & Hin).
  assert (∀ m c c' sys, sy_agents sys !! m = Some c → sy_agents sys !! n = Some a →
    (m = n → is_Some (an_stream c') → sub_channel_open (an_sub c') = true ∧ handed_or_queued k e c') →
    sy_agents (set_agent m c' sys) !! n = Some b → following k e n (set_agent m c' sys)) as Hset.
  { intros m c c' sys Hm Hn Hc Hb'. simpl in Hb'. destruct (decide (m = n)) as [->|Hne].
    - rewrite lookup_insert_eq in Hb'. injection Hb' as ->. destruct (Hc eq_refl Hbs) as [? ?].
      exists b. split; [apply lookup_insert_eq|]. by split_and!.
    - exists a. split; [simpl; by rewrite lookup_insert_ne|]. by split_and!. }
  destruct Hstep as [sys log'|sys k' e' He|sys m c Hm Hs _ Hi|sys m c Hm Hs _|sys m c sm u Hm Hs Hu|sys m c sm u rest Hm Hs Hq
    |sys m c sm Hm Hs|sys m c k' act Hm Hact|sys m c now run auth command args Hm|sys m c e' rest Hm Haud Hi|sys m c e' rest st Hm Haud Hi
    |sys m c h shell Hm Hsame];
    try (by exists a); apply (Hset m c _ _ Hm Ha); try exact Hb; intros ->; assert (c = a) as -> by congruence; simpl.
  - by rewrite Hs in Has; destruct Has.
  - by rewrite Hs in Has; destruct Has.
  - intros _. split; [done|]. destruct Hin as [?|(sm' & Hs' & Hq)]; [by left|right]. simplify_eq.
    eexists. split; [done|]. simpl. set_solver.
  - intros _. destruct (deliver_following k e u rest (an_sub a) sm Ho Hq) as [Ho' Hin'].
    { destruct Hin as [?|(sm' & Hs' & Hq')]; [by left|right]. by simplify_eq. }
    split; [done|]. destruct Hin' as [?|?]; [by left|right]. by eexists.
  - by intros [].
  - intros _. split; [done|]. by destruct Hin as [?|?]; [left|right].
  - intros _. destruct (run_exec_rest now run auth command args a) as (_ & _ & E3 & E4). unfold handed_or_queued. by rewrite E3, E4.
  - intros _. split; [done|]. by destruct Hin as [?|?]; [left|right].
  - intros _. split; [done|]. by destruct Hin as [?|?]; [left|right].
  - by intros [].
Qed.

Lemma open_steps_following k e n x y : rtc (open_step n) x y → following k e n x → following k e n y.
Proof. induction 1; [done|]. intros. eauto using open_step_following. Qed.

Lemma open_steps_log n x y : rtc (open_step n) x y → ∃ log, sy_log y = sy_log x ++ log.
Proof. intros Hs. apply steps_log. eapply rtc_subrel; [|exact Hs]. by intros ? ? []. Qed.

(** C13: an acknowledged entry is not lost by a stream: whenever, after a
    request to append it was acknowledged, an agent opens a stream from a
    number not above the entry's, the entry is from then on, whatever happens
    in the system while that stream stays open, either already handed to the
    agent, under the returned number and as the journal holds it, or waiting
    on the stream; so it was handed over whenever the stream has nothing left
    to deliver. (The agents that the program starts are refused before that,
    for want of a token.) *)
Theorem acknowledged_entry_reaches log now p h s' ups seq tr sys n a sys' b sm :
  runs_in h (apply_log log journal_init) (append_entry now (Some p)) s' (ups, Ok seq) tr →
  log ++ commands h `prefix_of` sy_log sys → bounded sys →
  sy_agents sys !! n = Some a → sub_channel_open (an_sub a) = true → (from_sequence (an_sub a) <= seq)%N →
  let opened := set_agent n (with_sub (on_connected (an_sub a)) (Some (open_stream (from_sequence (an_sub a)) (journal sys))) a) sys in
  rtc (open_step n) opened sys' → sy_agents sys' !! n = Some b → an_stream b = Some sm →
  ∃ e, proto_to_config_entry now p = Ok e ∧ entries (journal sys) !! seq = Some (with_sequence e seq) ∧
    let handed := (seq, OverlayChanged (entry_to_json (with_sequence e seq))) ∈ sub_actions (an_sub b) in
    (handed ∨ entry_update seq (with_sequence e seq) ∈ sm_queue sm) ∧ (sm_queue sm = [] → handed).
Proof.
  intros Hruns [more Hlog] Hb Hn Ho Hfrom opened Hsteps Hnb Hsm.
  destruct (append_entry_runs_in _ _ _ _ _ _ _ _ Hruns) as (e & log1 & t & log2 & log3 & Hp & Hresp & Hcmds & _ & _).
  exists e. split; [done|].
  assert (entries (journal sys) !! seq = Some (with_sequence e seq)) as He.
  { unfold journal. rewrite Hlog, Hcmds, <- !app_assoc, app_assoc. unfold bounded in Hb. rewrite Hlog, Hcmds in Hb.
    rewrite !length_app in Hb. simpl in Hb.
    apply (appended_persists (log ++ log1) t e (log2 ++ log3 ++ more) journal_init seq journal_init_wf).
    - rewrite !length_app. simpl. rewrite !length_app. lia.
    - by rewrite apply_log_app. }
  split; [done|].
  assert (following seq (with_sequence e seq) n opened) as Hf.
  { eexists. split; [apply lookup_insert_eq|]. split; [by eexists|]. split; [done|]. right. eexists. split; [done|].
    simpl. apply elem_of_catchup. eauto. }
  destruct (open_steps_following _ _ _ _ _ Hsteps Hf) as (b' & Hb' & _ & _ & Hin). assert (b' = b) as -> by congruence.
  split.
  - destruct Hin as [?|(sm' & Hsm' & Hq)]; [by left|right]. by simplify_eq.
  - intros Hempty. destruct Hin as [?|(sm' & Hsm' & Hq)]; [done|]. simplify_eq. rewrite Hempty in Hq. by apply not_elem_of_nil in Hq.
Qed.

(** C34: agents as the program starts them are cut off from a journal as the
    program starts it: their calls carry no authorization, the interceptor
    refuses them, and so no agent ever receives configuration at boot, is
    connected to the stream of updates, or leaves a command's audit entry in
    the journal. *)
Theorem started_agents_cut_off `{Zstd} (started : gmap string RunningAgent) sys :
  reachable (agent_node <$> started) sys → bounded sys →
  (∀ n a, sy_agents sys !! n = Some a → sub_connected (an_sub a) = false ∧ sub_actions (an_sub a) = []) ∧
  sy_audited sys = [] ∧
  (∀ now req s, served_boot_config NoHeader now req s = Err "missing authorization header") ∧
  (∀ K (env : BootEnv K) delta_of_json now req s,
     be_boot_config env = Some (served_boot_config NoHeader now req s) → boot_config_calls delta_of_json env = []).
Proof.
  intros Hr Hb.
  assert (map_Forall (λ _, fresh) (agent_node <$> started)) as Hf.
  { intros n a. rewrite lookup_fmap. by intros (r & _ & ->)%fmap_Some. }
  assert (∀ n a0, (agent_node <$> started) !! n = Some a0 → an_header a0 = NoHeader) as Hh.
  { intros n a. rewrite lookup_fmap. by intros (r & _ & ->)%fmap_Some. }
  pose proof (reachable_ok _ _ Hf Hr Hb) as [_ Hag Hau]. split_and!.
  - intros n a Hn. destruct (Hag _ _ Hn) as (a0 & Ha0 & Ha).
    destruct (ok_refused _ _ _ Ha) as (_ & Hact & _ & Hcon); [by rewrite (Hh _ _ Ha0)|done].
  - destruct (sy_audited sys) as [|[n e] l] eqn:E; [done|]. destruct (Hau n e) as (a0 & Ha0 & Hi); [left|].
    by rewrite (Hh _ _ Ha0) in Hi.
  - done.
  - intros K env delta_of_json now req s He. unfold boot_config_calls. by rewrite He.
Qed.
End system.

(** ** Witnesses *)

Module SystemSample.
#[export] Existing Instance JournalSample.chrono.
#[export] Existing Instance ConfigSample.json.
#[export] Existing Instance SubscriptionSample.payloads.
#[export] Existing Instance WhitelistSample.jwt.
#[export] Existing Instance BootSample.zstd.

Definition auth : AuthConfig := {| ac_issuer := ""; ac_audience := ""; ac_hmac_secret := None; ac_jwks_url := None |}.
Definition node (header : AuthHeader) : AgentNode :=
  {| an_config := subscription_config_default; an_header := header; an_sub := subscription_new; an_stream := None; an_taken := 0;
     an_handles := {| ah_drift_evaluator := drift_new [] drift_weights_default;
                      ah_commit_window := Window.window_new commit_window_config_default; ah_cached_policy := None; ah_blacklist := [] |};
     an_shell := shell_server_new auth exec_config_default "n1" "ml" true 10; an_audit := []; an_restarts := 0 |}.
Definition agents : gmap string AgentNode := {["a" := node (Header "Bearer t"); "b" := node (Header "Bearer t")]}.
Definition log : list (DateTime * JournalCommand) := [(7%Z, AppendEntry ConfigSample.entry)].
(** The entry is appended, then both agents subscribe and receive it. *)
Definition s1 : System := advance log [] (system_init agents).
Definition subscribed : AgentNode :=
  with_sub (on_connected subscription_new) (Some (open_stream 0 (journal s1))) (node (Header "Bearer t")).
Definition received : AgentNode :=
  with_sub (process_stream [Ok (entry_update 0 ConfigSample.entry)] (on_connected subscription_new))
    (Some {| sm_queue := []; sm_last_sent := 0 |}) subscribed.
Definition s3 : System := set_agent "a" received (set_agent "a" subscribed s1).
Definition s5 : System := set_agent "b" received (set_agent "b" subscribed s3).

Lemma agents_fresh : map_Forall (λ _, fresh) agents.
Proof. apply map_Forall_insert_2; [done|]. by apply map_Forall_singleton. Qed.
Lemma receives sys n : sy_log sys = log → sy_agents sys !! n = Some (node (Header "Bearer t")) →
  rtc system_step sys (set_agent n received (set_agent n subscribed sys)).
Proof.
  intros Hl Hn. assert (Hj : journal sys = journal s1) by (unfold journal; rewrite Hl; reflexivity).
  eapply rtc_l; [apply (sys_open sys n _ Hn eq_refl ltac:(done) eq_refl)|]. rewrite Hj.
  eapply rtc_l; [|apply rtc_refl].
  apply (sys_deliver (set_agent n subscribed sys) n subscribed (open_stream 0 (journal s1)) (entry_update 0 ConfigSample.entry) []).
  - apply lookup_insert_eq.
  - reflexivity.
  - vm_compute. reflexivity.
Qed.
Lemma reachable_s3 : reachable agents s3.
Proof. eapply rtc_l; [apply sys_commands|]. by apply receives. Qed.
Lemma s3_s5 : rtc system_step s3 s5.
Proof. by apply receives. Qed.
End SystemSample.
Import SystemSample.

Lemma agents_agree_witness :
  ∃ e, entries (journal s5) !! 0%N = Some e ∧ OverlayChanged [0%N] = OverlayChanged (entry_to_json e).
Proof.
  apply (agents_agree agents s3 s5 "a" "b" received received 0 (OverlayChanged [0%N]) (OverlayChanged [0%N]) agents_fresh reachable_s3 s3_s5).
  - vm_compute. reflexivity.
  - vm_compute. reflexivity.
  - vm_compute. reflexivity.
  - vm_compute. left.
  - vm_compute. left.
Defined.

Lemma updates_change_no_setting_witness :
  ∃ a0, agents !! "a" = Some a0 ∧ same_settings (an_handles a0) (an_handles received).
Proof.
  apply (updates_change_no_setting agents s3 "a" received agents_fresh reachable_s3); vm_compute; reflexivity.
Defined.

Lemma acknowledged_entry_reaches_witness :
  (0%N, OverlayChanged (entry_to_json (with_timestamp ConfigSample.entry 7))) ∈ sub_actions (an_sub received).
Proof.
  set (p := config_entry_to_proto ConfigSample.entry). set (e := with_timestamp ConfigSample.entry 7).
  assert (runs_in [Applied 7 (AppendEntry e)] (apply_log [] journal_init) (append_entry 7 (Some p)) (apply 7 (AppendEntry e) journal_init).1
    ([entry_update 0 e], Ok 0%N) [{| ev_before := journal_init; ev_cmd := AppendEntry e; ev_answer := Ok (EntryAppended 0) |}]) as Hr.
  { apply (in_write [] journal_init (AppendEntry e) _ _ ([entry_update 0 e], Ok 0%N) [] 7%Z). apply in_read. apply in_ret. }
  set (sys := advance [(7%Z, AppendEntry e)] [] (system_init agents)).
  set (a := node (Header "Bearer t")).
  set (opened := with_sub (on_connected (an_sub a)) (Some (open_stream 0 (journal sys))) a).
  set (b := with_sub (process_stream [Ok (entry_update 0 e)] (an_sub opened)) (Some {| sm_queue := []; sm_last_sent := 0 |}) opened).
  destruct (acknowledged_entry_reaches [] 7%Z p _ _ _ _ _ sys "a" a (set_agent "a" b (set_agent "a" opened sys)) b
    {| sm_queue := []; sm_last_sent := 0 |} Hr) as (e' & He & _ & _ & Hin).
  - exists []. reflexivity.
  - vm_compute. reflexivity.
  - vm_compute. reflexivity.
  - reflexivity.
  - vm_compute. discriminate.
  - apply rtc_once. split.
    + apply (sys_deliver (set_agent "a" opened sys) "a" opened (open_stream 0 (journal sys)) (entry_update 0 e) []).
      * apply lookup_insert_eq.
      * reflexivity.
      * vm_compute. reflexivity.
    + exists b. split; [apply lookup_insert_eq|]. eexists. reflexivity.
  - apply lookup_insert_eq.
  - reflexivity.
  - assert (Ok (E := Status) e' = Ok e) as [= ->] by (rewrite <- He; vm_compute; reflexivity).
    exact (Hin eq_refl).
Defined.

Lemma started_agents_cut_off_witness :
  match MainSample.start "/etc/pact/agent.toml" with
  | (_, Ok a) => sy_audited (system_init {["n7" := agent_node a]}) = []
  | _ => False
  end.
Proof.
  assert (match MainSample.start "/etc/pact/agent.toml" with (_, Ok a) => True | _ => False end) as Hs by (vm_compute; exact I).
  destruct (MainSample.start "/etc/pact/agent.toml") as [effects [a|e]]; [|exact Hs].
  refine (proj1 (proj2 (started_agents_cut_off {["n7" := a]} (system_init {["n7" := agent_node a]}) _ _))).
  - rewrite map_fmap_singleton. apply rtc_refl.
  - vm_compute. reflexivity.
Defined.
