(* ===== verification/ShellTask.v ===== *)
(** * The task of an interactive session

    The task [shell] of crates/pact-agent/src/shell/grpc_service.rs spawns for
    an open session: a reader from the terminal to the client, a loop from the
    client to the terminal, and the end of the session. Reader and loop are
    concurrent: a run is a sequence of events in any order. The last section
    puts the client of crates/pact-cli (shell_interactive) on the other side. *)

From S2P Require Import Prelude Text Types JournalState Raft ConfigService EnrollmentService CommitWindow Whitelist Shell CliCommands.
From stdpp Require Import options.

(** ** State *)

(** The reader task: between two reads, in a read, waiting for room in the
    channel to the client, or at its end. A read runs on a thread of its own,
    which holds a reference to the terminal and goes on when the reader is
    aborted. *)
Inductive Reader := Between | InRead | Sending (data : bytes) | Stopped.
#[export] Instance Reader_eq_dec : EqDecision Reader. Proof. solve_decision. Defined.

(** The task: in the loop over the client's messages, waiting to send the exit
    code, or gone. *)
Inductive Phase := Streaming | Closing | Over.
#[export] Instance Phase_eq_dec : EqDecision Phase. Proof. solve_decision. Defined.

Record Task := {
  tk_server : ShellServer;
  tk_id : string;
  tk_reader : Reader;
  tk_pty : list PtyAction;          (** what was done to the terminal *)
  tk_out : list ShellOutput;        (** what was sent to the client *)
  tk_client : bool;                 (** the client's end of the channel is there *)
  tk_killed : bool;                 (** the shell's process was killed *)
  tk_phase : Phase;
}.

(** Events: a message of the client ([None] is the end of its stream), with
    what a write to the terminal then answers; the client's end of the channel
    goes; a read starts and returns; the channel takes a chunk, or the exit
    code, or refuses it because the client's end is gone. A full channel keeps
    the last two back for any time. *)
Inductive TaskEvent :=
| ClientMsg (m : option (result ShellInput string)) (write : result nat string)
| ClientGone
| ReadStarts
| ReadReturns (r : result bytes string)
| ChunkSent
| ExitSent.

(** The task as it is spawned: the session's id is the first message. *)
Definition task_start (id : string) (s : ShellServer) : Task :=
  {| tk_server := s; tk_id := id; tk_reader := Between; tk_pty := []; tk_out := [SoSessionId id]; tk_client := true;
     tk_killed := false; tk_phase := Streaming |}.

Definition set_reader (r : Reader) (t : Task) : Task :=
  {| tk_server := tk_server t; tk_id := tk_id t; tk_reader := r; tk_pty := tk_pty t; tk_out := tk_out t; tk_client := tk_client t;
     tk_killed := tk_killed t; tk_phase := tk_phase t |}.
Definition act_on_pty (a : PtyAction) (t : Task) : Task :=
  {| tk_server := tk_server t; tk_id := tk_id t; tk_reader := tk_reader t; tk_pty := tk_pty t ++ [a]; tk_out := tk_out t;
     tk_client := tk_client t; tk_killed := tk_killed t; tk_phase := tk_phase t |}.
Definition client_gone (t : Task) : Task :=
  {| tk_server := tk_server t; tk_id := tk_id t; tk_reader := tk_reader t; tk_pty := tk_pty t; tk_out := tk_out t;
     tk_client := false; tk_killed := tk_killed t; tk_phase := tk_phase t |}.

(** The loop is left: the reader is aborted; the terminal is closed, and with
    it the shell's process killed, only when no other reference is left. *)
Definition task_end (t : Task) : Task :=
  {| tk_server := tk_server t; tk_id := tk_id t; tk_reader := if decide (tk_reader t = InRead) then InRead else Stopped;
     tk_pty := tk_pty t; tk_out := tk_out t; tk_client := tk_client t;
     tk_killed := negb (bool_decide (tk_reader t = InRead)); tk_phase := Closing |}.

(** The exit code, 0 in all cases, is sent if the client is there; then the
    session leaves the table. *)
Definition task_finish (t : Task) : Task :=
  {| tk_server := shell_end (tk_id t) (tk_server t); tk_id := tk_id t; tk_reader := tk_reader t; tk_pty := tk_pty t;
     tk_out := if tk_client t then tk_out t ++ [SoExitCode 0] else tk_out t; tk_client := tk_client t;
     tk_killed := tk_killed t; tk_phase := Over |}.

(** A message of the client. *)
Definition on_input (m : option (result ShellInput string)) (write : result nat string) (t : Task) : Task :=
  match m with
  | None | Some (Err _) | Some (Ok InClose) => task_end t
  | Some (Ok (InStdin data)) =>
      match write with Ok n => act_on_pty (PtyWrite (take n data)) t | Err _ => task_end t end
  | Some (Ok (InResize rows cols)) => act_on_pty (PtyResize (N.min rows 500) (N.min cols 500)) t
  | Some (Ok (InOpen _ _ _)) | Some (Ok InNone) => t
  end.

(** The end of a read, while the reader waits for it. *)
Definition on_read (r : result bytes string) (t : Task) : Task :=
  match r with
  | Err _ | Ok [] => set_reader Stopped t
  | Ok data => set_reader (Sending data) t
  end.

(** The answer of the channel to the reader. *)
Definition on_sent (data : bytes) (t : Task) : Task :=
  if tk_client t
  then {| tk_server := tk_server t; tk_id := tk_id t; tk_reader := Between; tk_pty := tk_pty t; tk_out := tk_out t ++ [SoStdout data];
          tk_client := tk_client t; tk_killed := tk_killed t; tk_phase := tk_phase t |}
  else set_reader Stopped t.

(** One event; [None] where it cannot happen. After the end a read that was
    going on only lets go of the terminal. *)
Definition task_step (e : TaskEvent) (t : Task) : option Task :=
  match e with
  | ClientMsg m write => if decide (tk_phase t = Streaming) then Some (on_input m write t) else None
  | ClientGone => Some (client_gone t)
  | ReadStarts => if decide (tk_reader t = Between) then Some (set_reader InRead t) else None
  | ReadReturns r =>
      if decide (tk_reader t = InRead)
      then Some (if decide (tk_phase t = Streaming) then on_read r t else set_reader Stopped t)
      else None
  | ChunkSent => match tk_reader t with Sending data => Some (on_sent data t) | _ => None end
  | ExitSent => if decide (tk_phase t = Closing) then Some (task_finish t) else None
  end.
Fixpoint task_run (evs : list TaskEvent) (t : Task) : option Task :=
  match evs with [] => Some t | e :: evs' => t' ← task_step e t; task_run evs' t' end.

(** ** What goes in *)

(** The messages of the client in a run. *)
Definition client_msg (e : TaskEvent) : option (option (result ShellInput string) * result nat string) :=
  match e with ClientMsg m write => Some (m, write) | _ => None end.
Definition client_msgs (evs : list TaskEvent) : list (result ShellInput string * result nat string) :=
  omap (λ p, (λ m, (m, p.2)) <$> p.1) (omap client_msg evs).

(** A message that ends the session. *)
Definition ends (p : option (result ShellInput string) * result nat string) : bool :=
  match p with
  | (None, _) | (Some (Err _), _) | (Some (Ok InClose), _) | (Some (Ok (InStdin _)), Err _) => true
  | _ => false
  end.

#[local] Arguments ends : simpl never.

(** The output of the shell: what reads returned up to the message that ends
    the session. *)
Fixpoint output (evs : list TaskEvent) : list bytes :=
  match evs with
  | [] => []
  | ClientMsg m write :: evs' => if ends (m, write) then [] else output evs'
  | ReadReturns (Ok (b :: data)) :: evs' => (b :: data) :: output evs'
  | _ :: evs' => output evs'
  end.

(** ** The invariant *)

Definition chunk_of (o : ShellOutput) : option bytes := match o with SoStdout d => Some d | _ => None end.
Definition sent (t : Task) : list bytes := omap chunk_of (tk_out t).
Definition waiting (t : Task) : list bytes := match tk_reader t with Sending d => [d] | _ => [] end.

(** The exit code is sent at the end, unless the client is gone. *)
Definition exit_code (t : Task) (code : list ShellOutput) : Prop :=
  match tk_phase t with
  | Over => code = [SoExitCode 0] ∨ code = [] ∧ tk_client t = false
  | _ => code = []
  end.

Record task_ok (id : string) (s0 : ShellServer) (t : Task) : Prop := {
  tok_id : tk_id t = id;
  tok_server : tk_server t = if decide (tk_phase t = Over) then shell_end id s0 else s0;
  tok_out : ∃ code, tk_out t = SoSessionId id :: (SoStdout <$> sent t) ++ code ∧ exit_code t code;
  tok_live : tk_phase t = Streaming → tk_killed t = false;
  tok_reader : tk_phase t ≠ Streaming → tk_reader t = InRead ∨ tk_reader t = Stopped;
}.

Lemma sent_parts id (chunks : list bytes) (code : list ShellOutput) :
  omap chunk_of code = [] → omap chunk_of (SoSessionId id :: (SoStdout <$> chunks) ++ code) = chunks.
Proof. intros Hc. simpl. rewrite omap_app, Hc, app_nil_r. induction chunks as [|c l IH]; [done|]. simpl. f_equal. exact IH. Qed.

Lemma task_start_ok id s : task_ok id s (task_start id s).
Proof. split; try done. by exists []. Qed.

Lemma task_end_ok id s t : task_ok id s t → tk_phase t = Streaming → task_ok id s (task_end t).
Proof.
  intros [Hid Hs (code & Ho & Hc) Hl Hr] Hd. rewrite Hd in Hs. unfold exit_code in Hc. rewrite Hd in Hc. subst code.
  split; simpl; try done; [by exists []|]. intros _. destruct (decide (tk_reader t = InRead)); auto.
Qed.

Lemma on_input_ok id s m write t : task_ok id s t → tk_phase t = Streaming → task_ok id s (on_input m write t).
Proof.
  intros Hok Hd. pose proof (task_end_ok _ _ _ Hok Hd) as He.
  assert (∀ a, task_ok id s (act_on_pty a t)) as Ha by (intros a; destruct Hok; by split).
  destruct m as [[[]|]|]; simpl; try done. by destruct write.
Qed.

Lemma set_reader_ok id s r t : task_ok id s t → tk_phase t = Streaming ∨ r = Stopped → task_ok id s (set_reader r t).
Proof. intros [Hid Hs Ho Hl Hr] Hd. split; simpl; try done. naive_solver. Qed.

Lemma on_sent_ok id s d t : task_ok id s t → tk_phase t = Streaming → task_ok id s (on_sent d t).
Proof.
  intros Hok Hd. unfold on_sent. destruct (tk_client t) eqn:Hc; [|apply set_reader_ok; auto].
  destruct Hok as [Hid Hs (code & Ho & Hcode) Hl Hr]. unfold exit_code in Hcode. rewrite Hd in Hcode. subst code. split; simpl; try done.
  exists []. unfold exit_code, sent. simpl. rewrite Hd. split; [|done]. rewrite !app_nil_r, omap_app. fold (sent t). simpl.
  rewrite fmap_app. simpl. by rewrite app_nil_r in Ho; rewrite Ho at 1.
Qed.

Lemma task_finish_ok id s t : task_ok id s t → tk_phase t = Closing → task_ok id s (task_finish t).
Proof.
  intros [Hid Hs (code & Ho & Hcode) Hl Hr] Hd. unfold exit_code in Hcode. rewrite Hd in Hcode, Hs. subst code.
  rewrite app_nil_r in Ho. split; simpl; try done; [by rewrite Hid, Hs| |by intros; apply Hr; rewrite Hd].
  unfold exit_code, sent. simpl. destruct (tk_client t) eqn:Hc.
  - exists [SoExitCode 0]. split; [|by left]. rewrite omap_app. fold (sent t). simpl. rewrite app_nil_r. by rewrite Ho at 1.
  - exists []. split; [|by right]. rewrite app_nil_r. exact Ho.
Qed.

Lemma task_step_ok id s e t t' : task_step e t = Some t' → task_ok id s t → task_ok id s t'.
Proof.
  intros Hstep Hok. pose proof (tok_reader _ _ _ Hok) as Hr. destruct e as [m write| | |r| |]; simpl in Hstep.
  - case_decide; simplify_eq. by apply on_input_ok.
  - simplify_eq. destruct Hok as [Hid Hs (code & Ho & Hcode) Hl _]. split; simpl; try done. exists code. split; [done|].
    unfold exit_code in *. simpl. destruct (tk_phase t); try done. naive_solver.
  - case_decide as Hb; simplify_eq. apply set_reader_ok; [done|]. left. destruct (tk_phase t); [done|..]; destruct Hr; congruence.
  - case_decide as Hb; simplify_eq. case_decide as Hd; [|apply set_reader_ok; auto].
    unfold on_read. destruct r as [[|b data]|]; apply set_reader_ok; auto.
  - destruct (tk_reader t) as [| |d|] eqn:Hb; simplify_eq. apply on_sent_ok; [done|].
    destruct (tk_phase t); [done|..]; destruct Hr; done.
  - case_decide; simplify_eq. by apply task_finish_ok.
Qed.

Lemma task_run_ok id s evs t t' : task_run evs t = Some t' → task_ok id s t → task_ok id s t'.
Proof.
  revert t. induction evs as [|e evs IH]; intros t; simpl; [by intros [= <-]|].
  intros (t1 & Hstep & Hrun)%bind_Some Hok. eapply IH; [done|]. by eapply task_step_ok.
Qed.

Lemma task_run_app evs1 evs2 t : task_run (evs1 ++ evs2) t = task_run evs1 t ≫= task_run evs2.
Proof. revert t. induction evs1 as [|e evs1 IH]; intros t; simpl; [done|]. destruct (task_step e t); simpl; [apply IH|done]. Qed.

(** ** The end of a session *)

(** A message that does not end the session leaves it running. *)
Lemma on_input_phase m write t :
  tk_phase t = Streaming → tk_phase (on_input m write t) = if ends (m, write) then Closing else Streaming.
Proof. intros Hd. unfold on_input, ends. repeat case_match; simplify_eq/=; done. Qed.

(** After the end of the loop nothing is read, written or killed any more. *)
Definition frozen (t t' : Task) : Prop :=
  tk_phase t' ≠ Streaming ∧ tk_pty t' = tk_pty t ∧ sent t' = sent t ∧ tk_killed t' = tk_killed t ∧
  (tk_reader t' = InRead ∨ tk_reader t' = Stopped).
Lemma task_step_frozen e t t' :
  task_step e t = Some t' → tk_phase t ≠ Streaming → tk_reader t = InRead ∨ tk_reader t = Stopped →
  client_msg e = None ∧ frozen t t'.
Proof.
  intros Hstep Hd Hr. destruct e as [m write| | |r| |]; simpl in Hstep.
  - case_decide; simplify_eq.
  - simplify_eq. done.
  - case_decide; simplify_eq. destruct Hr; congruence.
  - repeat case_decide; simplify_eq. split; [done|]. split_and!; try done. by right.
  - destruct (tk_reader t); destruct Hr; done.
  - case_decide; simplify_eq. split; [done|]. split_and!; try done. unfold sent. simpl.
    destruct (tk_client t); [|done]. by rewrite omap_app, app_nil_r.
Qed.
Lemma task_run_frozen evs t t' :
  task_run evs t = Some t' → tk_phase t ≠ Streaming → tk_reader t = InRead ∨ tk_reader t = Stopped →
  omap client_msg evs = [] ∧ frozen t t'.
Proof.
  revert t. induction evs as [|e evs IH]; intros t; simpl; [by intros [= <-]|].
  intros (t1 & Hstep & Hrun)%bind_Some Hd Hr. destruct (task_step_frozen _ _ _ Hstep Hd Hr) as [He (Hd1 & Hp1 & Hs1 & Hk1 & Hr1)].
  destruct (IH _ Hrun Hd1 Hr1) as [Hno (Hd2 & Hp2 & Hs2 & Hk2 & Hr2)]. split; [rewrite He; exact Hno|]. split_and!; [done|congruence..|done].
Qed.

Lemma task_end_reader t : tk_reader (task_end t) = InRead ∨ tk_reader (task_end t) = Stopped.
Proof. simpl. case_decide; auto. Qed.
Lemma on_input_end m write t : ends (m, write) = true → on_input m write t = task_end t.
Proof. unfold ends, on_input. intros He. repeat case_match; simplify_eq/=; done. Qed.

(** Events other than messages keep the loop and the terminal. *)
Lemma task_step_other e t t' :
  task_step e t = Some t' → client_msg e = None → tk_phase t = Streaming → tk_phase t' = Streaming ∧ tk_pty t' = tk_pty t.
Proof.
  intros Hstep He Hd. destruct e as [m write| | |r| |]; simpl in *; [done|by simplify_eq|by case_decide; simplify_eq| | |].
  - case_decide; simplify_eq. rewrite decide_True by done. by destruct r as [[]|].
  - destruct (tk_reader t); simplify_eq. unfold on_sent. by destruct (tk_client t).
  - by rewrite Hd in Hstep.
Qed.

(** The loop ends exactly with the first message of the client that ends it,
    and does to the terminal what the loop over the messages alone does,
    however reads interleave with it. *)
Lemma task_run_input evs t t' :
  task_run evs t = Some t' → tk_phase t = Streaming →
  (tk_phase t' ≠ Streaming ↔ existsb ends (omap client_msg evs) = true) ∧
  tk_pty t' = tk_pty t ++ shell_input_loop (client_msgs evs).
Proof.
  unfold client_msgs. revert t. induction evs as [|e evs IH]; intros t; simpl.
  { intros [= <-] Hd. rewrite app_nil_r, Hd. by split. }
  intros (t1 & Hstep & Hrun)%bind_Some Hd. destruct (client_msg e) as [[m write]|] eqn:He.
  - destruct e; simplify_eq/=. rewrite decide_True in Hstep by done. simplify_eq. destruct (ends (m, write)) eqn:Hend; simpl.
    + rewrite (on_input_end _ _ _ Hend) in Hrun. destruct (task_run_frozen _ _ _ Hrun ltac:(done) (task_end_reader t)) as [Hno (Hd' & Hp & _)].
      split; [by split|]. rewrite Hp, Hno. unfold ends in Hend. clear IH Hrun Hp.
      destruct m as [[[]|]|], write; simplify_eq/=; by rewrite ?app_nil_r.
    + destruct (IH _ Hrun) as [Hd' Hp]; [by rewrite on_input_phase, Hend|]. split; [done|]. rewrite Hp. unfold ends in Hend.
      repeat case_match; simplify_eq/=; by rewrite <- ?app_assoc.
  - destruct (task_step_other _ _ _ Hstep He Hd) as [Hd1 Hp1]. destruct (IH _ Hrun Hd1) as [Hd' Hp]. by rewrite Hp, Hp1.
Qed.

(** ** The output *)

Lemma frozen_stopped evs t t' :
  task_run evs t = Some t' → tk_phase t ≠ Streaming → tk_reader t = Stopped → sent t' = sent t ∧ tk_reader t' = Stopped.
Proof.
  revert t. induction evs as [|e evs IH]; intros t; simpl; [by intros [= <-]|]. intros (t1 & Hstep & Hrun)%bind_Some Hd Hr.
  destruct (task_step_frozen _ _ _ Hstep Hd (or_intror Hr)) as [_ (Hd1 & _ & Hs & _)].
  destruct (IH _ Hrun Hd1) as [-> Hr']; [|by rewrite Hs].
  destruct e; simpl in Hstep; repeat case_decide; rewrite ?Hr in Hstep; simplify_eq/=; done || congruence.
Qed.

(** A reader that has stopped reads nothing more. *)
Lemma task_run_stopped evs t t' :
  task_run evs t = Some t' → tk_phase t = Streaming → tk_reader t = Stopped →
  output evs = [] ∧ sent t' = sent t ∧ tk_reader t' = Stopped.
Proof.
  revert t. induction evs as [|e evs IH]; intros t; simpl; [by intros [= <-]|].
  intros (t1 & Hstep & Hrun)%bind_Some Hd Hr. destruct e as [m write| | |r| |]; simpl in Hstep.
  - rewrite decide_True in Hstep by done. simplify_eq. destruct (ends (m, write)) eqn:Hend.
    + rewrite (on_input_end _ _ _ Hend) in Hrun. split; [done|].
      destruct (frozen_stopped _ _ _ Hrun) as [Hs ?]; [done|simpl; by rewrite Hr|]. done.
    + destruct (IH _ Hrun) as (Ho & Hs & Hr'); [by rewrite on_input_phase, Hend|unfold on_input; by repeat case_match; simplify_eq/=|].
      split; [done|]. split; [|done]. rewrite Hs. unfold ends in Hend. by repeat case_match; simplify_eq/=.
  - simplify_eq. by apply (IH _ Hrun).
  - by rewrite Hr in Hstep.
  - by rewrite Hr in Hstep.
  - by rewrite Hr in Hstep.
  - by rewrite Hd in Hstep.
Qed.

(** What may have got lost: the last chunk, when the client has gone or the
    session was ended before the channel took it. *)
Definition may_lose (t : Task) (lost : list bytes) : Prop :=
  lost = [] ∨ (∃ d, lost = [d]) ∧ tk_reader t = Stopped ∧ (tk_client t = false ∨ tk_phase t ≠ Streaming).

Lemma client_stays_gone evs t t' : task_run evs t = Some t' → tk_client t = false → tk_client t' = false.
Proof.
  revert t. induction evs as [|e evs IH]; intros t; simpl; [by intros [= <-]|].
  intros (t1 & Hstep & Hrun)%bind_Some Hc. apply (IH _ Hrun).
  destruct e as [m write| | |r| |]; simpl in Hstep; try case_decide; simplify_eq; try done.
  - unfold on_input. by repeat case_match; simplify_eq/=.
  - case_decide; [|done]. unfold on_read. by repeat case_match; simplify_eq/=.
  - destruct (tk_reader t); simplify_eq. unfold on_sent. by rewrite Hc.
Qed.
(** What was read and not sent is waiting, or may have got lost. *)
Lemma task_run_output evs t t' :
  task_run evs t = Some t' → tk_phase t = Streaming →
  ∃ lost, sent t ++ waiting t ++ output evs = sent t' ++ waiting t' ++ lost ∧ may_lose t' lost.
Proof.
  revert t. induction evs as [|e evs IH]; intros t; simpl.
  { intros [= <-] _. exists []. split; [done|by left]. }
  intros (t1 & Hstep & Hrun)%bind_Some Hd. destruct e as [m write| | |r| |]; simpl in Hstep.
  - rewrite decide_True in Hstep by done. simplify_eq. destruct (ends (m, write)) eqn:Hend.
    + rewrite (on_input_end _ _ _ Hend) in Hrun. destruct (task_run_frozen _ _ _ Hrun ltac:(done) (task_end_reader t)) as [_ (Hd' & _ & Hs & _ & Hr)].
      exists (waiting t). rewrite Hs, app_nil_r. unfold waiting at 2. split; [by destruct Hr as [-> | ->]|].
      unfold waiting. destruct (tk_reader t) as [| |d|] eqn:Ht; [by left..| |by left]. right. split; [by eexists|]. split; [|by right].
      apply (frozen_stopped _ _ _ Hrun); [done|]. simpl. by rewrite Ht.
    + destruct (IH _ Hrun) as (lost & E & Hl); [by rewrite on_input_phase, Hend|]. exists lost. split; [|done]. rewrite <- E.
      unfold ends in Hend. by destruct m as [[[]|]|], write.
  - simplify_eq. by apply (IH _ Hrun).
  - case_decide as Hb; simplify_eq. destruct (IH _ Hrun Hd) as (lost & E & Hl). exists lost. split; [|done]. rewrite <- E.
    unfold waiting at 1. by rewrite Hb.
  - case_decide as Hb; simplify_eq. rewrite decide_True in Hrun by done.
    assert (tk_phase (on_read r t) = Streaming) as Hd1 by (by destruct r as [[]|]).
    destruct (IH _ Hrun Hd1) as (lost & E & Hl). exists lost. split; [|done]. rewrite <- E. unfold waiting at 1. rewrite Hb. by destruct r as [[]|].
  - destruct (tk_reader t) as [| |d|] eqn:Hb; simplify_eq. unfold on_sent in Hrun. unfold waiting at 1. rewrite Hb.
    destruct (tk_client t) eqn:Hc.
    + destruct (IH _ Hrun Hd) as (lost & E & Hl). exists lost. split; [|done]. rewrite <- E. unfold sent at 2. simpl.
      rewrite omap_app. simpl. by rewrite <- app_assoc.
    + destruct (task_run_stopped _ _ _ Hrun Hd eq_refl) as (-> & Hs & Hr). exists [d]. unfold waiting. rewrite Hs, Hr. split; [done|].
      right. split; [by eexists|]. split; [done|]. left. by apply (client_stays_gone _ _ _ Hrun).
  - by rewrite Hd in Hstep.
Qed.

(** ** Theorems *)

(** C38: the streams of a session, however reads, sends and messages
    interleave. The terminal gets the client's input in order, as much of each
    message as it takes, up to the message that ends the session. The client
    gets the session's id and then the output of the shell in order and
    without a gap: of what was read until the session ended only the last
    chunk can be missing, while the channel is full, or when the client had
    gone or the session ended before the channel took it; and then, if the
    client is still there, the exit code 0, whatever the shell's. The session
    ends with the first message that ends it, and stays in the table until the
    exit code was taken or refused. *)
Theorem session_streams id s evs t :
  task_run evs (task_start id s) = Some t →
  tk_pty t = shell_input_loop (client_msgs evs) ∧
  (tk_phase t ≠ Streaming ↔ existsb ends (omap client_msg evs) = true) ∧
  tk_server t = (if decide (tk_phase t = Over) then shell_end id s else s) ∧
  (∃ code, tk_out t = SoSessionId id :: (SoStdout <$> sent t) ++ code ∧ exit_code t code) ∧
  ∃ lost, output evs = sent t ++ waiting t ++ lost ∧ may_lose t lost.
Proof.
  intros Hrun. destruct (task_run_input _ _ _ Hrun eq_refl) as [Hd Hp].
  pose proof (task_run_ok _ _ _ _ _ Hrun (task_start_ok id s)) as [_ Hs Ho _ _].
  split_and!; [done|done|done|done|]. exact (task_run_output _ _ _ Hrun eq_refl).
Qed.

(** the end of a session kills its shell exactly when no read of the
    terminal is going on at that moment, and nothing kills it later: a session
    that is closed while its shell is silent leaves the shell running. *)
Theorem close_kills_shell_iff id s evs m write rest t t' :
  task_run evs (task_start id s) = Some t → tk_phase t = Streaming → ends (m, write) = true →
  task_run (evs ++ ClientMsg m write :: rest) (task_start id s) = Some t' →
  (tk_killed t' = true ↔ tk_reader t ≠ InRead) ∧ tk_phase t' ≠ Streaming ∧ sent t' = sent t.
Proof.
  intros Hrun Hd Hm. rewrite task_run_app, Hrun. simpl. rewrite decide_True by done. simpl. rewrite (on_input_end _ _ _ Hm). intros Hrest.
  destruct (task_run_frozen _ _ _ Hrest ltac:(done) (task_end_reader t)) as [_ (Hd' & _ & Hs & -> & _)].
  split; [|done]. simpl. case_bool_decide; naive_solver.
Qed.

(** ** The other side *)

(** [shell_interactive] sends the message that opens the session and holds the
    sending end of its channel until it returns: it forwards nothing, and the
    stream of its messages does not end while it waits. Of a run with it the
    task's events are reads only, until the connection breaks. *)
Definition interactive_event (e : TaskEvent) : Prop := client_msg e = None.
(** What has arrived at the client so far. *)
Definition client_view (t : Task) : list Printed * result string string := shell_stream ((λ o, Ok (Some o)) <$> tk_out t).

Lemma interactive_no_msgs evs : Forall interactive_event evs → omap client_msg evs = [].
Proof. induction 1 as [|e evs He _ IH]; [done|]. simpl. by rewrite He. Qed.

Lemma view_chunks id chunks :
  shell_stream ((λ o, Ok (Some o)) <$> SoSessionId id :: (SoStdout <$> chunks)) =
  (PrintErr ("Shell session: " +:+ id) :: (PrintOut <$> chunks), Ok "Shell session ended.").
Proof.
  assert (shell_stream ((λ o, Ok (Some o)) <$> (SoStdout <$> chunks)) = (PrintOut <$> chunks, Ok "Shell session ended.")) as Hc.
  { induction chunks as [|c chunks IH]; [done|]. rewrite !fmap_cons. simpl. simpl in IH. by rewrite IH. }
  rewrite fmap_cons. simpl. simpl in Hc. by rewrite Hc.
Qed.

(** while the client waits, a session opened with it never ends: no
    input reaches its terminal, no exit code is sent even when the shell
    has exited, and the session keeps its place in the table; the client
    prints the output it was sent. *)
Theorem interactive_session_never_ends id s evs t :
  Forall interactive_event evs → task_run evs (task_start id s) = Some t →
  tk_phase t = Streaming ∧ tk_pty t = [] ∧ tk_server t = s ∧
  client_view t = (PrintErr ("Shell session: " +:+ id) :: (PrintOut <$> sent t), Ok "Shell session ended.").
Proof.
  intros Hall%interactive_no_msgs Hrun.
  pose proof (task_run_ok _ _ _ _ _ Hrun (task_start_ok id s)) as [_ Hs (code & Ho & Hc) _ _].
  destruct (task_run_input _ _ _ Hrun eq_refl) as [Hd Hp]. unfold client_msgs in Hp. rewrite Hall in Hd, Hp.
  assert (tk_phase t = Streaming) as Hst by (apply dec_stable; intros Hn; by apply Hd in Hn).
  unfold exit_code in Hc. rewrite Hst in Hc, Hs. subst code. split_and!; [done..|].
  unfold client_view. rewrite Ho at 1. by rewrite app_nil_r, view_chunks.
Qed.

(** ** The list of commands *)

(** [exec_commands] and [shell_commands]: by ascending name. *)
Definition entry_le (a b : WhitelistEntry) : Prop := text_le (wl_command a) (wl_command b).
#[export] Instance entry_le_dec : RelDecision entry_le.
Proof. intros a b. unfold entry_le. apply _. Defined.
Definition exec_commands (w : WhitelistManager) : list WhitelistEntry := sort_by entry_le (hash_values (exec_whitelist w)).
Definition shell_commands (w : WhitelistManager) : list WhitelistEntry := sort_by entry_le (hash_values (shell_whitelist w)).

(** [list_commands] of the service: a header must be there, whatever it
    says. *)
Definition grpc_list_commands (header : option string) (s : ShellServer) : result (list CommandEntry) Status :=
  let? _ := extract_auth header in
  Ok ((λ e, {| ce_command := wl_command e; ce_state_changing := wl_state_changing e; ce_description := wl_description e |}) <$>
      exec_commands (sh_whitelist s)).

(** Entries are filed under their command. *)
Definition filed (m : gmap string WhitelistEntry) : Prop := map_Forall (λ k e, wl_command e = k) m.

Lemma load_defaults_filed : filed (exec_whitelist (whitelist_new true)).
Proof. apply (bool_decide_unpack _). vm_compute. exact I. Qed.
Lemma add_from_policy_filed m cmd : filed m → filed (add_from_policy m cmd).
Proof. intros Hm. unfold add_from_policy. destruct (m !! cmd); [done|]. by apply map_Forall_insert_2. Qed.
Lemma policy_filed cmds m : filed m → filed (foldl add_from_policy m cmds).
Proof. revert m. induction cmds as [|c cmds IH]; intros m Hm; [done|]. by apply IH, add_from_policy_filed. Qed.
Lemma resolve_filed path_exists path_var m : filed m → filed (resolve_entry path_exists path_var <$> m).
Proof.
  intros Hm k e. rewrite lookup_fmap. intros (e' & He & ->)%fmap_Some. rewrite <- (Hm k e' He).
  unfold resolve_entry. by destruct (wl_binary_path e').
Qed.

(** the list of commands names exactly the commands that are allowed, each
    with the class the check uses, and is given to every caller with some
    authorization header, valid or not; without one it is refused. *)
Theorem list_commands_exact s :
  filed (exec_whitelist (sh_whitelist s)) →
  grpc_list_commands None s = Err (mkStatus Unauthenticated "missing authorization header") ∧
  ∀ header, ∃ l, grpc_list_commands (Some header) s = Ok l ∧
    (∀ c, c ∈ ce_command <$> l ↔ is_exec_allowed (sh_whitelist s) c = true) ∧
    Forall (λ e, ce_state_changing e = is_state_changing (sh_whitelist s) (ce_command e)) l.
Proof.
  intros Hf. split; [done|]. intros header. eexists. split; [reflexivity|].
  assert (∀ e, e ∈ exec_commands (sh_whitelist s) ↔ exec_whitelist (sh_whitelist s) !! wl_command e = Some e) as Hin.
  { intros e. unfold exec_commands. rewrite sort_by_perm, elem_of_hash_values. split; [|by eexists].
    intros [k Hk]. by rewrite (Hf k e Hk). }
  split.
  - intros c. unfold is_exec_allowed. rewrite bool_decide_eq_true, <- list_fmap_compose, list_elem_of_fmap. split.
    + intros (e & -> & He%Hin). by eexists.
    + intros [e He]. exists e. simpl. rewrite Hin, (Hf c e He). done.
  - apply Forall_fmap, Forall_forall. intros e He%Hin. unfold is_state_changing. simpl. by rewrite He.
Qed.

(** ** Witnesses *)

Module TaskSample.
(** The terminal prints and the client types; a read is going on. *)
Definition before : list TaskEvent :=
  [ReadStarts; ClientMsg (Some (Ok (InStdin [108; 115]%N))) (Ok 1%nat); ReadReturns (Ok [36]%N); ChunkSent; ReadStarts].
(** The client closes, and is gone before the exit code is sent. *)
Definition closed : list TaskEvent := before ++ [ClientMsg (Some (Ok InClose)) (Ok 0%nat); ClientGone; ExitSent].
Definition silent : list TaskEvent := [ReadStarts; ReadReturns (Ok [36]%N); ChunkSent; ReadStarts; ReadReturns (Err "EIO")].
Definition state (evs : list TaskEvent) : option Task := task_run evs (task_start "s1" ShellSample.opened.1).
End TaskSample.
Import TaskSample.

Lemma session_streams_witness :
  match state closed with
  | Some t => tk_pty t = [PtyWrite [108]%N] ∧ tk_phase t = Over ∧ sent t = [[36]%N] ∧ tk_server t = shell_end "s1" ShellSample.opened.1
  | None => False
  end.
Proof.
  destruct (state closed) as [t|] eqn:Ht; [|vm_compute in Ht; discriminate Ht].
  assert (tk_phase t = Over ∧ tk_reader t = InRead) as [Hph Hre] by (vm_compute in Ht; injection Ht as <-; split; reflexivity).
  destruct (session_streams "s1" ShellSample.opened.1 closed t Ht) as (Hp & _ & Hs & _ & lost & Ho & Hl).
  split; [exact Hp|]. split; [exact Hph|]. rewrite decide_True in Hs by exact Hph. split; [|exact Hs].
  destruct Hl as [->|(_ & Hr & _)]; [|rewrite Hr in Hre; discriminate Hre].
  unfold waiting in Ho. rewrite Hre, app_nil_r in Ho. symmetry. exact Ho.
Defined.

Lemma close_kills_shell_iff_witness :
  match state closed with
  | Some t => tk_killed t ≠ true
  | None => False
  end.
Proof.
  destruct (state before) as [t|] eqn:Ht; [|vm_compute in Ht; discriminate Ht].
  destruct (state closed) as [t'|] eqn:Ht'; [|vm_compute in Ht'; discriminate Ht'].
  assert (tk_phase t = Streaming ∧ tk_reader t = InRead) as [Hd Hr] by (vm_compute in Ht; injection Ht as <-; split; reflexivity).
  destruct (close_kills_shell_iff "s1" ShellSample.opened.1 before (Some (Ok InClose)) (Ok 0%nat) [ClientGone; ExitSent] t t' Ht Hd eq_refl Ht') as (Hk & _).
  intros Ek. apply (proj1 Hk Ek Hr).
Defined.

Lemma interactive_session_never_ends_witness :
  match state silent with
  | Some t => tk_phase t = Streaming ∧ tk_pty t = []
  | None => False
  end.
Proof.
  destruct (state silent) as [t|] eqn:Ht; [|vm_compute in Ht; discriminate Ht].
  destruct (interactive_session_never_ends "s1" ShellSample.opened.1 silent t ltac:(repeat constructor) Ht) as (Hd & Hp & _).
  split; [exact Hd|exact Hp].
Defined.

Lemma list_commands_exact_witness :
  grpc_list_commands None ShellSample.server = Err (mkStatus Unauthenticated "missing authorization header").
Proof. apply (list_commands_exact ShellSample.server load_defaults_filed). Defined.
