(* ===== verification/Opa.v ===== *)
(** * The client of the policy service

    crates/pact-policy/src/rules/opa.rs: the HTTP client of the Open Policy
    Agent and the mock client. Sending a request and reading its answer are
    parameters; a run is the list of addresses asked, and the decision. *)

From S2P Require Import Prelude Text Types Rbac PolicyEngine Agent.
From Stdlib Require Import Ascii.
From stdpp Require Import options.

Record HttpOpaClient := { ho_base_url : string }.
Definition http_opa_new (endpoint : string) : HttpOpaClient := {| ho_base_url := trim_end_matches "/"%char endpoint |}.

Section http.
Context {Resp : Type}.
(** [post().json().send()], and [json()] of the two answers: their [result],
    if there is one. *)
Context (send : string → OpaInput → result Resp string).
Context (allow_json : Resp → result (option bool) string) (reason_json : Resp → result (option string) string).

Definition allow_url (c : HttpOpaClient) : string := ho_base_url c +:+ "/v1/data/pact/authz/allow".
Definition deny_url (c : HttpOpaClient) : string := ho_base_url c +:+ "/v1/data/pact/authz/deny_reason".

(** The second request, for the reason. *)
Definition ask_reason (c : HttpOpaClient) (input : OpaInput) : result OpaDecision PolicyError :=
  match send (deny_url c) input with
  | Err e => Err (OpaError ("OPA deny_reason request failed: " +:+ e))
  | Ok resp => match reason_json resp with
               | Err e => Err (OpaError ("OPA deny_reason response parse failed: " +:+ e))
               | Ok reason => Ok (OpaDeny (default "denied by OPA policy" reason))
               end
  end.

(** [HttpOpaClient::evaluate]. *)
Definition http_opa_evaluate (c : HttpOpaClient) (input : OpaInput) : list string * result OpaDecision PolicyError :=
  match send (allow_url c) input with
  | Err e => ([allow_url c], Err (OpaError ("OPA request failed: " +:+ e)))
  | Ok resp => match allow_json resp with
               | Err e => ([allow_url c], Err (OpaError ("OPA response parse failed: " +:+ e)))
               | Ok allowed => if default false allowed then ([allow_url c], Ok OpaAllow)
                               else ([allow_url c; deny_url c], ask_reason c input)
               end
  end.

(** What a policy evaluates to at an address, if an answer arrives. *)
Definition answered_true (c : HttpOpaClient) (input : OpaInput) : Prop :=
  ∃ resp, send (allow_url c) input = Ok resp ∧ allow_json resp = Ok (Some true).

(** the client allows a request exactly when the service answered that it
    is allowed; an undefined or negative answer, an answer that cannot be read
    and a service that cannot be reached never allow it. The reason is asked
    for only after an answer that does not allow, and no address is asked
    twice. *)
Theorem opa_allows_iff c input :
  let '(asked, r) := http_opa_evaluate c input in
  (r = Ok OpaAllow ↔ answered_true c input) ∧
  NoDup asked ∧ (deny_url c ∈ asked → r ≠ Ok OpaAllow) ∧
  (∀ reason, r = Ok (OpaDeny reason) → asked = [allow_url c; deny_url c]).
Proof.
  assert (allow_url c ≠ deny_url c) as Hne.
  { unfold allow_url, deny_url. intros Heq%append_inj_l. discriminate Heq. }
  assert (ask_reason c input ≠ Ok OpaAllow) as Hr by (unfold ask_reason; by repeat case_match).
  unfold http_opa_evaluate, answered_true. destruct (send (allow_url c) input) as [resp|e] eqn:Es.
  - destruct (allow_json resp) as [[[]|]|e] eqn:Ea; simpl.
    + split; [split; [by exists resp|done]|]. split; [apply NoDup_singleton|]. split; [set_solver|done].
    + split; [split; [done|by intros (? & [= <-] & ?); congruence]|]. split; [repeat constructor; set_solver|]. done.
    + split; [split; [done|by intros (? & [= <-] & ?); congruence]|]. split; [repeat constructor; set_solver|]. done.
    + split; [split; [done|by intros (? & [= <-] & ?); congruence]|]. split; [apply NoDup_singleton|]. done.
  - split; [split; [done|by intros (? & ? & ?)]|]. split; [apply NoDup_singleton|]. done.
Qed.

(** As the client of an engine. *)
Definition http_opa_client (c : HttpOpaClient) : OpaClient := λ input, (http_opa_evaluate c input).2.
End http.

(** [MockOpaClient]. *)
Record MockOpaClient := { mo_healthy : bool; mo_decision : OpaDecision }.
Definition mock_allowing : MockOpaClient := {| mo_healthy := true; mo_decision := OpaAllow |}.
Definition mock_denying (reason : string) : MockOpaClient := {| mo_healthy := true; mo_decision := OpaDeny reason |}.
Definition mock_unavailable : MockOpaClient := {| mo_healthy := false; mo_decision := OpaAllow |}.
Definition mock_evaluate (c : MockOpaClient) : OpaClient :=
  λ _, if mo_healthy c then Ok (mo_decision c) else Err (OpaError "OPA service unavailable").

(** The addresses for a service on this host. *)
Example opa_urls : allow_url (http_opa_new "http://localhost:8181//") = "http://localhost:8181/v1/data/pact/authz/allow".
Proof. reflexivity. Qed.
