(* ===== verification/Broadcast.v ===== *)
(** * What the journal promises its agents

    An abstract specification of the distribution of entries, a growing
    history and for each agent the numbers it was handed since it was last
    started, and the proof that the system of [System] implements it: a forward
    simulation, in which a delivery is a step of the specification, growth of
    the journal and an agent's restart are others, and everything else
    stutters. The specification's own theorems then hold of
    the system. *)

From S2P Require Import Prelude Text Float64 Types JournalState JournalInvariants JournalProperties Raft.
From S2P Require Import ConfigService EnrollmentService BootStream Subscription CommitWindow Conflict Drift Supervisor Agent.
From S2P Require Import BootInit Whitelist Shell AgentStart JournalServer Config AgentMain System.
From stdpp Require Import options.

(** ** The specification *)

(** For each agent, how often it was restarted and what it was handed since. *)
Record Broadcast := { bc_history : gmap N ConfigEntry; bc_delivered : gmap string (nat * list N) }.

Inductive bc_step : Broadcast → Broadcast → Prop :=
(** The history grows. *)
| bc_record b h' : bc_history b ⊆ h' → bc_step b {| bc_history := h'; bc_delivered := bc_delivered b |}
(** An entry of the history is handed to an agent, never an older one than
    those it has. *)
| bc_deliver b n i ks k :
    bc_delivered b !! n = Some (i, ks) → is_Some (bc_history b !! k) → Forall (λ j, (j <= k)%N) ks →
    bc_step b {| bc_history := bc_history b; bc_delivered := <[n := (i, ks ++ [k])]> (bc_delivered b) |}
(** An agent starts anew. *)
| bc_restart b n i ks :
    bc_delivered b !! n = Some (i, ks) →
    bc_step b {| bc_history := bc_history b; bc_delivered := <[n := (S i, [])]> (bc_delivered b) |}.

(** A number an agent has been passed by, in the time since a restart; or that
    time is over. *)
Definition passed_by (n : string) (i : nat) (k : N) (b : Broadcast) : Prop :=
  ∃ i' ks, bc_delivered b !! n = Some (i', ks) ∧ i <= i' ∧ (i' = i → (k ∉ ks) ∧ ∃ j, j ∈ ks ∧ (k < j)%N).

Lemma passed_by_step n i k b b' : bc_step b b' → passed_by n i k b → passed_by n i k b'.
Proof.
  intros [c h' _|c m i0 ks l Hm _ Hle|c m i0 ks Hm] (i' & ks' & Hn & Hi & Hk); [by exists i', ks'| |].
  - destruct (decide (m = n)) as [->|Hne]; [|exists i', ks'; simpl; by rewrite lookup_insert_ne].
    assert (i0 = i' ∧ ks = ks') as [-> ->] by (by simplify_eq). exists i', (ks' ++ [l]). simpl. rewrite lookup_insert_eq. split_and!; [done|done|]. intros Hi'.
    destruct (Hk Hi') as (Hnin & j & Hj & Hlt). split; [|exists j; set_solver].
    rewrite Forall_forall in Hle. specialize (Hle j Hj). rewrite elem_of_app, list_elem_of_singleton. intros [?| ->]; [done|lia].
  - destruct (decide (m = n)) as [->|Hne]; [|exists i', ks'; simpl; by rewrite lookup_insert_ne].
    assert (i0 = i') as -> by (by simplify_eq). exists (S i'), []. simpl. rewrite lookup_insert_eq. split_and!; [done|lia|lia].
Qed.
Lemma passed_by_steps n i k b b' : rtc bc_step b b' → passed_by n i k b → passed_by n i k b'.
Proof. induction 1; [done|]. intros. eauto using passed_by_step. Qed.

(** In the order of their numbers, each of the history. *)
Definition bc_ok (b : Broadcast) : Prop :=
  ∀ n i ks, bc_delivered b !! n = Some (i, ks) → StronglySorted N.le ks ∧ Forall (λ k, is_Some (bc_history b !! k)) ks.

Lemma sorted_snoc (ks : list N) k : StronglySorted N.le ks → Forall (λ j, (j <= k)%N) ks → StronglySorted N.le (ks ++ [k]).
Proof.
  induction 1 as [|x ks Hs IH Hx]; simpl; [by repeat constructor|]. intros [? ?]%Forall_cons.
  constructor; [by apply IH|]. apply Forall_app. by repeat constructor.
Qed.

Lemma bc_step_ok b b' : bc_step b b' → bc_ok b → bc_ok b'.
Proof.
  intros [c h' Hsub|c m i ks l Hm Hl Hle|c m i ks Hm] Hok n i' ks'; simpl.
  - intros Hn. destruct (Hok n i' ks' Hn) as [Hs Hf]. split; [done|]. eapply Forall_impl; [done|].
    intros k [e He]. exists e. by eapply lookup_weaken.
  - intros [[-> [= <- <-]]|[_ Hn]]%lookup_insert_Some; [|by apply (Hok n i')]. destruct (Hok _ _ _ Hm) as [Hs Hf].
    split; [by apply sorted_snoc|]. apply Forall_app. by repeat constructor.
  - intros [[-> [= <- <-]]|[_ Hn]]%lookup_insert_Some; [|by apply (Hok n i')]. split; constructor.
Qed.
Lemma bc_steps_ok b b' : rtc bc_step b b' → bc_ok b → bc_ok b'.
Proof. induction 1; [done|]. intros. eauto using bc_step_ok. Qed.

(** ** The system implements it *)

Section refinement.
Context `{Chrono} `{EntryJson} `{PayloadJson} `{JwtApi}.

Definition numbers (a : AgentNode) : list N := (sub_actions (an_sub a)).*1.
Definition handed (a : AgentNode) : nat * list N := (an_restarts a, numbers a).
Definition abstract (sys : System) : Broadcast :=
  {| bc_history := entries (journal sys); bc_delivered := handed <$> sy_agents sys |}.

(** What is on its way to an agent is newer than what it has, in order. *)
Record order_ok (a : AgentNode) : Prop := {
  oo_bound : Forall (λ k, (k <= sub_last_sequence (an_sub a))%N) (numbers a);
  oo_queue : ∀ sm, an_stream a = Some sm → StronglySorted seq_lt (sm_queue sm) ∧
    Forall (λ u, (sub_last_sequence (an_sub a) <= cu_sequence u <= sm_last_sent sm)%N) (sm_queue sm) ∧
    (sub_last_sequence (an_sub a) <= sm_last_sent sm)%N;
}.
Definition all_ordered (sys : System) : Prop := map_Forall (λ _, order_ok) (sy_agents sys).

Lemma seq_lt_snoc us u :
  StronglySorted seq_lt us → Forall (λ v, (cu_sequence v < cu_sequence u)%N) us → StronglySorted seq_lt (us ++ [u]).
Proof.
  induction 1 as [|x us Hs IH Hx]; simpl; [by repeat constructor|]. intros [? ?]%Forall_cons.
  constructor; [by apply IH|]. apply Forall_app. by repeat constructor.
Qed.

Lemma open_order s a :
  entries_wf s → is_position s (sub_last_sequence (an_sub a)) → Forall (λ k, (k <= sub_last_sequence (an_sub a))%N) (numbers a) →
  order_ok (with_sub (on_connected (an_sub a)) (Some (open_stream (from_sequence (an_sub a)) s)) a).
Proof.
  intros Hwf Hp Hb. split; [done|]. intros sm [= <-]. simpl. unfold from_sequence. set (k := sub_last_sequence (an_sub a)) in *.
  pose proof (proj1 Hwf) as Hdom.
  destruct (last_sent_spec k s Hwf) as [[Hlt ->]|(Hge & -> & ->)].
  - split; [apply catchup_sorted|]. split; [|lia]. apply Forall_forall. intros u (j & e & He & Hj & ->)%elem_of_catchup. simpl.
    assert (j < next_sequence s)%N by (apply Hdom; by eexists). lia.
  - split; [constructor|]. split; [constructor|]. destruct Hp as [->|Hk%Hdom]; lia.
Qed.

Lemma closed_order st a : sub_actions st = sub_actions (an_sub a) → sub_last_sequence st = sub_last_sequence (an_sub a) →
  order_ok a → order_ok (with_sub st None a).
Proof. intros Ea El [Hb _]. split; [|done]. unfold numbers. simpl. by rewrite Ea, El. Qed.

Lemma live_order a sm u :
  order_ok a → an_stream a = Some sm →
  order_ok (with_sub (an_sub a)
    (Some {| sm_queue := sm_queue sm ++ (live_next (sm_last_sent sm) u).2; sm_last_sent := (live_next (sm_last_sent sm) u).1 |}) a).
Proof.
  intros [Hb Hq] Hs. destruct (Hq sm Hs) as (Hso & Hr & Hl). split; [done|]. intros sm' [= <-]. unfold live_next.
  destruct (N.leb_spec (cu_sequence u) (sm_last_sent sm)) as [_|Hu]; simpl; [by rewrite app_nil_r|]. split_and!; [| |lia].
  - apply seq_lt_snoc; [done|]. eapply Forall_impl; [done|]. simpl. lia.
  - apply Forall_app. split; [|repeat constructor; lia]. eapply Forall_impl; [done|]. simpl. lia.
Qed.

(** Delivery of the head of the queue: nothing when the agent's channel is
    closed. *)
Lemma deliver_cases s u st :
  is_entry s u → let st' := process_stream [Ok u] st in
  st' = st ∨ (sub_actions st').*1 = (sub_actions st).*1 ++ [cu_sequence u] ∧ sub_last_sequence st' = cu_sequence u.
Proof.
  intros (k & e & He & ->). simpl. unfold process_update. simpl. destruct (sub_channel_open st); [right|by left].
  split; [|done]. simpl. by rewrite fmap_app.
Qed.

Lemma deliver_order s a sm u rest :
  order_ok a → an_stream a = Some sm → sm_queue sm = u :: rest → is_entry s u →
  order_ok (with_sub (process_stream [Ok u] (an_sub a)) (Some {| sm_queue := rest; sm_last_sent := sm_last_sent sm |}) a).
Proof.
  intros [Hb Hq] Hs Hu Hent. destruct (Hq sm Hs) as (Hso & Hr & Hl). rewrite Hu in Hso, Hr.
  inversion Hso as [|? ? Hso' Hlt]; subst. apply Forall_cons in Hr as [Hru Hr].
  destruct (deliver_cases s u (an_sub a) Hent) as [->|[Ea El]].
  - split; [done|]. by intros sm' [= <-].
  - split; unfold numbers; simpl.
    + simpl in Ea, El. rewrite Ea, El. apply Forall_app. split; [|by repeat constructor].
      eapply Forall_impl; [exact Hb|]. simpl. lia.
    + intros sm' [= <-]. simpl in El. rewrite El. simpl. split; [done|]. split; [|lia].
      apply Forall_forall. intros v Hv. rewrite Forall_forall in Hlt, Hr. specialize (Hlt v Hv). specialize (Hr v Hv).
      unfold seq_lt in Hlt. lia.
Qed.

Lemma step_ordered agents sys sys' :
  system_step sys sys' → bounded sys → system_ok agents sys → all_ordered sys → all_ordered sys'.
Proof.
  intros Hstep Hb Hok Hord.
  assert (∀ n a a', sy_agents sys !! n = Some a → (order_ok a → order_ok a') → all_ordered (set_agent n a' sys)) as Hset.
  { intros n a a' Hn Ha. apply map_Forall_insert_2; [|done]. apply Ha, (Hord n a Hn). }
  destruct Hstep as [sys log'|sys k e He|sys n a Hn Hs _ Hi|sys n a Hn Hs _|sys n a sm u Hn Hs Hu|sys n a sm u rest Hn Hs Hq
    |sys n a sm Hn Hs|sys n a k act Hn Hact|sys n a now run auth command args Hn|sys n a e rest Hn Haud Hi|sys n a e rest st Hn Haud Hi|sys n a h shell Hn Hsame];
    try done; try (apply (Hset n a _ Hn); intros Ho).
  - destruct (ok_agents _ _ Hok _ _ Hn) as (a0 & _ & Ha). apply open_order; [|apply Ha|apply Ho].
    by destruct (journal_grows sys sys [] ltac:(by rewrite app_nil_r) Hb) as (_ & [? _ _ _] & _).
  - by apply closed_order; [apply on_disconnected_keeps..|].
  - by apply live_order.
  - destruct (ok_agents _ _ Hok _ _ Hn) as (a0 & _ & Ha). pose proof (ok_stream _ _ _ Ha _ Hs) as Hqs.
    rewrite Hq in Hqs. apply Forall_cons in Hqs as [Hu _]. by eapply deliver_order.
  - by apply closed_order; [apply on_disconnected_keeps..|].
  - by destruct Ho.
  - destruct (run_exec_rest now run auth command args a) as (_ & _ & E3 & E4). destruct Ho as [Hbd Hqu].
    split; unfold numbers; rewrite ?E3, ?E4; done.
  - by destruct Ho.
  - by destruct Ho.
  - split; [constructor|done].
Qed.

(** ** The simulation *)

Lemma abstract_set_agent n a a' sys :
  sy_agents sys !! n = Some a → handed a' = handed a → abstract (set_agent n a' sys) = abstract sys.
Proof.
  intros Hn Ha. unfold abstract, set_agent. simpl. f_equal. rewrite fmap_insert, Ha. apply insert_id.
  by rewrite lookup_fmap, Hn.
Qed.
Lemma abstract_advance log ups sys : abstract (advance log ups sys) =
  {| bc_history := entries (journal (advance log ups sys)); bc_delivered := bc_delivered (abstract sys) |}.
Proof. done. Qed.

(** A step of the system is a step of the specification or none. *)
Lemma step_simulated agents sys sys' :
  system_step sys sys' → bounded sys' → system_ok agents sys → all_ordered sys →
  abstract sys' = abstract sys ∨ bc_step (abstract sys) (abstract sys').
Proof.
  intros Hstep Hb Hok Hord. destruct (step_log _ _ Hstep) as [log Hlog].
  destruct (journal_grows _ _ _ Hlog Hb) as (_ & _ & Hsub). clear Hlog.
  assert (∀ n a a', sy_agents sys !! n = Some a → handed a' = handed a → abstract (set_agent n a' sys) = abstract sys) as Hset
    by (intros; by eapply abstract_set_agent).
  destruct Hstep as [sys log'|sys k e He|sys n a Hn Hs _ Hi|sys n a Hn Hs _|sys n a sm u Hn Hs Hu|sys n a sm u rest Hn Hs Hq
    |sys n a sm Hn Hs|sys n a k act Hn Hact|sys n a now run auth command args Hn|sys n a e rest Hn Haud Hi|sys n a e rest st Hn Haud Hi|sys n a h shell Hn Hsame];
    try (left; by apply (Hset n a)).
  - right. rewrite abstract_advance. by apply bc_record.
  - right. rewrite abstract_advance. by apply bc_record.
  - left. apply (Hset n a); [done|]. unfold handed, numbers. simpl. by rewrite (proj1 (on_disconnected_keeps (an_config a) (an_sub a))).
  - destruct (ok_agents _ _ Hok _ _ Hn) as (a0 & _ & Ha). pose proof (ok_stream _ _ _ Ha _ Hs) as Hqs.
    rewrite Hq in Hqs. apply Forall_cons in Hqs as [Hu _].
    destruct (deliver_cases _ u (an_sub a) Hu) as [E|[E _]]; [left; apply (Hset n a); [done|]; unfold handed, numbers; simpl; simpl in E; by rewrite E|].
    right. destruct (Hord n a Hn) as [Hbd Hqu]. destruct (Hqu sm Hs) as (_ & Hr & _). rewrite Hq in Hr. apply Forall_cons in Hr as [Hr _].
    assert (abstract (set_agent n (with_sub (process_stream [Ok u] (an_sub a)) (Some {| sm_queue := rest; sm_last_sent := sm_last_sent sm |}) a) sys) =
      {| bc_history := bc_history (abstract sys); bc_delivered := <[n := (an_restarts a, numbers a ++ [cu_sequence u])]> (bc_delivered (abstract sys)) |}) as ->.
    { unfold abstract at 1, set_agent. simpl. rewrite fmap_insert. unfold handed at 1, numbers at 1. simpl. simpl in E. by rewrite E. }
    apply bc_deliver; [simpl; by rewrite lookup_fmap, Hn| |].
    + destruct Hu as (k & e & He & ->). by exists e.
    + eapply Forall_impl; [exact Hbd|]. simpl. lia.
  - left. apply (Hset n a); [done|]. unfold handed, numbers. simpl. by rewrite (proj1 (on_disconnected_keeps (an_config a) (an_sub a))).
  - left. apply (Hset n a); [done|]. unfold handed, numbers.
    destruct (run_exec_rest now run auth command args a) as (_ & _ & -> & _). by rewrite run_exec_restarts.
  - right. unfold abstract, set_agent. simpl. rewrite fmap_insert. apply (bc_restart (abstract sys) n (an_restarts a) (numbers a)).
    simpl. by rewrite lookup_fmap, Hn.
Qed.

Lemma system_init_ordered agents : map_Forall (λ _, fresh) agents → all_ordered (system_init agents).
Proof.
  intros Hf n a Hn. destruct (Hf n a Hn) as (Hs & Hst & _). split; [|by rewrite Hst]. unfold numbers. rewrite Hs. constructor.
Qed.

Lemma reachable_ordered agents sys : map_Forall (λ _, fresh) agents → reachable agents sys → bounded sys → all_ordered sys.
Proof.
  intros Hf. unfold reachable. revert sys. apply (rtc_ind_r (λ sys, bounded sys → all_ordered sys)).
  - intros _. by apply system_init_ordered.
  - intros x y Hx Hstep IH Hb. destruct (step_log _ _ Hstep) as [log Hlog]. destruct (journal_grows _ _ _ Hlog Hb) as (Hb' & _).
    eapply step_ordered; [done|done|by apply (reachable_ok agents)|by apply IH].
Qed.

Lemma steps_simulated agents sys sys' :
  map_Forall (λ _, fresh) agents → reachable agents sys → rtc system_step sys sys' → bounded sys' →
  rtc bc_step (abstract sys) (abstract sys').
Proof.
  intros Hf Hr Hs. revert sys' Hs.
  apply (rtc_ind_r (λ sys', bounded sys' → rtc bc_step (abstract sys) (abstract sys'))); [done|].
  intros x y Hx Hstep IH Hb. destruct (step_log _ _ Hstep) as [log Hlog]. destruct (journal_grows _ _ _ Hlog Hb) as (Hb' & _).
  assert (reachable agents x) as Hrx by (unfold reachable in *; by etrans).
  etrans; [by apply IH|].
  destruct (step_simulated agents x y Hstep Hb (reachable_ok _ _ Hf Hrx Hb') (reachable_ordered _ _ Hf Hrx Hb')) as [->|?];
    [done|by apply rtc_once].
Qed.

Lemma init_abstract agents :
  map_Forall (λ _, fresh) agents → abstract (system_init agents) = {| bc_history := ∅; bc_delivered := (λ _, (0%nat, [])) <$> agents |}.
Proof.
  intros Hf. unfold abstract. f_equal. apply map_eq. intros n. simpl. rewrite !lookup_fmap.
  destruct (agents !! n) as [a|] eqn:Hn; [|done]. simpl. unfold handed, numbers. by destruct (Hf n a Hn) as (-> & _ & _ & _ & ->).
Qed.

(** ** Theorems *)

(** C11: the system implements the specification: every run of journal and
    agents, however requests, streams, broken connections, commands and
    restarts of agents interleave, is a run of the broadcast from the empty
    history, in which agents are only handed entries of the history, each as
    the journal holds it, and between restarts never an older one after a newer
    one. *)
Theorem system_refines_broadcast agents sys :
  map_Forall (λ _, fresh) agents → reachable agents sys → bounded sys →
  rtc bc_step {| bc_history := ∅; bc_delivered := (λ _, (0%nat, [])) <$> agents |} (abstract sys) ∧
  ∀ n a, sy_agents sys !! n = Some a → StronglySorted N.le (numbers a) ∧
    Forall (λ x, ∃ e, entries (journal sys) !! x.1 = Some e ∧ x.2 = OverlayChanged (entry_to_json e)) (sub_actions (an_sub a)).
Proof.
  intros Hf Hr Hb. assert (rtc bc_step {| bc_history := ∅; bc_delivered := (λ _, (0%nat, [])) <$> agents |} (abstract sys)) as Hsim.
  { rewrite <- init_abstract by done. eapply steps_simulated; [done|apply rtc_refl|done|done]. }
  split; [done|]. intros n a Hn. split; [|by destruct (ok_agents _ _ (reachable_ok _ _ Hf Hr Hb) _ _ Hn) as (? & _ & [])].
  refine (proj1 (bc_steps_ok _ _ Hsim _ n (an_restarts a) _ _)); [|simpl; by rewrite lookup_fmap, Hn].
  intros m i ks. simpl. rewrite lookup_fmap. intros (? & _ & [= -> ->])%fmap_Some. split; constructor.
Qed.

(** The journal has an entry under every number below one an agent has. *)
Lemma handed_below agents sys n a j k :
  system_ok agents sys → bounded sys → sy_agents sys !! n = Some a → j ∈ numbers a → (k <= j)%N → is_Some (entries (journal sys) !! k).
Proof.
  intros Hok Hb Hn Hj Hle. destruct (journal_grows sys sys [] ltac:(by rewrite app_nil_r) Hb) as (_ & [[Hdom _] _ _ _] & _).
  destruct (ok_agents _ _ Hok _ _ Hn) as (a0 & _ & Ha). pose proof (ok_actions _ _ _ Ha) as Hact. rewrite Forall_forall in Hact.
  apply list_elem_of_fmap in Hj as (x & -> & Hx). destruct (Hact _ Hx) as (e & He & _).
  assert (x.1 < next_sequence (journal sys))%N by (apply Hdom; by eexists). apply Hdom. lia.
Qed.

(** C12: what an agent is passed by it does not get until it is restarted:
    once it was handed a number and not a smaller one, then as long as it is
    not restarted, whatever else happens, it has never been handed the entry
    with the smaller number, its stream has nothing up to that number on the
    way and it reconnects from a larger one; and the journal holds the entry
    all the while. *)
Theorem missed_entry_lost agents sys1 sys2 n a b j k :
  map_Forall (λ _, fresh) agents → reachable agents sys1 → rtc system_step sys1 sys2 → bounded sys2 →
  sy_agents sys1 !! n = Some a → j ∈ numbers a → (k < j)%N → k ∉ numbers a →
  sy_agents sys2 !! n = Some b → an_restarts b = an_restarts a →
  is_Some (entries (journal sys2) !! k) ∧ (k ∉ numbers b) ∧ (k < from_sequence (an_sub b))%N ∧
  ∀ sm, an_stream b = Some sm → Forall (λ u, (k < cu_sequence u)%N) (sm_queue sm).
Proof.
  intros Hf Hr Hs Hb Hn Hj Hlt Hk Hnb Hre. pose proof (steps_simulated _ _ _ Hf Hr Hs Hb) as Hsim.
  assert (reachable agents sys2) as Hr2 by (unfold reachable in *; by etrans).
  destruct (passed_by_steps n (an_restarts a) k _ _ Hsim) as (i & ks & Hks & _ & Hlost).
  { exists (an_restarts a), (numbers a). split_and!; [simpl; by rewrite lookup_fmap, Hn|done|]. intros _. split; [done|by exists j]. }
  simpl in Hks. rewrite lookup_fmap, Hnb in Hks. injection Hks as <- <-. destruct (Hlost Hre) as (Hk' & j' & Hj' & Hlt').
  destruct (reachable_ordered _ _ Hf Hr2 Hb n b Hnb) as [Hbd Hqu].
  assert (k < sub_last_sequence (an_sub b))%N as Hlast. { rewrite Forall_forall in Hbd. specialize (Hbd _ Hj'). simpl in Hbd. lia. }
  split_and!; [|done|done|].
  - eapply handed_below; [by apply (reachable_ok agents)|done|done|exact Hj'|lia].
  - intros sm Hsm. destruct (Hqu sm Hsm) as (_ & Hr' & _). eapply Forall_impl; [exact Hr'|]. simpl. lia.
Qed.
End refinement.

(** ** Witnesses *)

(** An agent subscribes to an empty journal; two entries are appended and
    announced; the stream takes the first for a duplicate. *)
Module BroadcastSample.
Import SystemSample.
Definition subscribed0 : AgentNode :=
  with_sub (on_connected subscription_new) (Some (open_stream 0 journal_init)) (node (Header "Bearer t")).
Definition entry_no (k : N) : ConfigEntry := with_sequence ConfigSample.entry k.
Definition announced : System :=
  advance [] [entry_update 1 (entry_no 1)] (advance [] [entry_update 0 (entry_no 0)]
    (advance [(7%Z, AppendEntry ConfigSample.entry); (8%Z, AppendEntry ConfigSample.entry)] []
      (set_agent "a" subscribed0 (system_init agents)))).
Definition queued : AgentNode :=
  with_sub (an_sub subscribed0) (Some {| sm_queue := [entry_update 1 (entry_no 1)]; sm_last_sent := 1 |}) subscribed0.
Definition handed_1 : AgentNode :=
  with_sub (process_stream [Ok (entry_update 1 (entry_no 1))] (an_sub queued)) (Some {| sm_queue := []; sm_last_sent := 1 |}) queued.
Definition missed : System := set_agent "a" handed_1 (set_agent "a" queued announced).
(** The connection breaks later. *)
Definition disconnected : AgentNode := with_sub (on_disconnected (an_config handed_1) (an_sub handed_1)).1 None handed_1.
Definition broken : System := set_agent "a" disconnected missed.

Lemma missed_reachable : reachable agents missed.
Proof.
  eapply rtc_l; [apply (sys_open (system_init agents) "a" (node (Header "Bearer t"))); [vm_compute; reflexivity|done|done|done]|].
  eapply rtc_l; [apply (sys_commands _ [(7%Z, AppendEntry ConfigSample.entry); (8%Z, AppendEntry ConfigSample.entry)])|].
  eapply rtc_l; [apply (sys_announce _ 0 (entry_no 0)); vm_compute; reflexivity|].
  eapply rtc_l; [apply (sys_announce _ 1 (entry_no 1)); vm_compute; reflexivity|].
  eapply rtc_l; [apply (sys_live announced "a" subscribed0 (open_stream 0 journal_init) (entry_update 1 (entry_no 1)));
    [vm_compute; reflexivity|done|right; left]|].
  apply rtc_once. apply (sys_deliver (set_agent "a" queued announced) "a" queued
    {| sm_queue := [entry_update 1 (entry_no 1)]; sm_last_sent := 1 |} (entry_update 1 (entry_no 1)) []); [vm_compute; reflexivity|done|done].
Qed.
End BroadcastSample.
Import SystemSample BroadcastSample.

Lemma system_refines_broadcast_witness : numbers received = [0%N] ∧ StronglySorted N.le (numbers received).
Proof.
  split; [vm_compute; reflexivity|].
  refine (proj1 (proj2 (system_refines_broadcast agents s3 agents_fresh reachable_s3 _) "a" received _)); vm_compute; reflexivity.
Defined.

Lemma missed_entry_lost_witness :
  is_Some (entries (journal broken) !! 0%N) ∧ (0%N ∉ numbers disconnected) ∧ (0 < from_sequence (an_sub disconnected))%N ∧
  ∀ sm, an_stream disconnected = Some sm → Forall (λ u, (0 < cu_sequence u)%N) (sm_queue sm).
Proof.
  apply (missed_entry_lost agents missed broken "a" handed_1 disconnected 1 0 agents_fresh missed_reachable).
  - apply rtc_once. apply (sys_break missed "a" handed_1 {| sm_queue := []; sm_last_sent := 1 |}); [vm_compute; reflexivity|done].
  - vm_compute. reflexivity.
  - vm_compute. reflexivity.
  - vm_compute. left.
  - vm_compute. reflexivity.
  - vm_compute. intros Hin. inversion Hin as [|? ? ? Hnil]; subst. inversion Hnil.
  - vm_compute. reflexivity.
  - reflexivity.
Defined.
