(* ===== verification/ServiceManager.v ===== *)
(** * Service managers

    The trait [ServiceManager] of crates/pact-agent/src/supervisor/mod.rs as a
    class of operations, with the laws its users rely on, and its two
    implementations: [PactSupervisor] and [SystemdBackend]. The theorems on
    starting and stopping all services are proved against the laws and hold of
    both. *)

From S2P Require Import Prelude Text Types Supervisor Capability NodeSetup.
From stdpp Require Import options.

(** ** The interface *)

(** A manager of type [M] acts on an outside world [W]. [manager_declare] is
    what [start_all] remembers of its argument. *)
Class ServiceManager (M W : Type) := {
  manager_start : ServiceDecl → M → W → M * W * result () string;
  manager_stop : ServiceDecl → M → W → M * W * result () string;
  manager_restart : ServiceDecl → M → W → M * W * result () string;
  manager_status : ServiceDecl → M → W → M * W * ServiceStatus;
  manager_health : ServiceDecl → M → W → M * W * HealthCheckResult;
  manager_declare : list ServiceDecl → M → M;
  manager_start_all : list ServiceDecl → M → W → M * W * result () string;
  manager_stop_all : list ServiceDecl → M → W → M * W;
}.

Section each.
Context {M W : Type} `{!ServiceManager M W}.

Fixpoint start_in_turn (l : list ServiceDecl) (m : M) (w : W) : M * W * result () string :=
  match l with
  | [] => (m, w, Ok ())
  | d :: l' => match manager_start d m w with
               | (m', w', Ok _) => start_in_turn l' m' w'
               | (m', w', Err e) => (m', w', Err e)
               end
  end.
Fixpoint stop_in_turn (l : list ServiceDecl) (m : M) (w : W) : M * W :=
  match l with
  | [] => (m, w)
  | d :: l' => let '(m', w', _) := manager_stop d m w in stop_in_turn l' m' w'
  end.
End each.

(** What users rely on: all services are started by ascending order number
    up to the first failure, and stopped by descending number whatever fails;
    a report names its service; a healthy service runs. *)
Class ServiceManagerLaws (M W : Type) `{!ServiceManager M W} := {
  start_all_in_turn l m w : manager_start_all l m w = start_in_turn (sorted_services l) (manager_declare l m) w;
  stop_all_in_turn l m w : manager_stop_all l m w = stop_in_turn (reverse (sorted_services l)) m w;
  status_named d m w : st_name (manager_status d m w).2 = svc_name d;
  healthy_runs d m w : healthy (manager_health d m w).2 = true → st_state (manager_status d m w).2 = Running;
}.

(** ** What follows for every manager *)

Section laws.
Context {M W : Type} `{!ServiceManager M W} `{!ServiceManagerLaws M W}.

Lemma start_in_turn_app l1 l2 m w :
  start_in_turn (l1 ++ l2) m w =
  match start_in_turn l1 m w with (m', w', Ok _) => start_in_turn l2 m' w' | r => r end.
Proof.
  revert m w. induction l1 as [|d l1 IH]; intros m w; simpl; [done|].
  destruct (manager_start d m w) as [[m' w'] [[]|e]]; [apply IH|done].
Qed.

Lemma start_in_turn_outcome l m w :
  match start_in_turn l m w with
  | (_, _, Ok _) => True
  | (m', w', Err e) => ∃ started d rest m1 w1, l = started ++ d :: rest ∧ start_in_turn started m w = (m1, w1, Ok ()) ∧
      manager_start d m1 w1 = (m', w', Err e)
  end.
Proof.
  revert m w. induction l as [|d l IH]; intros m w; simpl; [done|].
  destruct (manager_start d m w) as [[m1 w1] [[]|e]] eqn:Hd; [|by exists [], d, l, m, w].
  specialize (IH m1 w1). destruct (start_in_turn l m1 w1) as [[m2 w2] [[]|e]]; [done|].
  destruct IH as (started & d' & rest & m3 & w3 & -> & Hs & He). exists (d :: started), d', rest, m3, w3.
  split; [done|]. split; [simpl; by rewrite Hd|done].
Qed.

(** whichever manager a node uses, starting all services succeeds, or it
    fails with the error of one of them, after every service of a smaller
    order number was started with success and before any of a larger one was
    tried. *)
Theorem start_all_stops_at_failure l m w m' w' e :
  manager_start_all l m w = (m', w', Err e) →
  ∃ started d rest m1 w1, started ++ d :: rest ≡ₚ l ∧
    start_in_turn started (manager_declare l m) w = (m1, w1, Ok ()) ∧ manager_start d m1 w1 = (m', w', Err e) ∧
    Forall (λ x, (svc_order x <= svc_order d)%N) started ∧ Forall (λ x, (svc_order d <= svc_order x)%N) rest.
Proof using Type*.
  rewrite start_all_in_turn. intros Hr. pose proof (start_in_turn_outcome (sorted_services l) (manager_declare l m) w) as Ho.
  rewrite Hr in Ho. destruct Ho as (started & d & rest & m1 & w1 & Hl & Hs & He). exists started, d, rest, m1, w1.
  pose proof (sorted_services_sorted l) as Hso. rewrite Hl in Hso. apply StronglySorted_app in Hso as (Hbefore & _ & Hafter).
  split; [rewrite <- Hl; apply sorted_services_perm|]. split; [done|]. split; [done|]. split.
  - apply Forall_forall. intros x Hx. apply (Hbefore x d); [done|left].
  - by inversion Hafter.
Qed.

(** stopping all services reaches every one of them whatever fails: a
    property that stopping a service establishes for it, and that stopping
    another one keeps, holds of all of them in the end. *)
Theorem stop_all_reaches_all (P : ServiceDecl → M → W → Prop) l m w :
  (∀ d m w, let '(m', w', _) := manager_stop d m w in P d m' w') →
  (∀ d d' m w, P d m w → let '(m', w', _) := manager_stop d' m w in P d m' w') →
  let '(m', w') := manager_stop_all l m w in Forall (λ d, P d m' w') l.
Proof using Type*.
  intros Hest Hkeep. rewrite stop_all_in_turn.
  assert (∀ l done m w, Forall (λ d, P d m w) done → let '(m', w') := stop_in_turn l m w in Forall (λ d, P d m' w') (done ++ l)) as Hgo.
  { clear l m w. induction l as [|d l IH]; intros done_ m w Hd; simpl; [by rewrite app_nil_r|].
    pose proof (Hest d m w) as Hd'. pose proof (λ x, Hkeep x d m w) as Hk. destruct (manager_stop d m w) as [[m' w'] r].
    specialize (IH (done_ ++ [d]) m' w'). destruct (stop_in_turn l m' w') as [m2 w2].
    rewrite <- app_assoc in IH. apply IH. apply Forall_app. split; [|by repeat constructor].
    eapply Forall_impl; [exact Hd|]. intros x. apply Hk. }
  specialize (Hgo (reverse (sorted_services l)) [] m w (Forall_nil_2 _)).
  destruct (stop_in_turn _ m w) as [m' w']. simpl in Hgo. rewrite Forall_forall in Hgo. apply Forall_forall. intros d Hd.
  apply Hgo. by rewrite reverse_Permutation, sorted_services_perm.
Qed.

(** The end of the main program stops the services of an empty list. *)
Definition shutdown_services (m : M) (w : W) : M * W := manager_stop_all [] m w.
Lemma shutdown_services_nothing m w : shutdown_services m w = (m, w).
Proof using Type*. unfold shutdown_services. by rewrite stop_all_in_turn. Qed.
End laws.

(** ** The implementations *)

#[export] Instance pact_manager {W} `{!ProcessApi W} : ServiceManager PactSupervisor W := {|
  manager_start := Supervisor.start; manager_stop := Supervisor.stop; manager_restart := Supervisor.restart;
  manager_status := Supervisor.status; manager_health := Supervisor.health;
  manager_declare l s := with_decls s l;
  manager_start_all := start_all; manager_stop_all := stop_all |}.

#[export] Instance pact_manager_laws {W} `{!ProcessApi W} : ServiceManagerLaws PactSupervisor W.
Proof.
  split.
  - intros l s w. simpl. unfold start_all. generalize (sorted_services l), (with_decls s l). clear.
    intros ds s. revert s w. induction ds as [|d ds IH]; intros s w; simpl; [done|].
    destruct (Supervisor.start d s w) as [[s' w'] [[]|e]]; [apply IH|done].
  - intros l s w. simpl. unfold stop_all. generalize (reverse (sorted_services l)). clear.
    intros ds. revert s w. induction ds as [|d ds IH]; intros s w; simpl; [done|].
    destruct (Supervisor.stop d s w) as [[s' w'] r]. apply IH.
  - intros d s w. simpl. unfold Supervisor.status. by repeat case_match; simplify_eq.
  - intros d s w. simpl. unfold Supervisor.health. destruct (Supervisor.status d s w) as [[s' w'] st]. simpl.
    destruct (decide (st_state st = Running)) as [Hr|Hr]; [done|]. by rewrite bool_decide_true.
Qed.

(** Running systemctl. *)
Class Systemctl (W : Type) := systemctl_exec : list string → W → W * result ToolOutput string.
Inductive SystemdBackend := systemd_backend.

Definition on_backend {W A} (r : W * A) : SystemdBackend * W * A := (systemd_backend, r.1, r.2).
#[export] Instance systemd_manager {W} `{!Systemctl W} : ServiceManager SystemdBackend W := {|
  manager_start d _ w := on_backend (Systemd.systemd_start systemctl_exec d w);
  manager_stop d _ w := on_backend (Systemd.systemd_stop systemctl_exec d w);
  manager_restart d _ w := on_backend (Systemd.systemd_restart systemctl_exec d w);
  manager_status d _ w := on_backend (Systemd.systemd_status systemctl_exec d w);
  manager_health d _ w := on_backend (Systemd.systemd_health systemctl_exec d w);
  manager_declare _ b := b;
  manager_start_all l _ w := let '(w', _, r) := Systemd.systemd_start_all systemctl_exec l w in (systemd_backend, w', r);
  manager_stop_all l _ w := (systemd_backend, Systemd.systemd_stop_all systemctl_exec l w) |}.

#[export] Instance systemd_manager_laws {W} `{!Systemctl W} : ServiceManagerLaws SystemdBackend W.
Proof.
  split.
  - intros l [] w. simpl. unfold Systemd.systemd_start_all. generalize (sorted_services l). clear.
    intros ds. revert w. induction ds as [|d ds IH]; intros w; simpl; [done|].
    destruct (Systemd.systemd_start systemctl_exec d w) as [w' [[]|e]]; simpl; [|done].
    specialize (IH w'). by destruct (Systemd.systemd_start_each systemctl_exec ds w') as [[w2 started] r].
  - intros l [] w. simpl. unfold Systemd.systemd_stop_all. generalize (reverse (sorted_services l)). clear.
    intros ds. revert w. induction ds as [|d ds IH]; intros w; simpl; [done|]. apply IH.
  - intros d b w. simpl. unfold Systemd.systemd_status. by destruct (Systemd.systemctl systemctl_exec _ w).
  - intros d b w. simpl. unfold Systemd.systemd_health. destruct (Systemd.systemd_status systemctl_exec d w) as [w' st]. simpl.
    by rewrite bool_decide_eq_true.
Qed.

(** [dyn ServiceManager]: one of two managers, chosen once. *)
Section sum.
Context {M1 M2 W : Type} `{!ServiceManager M1 W} `{!ServiceManager M2 W}.

Definition left_of {A} (r : M1 * W * A) : (M1 + M2) * W * A := (inl r.1.1, r.1.2, r.2).
Definition right_of {A} (r : M2 * W * A) : (M1 + M2) * W * A := (inr r.1.1, r.1.2, r.2).
Definition dispatch_to {A} (f : M1 → M1 * W * A) (g : M2 → M2 * W * A) (m : M1 + M2) : (M1 + M2) * W * A :=
  match m with inl a => left_of (f a) | inr b => right_of (g b) end.

#[export] Instance dyn_manager : ServiceManager (M1 + M2) W := {|
  manager_start d m w := dispatch_to (λ a, manager_start d a w) (λ b, manager_start d b w) m;
  manager_stop d m w := dispatch_to (λ a, manager_stop d a w) (λ b, manager_stop d b w) m;
  manager_restart d m w := dispatch_to (λ a, manager_restart d a w) (λ b, manager_restart d b w) m;
  manager_status d m w := dispatch_to (λ a, manager_status d a w) (λ b, manager_status d b w) m;
  manager_health d m w := dispatch_to (λ a, manager_health d a w) (λ b, manager_health d b w) m;
  manager_declare l m := match m with inl a => inl (manager_declare l a) | inr b => inr (manager_declare l b) end;
  manager_start_all l m w := dispatch_to (λ a, manager_start_all l a w) (λ b, manager_start_all l b w) m;
  manager_stop_all l m w := match m with
                            | inl a => let '(a', w') := manager_stop_all l a w in (inl a', w')
                            | inr b => let '(b', w') := manager_stop_all l b w in (inr b', w')
                            end |}.

#[export] Instance dyn_manager_laws `{!ServiceManagerLaws M1 W} `{!ServiceManagerLaws M2 W} : ServiceManagerLaws (M1 + M2) W.
Proof.
  split.
  - intros l [a|b] w; simpl; rewrite start_all_in_turn; generalize (sorted_services l); clear; intros ds.
    + generalize (manager_declare l a). intros m. revert m w. induction ds as [|d ds IH]; intros m w; simpl; [done|].
      destruct (manager_start d m w) as [[m' w'] [[]|e]]; simpl; [apply IH|done].
    + generalize (manager_declare l b). intros m. revert m w. induction ds as [|d ds IH]; intros m w; simpl; [done|].
      destruct (manager_start d m w) as [[m' w'] [[]|e]]; simpl; [apply IH|done].
  - intros l [a|b] w; simpl; rewrite stop_all_in_turn; generalize (reverse (sorted_services l)); clear; intros ds.
    + revert a w. induction ds as [|d ds IH]; intros m w; simpl; [done|].
      destruct (manager_stop d m w) as [[m' w'] r]; simpl. apply IH.
    + revert b w. induction ds as [|d ds IH]; intros m w; simpl; [done|].
      destruct (manager_stop d m w) as [[m' w'] r]; simpl. apply IH.
  - intros d [a|b] w; [apply (status_named d a w)|apply (status_named d b w)].
  - intros d [a|b] w; [apply (healthy_runs d a w)|apply (healthy_runs d b w)].
Qed.
End sum.

(** ** Witnesses *)

(** Not running, as far as the table of the supervisor tells. *)
Definition not_running (d : ServiceDecl) (s : PactSupervisor) : Prop :=
  ∀ ps, processes s !! svc_name d = Some ps → ps_state ps ≠ Running.

Lemma pact_stop_stops {W} `{!ProcessApi W} d (s : PactSupervisor) (w : W) :
  not_running d (manager_stop d s w).1.1.
Proof.
  simpl. unfold Supervisor.stop, not_running. destruct (processes s !! svc_name d) as [ps|] eqn:Hd; [|intros ps; simpl; by rewrite Hd].
  case_bool_decide as Hr; [|intros ps'; simpl; rewrite Hd; by intros [= <-]].
  destruct (match ps_child ps with Some _ => _ | None => _ end) as [w1 code]. simpl. rewrite lookup_insert_eq. by intros ps' [= <-].
Qed.
Lemma pact_stop_keeps {W} `{!ProcessApi W} d d' (s : PactSupervisor) (w : W) :
  not_running d s → not_running d (manager_stop d' s w).1.1.
Proof.
  destruct (decide (svc_name d = svc_name d')) as [He|Hne]; [intros _; unfold not_running; rewrite He; apply pact_stop_stops|].
  simpl. unfold Supervisor.stop, not_running. intros Hn. destruct (processes s !! svc_name d') as [ps|]; [|done].
  case_bool_decide; [|done]. destruct (match ps_child ps with Some _ => _ | None => _ end) as [w1 code]. simpl.
  by rewrite lookup_insert_ne.
Qed.

Import SupervisorSample.

Lemma start_all_stops_at_failure_witness :
  ∃ started_ d rest, started_ ++ d :: rest ≡ₚ [bad; log; ntp] ∧ Forall (λ x, (svc_order x <= svc_order d)%N) started_.
Proof.
  destruct (start_all_stops_at_failure (M := PactSupervisor) (W := World) [bad; log; ntp] supervisor_new w0
    (manager_start_all [bad; log; ntp] supervisor_new w0).1.1 (manager_start_all [bad; log; ntp] supervisor_new w0).1.2
    "No such file or directory") as (l & d & rest & m1 & w1 & Hp & _ & _ & Ho & _).
  - vm_compute. reflexivity.
  - exists l, d, rest. split; [exact Hp|exact Ho].
Defined.

Lemma stop_all_reaches_all_witness :
  Forall (λ d, not_running d (manager_stop_all [ntp; log] started.1 started.2).1) [ntp; log].
Proof.
  pose proof (stop_all_reaches_all (M := PactSupervisor) (W := World) (λ d s _, not_running d s) [ntp; log] started.1 started.2) as H.
  destruct (manager_stop_all [ntp; log] started.1 started.2) as [m w]. apply H.
  - intros d m' w'. pose proof (pact_stop_stops d m' w') as Hs. destruct (manager_stop d m' w') as [[a b] c]. exact Hs.
  - intros d d' m' w' Hn. pose proof (pact_stop_keeps d d' m' w' Hn) as Hs. destruct (manager_stop d' m' w') as [[a b] c]. exact Hs.
Defined.
