(* ===== verification/AgentLife.v ===== *)
(** * The life of an agent

    What runs in an agent between its start and its end, as the main program
    of crates/pact-agent/src/main.rs and the boot sequence spawn it: the task
    of configuration updates, the shell service, the auto-rollback timer and
    the supervision loop, and the shutdown. The tasks share the commit window;
    their turns come in any order. *)

From S2P Require Import Prelude Text Float64 Types JournalState JournalInvariants JournalProperties Raft.
From S2P Require Import ConfigService EnrollmentService BootStream Subscription CommitWindow Conflict Drift Supervisor CertRotation Agent.
From S2P Require Import Capability BootInit NodeSetup Whitelist Shell AgentStart JournalServer Config AgentMain System ServiceManager.
From stdpp Require Import options.

Section life.
Context {W : Type} `{!ProcessApi W} `{!Systemctl W} `{JwtApi}.
(** Feeding the watchdog. *)
Context (pet : W → W).

Record AgentLife := {
  al_enforcement : string;
  al_supervised : bool;
  al_watchdog : bool;
  al_reaper : bool;
  al_handles : AgentHandles;
  al_emergency : Emergency.EmergencyManager;
  al_shell : ShellServer;
  al_manager : PactSupervisor + SystemdBackend;
  al_world : W;
}.
Definition al_window (l : AgentLife) : Window.CommitWindowManager := ah_commit_window (al_handles l).

(** The agent [agent_main] returns. *)
Definition life_start (a : RunningAgent) (w : W) : AgentLife :=
  let b := ra_boot a in
  {| al_enforcement := bt_enforcement_mode b; al_supervised := ra_supervision a;
     al_watchdog := bool_decide (is_Some (bt_watchdog b)); al_reaper := bt_zombie_reaper b; al_handles := ra_handles a;
     al_emergency := bt_emergency b; al_shell := ra_shell a;
     al_manager := match (bt_supervisor b).2 with Some s => inl s | None => inr systemd_backend end; al_world := w |}.

Definition with_window_of (h : AgentHandles) (x : Window.CommitWindowManager) : AgentHandles :=
  {| ah_drift_evaluator := ah_drift_evaluator h; ah_commit_window := x; ah_cached_policy := ah_cached_policy h;
     ah_blacklist := ah_blacklist h |}.
Definition set_handles (h : AgentHandles) (l : AgentLife) : AgentLife :=
  {| al_enforcement := al_enforcement l; al_supervised := al_supervised l; al_watchdog := al_watchdog l; al_reaper := al_reaper l;
     al_handles := h; al_emergency := al_emergency l; al_shell := al_shell l; al_manager := al_manager l; al_world := al_world l |}.
Definition set_manager (m : PactSupervisor + SystemdBackend) (w : W) (l : AgentLife) : AgentLife :=
  {| al_enforcement := al_enforcement l; al_supervised := al_supervised l; al_watchdog := al_watchdog l; al_reaper := al_reaper l;
     al_handles := al_handles l; al_emergency := al_emergency l; al_shell := al_shell l; al_manager := m; al_world := w |}.

(** A call of the shell service, which holds the same commit window, with what
    it does to the outside world. *)
Definition on_shell (f : ShellServer → ShellServer * (W → W)) (l : AgentLife) : AgentLife :=
  let '(s', touch) := f (with_commit_window (al_shell l) (Some (al_window l))) in
  {| al_enforcement := al_enforcement l; al_supervised := al_supervised l; al_watchdog := al_watchdog l; al_reaper := al_reaper l;
     al_handles := with_window_of (al_handles l) (default (al_window l) (sh_commit_window s')); al_emergency := al_emergency l;
     al_shell := s'; al_manager := al_manager l; al_world := touch (al_world l) |}.

(** [touch] and [opened]: what the outside world makes of a command that is run
    or an entry that is sent, and of a terminal with its shell; [closed]: of
    their end. [LOutside]: whatever else happens on the node. *)
Inductive LifeEvent :=
| LUpdate (act : ConfigUpdateAction)
| LExec (now : DateTime) (run : string → list string → Child) (touch : ShellEffect → W → W) (header : option string)
    (command : string) (args : list string)
| LShell (now : DateTime) (uuid : string) (header : option string) (first : option (result ShellInput string))
    (pty : result unit SessionError) (opened : W → W)
| LShellEnd (id : string) (closed : W → W)
| LExtend (now : DateTime) (header : option string) (minutes : N)
| LTimer (now : DateTime)
| LTick
| LOutside (f : W → W).

(** The command is run, if it is, and its entry sent. *)
Definition life_exec (now : DateTime) (run : string → list string → Child) (touch : ShellEffect → W → W) (header : option string)
    (command : string) (args : list string) (s : ShellServer) : ShellServer * (W → W) :=
  let '(s', fx, _) := grpc_exec now run header command args s in (s', λ w, foldl (λ w e, touch e w) w fx).
(** A terminal is allocated, or tried to, once everything before it succeeded. *)
Definition life_shell (now : DateTime) (uuid : string) (header : option string) (first : option (result ShellInput string))
    (pty : result unit SessionError) (opened : W → W) (s : ShellServer) : ShellServer * (W → W) :=
  ((shell now uuid header first pty s).1, if is_ok (shell now uuid header first (Ok tt) s).2 then opened else id).

(** A turn of the supervision loop, which the systemd backend goes without.
    The loop is told that no workload is active. *)
Definition supervise (l : AgentLife) : AgentLife :=
  match al_manager l with
  | inl s =>
      if al_supervised l then
        let '(s', w', _) := supervision_tick supervision_config_default (if al_watchdog l then Some pet else None) false s (al_world l) in
        set_manager (inl s') w' l
      else l
  | inr _ => l
  end.

Definition life_step (e : LifeEvent) (l : AgentLife) : AgentLife :=
  match e with
  | LUpdate act => set_handles (handle_config_action act (al_handles l)) l
  | LExec now run touch header command args => on_shell (life_exec now run touch header command args) l
  | LShell now uuid header first pty opened => on_shell (life_shell now uuid header first pty opened) l
  | LShellEnd id closed => on_shell (λ s, (shell_end id s, closed)) l
  | LExtend now header minutes => set_handles (with_window_of (al_handles l) (extend_commit_window now header minutes (al_window l)).1) l
  | LTimer now => set_handles (with_window_of (al_handles l) (auto_rollback_tick (al_enforcement l) (al_emergency l) now (al_window l))) l
  | LTick => supervise l
  | LOutside f => set_manager (al_manager l) (f (al_world l)) l
  end.
Definition life_run (evs : list LifeEvent) (l : AgentLife) : AgentLife := foldl (λ l e, life_step e l) l evs.

(** The end of main, after the wait for the interrupt. The watchdog is
    disarmed when its handle is dropped, on the error path as well. *)
Inductive ShutdownEffect := StoppedServices (services : list ServiceDecl) | AbortedSupervision | AbortedReaper | DisarmedWatchdog.
Definition agent_shutdown (signal : result () string) (l : AgentLife) : AgentLife * list ShutdownEffect * result () string :=
  let disarm := if al_watchdog l then [DisarmedWatchdog] else [] in
  match signal with
  | Err e => (l, disarm, Err e)
  | Ok _ =>
      let '(m, w) := shutdown_services (al_manager l) (al_world l) in
      (set_manager m w l,
       StoppedServices [] :: (if al_supervised l then [AbortedSupervision] else []) ++ (if al_reaper l then [AbortedReaper] else []) ++ disarm,
       Ok ())
  end.

(** ** What holds throughout *)

(** A window outside of emergency mode that is not waiting in the state
    [Expired]. *)
Definition window_ok (x : Window.CommitWindowManager) : Prop := Window.win_emergency x = false ∧ Window.expired x = false.

Record life_ok (l0 l : AgentLife) : Prop := {
  lo_enforcement : al_enforcement l = al_enforcement l0;
  lo_supervised : al_supervised l = al_supervised l0;
  lo_emergency : Emergency.is_active (al_emergency l) = false;
  lo_window : window_ok (al_window l);
  lo_manager : al_manager l = al_manager l0;
  lo_idle : ∀ s, al_manager l = inl s → processes s = ∅;
}.

Lemma open_window_ok now x w : window_ok w → window_ok (Window.open now x w).
Proof. by intros [? _]. Qed.
Lemma extend_window_ok n w : window_ok w → window_ok (Window.extend n w).
Proof. intros [He Hx]. unfold Window.extend. destruct (Window.win_state w); by split. Qed.
Lemma timer_window_ok enf em now w : window_ok w → window_ok (auto_rollback_tick enf em now w).
Proof.
  intros [He Hx]. unfold auto_rollback_tick. case_decide; [done|]. destruct (Emergency.is_active em); [done|].
  unfold Window.check_expired. destruct (Window.win_state w) as [|o d|o d] eqn:Hw.
  - simpl. by rewrite Hx.
  - destruct (d <=? now)%Z; simpl; [by rewrite He|by rewrite Hx].
  - unfold Window.expired in Hx. by rewrite Hw in Hx.
Qed.
Lemma update_window_ok act h : window_ok (ah_commit_window h) → window_ok (ah_commit_window (handle_config_action act h)).
Proof. by destruct act. Qed.

(** What a call of the shell does to the window: nothing, or it opens it. *)
Lemma exec_on_window now run header command args s :
  let s' := (grpc_exec now run header command args s).1.1 in
  sh_commit_window s' = sh_commit_window s ∨ sh_commit_window s' = Window.open now F64.one <$> sh_commit_window s.
Proof.
  unfold grpc_exec. destruct (extract_auth header) as [auth|]; [|by left]. simpl.
  pose proof (exec_window now run auth command args s) as Hw. by destruct (exec now run auth command args s) as [[s' fx] r].
Qed.
Lemma shell_on_window now uuid header first pty s : sh_commit_window (shell now uuid header first pty s).1 = sh_commit_window s.
Proof. unfold shell, create_session. repeat case_match; by simplify_eq/=. Qed.

(** A turn of the loop over an empty table only feeds the watchdog. *)
Lemma idle_tick cfg p active s (w : W) :
  processes s = ∅ → ∃ out, supervision_tick cfg p active s w = (s, match p with Some f => f w | None => w end, out).
Proof.
  intros Hp. unfold supervision_tick, detect_crashed_services. rewrite Hp, map_to_list_empty. simpl. by eexists.
Qed.

Lemma on_shell_ok l0 f l :
  (∀ w, window_ok w → window_ok (default w (sh_commit_window (f (with_commit_window (al_shell l) (Some w))).1))) →
  life_ok l0 l → life_ok l0 (on_shell f l).
Proof.
  intros Hf [He Hs Hem Hw Hm Hi]. specialize (Hf _ Hw). unfold on_shell. destruct (f _) as [s' touch]. split; try done.
Qed.
Lemma set_handles_ok l0 h l : window_ok (ah_commit_window h) → life_ok l0 l → life_ok l0 (set_handles h l).
Proof. intros Hh [He Hs Hem Hw Hm Hi]. by split. Qed.

Lemma life_exec_server now run touch header command args s :
  (life_exec now run touch header command args s).1 = (grpc_exec now run header command args s).1.1.
Proof. unfold life_exec. by destruct (grpc_exec now run header command args s) as [[s' fx] r]. Qed.

(** A turn of the loop of an agent that supervises nothing. *)
Lemma idle_supervise l :
  (∀ s, al_manager l = inl s → processes s = ∅) →
  supervise l = set_manager (al_manager l) (if al_watchdog l && al_supervised l && bool_decide (is_Some (maybe inl (al_manager l)))
    then pet (al_world l) else al_world l) l.
Proof.
  intros Hi. unfold supervise. destruct (al_manager l) as [s|b] eqn:Hm; simpl; [|by rewrite andb_false_r; destruct l; simpl in *; subst].
  destruct (al_supervised l) eqn:Hs; [|rewrite andb_false_r; by destruct l; simpl in *; subst].
  destruct (idle_tick supervision_config_default (if al_watchdog l then Some pet else None) false s (al_world l) (Hi s eq_refl)) as [out ->].
  by destruct (al_watchdog l).
Qed.

Lemma life_step_ok l0 e l : life_ok l0 l → life_ok l0 (life_step e l).
Proof.
  intros Hok. pose proof (lo_window _ _ Hok) as Hw. destruct e; simpl.
  - apply set_handles_ok; [by apply update_window_ok|done].
  - apply on_shell_ok; [|done]. intros w Hw'. rewrite life_exec_server.
    destruct (exec_on_window now run header command args (with_commit_window (al_shell l) (Some w))) as [->| ->]; [done|].
    by apply open_window_ok.
  - apply on_shell_ok; [|done]. intros w Hw'. simpl. by rewrite shell_on_window.
  - by apply on_shell_ok.
  - apply set_handles_ok; [|done]. simpl. unfold extend_commit_window. destruct (extract_auth header); [|done].
    destruct (minutes =? 0)%N; [done|]. by apply extend_window_ok.
  - apply set_handles_ok; [by apply timer_window_ok|done].
  - rewrite (idle_supervise l (lo_idle _ _ Hok)). destruct Hok as [He Hs Hem _ Hm0 Hi]. by split.
  - destruct Hok as [He Hs Hem _ Hm0 Hi]. by split.
Qed.
Lemma life_run_ok l0 evs l : life_ok l0 l → life_ok l0 (life_run evs l).
Proof. revert l. induction evs as [|e evs IH]; intros l Hok; [done|]. apply IH. by apply life_step_ok. Qed.
End life.

(** ** Theorems *)

Section theorems.
Context {K : Type} `{!InitOs K} `{!Host} `{!Zstd} (delta_of_json : bytes → option StateDelta).
Context (toml_parse : string → result fields string) (read : string → result string string)
  (net : string → ConnectOutcome) (bind : string → result () string).
Context {W : Type} `{!ProcessApi W} `{!Systemctl W} `{!JwtApi} (pet : W → W).

Lemma boot_emergency config (env : BootEnv K) effects b :
  boot delta_of_json config env = (effects, Ok b) → Emergency.is_active (bt_emergency b) = false.
Proof. unfold boot. repeat case_match; intros ?; by simplify_eq/=. Qed.

Lemma life_start_ok env args effects a (w : W) :
  agent_main delta_of_json toml_parse read net bind env args = (effects, Ok a) → life_ok (life_start a w) (life_start a w).
Proof.
  intros (config & b & journal & _ & Hb & _ & _ & ->)%agent_main_Ok.
  pose proof (boot_emergency _ _ _ _ Hb) as He. apply boot_Ok in Hb as (_ & Hs & Hw & _).
  split; simpl; try done.
  - unfold al_window. simpl. by rewrite Hw.
  - rewrite Hs. simpl. intros s. destruct (ag_backend _); [by intros [= <-]|done].
Qed.

(** C32: an open commit window of a running agent is closed by its timer and
    by nothing else: whatever happened since the start, an event closes it
    exactly when it is a turn of the timer at or after the deadline, and the
    agent is not in observe mode. No update, command, session or extension
    closes a window, and none is ever committed. *)
Theorem window_closed_iff_due env args effects a (w : W) evs e opened deadline :
  agent_main delta_of_json toml_parse read net bind env args = (effects, Ok a) →
  let l := life_run pet evs (life_start a w) in
  Window.win_state (al_window l) = Window.Open opened deadline →
  Window.win_state (al_window (life_step pet e l)) = Window.Idle ↔
  ∃ now, e = LTimer now ∧ (deadline <= now)%Z ∧ bt_enforcement_mode (ra_boot a) ≠ "observe".
Proof.
  intros Ha l Hopen. pose proof (life_run_ok pet _ evs _ (life_start_ok env args effects a w Ha)) as Hok. fold l in Hok.
  assert (al_enforcement l = bt_enforcement_mode (ra_boot a)) as Henf by apply (lo_enforcement _ _ Hok).
  destruct (lo_window _ _ Hok) as [Hem Hx]. pose proof (lo_emergency _ _ Hok) as Hina.
  assert (∀ f, (∀ s, sh_commit_window (f s).1 = sh_commit_window s ∨ ∃ now, sh_commit_window (f s).1 = Window.open now F64.one <$> sh_commit_window s) →
    Window.win_state (al_window (on_shell f l)) ≠ Window.Idle) as Hshell.
  { intros f Hf. unfold on_shell. specialize (Hf (with_commit_window (al_shell l) (Some (al_window l)))).
    destruct (f _) as [s' touch]. unfold al_window at 1. simpl in *.
    destruct Hf as [->|[now ->]]; simpl; [by rewrite Hopen|done]. }
  destruct e as [act|now run touch header command cmd_args|now uuid header first pty opens|id closed|now header minutes|now| |f]; simpl.
  - unfold al_window in *. simpl. destruct act; simpl; rewrite ?Hopen; split; try done; by intros (? & ? & _).
  - split; [|by intros (? & ? & _)]. intros Hi. exfalso. apply (Hshell _) in Hi; [done|]. intros s. rewrite life_exec_server.
    destruct (exec_on_window now run header command cmd_args s) as [?|?]; eauto.
  - split; [|by intros (? & ? & _)]. intros Hi. exfalso. apply (Hshell _) in Hi; [done|]. intros s. left. apply shell_on_window.
  - split; [|by intros (? & ? & _)]. intros Hi. exfalso. apply (Hshell _) in Hi; [done|]. intros s. by left.
  - split; [|by intros (? & ? & _)]. unfold al_window at 1. simpl. unfold extend_commit_window, Window.extend.
    destruct (extract_auth header); [|simpl; by rewrite Hopen]. destruct (minutes =? 0)%N; simpl; by rewrite Hopen.
  - unfold al_window at 1. simpl. unfold auto_rollback_tick, Window.check_expired. rewrite Henf, Hina, Hopen, Hem.
    case_decide as Hobs; [rewrite Hopen; split; [done|naive_solver]|].
    destruct (Z.leb_spec deadline now) as [Hd|Hd]; simpl.
    + split; [|done]. intros _. by exists now.
    + rewrite Hx, Hopen. split; [done|]. intros (? & [= <-] & ? & _). lia.
  - split; [|by intros (? & ? & _)]. rewrite (idle_supervise pet l (lo_idle _ _ Hok)).
    unfold al_window at 1. simpl. fold (al_window l). by rewrite Hopen.
  - split; [|by intros (? & ? & _)]. unfold al_window at 1. simpl. fold (al_window l). by rewrite Hopen.
Qed.

(** C33: a running agent supervises nothing: whatever happened since its start,
    commands and sessions of its users among it, its supervisor is as it was
    made and holds no process. So a turn of the supervision loop does nothing
    to the outside world but feed the watchdog, if there is one; updates,
    extensions and the timer do nothing to it, nor does a command that is not
    run. And the shutdown is handed no service to stop: it changes neither the
    supervisor nor the outside world but for disarming the watchdog, which it
    does exactly when the agent has one. *)
Theorem agent_runs_no_service env args effects a (w : W) evs signal :
  agent_main delta_of_json toml_parse read net bind env args = (effects, Ok a) →
  let l := life_run pet evs (life_start a w) in
  let '(l', done_, _) := agent_shutdown signal l in
  al_manager l = al_manager (life_start a w) ∧ (∀ s, al_manager l = inl s → processes s = ∅) ∧
  al_world (life_step pet LTick l) =
    (if al_watchdog l && al_supervised l && bool_decide (is_Some (maybe inl (al_manager l))) then pet (al_world l) else al_world l) ∧
  (∀ act now header minutes,
     al_world (life_step pet (LUpdate act) l) = al_world l ∧ al_world (life_step pet (LTimer now) l) = al_world l ∧
     al_world (life_step pet (LExtend now header minutes) l) = al_world l) ∧
  (∀ now run touch header command cmd_args,
     (grpc_exec now run header command cmd_args (with_commit_window (al_shell l) (Some (al_window l)))).1.2 = [] →
     al_world (life_step pet (LExec now run touch header command cmd_args) l) = al_world l) ∧
  al_manager l' = al_manager l ∧ al_world l' = al_world l ∧ (∀ services, StoppedServices services ∈ done_ → services = []) ∧
  (DisarmedWatchdog ∈ done_ ↔ al_watchdog l = true).
Proof.
  intros Ha l. pose proof (life_run_ok pet _ evs _ (life_start_ok env args effects a w Ha)) as [_ _ _ _ Hm Hi]. fold l in Hm, Hi.
  destruct (agent_shutdown signal l) as [[l' done_] r] eqn:Hsh. split; [done|]. split; [done|].
  split; [simpl; by rewrite (idle_supervise pet l Hi)|]. split; [done|]. split.
  { intros now run touch header command cmd_args Hfx. simpl. unfold on_shell, life_exec.
    destruct (grpc_exec _ _ _ _ _ _) as [[s' fx] r']. simpl in *. by subst fx. }
  unfold agent_shutdown in Hsh. destruct signal as [[]|e]; [rewrite shutdown_services_nothing in Hsh|]; injection Hsh as <- <- <-;
    (split; [done|]; split; [done|]); destruct (al_watchdog l), (al_supervised l), (al_reaper l); set_solver.
Qed.
End theorems.

(** ** Witnesses *)

(** An enforcing agent whose shell has a secret. *)
Module LifeSample.
#[export] Existing Instance ShellSample.ops_jwt.
#[export] Existing Instance SupervisorSample.world_api.
#[export] Instance no_systemctl : Systemctl SupervisorSample.World := λ _ w, (w, Err "not found").
Definition toml (text : string) : result fields string :=
  Ok [("agent", TTable
     [("node_id", TStr "n1"); ("vcluster", TStr "ml"); ("enforcement_mode", TStr text);
      ("supervisor", TTable [("backend", TStr "Pact")]);
      ("journal", TTable [("endpoints", TArr [TStr "localhost:9443"]); ("tls_enabled", TBool false)]);
      ("shell", TTable
         [("auth", TTable [("issuer", TStr "https://auth"); ("audience", TStr "pact-agent"); ("hmac_secret", TStr "s")])])])].
Definition read (p : string) : result string string := Ok "enforce".
Definition args : AgentArgs := {| aa_config := "/etc/pact/agent.toml"; aa_node_id := None; aa_vcluster := None |}.
Definition started :=
  @agent_main DemoKernel _ StartSample.host BootSample.zstd (λ _, None) toml read MainSample.net MainSample.bind (λ _, StartSample.env) args.
(** A state-changing command, a turn of the loop, an extension. *)
Definition before : list (LifeEvent (W := SupervisorSample.World)) :=
  [LExec 5%Z ShellSample.run (λ _ w, w) (Some "Bearer ops") "systemctl" ["restart"; "ntp"]; LTick; LExtend 6%Z (Some "x") 1].
Definition feed (w : SupervisorSample.World) : SupervisorSample.World := w.
Definition window_after (evs : list (LifeEvent (W := SupervisorSample.World))) : option Window.WindowState :=
  match started with
  | (_, Ok a) => Some (Window.win_state (al_window (life_run feed evs (life_start a SupervisorSample.w0))))
  | _ => None
  end.
End LifeSample.
Import LifeSample.

Lemma window_closed_iff_due_witness :
  window_after before = Some (Window.Open 5 (seconds 360 + 5)) ∧
  match started with
  | (_, Ok a) => Window.win_state (al_window (life_step feed (LTimer (seconds 361)) (life_run feed before (life_start a SupervisorSample.w0)))) = Window.Idle
  | _ => False
  end.
Proof.
  assert (window_after before = Some (Window.Open 5 (seconds 360 + 5))) as Hw by (vm_compute; reflexivity).
  assert (match started with (_, Ok a) => bt_enforcement_mode (ra_boot a) ≠ "observe" | _ => False end) as Hm by (vm_compute; discriminate).
  split; [exact Hw|]. unfold window_after in Hw. destruct started as [effects [a|e]] eqn:E; [|exact Hm].
  apply (@window_closed_iff_due DemoKernel _ StartSample.host BootSample.zstd (λ _, None) toml read MainSample.net MainSample.bind
    SupervisorSample.World _ _ feed (λ _, StartSample.env) args effects a SupervisorSample.w0 before (LTimer (seconds 361))
    5%Z (seconds 360 + 5)%Z E); [injection Hw as Hw; exact Hw|].
  exists (seconds 361). split; [reflexivity|]. split; [vm_compute; discriminate|exact Hm].
Defined.

Lemma agent_runs_no_service_witness :
  match started with
  | (_, Ok a) =>
      let l := life_run feed before (life_start a SupervisorSample.w0) in
      (∀ s, al_manager l = inl s → processes s = ∅) ∧ al_world (agent_shutdown (Ok ()) l).1.1 = al_world l
  | _ => False
  end.
Proof.
  assert (match started with (_, Ok a) => True | _ => False end) as Hs by (vm_compute; exact I).
  destruct started as [effects [a|e]] eqn:E; [|exact Hs].
  pose proof (@agent_runs_no_service DemoKernel _ StartSample.host BootSample.zstd (λ _, None) toml read MainSample.net MainSample.bind
    SupervisorSample.World _ _ _ feed (λ _, StartSample.env) args effects a SupervisorSample.w0 before (Ok ()) E) as H.
  cbv zeta in H. intros l. fold l in H. destruct (agent_shutdown (Ok ()) l) as [[l' d] r].
  destruct H as (_ & Hi & _ & _ & _ & _ & Hw & _). split; [exact Hi|exact Hw].
Defined.
